(* ===== verification/_CoqProject ===== *)
-Q . S2P
Prelude.v
CString.v
Str.v
Containers.v
Buffer.v
IpAddr.v
Udp.v
Sha2.v
Sha2Stream.v
Sha2Fips.v
Sha512.v
Sha512Correct.v
Sha512Fips.v
Sha256.v
Sha256Correct.v
Sha2Unroll.v
Sha2Prog.v
Auth.v
ConfigFile.v
Config.v
ConfigText.v
Http.v
Dns.v
Mappings.v
DnsEncode.v
DnsDecode.v
DnsNames.v
DnsRoundTrip.v
DnsFacts.v
DnsFits.v
DnsTypes.v
DnsBounds.v
DnsAsserts.v
DnsPrint.v
DnsDump.v
DnsTool.v
Printing.v
Tests.v
Os.v
Socket.v
WaitLoop.v
Store.v
StoreFacts.v
Protocol.v
Messages.v
Frame.v
WaitFacts.v
Handshake.v
Evolve.v
AuthSocket.v
AuthExchange.v
Mdns.v
MdnsFacts.v
Bridge.v
TestPrograms.v
BridgeAuth.v
Relay.v
Reverse.v
Connect.v
Invariant.v
Listening.v
Retry.v
Listeners.v
Start.v
Main.v
