(* ===== verification/Prelude.v ===== *)
(** * HomeNet: a verification development

    HomeNet (src/) connects home networks: a bridge accepts connections over
    TCP, authenticates peers by a salted SHA-512 challenge, relays their bytes
    to hosts and to listeners behind NAT, and finds services by multicast DNS.
    This library models its C sources and proves what makes them correct.

    ** Conventions

    A byte is an [ascii]; an object of [char] is the list of its bytes ([mem]),
    a C string the list before the NUL ([cstr]). Fixed-width integers are [Z]
    with their wrap-around written out ([wrap32], [wrap64]). Code that can go
    wrong returns an [outcome]: [Ok] or [Fail] with a [fault] (a read or write
    out of bounds, an overflow of an array, NULL, use after free, a failed
    assert, exit, an object that was never written). Sockets and configuration
    live in a [world] with an explicit heap ([Os.v]); operations are functions
    of the monad [M] over it. System calls are the class [Os]: functions of the
    log of the calls made so far, so that the network may answer anything;
    [OsLaws] states what the manual pages promise. The clock, rand(), the
    environment, the console, files, getopt_long and the text of doubles are
    parameters of the same kind. The tools beside the program (DnsTool,
    Sha2Prog) have small states and classes of their own.

    ** Files and sources

    - Prelude, CString: faults, memory, counted loops; string.h and atoi.
    - Str, Containers, Buffer, ConfigFile: src/utils.c (strings; Map and List;
      the ring buffer of a socket; readConfigFile).
    - IpAddr, Socket, Udp, WaitLoop, WaitFacts: src/netUtils.c (addresses;
      reading, writing and opening sockets; udp_write and getLocalIpAddr;
      waitForEvent and what it reports). Printing: the printing helpers of
      utils.c and netUtils.c.
    - Sha2, Sha512, Sha256: lib/sha/sha2.c. Sha2Stream (hashing in pieces) and
      Sha2Fips (the standard) hold the theory for both sizes of words;
      Sha512Correct, Sha512Fips and Sha256Correct instantiate it. Sha2Unroll:
      the transforms built with SHA2_UNROLL_TRANSFORM. Sha2Prog:
      lib/sha/sha2prog.c.
    - Auth: generateCode, generateAuthResp, verifyAuthRespFromMap and their
      neighbours in src/homeNet.c.
    - Config, Store, StoreFacts, Mdns, MdnsFacts: src/store.c (configuration;
      listeners, waiting sockets and keys; the mDNS store). ConfigText: the
      format of configuration files as data, and what is read from its text.
    - Http: src/httpUtils.c.
    - Dns, Mappings, DnsEncode, DnsDecode: lib/dns/dns.h, mappings.c and codec.c;
      DnsNames (names on the wire), DnsRoundTrip, DnsFacts and DnsTypes (the
      decoder on any input), DnsFits (when encoding succeeds), DnsBounds
      (encoding stays in the buffer) and DnsAsserts (when no assertion fails)
      hold their theory. DnsPrint, DnsDump:
      lib/dns/output.c (packets and memory as text). DnsTool: netsimple.c and
      dotest.c, the query tool.
    - Os: sockets, the state, system calls. Protocol, Messages, Handshake,
      AuthSocket, AuthExchange: messages, authentication and the handshakes of
      src/homeNet.c.
    - Bridge: handleNew, handleRead, handleClose, houseKeeping, processEvent and
      hn_loop of src/homeNet.c; BridgeAuth, Relay, Reverse, Connect, Retry,
      Listeners: what they do.
    - Start: the five modes, hn_start of src/homeNet.c. Main: src/main.c.
    - Tests, TestPrograms: the programs under src/test, run on the models.
    - Frame, Evolve, Invariant, Listening: relations every operation preserves,
      proved along the code: what input and output leave alone, that the log
      only grows, the invariant of the event loop, and that of the table of
      listeners.

    A definition has the name of the C function it models; the loops of a
    function and the branches of the large handlers are definitions of their
    own, composed as the code composes them.

    ** What is proved

    - Authentication: verifyAuthRespFromMap accepts exactly the response of a
      key of the store; solving and verifying agree; authThrowChallenge lets
      only such a peer pass, and the run of a client and that of the bridge,
      each given what the other has sent, complete the exchange; CONNECT and
      LISTEN_NOTIFY give nothing to others. The nonce in these statements is
      the one that generateAuthChallenge makes of the clock and the seed at that
      point of the run, and the log is split into the challenge that went out,
      the answer that came in and what follows.
      The hashes are the functions of FIPS 180-4 (written independently, its
      constants from the primes), and the data may come in pieces of any size:
      sha2prog prints the digests of its whole input. Both forms of the
      transforms agree.
    - The event loop: the state stays well-formed and the policy fixed in every
      state a run reaches, and the table of listeners never dangles; both hold
      from the command line on ([main_invariant]). waitForEvent gives select() the
      right descriptors and reports new connections, readable and closed
      sockets; relays forward
      what they read; a reverse connection links the listener that comes back
      with the code to the client that waits for it ([reverse_connection]); a
      lost listener is retried.
    - Messages and codecs: what is sent is received, what is written to the
      ring buffer is read, addresses and names survive printing and parsing;
      dns_decode inverts dns_encode, ends on every input and yields typed data,
      which dns_encode writes without leaving its buffer (an assertion fails
      only for what [encodable] and [size_bound] name) and dns_print_result
      prints without a fault; a dump of memory can be read back. The mDNS
      theorems put the codec and the handlers together: a query is answered, an
      answer is recorded; [dotest_prints_reply] does so for the query tool, from
      the command line to the printed reply.
    - The tests of the repository give on the models the results their authors
      expect, and fail where their comments say so.
    - Containers, strings, HTTP and configuration refine maps and list
      functions. The formats of a request and of a configuration file are given
      as data with a rendering function; where the code reads something else of
      a text than its format means, the statement or an Example says what.
    - Errors: packets and orders of events on which the program goes wrong.

    ** Bounds

    Recursion that is not structural takes a bound: loops over strings and
    tokens one more than the length; read_labels the free room of the pool plus
    258 (a label takes room, at most 255 pointers are followed), which
    [dns_decode_terminates] shows to be enough; receive_loop the size of the
    buffer; hash_loop and udp_write_loop the number of bytes. Loops that wait
    for the network take the class [Fuel], and hn_loop a number of rounds:
    theorems about them hold for every bound, or say which bound is enough.
    handleNew calls itself once, after a websocket upgrade.

    ** Not modelled

    Messages the program prints about itself, except where a fault is possible;
    sha2speed, whose output is made of times; the snippets of other projects
    under .ref, which are not built; the big-endian branches of sha2.c;
    sock_copy, which nothing calls: two sockets would share the bytes of one
    write buffer, which the model keeps in the socket; the first argument of
    select(); failing malloc and the reuse of freed addresses; the text of
    doubles (class [FloatText]); the record types of dns_answer_t that codec.c
    copies as raw bytes. IPv6 addresses, which the program writes past a struct
    sockaddr, are faults. asserts are taken to be enabled. *)
From Stdlib Require Export Ascii.
From stdpp Require Export base tactics option list gmap strings.
From Stdlib Require Export ZArith Lia.

#[global] Open Scope Z_scope.
#[global] Open Scope list_scope.

(** ** Characters and C strings *)

(** A byte of memory is an [ascii]; a C string is the list of the bytes
    before its terminating NUL. *)
Abbreviation char := Ascii.ascii.
Abbreviation cstr := (list Ascii.ascii).
Abbreviation mem := (list Ascii.ascii).

Declare Scope homenet_scope.
Delimit Scope homenet_scope with hn.

Definition lit (s : string) : cstr := String.list_ascii_of_string s.
Notation "$ s" := (lit s%string)
  (at level 1, s at level 0, format "$ s") : homenet_scope.
#[global] Open Scope homenet_scope.

Definition nul : char := Ascii.zero.
Definition code (c : char) : Z := Z.of_N (Ascii.N_of_ascii c).
Definition chr (z : Z) : char := Ascii.ascii_of_N (Z.to_N z).
Definition CR : char := chr 13.
Definition LF : char := chr 10.

(** The strings of the model hold no NUL byte. *)
Definition no_nul (s : cstr) : Prop := Forall (fun c => c <> nul) s.

Definition zlen {A} (l : list A) : Z := Z.of_nat (length l).

(** ** Outcomes: what the C standard gives no meaning to *)

Inductive fault : Set :=
| NullDeref        (* a null pointer is dereferenced *)
| BufOverflow      (* a write past the end of an object *)
| OutOfBounds      (* an access outside the bounds of an object *)
| UseAfterFree     (* an object is used after free() *)
| NoFuel           (* the iteration bound of the model is exhausted *)
| ExitCalled       (* exit(1) was called *)
| AssertFailed     (* an assert() does not hold: the process aborts *)
| WrongMember      (* a union is read through a member it does not hold *)
| BadConversion    (* a floating-point value has no integer conversion *)
| Indeterminate.   (* an object is read that was never written *)

Inductive outcome (A : Type) : Type :=
| Ok (a : A)
| Fail (f : fault).
Arguments Ok {A} a.
Arguments Fail {A} f.

#[global] Instance fault_eq_dec : EqDecision fault.
Proof. solve_decision. Defined.
#[global] Instance outcome_eq_dec `{EqDecision A} : EqDecision (outcome A).
Proof. solve_decision. Defined.

#[global] Instance outcome_ret : MRet outcome := fun A a => Ok a.
#[global] Instance outcome_bind : MBind outcome := fun A B f m =>
  match m with Ok a => f a | Fail e => Fail e end.
#[global] Instance outcome_fmap : FMap outcome := fun A B f m =>
  match m with Ok a => Ok (f a) | Fail e => Fail e end.

(** A pointer that the code dereferences without a test. *)
Definition deref {A} (p : option A) : outcome A :=
  match p with Some a => Ok a | None => Fail NullDeref end.

(** ** Memory accesses *)

(** Byte accesses in an object of known extent, at a C [int] offset. *)
Definition rd (m : mem) (i : Z) : outcome char :=
  if decide (0 <= i)
  then match m !! Z.to_nat i with Some c => Ok c | None => Fail OutOfBounds end
  else Fail OutOfBounds.

Definition wr (m : mem) (i : Z) (c : char) : outcome mem :=
  if decide (0 <= i < zlen m) then Ok (<[Z.to_nat i := c]> m)
  else Fail BufOverflow.

(** The object that holds a string and its terminator, nothing more. *)
Definition cmem (s : cstr) : mem := s ++ [nul].

(** ** Prefixes selected by a predicate *)

Fixpoint take_while {A} (p : A -> bool) (l : list A) : list A :=
  match l with
  | [] => []
  | x :: r => if p x then x :: take_while p r else []
  end.

Fixpoint drop_while {A} (p : A -> bool) (l : list A) : list A :=
  match l with
  | [] => []
  | x :: r => if p x then drop_while p r else l
  end.

Definition is_nul (c : char) : bool := bool_decide (c = nul).
Definition mem_of (set : cstr) (c : char) : bool := bool_decide (c ∈ set).

(** The C string stored at the start of an object; [None] when the object
    holds no terminator. *)
Definition cview (m : mem) : option cstr :=
  if bool_decide (nul ∈ m) then Some (take_while (fun c => negb (is_nul c)) m)
  else None.

(** Run a routine that edits a string in place on an object holding [s]. *)
Definition via (f : mem -> outcome mem) (s : cstr) : outcome cstr :=
  m ← f (cmem s);
  match cview m with Some r => Ok r | None => Fail OutOfBounds end.

(** strcpy into an object of [cap] bytes. *)
Definition strcpy (cap : Z) (s : cstr) : outcome cstr :=
  if decide (zlen s < cap) then Ok s else Fail BufOverflow.

(** ** Counted loops with an early return *)

(** [for (i = start; k more times; i++) body], where the body may return. *)
Fixpoint for_ret {R} (k : nat) (i : Z) (body : Z -> outcome (option R))
  : outcome (option R) :=
  match k with
  | O => Ok None
  | S k' =>
      r ← body i;
      match r with
      | Some x => Ok (Some x)
      | None => for_ret k' (i + 1) body
      end
  end.

(** [for (i = start; k more times; i++) a = body(i, a)]. *)
Fixpoint for_fold {A} (k : nat) (i : Z) (body : Z -> A -> outcome A) (a : A)
  : outcome A :=
  match k with
  | O => Ok a
  | S k' => a' ← body i a; for_fold k' (i + 1) body a'
  end.

(** ** Tactics *)

(** Split the binds of a computation known to succeed. *)
Ltac inv_bind :=
  repeat match goal with
  | H : (match ?m with Ok _ => _ | Fail _ => Fail _ end) = Ok _ |- _ =>
      let E := fresh "E" in destruct m eqn:E; [|discriminate H]
  | H : mbind _ ?m = Ok _ |- _ =>
      let E := fresh "E" in
      unfold mbind, outcome_bind in H;
      destruct m eqn:E; [|discriminate H]
  | H : Ok _ = Ok _ |- _ => injection H as H; subst
  | H : mret _ = Ok _ |- _ => injection H as H; subst
  | H : Fail _ = Ok _ |- _ => discriminate H
  end.

Ltac bool_cases :=
  repeat match goal with
  | |- context [bool_decide ?P] => destruct (bool_decide_reflect P)
  | H : context [bool_decide ?P] |- _ => destruct (bool_decide_reflect P)
  end.

(** Split a long chain of binds, naming the intermediate results afresh. *)
Ltac inv_binds :=
  repeat match goal with
  | H : mbind _ ?m = Ok _ |- _ =>
      let x := fresh "x" in let E := fresh "E" in
      destruct m as [x|] eqn:E; [|discriminate H];
      cbv beta iota delta [mbind outcome_bind] in H
  | H : (match ?m with Ok _ => _ | Fail _ => _ end) = Ok _ |- _ =>
      let x := fresh "x" in let E := fresh "E" in
      destruct m as [x|] eqn:E; [|discriminate H]
  | H : (match ?x with (_, _) => _ end) = Ok _ |- _ => destruct x
  | H : Ok _ = Ok _ |- _ => injection H as H; subst
  | H : Fail _ = Ok _ |- _ => discriminate H
  | H : @eq (_ * _) (_, _) (_, _) |- _ => injection H as H; subst
  end.

(** Strings given by their parts hold no NUL when their parts do. *)
Ltac no_nul :=
  repeat first
    [ assumption | discriminate | apply Forall_nil_2
    | apply Forall_cons_2 | apply Forall_app_2 ].

(** ** Lemmas: outcomes *)

Lemma bind_ok {A B} (f : A -> outcome B) (m : outcome A) b :
  m ≫= f = Ok b <-> exists a, m = Ok a /\ f a = Ok b.
Proof.
  destruct m as [a|e]; cbn; split.
  - intros H. by exists a.
  - by intros (a' & [= <-] & H).
  - done.
  - by intros (a' & ? & _).
Qed.

Lemma ok_bind {A B} (f : A -> outcome B) a : Ok a ≫= f = f a.
Proof. done. Qed.

Lemma deref_ok {A} (p : option A) a : deref p = Ok a <-> p = Some a.
Proof. destruct p; cbn; split; congruence. Qed.

(** ** Lemmas: memory accesses *)

Lemma zlen_app {A} (l k : list A) : zlen (l ++ k) = zlen l + zlen k.
Proof. unfold zlen. rewrite length_app. lia. Qed.

Lemma zlen_cons {A} (x : A) l : zlen (x :: l) = 1 + zlen l.
Proof. unfold zlen. simpl length. lia. Qed.

Lemma zlen_nonneg {A} (l : list A) : 0 <= zlen l.
Proof. unfold zlen. lia. Qed.

Lemma zlen_nil_inv {A} (l : list A) : zlen l <= 0 -> l = [].
Proof. destruct l; [done|]. rewrite zlen_cons. pose proof (zlen_nonneg l). lia. Qed.

Lemma rd_lookup m (i : nat) :
  rd m (Z.of_nat i) = match m !! i with Some c => Ok c | None => Fail OutOfBounds end.
Proof. unfold rd. rewrite decide_True by lia. by rewrite Nat2Z.id. Qed.

Lemma rd_ok m i c : rd m i = Ok c <-> 0 <= i /\ m !! Z.to_nat i = Some c.
Proof.
  unfold rd. case_decide; [|split; [done|lia]].
  destruct (m !! Z.to_nat i) eqn:E; split; intros; intuition congruence.
Qed.

Lemma rd_in_bounds m i : 0 <= i < zlen m -> exists c, rd m i = Ok c.
Proof.
  intros H. destruct (lookup_lt_is_Some_2 m (Z.to_nat i)) as [c Hc].
  - unfold zlen in H. lia.
  - exists c. apply rd_ok. split; [lia|done].
Qed.

(** Reading at the seam of an append. *)
Lemma rd_app_mid l c r : rd (l ++ c :: r) (zlen l) = Ok c.
Proof.
  apply rd_ok. split; [apply zlen_nonneg|].
  unfold zlen. rewrite Nat2Z.id. by apply list_lookup_middle.
Qed.

Lemma wr_app_mid l c r c' : wr (l ++ c :: r) (zlen l) c' = Ok (l ++ c' :: r).
Proof.
  unfold wr. rewrite decide_True.
  - unfold zlen. rewrite Nat2Z.id.
    replace (length l) with (length l + 0)%nat by lia.
    by rewrite insert_app_r.
  - rewrite zlen_app, zlen_cons. pose proof (zlen_nonneg l). pose proof (zlen_nonneg r). lia.
Qed.

Lemma wr_ok m i c : 0 <= i < zlen m -> wr m i c = Ok (<[Z.to_nat i := c]> m).
Proof. intros H. unfold wr. by rewrite decide_True. Qed.

Lemma wr_length m i c m' : wr m i c = Ok m' -> length m' = length m.
Proof. unfold wr. case_decide; [|done]. intros [= <-]. apply length_insert. Qed.

(** ** Lemmas: strings *)

Lemma no_nul_app s t : no_nul (s ++ t) <-> no_nul s /\ no_nul t.
Proof. apply Forall_app. Qed.

Lemma no_nul_cons c s : no_nul (c :: s) <-> c <> nul /\ no_nul s.
Proof. unfold no_nul. by rewrite list.Forall_cons. Qed.

Lemma no_nul_nil : no_nul [].
Proof. constructor. Qed.

Lemma no_nul_not_elem s : no_nul s <-> nul ∉ s.
Proof.
  unfold no_nul. rewrite Forall_forall. split.
  - intros H Hin. by apply (H nul).
  - intros H x Hx ->. done.
Qed.

Lemma is_nul_false c : c <> nul -> is_nul c = false.
Proof. apply bool_decide_eq_false_2. Qed.

Lemma cview_app s r : no_nul s -> cview (s ++ nul :: r) = Some s.
Proof.
  intros Hs. unfold cview.
  rewrite bool_decide_true by (apply elem_of_app; right; apply list_elem_of_here).
  f_equal. induction Hs as [|c s Hc Hs IH]; [done|].
  cbn [take_while app]. by rewrite is_nul_false, IH by done.
Qed.

Lemma cview_cmem s : no_nul s -> cview (cmem s) = Some s.
Proof. apply cview_app. Qed.

Lemma take_drop_while {A} (p : A -> bool) l : take_while p l ++ drop_while p l = l.
Proof. induction l as [|x l IH]; [done|]. cbn. destruct (p x); cbn; by rewrite ?IH. Qed.

Lemma take_while_all {A} (p : A -> bool) l : Forall (fun x => p x = true) (take_while p l).
Proof.
  induction l as [|x l IH]; [constructor|]. cbn.
  destruct (p x) eqn:E; by constructor.
Qed.

Lemma drop_while_head {A} (p : A -> bool) l x r :
  drop_while p l = x :: r -> p x = false.
Proof.
  induction l as [|y l IH]; [done|]. cbn. destruct (p y) eqn:E; [done|].
  by intros [= -> ->].
Qed.

Lemma length_drop_while {A} (p : A -> bool) (l : list A) :
  (length (drop_while p l) <= length l)%nat.
Proof. induction l as [|x l IH]; [done|]. cbn. destruct (p x); cbn; lia. Qed.

Lemma length_take_while {A} (p : A -> bool) (l : list A) :
  (length (take_while p l) <= length l)%nat.
Proof. induction l as [|x l IH]; [done|]. cbn. destruct (p x); cbn; lia. Qed.

Lemma take_while_id {A} (p : A -> bool) l :
  Forall (fun x => p x = true) l -> take_while p l = l.
Proof. induction 1 as [|x l Hx Hl IH]; [done|]. cbn. by rewrite Hx, IH. Qed.

Lemma take_while_app_stop {A} (p : A -> bool) l x r :
  Forall (fun x => p x = true) l -> p x = false -> take_while p (l ++ x :: r) = l.
Proof.
  intros Hl Hx. induction Hl as [|y l Hy Hl IH]; cbn; [by rewrite Hx|].
  by rewrite Hy, IH.
Qed.

Lemma drop_while_app_stop {A} (p : A -> bool) l x r :
  Forall (fun x => p x = true) l -> p x = false -> drop_while p (l ++ x :: r) = x :: r.
Proof.
  intros Hl Hx. induction Hl as [|y l Hy Hl IH]; cbn; [by rewrite Hx|].
  by rewrite Hy, IH.
Qed.

Lemma drop_while_nil {A} (p : A -> bool) l :
  Forall (fun x => p x = true) l -> drop_while p l = [].
Proof. induction 1 as [|x l Hx Hl IH]; [done|]. cbn. by rewrite Hx, IH. Qed.

Lemma drop_while_none {A} (p : A -> bool) x l :
  p x = false -> drop_while p (x :: l) = x :: l.
Proof. intros H. cbn. by rewrite H. Qed.

Lemma strcpy_ok cap s r : strcpy cap s = Ok r <-> r = s /\ zlen s < cap.
Proof. unfold strcpy. case_decide; split; intros; intuition congruence. Qed.

(** ** Lemmas: counted loops *)

(** A loop whose body never returns and never faults. *)
Lemma for_ret_none {R} k i (body : Z -> outcome (option R)) :
  (forall j, i <= j < i + Z.of_nat k -> body j = Ok None) -> for_ret k i body = Ok None.
Proof.
  revert i. induction k as [|k IH]; intros i H; [done|]. cbn.
  rewrite H by lia. cbn. apply IH. intros j Hj. apply H. lia.
Qed.

(** A loop that returns at its first interesting index. *)
Lemma for_ret_first {R} k i (body : Z -> outcome (option R)) j x :
  i <= j < i + Z.of_nat k ->
  (forall j', i <= j' < j -> body j' = Ok None) ->
  body j = Ok (Some x) -> for_ret k i body = Ok (Some x).
Proof.
  revert i. induction k as [|k IH]; intros i Hj Hn Hx; [lia|]. cbn.
  destruct (decide (i = j)) as [->|Hne]; [by rewrite Hx|].
  rewrite Hn by lia. cbn. apply IH; [lia| |done]. intros j' ?. apply Hn. lia.
Qed.

(** ** Automation *)

Create HintDb homenet.
Create Rewrite HintDb homenet.
#[export] Hint Resolve zlen_nonneg no_nul_nil : homenet.
#[export] Hint Rewrite @zlen_app @zlen_cons no_nul_app no_nul_cons : homenet.
