(* ===== verification/CString.v ===== *)
(** * The C library functions the program calls on strings

    [strtok_r], [strchr], [strcmp], [atoi], [printf("%d")] and the character
    classes of the "C" locale, as functions on strings. They are the standard
    library the sources rely on, not code of the repository. *)
From S2P Require Import Prelude.

(** ** Character classes *)

Definition isspace (c : char) : bool :=
  bool_decide (code c = 32 \/ 9 <= code c <= 13).
Definition isdigit (c : char) : bool := bool_decide (48 <= code c <= 57).
Definition tolower (c : char) : char :=
  if bool_decide (65 <= code c <= 90) then chr (code c + 32) else c.
Definition toupper (c : char) : char :=
  if bool_decide (97 <= code c <= 122) then chr (code c - 32) else c.

(** ** Searching and comparing *)

Definition strcmp_eq (a b : cstr) : bool := bool_decide (a = b).

(** Index of the first occurrence, [None] for the null pointer. *)
Fixpoint strchr (s : cstr) (c : char) : option nat :=
  match s with
  | [] => None
  | x :: r => if bool_decide (x = c) then Some O else S <$> strchr r c
  end.

Fixpoint prefixb (p s : cstr) : bool :=
  match p, s with
  | [], _ => true
  | x :: p', y :: s' => bool_decide (x = y) && prefixb p' s'
  | _ :: _, [] => false
  end.

(** ** strtok_r *)

(** The token and what the save pointer designates after the call. The token
    is cut out of the argument in place: the delimiter after it becomes NUL. *)
Definition strtok_r (delim s : cstr) : option (cstr * cstr) :=
  match drop_while (mem_of delim) s with
  | [] => None
  | s1 =>
      let tok := take_while (fun c => negb (mem_of delim c)) s1 in
      let rest := drop_while (fun c => negb (mem_of delim c)) s1 in
      Some (tok, List.tl rest)
  end.

(** The next token of a string, and the string the argument's own address
    designates once the token has been cut. *)
Definition tok1 (delim s : cstr) : option cstr := fst <$> strtok_r delim s.
Definition tok_rest (delim s : cstr) : cstr :=
  match strtok_r delim s with Some (_, r) => r | None => [] end.
Definition tok_cut (delim s : cstr) : cstr :=
  take_while (mem_of delim) s ++
  match strtok_r delim s with Some (t, _) => t | None => [] end.

(** All the tokens, as a loop of calls gives them. *)
Fixpoint tokens_fuel (n : nat) (delim s : cstr) : list cstr :=
  match n with
  | O => []
  | S n' =>
      match strtok_r delim s with
      | None => []
      | Some (t, r) => t :: tokens_fuel n' delim r
      end
  end.
Definition tokens (delim s : cstr) : list cstr := tokens_fuel (S (length s)) delim s.

(** ** Integers *)

(** Conversion to a 32-bit [int], and the saturation of [strtol]. *)
Definition wrap32 (z : Z) : Z := (z + 2 ^ 31) mod 2 ^ 32 - 2 ^ 31.
Definition clamp64 (z : Z) : Z := Z.max (- 2 ^ 63) (Z.min (2 ^ 63 - 1) z).

Definition digit_val (c : char) : Z := code c - 48.

Definition dec_value (s : cstr) : Z :=
  fold_left (fun v c => 10 * v + digit_val c) s 0.

(** atoi is (int) strtol(s, NULL, 10). *)
Definition atoi (s : cstr) : Z :=
  let s1 := drop_while isspace s in
  let '(neg, s2) :=
    match s1 with
    | c :: r => if bool_decide (c = "-"%char) then (true, r)
                else if bool_decide (c = "+"%char) then (false, r) else (false, s1)
    | [] => (false, s1)
    end in
  let v := dec_value (take_while isdigit s2) in
  wrap32 (clamp64 (if neg : bool then - v else v)).

(** The digits of a natural number, most significant first. *)
Fixpoint dec_digits (fuel : nat) (n : Z) (acc : cstr) : cstr :=
  match fuel with
  | O => acc
  | S f =>
      let acc' := chr (48 + n mod 10) :: acc in
      if bool_decide (n < 10) then acc' else dec_digits f (n / 10) acc'
  end.
Definition dec_nat (n : Z) : cstr := dec_digits (S (Z.to_nat (Z.log2 n))) n [].
(** printf("%d"). *)
Definition printf_d (z : Z) : cstr :=
  if bool_decide (z < 0) then "-"%char :: dec_nat (- z) else dec_nat z.

(** ** Lemmas: characters *)

Lemma code_chr z : 0 <= z < 256 -> code (chr z) = z.
Proof.
  intros H. unfold code, chr. rewrite Ascii.N_ascii_embedding by lia. lia.
Qed.

Lemma code_bound c : 0 <= code c < 256.
Proof. unfold code. pose proof (Ascii.N_ascii_bounded c). lia. Qed.

Lemma chr_code c : chr (code c) = c.
Proof. unfold chr, code. rewrite N2Z.id. apply Ascii.ascii_N_embedding. Qed.

Lemma code_inj c d : code c = code d -> c = d.
Proof. intros H. by rewrite <- (chr_code c), H, chr_code. Qed.

Lemma code_nul c : c = nul <-> code c = 0.
Proof. split; [by intros -> | intros H; by apply code_inj]. Qed.

Lemma mem_of_true set c : mem_of set c = true <-> c ∈ set.
Proof. apply bool_decide_eq_true. Qed.

Lemma mem_of_false set c : mem_of set c = false <-> c ∉ set.
Proof. apply bool_decide_eq_false. Qed.

(** A string free of a set of characters is free of a smaller one. *)
Lemma free_sub set set' (s : cstr) :
  forallb (mem_of set) set' = true ->
  Forall (fun c => c ∉ set) s -> Forall (fun c => c ∉ set') s.
Proof.
  intros Hsub Hs. eapply Forall_impl; [exact Hs|]. cbn. intros c Hc Hin. apply Hc.
  apply mem_of_true. rewrite forallb_forall in Hsub. by apply Hsub, list_elem_of_In.
Qed.

Lemma free_dec (set s : cstr) :
  forallb (fun c => negb (mem_of set c)) s = true -> Forall (fun c => c ∉ set) s.
Proof.
  rewrite forallb_forall, Forall_forall. intros H c Hc%list_elem_of_In.
  apply mem_of_false, negb_true_iff. by apply H.
Qed.

(** ** Lemmas: prefixes *)

Lemma prefixb_spec p s : prefixb p s = true <-> exists r, s = p ++ r.
Proof.
  revert s. induction p as [|x p IH]; intros s; cbn.
  { split; [intros _; by exists s|done]. }
  destruct s as [|y s]; [split; [done|by intros (r & ?)]|].
  rewrite andb_true_iff, bool_decide_eq_true, IH. split.
  - intros [-> (r & ->)]. by exists r.
  - intros (r & [= -> ->]). split; [done|by exists r].
Qed.

Lemma prefixb_app p s : prefixb p (p ++ s) = true.
Proof. apply prefixb_spec. by exists s. Qed.

Lemma prefixb_refl p : prefixb p p = true.
Proof. apply prefixb_spec. exists []. by rewrite app_nil_r. Qed.

(** ** Lemmas: strtok_r *)

Lemma strtok_r_none delim s :
  strtok_r delim s = None <-> Forall (fun c => c ∈ delim) s.
Proof.
  unfold strtok_r. destruct (drop_while (mem_of delim) s) as [|x r] eqn:E.
  - split; [intros _|done]. rewrite <- (take_drop_while (mem_of delim) s), E, app_nil_r.
    eapply Forall_impl; [apply take_while_all|]. intros c. apply mem_of_true.
  - split; [done|]. intros H.
    rewrite drop_while_nil in E; [done|].
    eapply Forall_impl; [exact H|]. intros c. apply mem_of_true.
Qed.

(** A token is a non-empty string without delimiters, preceded by delimiters
    only and followed by one of them or by the end of the string. *)
Lemma strtok_r_some delim s t r :
  strtok_r delim s = Some (t, r) ->
  exists pre post,
    s = pre ++ t ++ post /\ Forall (fun c => c ∈ delim) pre /\
    t <> [] /\ Forall (fun c => c ∉ delim) t /\
    (post = [] /\ r = [] \/ exists d, d ∈ delim /\ post = d :: r).
Proof.
  unfold strtok_r. destruct (drop_while (mem_of delim) s) as [|x k] eqn:E; [done|].
  pose proof (drop_while_head _ _ _ _ E) as Hx.
  remember (x :: k) as s1 eqn:Es1. intros H.
  assert (t = take_while (fun c => negb (mem_of delim c)) s1 /\
          r = List.tl (drop_while (fun c => negb (mem_of delim c)) s1)) as [-> ->]
    by (split; congruence).
  exists (take_while (mem_of delim) s),
         (drop_while (fun c => negb (mem_of delim c)) s1).
  split_and!.
  - by rewrite take_drop_while, <- E, take_drop_while.
  - eapply Forall_impl; [apply take_while_all|]. intros c. apply mem_of_true.
  - rewrite Es1. cbn. by rewrite Hx.
  - eapply Forall_impl; [apply take_while_all|]. cbn. intros c Hc.
    apply negb_true_iff in Hc. by apply mem_of_false.
  - destruct (drop_while (fun c => negb (mem_of delim c)) s1) as [|d k'] eqn:E'.
    + by left.
    + right. exists d. split; [|done].
      apply drop_while_head, negb_false_iff in E'. by apply mem_of_true.
Qed.

(** The forward direction: how a string with a token is cut. *)
Lemma strtok_r_app delim t d r :
  t <> [] -> Forall (fun c => c ∉ delim) t -> d ∈ delim ->
  strtok_r delim (t ++ d :: r) = Some (t, r).
Proof.
  intros Hne Ht Hd. destruct t as [|x t]; [done|].
  pose proof Ht as Ht'. apply list.Forall_cons in Ht as [Hx Ht].
  unfold strtok_r. cbn [app]. rewrite drop_while_none by by apply mem_of_false.
  change (x :: t ++ d :: r) with ((x :: t) ++ d :: r).
  assert (Hall : Forall (fun c => negb (mem_of delim c) = true) (x :: t)).
  { eapply Forall_impl; [exact Ht'|]. intros c Hc. cbn.
    by rewrite (proj2 (mem_of_false _ _)). }
  assert (Hstop : negb (mem_of delim d) = false).
  { by rewrite (proj2 (mem_of_true _ _)). }
  by rewrite take_while_app_stop, drop_while_app_stop.
Qed.

Lemma strtok_r_whole delim t :
  t <> [] -> Forall (fun c => c ∉ delim) t -> strtok_r delim t = Some (t, []).
Proof.
  intros Hne Ht. destruct t as [|x t]; [done|].
  assert (Hall : Forall (fun c => negb (mem_of delim c) = true) (x :: t)).
  { eapply Forall_impl; [exact Ht|]. intros c Hc. cbn.
    by rewrite (proj2 (mem_of_false _ _)). }
  apply list.Forall_cons in Ht as [Hx _].
  unfold strtok_r. rewrite drop_while_none by by apply mem_of_false.
  by rewrite take_while_id, drop_while_nil.
Qed.

Lemma strtok_r_skip delim d s : d ∈ delim -> strtok_r delim (d :: s) = strtok_r delim s.
Proof.
  intros Hd. unfold strtok_r. cbn [drop_while].
  by rewrite (proj2 (mem_of_true _ _) Hd).
Qed.

Lemma strtok_r_shrinks delim s t r :
  strtok_r delim s = Some (t, r) -> (length r < length s)%nat.
Proof.
  intros H. apply strtok_r_some in H as (pre & post & -> & _ & Ht & _ & Hp).
  rewrite !length_app. destruct t; [done|]. cbn.
  destruct Hp as [[-> ->]|(d & _ & ->)]; cbn; lia.
Qed.

(** Any larger bound gives the same tokens: the loop of calls ends. *)
Lemma tokens_fuel_enough n delim s :
  (length s < n)%nat -> tokens_fuel n delim s = tokens delim s.
Proof.
  unfold tokens. enough (H : forall n m s, (length s < n)%nat -> (length s < m)%nat ->
    tokens_fuel n delim s = tokens_fuel m delim s) by (intros; apply H; lia).
  clear. induction n as [|n IH]; intros [|m] s Hn Hm; [lia..|]. cbn.
  destruct (strtok_r delim s) as [[t r]|] eqn:E; [|done].
  apply strtok_r_shrinks in E. f_equal. apply IH; lia.
Qed.

(** ** Lemmas: decimal numbers *)

Lemma isdigit_chr d : 0 <= d < 10 -> isdigit (chr (48 + d)) = true.
Proof. intros H. apply bool_decide_eq_true. rewrite code_chr; lia. Qed.

Lemma digit_val_chr d : 0 <= d < 10 -> digit_val (chr (48 + d)) = d.
Proof. intros H. unfold digit_val. rewrite code_chr; lia. Qed.

Lemma dec_value_app s t :
  dec_value (s ++ t) = dec_value s * 10 ^ zlen t + dec_value t.
Proof.
  unfold dec_value. rewrite fold_left_app. generalize (fold_left (fun v c => 10 * v + digit_val c) s 0).
  intros v. revert v. enough (H : forall t v, fold_left (fun v c => 10 * v + digit_val c) t v
    = v * 10 ^ zlen t + fold_left (fun v c => 10 * v + digit_val c) t 0) by apply H.
  clear. induction t as [|c t IH]; intros v.
  - cbn. unfold zlen; cbn. lia.
  - cbn [fold_left]. rewrite IH, (IH (10 * 0 + _)), zlen_cons, Z.pow_add_r by (try lia; apply zlen_nonneg).
    change (10 ^ 1) with 10. lia.
Qed.

Lemma dec_digits_digits f n acc :
  0 <= n -> Forall (fun c => isdigit c = true) acc ->
  Forall (fun c => isdigit c = true) (dec_digits f n acc).
Proof.
  revert n acc. induction f as [|f IH]; intros n acc Hn Ha; [done|]. cbn.
  assert (Forall (fun c => isdigit c = true) (chr (48 + n mod 10) :: acc)).
  { constructor; [|done]. apply isdigit_chr. apply Z.mod_pos_bound. lia. }
  case_bool_decide; [done|]. apply IH; [|done]. apply Z.div_pos; lia.
Qed.

Lemma dec_digits_value f n acc :
  0 <= n < 2 ^ Z.of_nat f ->
  dec_value (dec_digits f n acc) = n * 10 ^ zlen acc + dec_value acc \/ (f = O /\ n = 0).
Proof.
  revert n acc. induction f as [|f IH]; intros n acc Hn.
  { right. split; [done|]. change (2 ^ Z.of_nat 0) with 1 in Hn. lia. }
  left. cbn [dec_digits].
  assert (Hm : 0 <= n mod 10 < 10) by (apply Z.mod_pos_bound; lia).
  assert (Hd : dec_value (chr (48 + n mod 10) :: acc) = n mod 10 * 10 ^ zlen acc + dec_value acc).
  { change (chr (48 + n mod 10) :: acc) with ([chr (48 + n mod 10)] ++ acc).
    rewrite dec_value_app. unfold dec_value at 1. cbn [fold_left].
    rewrite digit_val_chr by done. lia. }
  case_bool_decide as Hlt.
  { rewrite Hd, Z.mod_small by lia. done. }
  rewrite Nat2Z.inj_succ, Z.pow_succ_r in Hn by lia.
  assert (Hq : 0 < n / 10) by (apply Z.div_str_pos; lia).
  destruct (IH (n / 10) (chr (48 + n mod 10) :: acc)) as [->|[_ ?]]; [|  |lia].
  { split; [lia|]. apply Z.div_lt_upper_bound; lia. }
  rewrite Hd, zlen_cons, Z.pow_add_r by (try lia; apply zlen_nonneg).
  change (10 ^ 1) with 10. rewrite (Z.div_mod n 10) at 3 by lia. ring.
Qed.

Lemma dec_nat_value n : 0 <= n -> dec_value (dec_nat n) = n.
Proof.
  intros Hn. unfold dec_nat.
  destruct (dec_digits_value (S (Z.to_nat (Z.log2 n))) n []) as [->|[? _]]; [|  |done].
  - split; [done|]. pose proof (Z.log2_nonneg n).
    rewrite Nat2Z.inj_succ, Z2Nat.id by done.
    destruct (decide (n = 0)) as [->|]; [done|]. apply Z.log2_spec. lia.
  - unfold dec_value, zlen; cbn. lia.
Qed.

Lemma dec_nat_digits n : 0 <= n -> Forall (fun c => isdigit c = true) (dec_nat n).
Proof. intros. by apply dec_digits_digits. Qed.

Lemma dec_digits_nonempty f n acc : acc <> [] \/ f <> O -> dec_digits f n acc <> [].
Proof.
  revert n acc. induction f as [|f IH]; intros n acc [H|H]; cbn; try done;
  case_bool_decide; try done; apply IH; by left.
Qed.

Lemma dec_nat_nonempty n : dec_nat n <> [].
Proof. apply dec_digits_nonempty. by right. Qed.

Lemma isdigit_not_space c : isdigit c = true -> isspace c = false.
Proof.
  unfold isdigit, isspace. rewrite bool_decide_eq_true, bool_decide_eq_false. lia.
Qed.

Lemma isdigit_not_sign c : isdigit c = true -> c <> "-"%char /\ c <> "+"%char.
Proof.
  intros H. split; intros ->; by vm_compute in H.
Qed.

Lemma wrap32_id z : - 2 ^ 31 <= z < 2 ^ 31 -> wrap32 z = z.
Proof. intros H. unfold wrap32. rewrite Z.mod_small; lia. Qed.

Lemma clamp64_id z : - 2 ^ 63 <= z < 2 ^ 63 -> clamp64 z = z.
Proof. unfold clamp64. lia. Qed.

(** atoi reads a decimal number up to the first character that is no digit. *)
Lemma atoi_digits s r :
  s <> [] -> Forall (fun c => isdigit c = true) s ->
  match r with [] => True | c :: _ => isdigit c = false end ->
  atoi (s ++ r) = wrap32 (clamp64 (dec_value s)).
Proof.
  intros Hne Hs Hr. destruct s as [|x s]; [done|].
  pose proof Hs as Hs'. apply list.Forall_cons in Hs as [Hx Hs].
  unfold atoi. cbn [app]. rewrite drop_while_none by by apply isdigit_not_space.
  destruct (isdigit_not_sign x Hx). rewrite !bool_decide_false by done.
  change (x :: s ++ r) with ((x :: s) ++ r). do 3 f_equal.
  destruct r as [|c r]; [rewrite app_nil_r; by apply take_while_id|].
  by apply take_while_app_stop.
Qed.

(** Printing an [int] and reading it back gives the same value. *)
Lemma atoi_dec_nat z r :
  0 <= z < 2 ^ 31 -> match r with [] => True | c :: _ => isdigit c = false end ->
  atoi (dec_nat z ++ r) = z.
Proof.
  intros Hz Hr. rewrite atoi_digits; [| apply dec_nat_nonempty | apply dec_nat_digits; lia | done].
  rewrite dec_nat_value, clamp64_id, wrap32_id by lia. done.
Qed.
