(* ===== verification/Str.v ===== *)
(** * String utilities (src/utils.c, lines 17-239)

    The [str_*] helpers. A helper that only reads takes the strings; one that
    edits its argument in place takes the object the string is stored in, as a
    list of bytes, and every access is checked against the bounds of the
    object. The lemmas give for each the function on strings it computes, so
    none of its accesses is out of bounds. *)
From S2P Require Import Prelude CString.

(** ** Reading *)

Definition max (x y : Z) : Z := if bool_decide (x > y) then x else y.

Definition str_len (str : cstr) : Z := zlen str.

(** strlen on an object. *)
Definition strlen (m : mem) : outcome Z :=
  match cview m with Some s => Ok (zlen s) | None => Fail OutOfBounds end.

Definition str_compare (n : Z) (s1 : mem) (start1 : Z) (s2 : mem) (start2 : Z)
  : outcome bool :=
  r ← for_ret (Z.to_nat n) 0 (fun i =>
        a ← rd s1 (start1 + i);
        b ← rd s2 (start2 + i);
        if bool_decide (a = b) then Ok None else Ok (Some false));
  Ok (default true r).

Definition str_contains (str testStr : cstr) : outcome bool :=
  let testLen := str_len testStr in
  r ← for_ret (length str) 0 (fun i =>
        b ← str_compare testLen (cmem str) i (cmem testStr) 0;
        if b : bool then Ok (Some true) else Ok None);
  Ok (default false r).

Definition str_charCount (str : cstr) (c : char) : outcome Z :=
  for_fold (length str) 0 (fun i count =>
    x ← rd (cmem str) i;
    Ok (if bool_decide (x = c) then count + 1 else count)) 0.

Definition str_findIndex (str : cstr) (c : char) : Z :=
  match strchr str c with None => -1 | Some e => Z.of_nat e end.

(** [cap] is the size of the object [s] points to. A negative [size] reaches
    memcpy as a huge unsigned count. *)
Definition str_substring (cap : Z) (str : cstr) (start end0 : Z) : outcome cstr :=
  let len := str_len str in
  let end_ := if bool_decide (end0 = -1) then len - 1 else end0 in
  let size := end_ - start + 1 in
  if bool_decide (size < 0 \/ cap < size + 1) then Fail BufOverflow
  else if bool_decide (start < 0 \/ len + 1 < start + size) then Fail OutOfBounds
  else Ok (take_while (fun c => negb (is_nul c))
             (take (Z.to_nat size) (drop (Z.to_nat start) (cmem str)))).

Definition str_startswith (str part : cstr) : outcome bool :=
  r ← for_ret (length part) 0 (fun i =>
        a ← rd (cmem str) i;
        b ← rd (cmem part) i;
        if bool_decide (a = b) then Ok None else Ok (Some false));
  Ok (default true r).

(** [below] are the bytes that precede the object in memory: when [part] is
    the longer string the comparison starts below [str]. *)
Definition str_endswith (below : mem) (str part : cstr) : outcome bool :=
  let len := str_len part in
  let strLen := str_len str in
  r ← for_ret (Z.to_nat len) 0 (fun i =>
        a ← rd (below ++ cmem str) (zlen below + strLen - len + i);
        b ← rd (cmem part) i;
        if bool_decide (a = b) then Ok None else Ok (Some false));
  Ok (default true r).

Definition str_isEqual (a b : cstr) : bool := strcmp_eq a b.

(** ** Writing *)

Definition str_set (cap : Z) (string : cstr) : outcome cstr := strcpy cap string.
Definition str_copy (cap : Z) (from : cstr) : outcome cstr := strcpy cap from.
Definition str_concat (cap : Z) (str str2 : cstr) : outcome cstr :=
  strcpy cap (str ++ str2).
Definition str_split (str delimiter : cstr) : option (cstr * cstr) :=
  strtok_r delimiter str.
Definition str_toInt (str : cstr) : Z := atoi str.
Definition int_toString (cap : Z) (i : Z) : outcome cstr := strcpy cap (printf_d i).
Definition int_charsCount (i : Z) : Z := zlen (printf_d i).

(** The loop [for (i; str[i]; i++) str[i] = f(str[i])]. *)
Fixpoint map_loop (f : char -> char) (fuel : nat) (m : mem) (i : Z) : outcome mem :=
  match fuel with
  | O => Fail NoFuel
  | S k =>
      c ← rd m i;
      if bool_decide (c = nul) then Ok m
      else m' ← wr m i (f c); map_loop f k m' (i + 1)
  end.
Definition str_toLower (m : mem) : outcome mem := map_loop tolower (S (length m)) m 0.
Definition str_toUpper (m : mem) : outcome mem := map_loop toupper (S (length m)) m 0.

Fixpoint strip_start (fuel : nat) (m : mem) (start end_ : Z) : outcome Z :=
  match fuel with
  | O => Fail NoFuel
  | S k =>
      if bool_decide (start <= end_)
      then c ← rd m start;
           if isspace c then strip_start k m (start + 1) end_ else Ok start
      else Ok start
  end.

Fixpoint strip_end (fuel : nat) (m : mem) (start end_ : Z) : outcome Z :=
  match fuel with
  | O => Fail NoFuel
  | S k =>
      if bool_decide (end_ > start)
      then c ← rd m end_;
           if isspace c then strip_end k m start (end_ - 1) else Ok end_
      else Ok end_
  end.

Definition str_strip (m : mem) : outcome mem :=
  n ← strlen m;
  let end0 := n - 1 in
  start ← strip_start (S (length m)) m 0 end0;
  c ← rd m start;
  if bool_decide (c = nul) then wr m 0 nul
  else
    end_ ← strip_end (S (length m)) m start end0;
    let size := end_ + 1 - start in
    m' ← for_fold (Z.to_nat size) 0 (fun i m => x ← rd m (start + i); wr m i x) m;
    wr m' size nul.

Definition str_reset (m : mem) (size : Z) : outcome mem :=
  n ← (if bool_decide (size <= 0) then strlen m else Ok size);
  if bool_decide (n <= zlen m)
  then Ok (replicate (Z.to_nat n) nul ++ drop (Z.to_nat n) m)
  else Fail BufOverflow.

Fixpoint removeChars_loop (cArr : cstr) (fuel : nat) (m : mem) (i shift : Z)
  : outcome mem :=
  match fuel with
  | O => Fail NoFuel
  | S k =>
      c ← rd m i;
      if bool_decide (c = nul) then wr m (i - shift) nul
      else
        m' ← wr m (i - shift) c;
        t ← rd m' i;
        b ← str_contains cArr [t];
        removeChars_loop cArr k m' (i + 1) (if b : bool then shift + 1 else shift)
  end.
Definition str_removeChars (m : mem) (cArr : cstr) : outcome mem :=
  removeChars_loop cArr (S (length m)) m 0 0.

Definition str_removeSpaces (m : mem) : outcome mem := str_removeChars m $" ".

Definition str_removeLast (m : mem) (n : Z) : outcome mem :=
  len ← strlen m;
  for_fold (Z.to_nat n) 0 (fun i m => wr m (len - n + i) nul) m.

Definition escapeChars : list (cstr * char) :=
  [ ($"\n", chr 10); ($"\t", chr 9); ($"\r", chr 13); ($"\b", chr 8);
    ($"\f", chr 12); ($"\a", chr 7); ($"\v", chr 11) ].

(** The inner loop over the table, up to the [break]. *)
Fixpoint find_escape (table : list (cstr * char)) (m : mem) (i : Z)
  : outcome (option char) :=
  match table with
  | [] => Ok None
  | (esc, v) :: r =>
      b ← str_compare 2 m i (cmem esc) 0;
      if b : bool then Ok (Some v) else find_escape r m i
  end.

Fixpoint unEscape_loop (fuel : nat) (m : mem) (i shift : Z) : outcome mem :=
  match fuel with
  | O => Fail NoFuel
  | S k =>
      c ← rd m i;
      if bool_decide (c = nul) then wr m (i - shift) nul
      else
        m1 ← wr m (i - shift) c;
        e ← find_escape escapeChars m1 i;
        match e with
        | Some v => m2 ← wr m1 (i - shift) v; unEscape_loop k m2 (i + 2) (shift + 1)
        | None => unEscape_loop k m1 (i + 1) shift
        end
  end.
Definition str_unEscape (m : mem) : outcome mem := unEscape_loop (S (length m)) m 0 0.

(** ** What the helpers compute, on strings *)

(** [str_contains] never looks into an empty string. *)
Fixpoint infixb (p s : cstr) : bool :=
  match s with
  | [] => false
  | _ :: r => prefixb p s || infixb p r
  end.

Definition suffixb (p s : cstr) : bool :=
  bool_decide (length p <= length s)%nat && prefixb p (drop (length s - length p) s).

Fixpoint count_char (c : char) (s : cstr) : Z :=
  match s with
  | [] => 0
  | x :: r => (if bool_decide (x = c) then 1 else 0) + count_char c r
  end.

Definition strip (s : cstr) : cstr :=
  rev (drop_while isspace (rev (drop_while isspace s))).

Definition remove_chars (cArr s : cstr) : cstr :=
  List.filter (fun c => negb (mem_of cArr c)) s.

Definition escape_val (c x : char) : option char :=
  snd <$> List.find (fun e : cstr * char => bool_decide (e.1 = [c; x])) escapeChars.

Fixpoint unescape (s : cstr) : cstr :=
  match s with
  | [] => []
  | c :: r =>
      match r with
      | [] => [c]
      | x :: r' =>
          match escape_val c x with
          | Some v => v :: unescape r'
          | None => c :: unescape r
          end
      end
  end.

(** ** Lemmas: comparisons *)

Lemma rd_cmem_S c s j : 0 <= j -> rd (cmem (c :: s)) (1 + j) = rd (cmem s) j.
Proof.
  intros Hj. unfold rd. rewrite !decide_True by lia.
  by replace (Z.to_nat (1 + j)) with (S (Z.to_nat j)) by lia.
Qed.

(** The comparison loop shared by the readers, over any pair of accessors that
    agree with two strings and their terminators. *)
Lemma compare_loop (fa fb : Z -> outcome char) t s i :
  no_nul t ->
  (forall j, 0 <= j <= zlen s -> fa (i + j) = rd (cmem s) j) ->
  (forall j, 0 <= j < zlen t -> fb (i + j) = rd (cmem t) j) ->
  for_ret (length t) i (fun k =>
    a ← fa k; b ← fb k; if bool_decide (a = b) then Ok None else Ok (Some false))
  = Ok (if prefixb t s then None else Some false).
Proof.
  revert s i. induction t as [|x t IH]; intros s i Ht Ha Hb; [done|].
  apply no_nul_cons in Ht as [Hx Ht]. cbn [length for_ret].
  assert (Eb : fb i = Ok x).
  { rewrite <- (Z.add_0_r i), Hb by (rewrite zlen_cons; pose proof (zlen_nonneg t); lia). done. }
  assert (Ea : fa i = Ok (match s with [] => nul | y :: _ => y end)).
  { rewrite <- (Z.add_0_r i), Ha by (pose proof (zlen_nonneg s); lia). by destruct s. }
  rewrite Ea, Eb. cbn [mbind outcome_bind].
  destruct s as [|y s]; cbn [prefixb].
  { by rewrite bool_decide_false. }
  destruct (decide (y = x)) as [->|Hne].
  - rewrite !bool_decide_true by done. cbn. apply IH; [done| |].
    + intros j Hj. rewrite <- (rd_cmem_S x s j) by lia. rewrite <- Ha.
      * f_equal. lia.
      * rewrite zlen_cons. lia.
    + intros j Hj. rewrite <- (rd_cmem_S x t j) by lia. rewrite <- Hb.
      * f_equal. lia.
      * rewrite zlen_cons. lia.
  - by rewrite !bool_decide_false by congruence.
Qed.

Lemma compare_result t s :
  default true (if prefixb t s then None else Some false) = prefixb t s.
Proof. by destruct (prefixb t s). Qed.

Lemma rd_app_skip l m j : 0 <= j -> rd (l ++ m) (zlen l + j) = rd m j.
Proof.
  intros Hj. pose proof (zlen_nonneg l). unfold rd. rewrite !decide_True by lia.
  unfold zlen. rewrite lookup_app_r by lia.
  by replace (Z.to_nat (Z.of_nat (length l) + j) - length l)%nat with (Z.to_nat j) by lia.
Qed.

Lemma str_compare_spec l s r t :
  no_nul t ->
  str_compare (zlen t) (l ++ s ++ nul :: r) (zlen l) (cmem t) 0 = Ok (prefixb t s).
Proof.
  intros Ht. unfold str_compare. unfold zlen at 1. rewrite Nat2Z.id.
  rewrite (compare_loop _ _ t s); [by rewrite <- compare_result at 2|done| |].
  - intros j Hj. rewrite Z.add_0_l, rd_app_skip by lia.
    replace (s ++ nul :: r) with (cmem s ++ r) by (unfold cmem; by rewrite <- app_assoc).
    unfold rd. rewrite !decide_True by lia. rewrite lookup_app_l; [done|].
    unfold cmem. rewrite length_app. cbn. unfold zlen in Hj. lia.
  - done.
Qed.

Lemma str_startswith_spec str part :
  no_nul part -> str_startswith str part = Ok (prefixb part str).
Proof.
  intros Hp. unfold str_startswith.
  rewrite (compare_loop _ _ part str); [|done..].
  cbn. by rewrite compare_result.
Qed.

Lemma str_contains_spec str testStr :
  no_nul testStr -> str_contains str testStr = Ok (infixb testStr str).
Proof.
  intros Ht. unfold str_contains, str_len.
  enough (H : forall s pre, for_ret (length s) (zlen pre) (fun i =>
      b ← str_compare (zlen testStr) (cmem (pre ++ s)) i (cmem testStr) 0;
      if b : bool then Ok (Some true) else Ok None)
    = Ok (if infixb testStr s then Some true else None)).
  { specialize (H str []). change (zlen []) with 0 in H. cbn [app] in H.
    rewrite H. by destruct (infixb testStr str). }
  induction s as [|c s IH]; intros pre; [done|]. cbn [length for_ret infixb].
  pose proof (str_compare_spec pre (c :: s) [] testStr Ht) as E.
  replace (cmem (pre ++ c :: s)) with (pre ++ (c :: s) ++ [nul])
    by (unfold cmem; by rewrite <- app_assoc).
  rewrite E. cbn [mbind outcome_bind].
  destruct (prefixb testStr (c :: s)); [done|]. cbn [orb mbind outcome_bind].
  specialize (IH (pre ++ [c])). rewrite <- app_assoc in IH. cbn [app] in IH.
  rewrite zlen_app in IH. unfold cmem in IH. rewrite <- app_assoc in IH. exact IH.
Qed.

(** With enough memory below, or a string at least as long as the suffix. *)
Lemma str_endswith_gen below str part :
  no_nul part -> zlen part <= zlen below + zlen str ->
  str_endswith below str part
  = Ok (prefixb part (drop (length below + length str - length part) (below ++ str))).
Proof.
  intros Hp Hle. unfold str_endswith, str_len.
  unfold zlen at 1. rewrite Nat2Z.id.
  set (k := (length below + length str - length part)%nat).
  rewrite (compare_loop _ _ part (drop k (below ++ str))); [|done| |done].
  { cbn. by rewrite compare_result. }
  assert (Hk : zlen (take k (below ++ str)) = zlen below + zlen str - zlen part).
  { unfold zlen in *. rewrite length_take, length_app. lia. }
  intros j Hj. rewrite Z.add_0_l.
  replace (below ++ cmem str) with (take k (below ++ str) ++ cmem (drop k (below ++ str))).
  - rewrite <- Hk. by rewrite rd_app_skip by lia.
  - unfold cmem. by rewrite !app_assoc, take_drop.
Qed.

Lemma str_endswith_spec below str part :
  no_nul part -> zlen part <= zlen str ->
  str_endswith below str part = Ok (suffixb part str).
Proof.
  intros Hp Hle. pose proof (zlen_nonneg below).
  rewrite str_endswith_gen by (try done; lia). f_equal. unfold suffixb, zlen in *.
  rewrite bool_decide_true by lia. cbn.
  by replace (length below + length str - length part)%nat
    with (length below + (length str - length part))%nat by lia; rewrite drop_app_add.
Qed.

(** The tail of a string, from the end of a prefix on. *)
Lemma str_substring_tail cap p s :
  no_nul s -> zlen s < cap -> str_substring cap (p ++ s) (zlen p) (-1) = Ok s.
Proof.
  intros Hs Hc. unfold str_substring, str_len. change (bool_decide (-1 = -1)) with true. cbv beta zeta iota.
  pose proof (zlen_nonneg s). pose proof (zlen_nonneg p). rewrite zlen_app.
  replace (zlen p + zlen s - 1 - zlen p + 1) with (zlen s) by lia.
  rewrite !bool_decide_false by lia. unfold cmem, zlen. rewrite !Nat2Z.id, <- app_assoc.
  rewrite drop_app_length, take_app_length. f_equal. apply take_while_id.
  eapply Forall_impl; [exact Hs|]. cbn. intros c Hc'. by rewrite (is_nul_false c) by done.
Qed.

Lemma suffixb_spec p s : suffixb p s = true <-> exists r, s = r ++ p.
Proof.
  unfold suffixb. rewrite andb_true_iff, bool_decide_eq_true, prefixb_spec. split.
  - intros [Hle (r & Hr)]. exists (take (length s - length p) s).
    assert (r = []) as ->.
    { apply (f_equal length) in Hr. rewrite length_app, length_drop in Hr.
      destruct r; [done|]. cbn in Hr. lia. }
    rewrite app_nil_r in Hr. rewrite <- Hr at 2. by rewrite take_drop.
  - intros (r & ->). rewrite length_app. split; [lia|]. exists [].
    replace (length r + length p - length p)%nat with (length r + 0)%nat by lia.
    by rewrite drop_app_add, drop_0, app_nil_r.
Qed.

Lemma infixb_spec p s :
  p <> [] -> infixb p s = true <-> exists a b, s = a ++ p ++ b.
Proof.
  intros Hp. induction s as [|c s IH]; cbn [infixb].
  - split; [done|]. intros (a & b & H). destruct a, p; done.
  - rewrite orb_true_iff, prefixb_spec, IH. split.
    + intros [(r & ->)|(a & b & ->)]; [by exists [], r|by exists (c :: a), b].
    + intros ([|x a] & b & H).
      * left. by exists b.
      * right. injection H as -> ->. by exists a, b.
Qed.

Lemma infixb_single c s : infixb [c] s = mem_of s c.
Proof.
  induction s as [|x s IH]; [done|]. cbn [infixb prefixb]. rewrite IH, andb_true_r.
  apply eq_true_iff_eq. rewrite orb_true_iff, bool_decide_eq_true, !mem_of_true, elem_of_cons.
  done.
Qed.

Lemma str_charCount_spec str c : str_charCount str c = Ok (count_char c str).
Proof.
  unfold str_charCount.
  enough (H : forall s pre n, for_fold (length s) (zlen pre) (fun i count =>
      x ← rd (cmem (pre ++ s)) i;
      Ok (if bool_decide (x = c) then count + 1 else count)) n = Ok (n + count_char c s)).
  { apply (H str [] 0). }
  induction s as [|x s IH]; intros pre n; cbn [length for_fold count_char].
  { f_equal. lia. }
  replace (cmem (pre ++ x :: s)) with (pre ++ x :: cmem s)
    by (unfold cmem; by rewrite <- app_assoc).
  rewrite rd_app_mid. cbn [mbind outcome_bind].
  specialize (IH (pre ++ [x])). unfold cmem in IH |- *. rewrite <- !app_assoc in IH.
  rewrite zlen_app in IH. cbn [app] in IH. change (zlen [x]) with 1 in IH.
  rewrite IH. f_equal. case_bool_decide; lia.
Qed.

(** ** Lemmas: editing in place *)

Lemma rd_block d j c r : rd (d ++ j ++ c :: r) (zlen d + zlen j) = Ok c.
Proof. rewrite app_assoc, <- zlen_app. apply rd_app_mid. Qed.

(** Overwriting the first byte of a non-empty block. *)
Lemma wr_block d k r c :
  k <> [] -> wr (d ++ k ++ r) (zlen d) c = Ok (d ++ c :: List.tl k ++ r).
Proof. destruct k as [|x k]; [done|]. intros _. apply (wr_app_mid d x (k ++ r) c). Qed.

(** The byte read at position [|d| + |j|] survives a copy to position [|d|]. *)
Lemma shift_block (d j X : mem) c :
  exists j1, d ++ c :: List.tl (j ++ [c]) ++ X = d ++ j1 ++ c :: X /\
    zlen j1 = zlen j /\ zlen (List.tl (j ++ [c])) = zlen j.
Proof.
  destruct j as [|x j]; [by exists []|]. exists (c :: j). cbn [app List.tl].
  rewrite zlen_app, !zlen_cons, <- app_assoc. change (zlen (@nil char)) with 0.
  split_and!; [done|lia|lia].
Qed.

(** What an edit in place establishes: the object keeps its size and now holds
    the string [s]. *)
Definition holds (s : cstr) (n : nat) (r : outcome mem) : Prop :=
  exists m', r = Ok m' /\ cview m' = Some s /\ length m' = n.

Lemma holds_via f s r : holds r (length (cmem s)) (f (cmem s)) -> via f s = Ok r.
Proof. intros (m' & E & V & _). unfold via. rewrite E. cbn. by rewrite V. Qed.

Lemma no_nul_filter p s : no_nul s -> no_nul (List.filter p s).
Proof.
  induction 1 as [|c s Hc Hs IH]; cbn; [apply no_nul_nil|].
  destruct (p c); [|done]. by apply no_nul_cons.
Qed.

Lemma removeChars_loop_spec cArr fuel s d j r :
  no_nul s -> (length s < fuel)%nat ->
  exists r', removeChars_loop cArr fuel (d ++ j ++ s ++ nul :: r) (zlen d + zlen j) (zlen j)
    = Ok (d ++ remove_chars cArr s ++ nul :: r') /\
    length (d ++ remove_chars cArr s ++ nul :: r') = length (d ++ j ++ s ++ nul :: r).
Proof.
  revert s d j. induction fuel as [|k IH]; intros s d j Hs Hf; [lia|].
  cbn [removeChars_loop]. destruct s as [|c s].
  - cbn [app]. rewrite rd_block. cbn [mbind outcome_bind]. rewrite bool_decide_true by done.
    replace (j ++ nul :: r) with ((j ++ [nul]) ++ r) by by rewrite <- app_assoc.
    replace (zlen d + zlen j - zlen j) with (zlen d) by lia.
    rewrite wr_block by (by destruct j).
    exists (List.tl (j ++ [nul]) ++ r). cbn [remove_chars List.filter app]. split; [done|].
    rewrite !length_app. cbn. rewrite length_app. destruct j; cbn; [done|].
    rewrite length_app. cbn. lia.
  - apply no_nul_cons in Hs as [Hc Hs].
    replace (d ++ j ++ (c :: s) ++ nul :: r) with (d ++ (j ++ [c]) ++ s ++ nul :: r)
      by by rewrite <- !app_assoc.
    replace (rd (d ++ (j ++ [c]) ++ s ++ nul :: r) (zlen d + zlen j)) with (Ok c)
      by (rewrite <- app_assoc; symmetry; apply rd_block).
    cbn [mbind outcome_bind]. rewrite bool_decide_false by done.
    replace (zlen d + zlen j - zlen j) with (zlen d) by lia.
    rewrite wr_block by (by destruct j). cbn [mbind outcome_bind].
    destruct (shift_block d j (s ++ nul :: r) c) as (j1 & Ej & Lj & Lt).
    rewrite Ej, <- Lj, rd_block. cbn [mbind outcome_bind].
    rewrite str_contains_spec by no_nul. rewrite infixb_single.
    cbn [mbind outcome_bind remove_chars List.filter]. fold (remove_chars cArr s).
    assert (Hlen : length (d ++ j1 ++ c :: s ++ nul :: r)
      = length (d ++ (j ++ [c]) ++ s ++ nul :: r)).
    { rewrite !length_app. cbn. rewrite !length_app. cbn. unfold zlen in Lj. lia. }
    destruct (mem_of cArr c) eqn:Em; cbn [negb].
    + destruct (IH s d (j1 ++ [c])) as (r' & E & L); [done|cbn in Hf; lia|].
      exists r'. rewrite <- app_assoc in E, L. rewrite zlen_app in E. split.
      * rewrite <- E. change (zlen [c]) with 1. f_equal; lia.
      * by rewrite L.
    + rewrite <- Ej. destruct (IH s (d ++ [c]) (List.tl (j ++ [c]))) as (r' & E & L);
        [done|cbn in Hf; lia|].
      rewrite <- !app_assoc in E, L. rewrite zlen_app, Lt in E. exists r'. split.
      * cbn [app] in E |- *. rewrite <- E. change (zlen [c]) with 1. f_equal; lia.
      * cbn [app] in L |- *. by rewrite L, Ej.
Qed.

(** Removing characters in place keeps exactly the other ones, in order. *)
Lemma str_removeChars_spec s r cArr :
  no_nul s ->
  holds (remove_chars cArr s) (length (s ++ nul :: r)) (str_removeChars (s ++ nul :: r) cArr).
Proof.
  intros Hs. unfold str_removeChars.
  destruct (removeChars_loop_spec cArr (S (length (s ++ nul :: r))) s [] [] r) as (r' & E & L);
    [done|rewrite length_app; lia|].
  exists (remove_chars cArr s ++ nul :: r'). split_and!; [exact E| |exact L].
  by apply cview_app, no_nul_filter.
Qed.

(** [escape_val] is what the inner loop over the table finds. *)
Lemma find_escape_spec table d j s r :
  Forall (fun e : cstr * char => length e.1 = 2%nat /\ no_nul e.1) table ->
  find_escape table (d ++ j ++ s ++ nul :: r) (zlen d + zlen j)
  = Ok (snd <$> List.find (fun e : cstr * char => prefixb e.1 s) table).
Proof.
  induction 1 as [|[e v] table [He Hn] _ IH]; [done|]. cbn [find_escape List.find fst snd].
  pose proof (str_compare_spec (d ++ j) s r e Hn) as E.
  unfold zlen at 1 in E. cbn [fst] in He. rewrite He in E. rewrite zlen_app, <- app_assoc in E.
  change (Z.of_nat 2) with 2 in E. rewrite E. cbn [mbind outcome_bind].
  destruct (prefixb e s); [done|]. exact IH.
Qed.

Lemma escapeChars_ok :
  Forall (fun e : cstr * char => length e.1 = 2%nat /\ no_nul e.1) escapeChars.
Proof. repeat constructor; discriminate. Qed.

Lemma find_ext {A} (f g : A -> bool) l :
  Forall (fun x => f x = g x) l -> List.find f l = List.find g l.
Proof. induction 1 as [|x l Hx _ IH]; [done|]. cbn. by rewrite Hx, IH. Qed.

Lemma prefixb_two (e : cstr) c x s :
  length e = 2%nat -> prefixb e (c :: x :: s) = bool_decide (e = [c; x]).
Proof.
  intros He. apply eq_true_iff_eq. rewrite bool_decide_eq_true, prefixb_spec.
  destruct e as [|a [|b [|]]]; [done..| |done]. split.
  - intros (r & [= -> -> _]). done.
  - intros [= -> ->]. by exists s.
Qed.

Lemma find_escape_val c x s :
  snd <$> List.find (fun e : cstr * char => prefixb e.1 (c :: x :: s)) escapeChars
  = escape_val c x.
Proof.
  unfold escape_val. f_equal. apply find_ext.
  eapply Forall_impl; [exact escapeChars_ok|]. intros [e v] [He _]. by apply prefixb_two.
Qed.

Lemma find_escape_last c :
  snd <$> List.find (fun e : cstr * char => prefixb e.1 [c]) escapeChars = None.
Proof. cbn. by rewrite !andb_false_r. Qed.

Lemma escape_val_not_nul c x v : escape_val c x = Some v -> v <> nul.
Proof.
  unfold escape_val. intros H. apply fmap_Some in H as ([e v'] & H & ->).
  apply List.find_some in H as [H _]. cbn in H.
  repeat destruct H as [[= <- <-]|H]; done.
Qed.

(** The terminator is written over a non-empty block, and the object keeps its size. *)
Lemma wr_end d j r :
  exists r', wr (d ++ j ++ nul :: r) (zlen d) nul = Ok (d ++ nul :: r') /\
    length (d ++ nul :: r') = length (d ++ j ++ nul :: r).
Proof.
  exists (List.tl (j ++ [nul]) ++ r).
  replace (d ++ j ++ nul :: r) with (d ++ (j ++ [nul]) ++ r) by by rewrite <- app_assoc.
  rewrite wr_block by (by destruct j). split; [done|].
  rewrite !length_app. cbn. rewrite !length_app. destruct j; cbn; rewrite ?length_app; cbn; lia.
Qed.

Lemma unEscape_loop_spec fuel s d j r :
  no_nul s -> (length s < fuel)%nat ->
  exists r', unEscape_loop fuel (d ++ j ++ s ++ nul :: r) (zlen d + zlen j) (zlen j)
    = Ok (d ++ unescape s ++ nul :: r') /\
    length (d ++ unescape s ++ nul :: r') = length (d ++ j ++ s ++ nul :: r).
Proof.
  revert s d j. induction fuel as [|k IH]; intros s d j Hs Hf; [lia|].
  cbn [unEscape_loop]. destruct s as [|c s].
  { cbn [app]. rewrite rd_block. cbn [mbind outcome_bind]. rewrite bool_decide_true by done.
    replace (zlen d + zlen j - zlen j) with (zlen d) by lia. apply wr_end. }
  apply no_nul_cons in Hs as [Hc Hs]. cbn [app]. rewrite rd_block. cbn [mbind outcome_bind].
  rewrite bool_decide_false by done.
  replace (zlen d + zlen j - zlen j) with (zlen d) by lia.
  replace (d ++ j ++ c :: s ++ nul :: r) with (d ++ (j ++ [c]) ++ s ++ nul :: r)
    by by rewrite <- !app_assoc.
  rewrite wr_block by (by destruct j). cbn [mbind outcome_bind].
  destruct (shift_block d j (s ++ nul :: r) c) as (j1 & Ej & Lj & Lt).
  rewrite Ej, <- Lj.
  change (d ++ j1 ++ c :: s ++ nul :: r) with (d ++ j1 ++ (c :: s) ++ nul :: r).
  rewrite find_escape_spec by apply escapeChars_ok. cbn [mbind outcome_bind].
  assert (Hlen : length (d ++ (j ++ [c]) ++ s ++ nul :: r)
    = length (d ++ c :: List.tl (j ++ [c]) ++ s ++ nul :: r)).
  { rewrite Ej. rewrite !length_app. cbn. rewrite !length_app. cbn. unfold zlen in Lj. lia. }
  rewrite Hlen. cbn [app]. rewrite <- Ej.
  assert (Kept : exists r', unEscape_loop k (d ++ c :: List.tl (j ++ [c]) ++ s ++ nul :: r)
      (zlen d + zlen j1 + 1) (zlen j1) = Ok (d ++ (c :: unescape s) ++ nul :: r') /\
    length (d ++ (c :: unescape s) ++ nul :: r')
      = length (d ++ c :: List.tl (j ++ [c]) ++ s ++ nul :: r)).
  { destruct (IH s (d ++ [c]) (List.tl (j ++ [c]))) as (r' & E & L); [done|cbn in Hf; lia|].
    rewrite <- !app_assoc in E, L. rewrite zlen_app, Lt in E. cbn [app] in E, L.
    exists r'. cbn [app]. split; [|exact L]. rewrite <- E.
    change (zlen [c]) with 1. f_equal; lia. }
  destruct s as [|x s]; [rewrite find_escape_last; exact Kept|].
  rewrite find_escape_val. cbn [unescape].
  destruct (escape_val c x) as [v|]; [|exact Kept]. clear Kept.
  rewrite Lj. replace (zlen d + zlen j - zlen j) with (zlen d) by lia.
  rewrite wr_app_mid. cbn [mbind outcome_bind]. apply no_nul_cons in Hs as [_ Hs].
  destruct (IH s (d ++ [v]) (List.tl (j ++ [c]) ++ [x])) as (r' & E & L);
    [done|cbn in Hf; lia|].
  rewrite <- !app_assoc in E, L. rewrite !zlen_app, Lt in E. cbn [app] in E, L |- *.
  change (zlen [v]) with 1 in E. change (zlen [x]) with 1 in E.
  exists r'. split; [|rewrite L, !length_app; cbn; by rewrite !length_app].
  rewrite <- E. f_equal. lia.
Qed.

Lemma no_nul_unescape s : no_nul s -> no_nul (unescape s).
Proof.
  remember (length s) as n eqn:Hn. revert s Hn.
  induction (lt_wf n) as [n _ IH]. intros s -> Hs.
  destruct s as [|c [|x s]]; [done|done|].
  cbn [unescape]. apply no_nul_cons in Hs as [Hc Hs].
  destruct (escape_val c x) as [v|] eqn:E.
  - apply no_nul_cons. split; [by eapply escape_val_not_nul|].
    apply no_nul_cons in Hs as [_ Hs]. apply (IH (length s)); [cbn; lia|done|done].
  - apply no_nul_cons. split; [done|]. change (no_nul (unescape (x :: s))).
    apply (IH (length (x :: s))); [cbn; lia|done|done].
Qed.

(** Unescaping in place replaces each two-character escape by its character. *)
Lemma str_unEscape_spec s r :
  no_nul s -> holds (unescape s) (length (s ++ nul :: r)) (str_unEscape (s ++ nul :: r)).
Proof.
  intros Hs. unfold str_unEscape.
  destruct (unEscape_loop_spec (S (length (s ++ nul :: r))) s [] [] r) as (r' & E & L);
    [done|rewrite length_app; lia|].
  exists (unescape s ++ nul :: r'). split_and!; [exact E| |exact L].
  by apply cview_app, no_nul_unescape.
Qed.

(** *** Case conversion *)

Lemma map_loop_spec f fuel d s r :
  no_nul s -> (length s < fuel)%nat ->
  map_loop f fuel (d ++ s ++ nul :: r) (zlen d) = Ok (d ++ map f s ++ nul :: r).
Proof.
  revert d s. induction fuel as [|k IH]; intros d s Hs Hf; [lia|]. cbn [map_loop].
  destruct s as [|c s]; cbn [app].
  - rewrite rd_app_mid. cbn. done.
  - apply no_nul_cons in Hs as [Hc Hs]. rewrite rd_app_mid. cbn [mbind outcome_bind].
    rewrite bool_decide_false, wr_app_mid by done. cbn [mbind outcome_bind].
    specialize (IH (d ++ [f c]) s Hs ltac:(cbn in Hf; lia)).
    rewrite <- !app_assoc, zlen_app in IH. cbn [app] in IH. exact IH.
Qed.

Lemma tolower_not_nul c : c <> nul -> tolower c <> nul.
Proof.
  rewrite !code_nul. unfold tolower. case_bool_decide; [|done].
  intros _. rewrite code_chr; lia.
Qed.

Lemma str_toLower_spec s r :
  no_nul s -> holds (map tolower s) (length (s ++ nul :: r)) (str_toLower (s ++ nul :: r)).
Proof.
  intros Hs. exists (map tolower s ++ nul :: r). split_and!.
  - unfold str_toLower. apply (map_loop_spec tolower _ [] s r Hs). rewrite length_app. lia.
  - apply cview_app. induction Hs as [|c s Hc Hs IH]; cbn; [apply no_nul_nil|].
    apply no_nul_cons. split; [by apply tolower_not_nul|done].
  - by rewrite !length_app, length_map.
Qed.

(** *** Trimming *)

Lemma strip_start_spec fuel p q r :
  (length q < fuel)%nat ->
  strip_start fuel (p ++ q ++ nul :: r) (zlen p) (zlen p + zlen q - 1)
  = Ok (zlen p + zlen q - zlen (drop_while isspace q)).
Proof.
  revert p q. induction fuel as [|k IH]; intros p q Hf; [lia|]. cbn [strip_start].
  destruct q as [|c q]; cbn [app drop_while].
  { rewrite bool_decide_false by (unfold zlen; cbn; lia). f_equal. unfold zlen; cbn. lia. }
  rewrite bool_decide_true by (rewrite zlen_cons; pose proof (zlen_nonneg q); lia).
  rewrite rd_app_mid. cbn [mbind outcome_bind].
  destruct (isspace c); [|f_equal; lia].
  specialize (IH (p ++ [c]) q ltac:(cbn in Hf; lia)).
  rewrite <- app_assoc, zlen_app in IH. cbn [app] in IH. change (zlen [c]) with 1 in IH.
  rewrite zlen_cons. replace (zlen p + (1 + zlen q)) with (zlen p + 1 + zlen q) by lia.
  exact IH.
Qed.

Lemma strip_end_spec fuel p x q r :
  isspace x = false -> (length q < fuel)%nat ->
  strip_end fuel (p ++ (x :: q) ++ r) (zlen p) (zlen p + zlen q)
  = Ok (zlen p + zlen (rev (drop_while isspace (rev (x :: q)))) - 1).
Proof.
  intros Hx. revert fuel r. induction q as [|y q IH] using rev_ind; intros fuel r Hf;
    (destruct fuel as [|k]; [lia|]); cbn [strip_end].
  - rewrite bool_decide_false by (unfold zlen; cbn; lia). cbn. rewrite Hx. cbn.
    f_equal. unfold zlen; cbn. lia.
  - rewrite zlen_app in *. change (zlen [y]) with 1.
    rewrite bool_decide_true by (pose proof (zlen_nonneg q); lia).
    replace (p ++ (x :: q ++ [y]) ++ r) with (p ++ (x :: q) ++ y :: r)
      by (cbn; by rewrite <- app_assoc).
    replace (zlen p + (zlen q + 1)) with (zlen p + zlen (x :: q)) by (rewrite zlen_cons; lia).
    rewrite rd_block. cbn [mbind outcome_bind].
    rewrite app_comm_cons, rev_app_distr. cbn [rev app drop_while].
    destruct (isspace y) eqn:Ey.
    + rewrite length_app in Hf. cbn in Hf. specialize (IH k (y :: r) ltac:(lia)).
      rewrite zlen_cons. replace (zlen p + (1 + zlen q) - 1) with (zlen p + zlen q) by lia.
      exact IH.
    + f_equal. unfold zlen. cbn. rewrite !length_app, length_rev, !length_app, length_rev.
      cbn. lia.
Qed.

(** Copying a block towards the start of the object, byte by byte. *)
Lemma copy_loop s d j T :
  exists j', zlen j' = zlen j /\
    for_fold (length s) (zlen d) (fun i m => x ← rd m (zlen j + i); wr m i x)
      (d ++ j ++ s ++ T) = Ok (d ++ s ++ j' ++ T).
Proof.
  revert d j. induction s as [|c s IH]; intros d j; [by exists j|].
  cbn [length for_fold app]. rewrite (Z.add_comm (zlen j)), rd_block. cbn [mbind outcome_bind].
  replace (d ++ j ++ c :: s ++ T) with (d ++ (j ++ [c]) ++ s ++ T) by by rewrite <- !app_assoc.
  rewrite wr_block by (by destruct j). cbn [mbind outcome_bind].
  destruct (shift_block d j (s ++ T) c) as (j1 & _ & _ & Lt).
  destruct (IH (d ++ [c]) (List.tl (j ++ [c]))) as (j' & L & E).
  exists j'. split; [lia|]. rewrite <- !app_assoc, zlen_app, Lt in E. cbn [app] in E.
  exact E.
Qed.

Lemma no_nul_drop_while p s : no_nul s -> no_nul (drop_while p s).
Proof.
  induction 1 as [|c s Hc Hs IH]; cbn; [apply no_nul_nil|].
  destruct (p c); [done|]. by apply no_nul_cons.
Qed.

Lemma no_nul_rev s : no_nul s -> no_nul (rev s).
Proof.
  induction 1 as [|c s Hc Hs IH]; cbn; [apply no_nul_nil|].
  apply no_nul_app. split; [done|]. no_nul.
Qed.

Lemma no_nul_strip s : no_nul s -> no_nul (strip s).
Proof. intros. by apply no_nul_rev, no_nul_drop_while, no_nul_rev, no_nul_drop_while. Qed.

Lemma strlen_app s r : no_nul s -> strlen (s ++ nul :: r) = Ok (zlen s).
Proof. intros. unfold strlen. by rewrite cview_app. Qed.

(** Trimming in place removes the leading and the trailing spaces. *)
Lemma str_strip_spec s r :
  no_nul s -> holds (strip s) (length (s ++ nul :: r)) (str_strip (s ++ nul :: r)).
Proof.
  intros Hs. unfold str_strip. rewrite strlen_app by done. cbn [mbind outcome_bind].
  rewrite (strip_start_spec _ [] s r) by (rewrite length_app; lia). cbn [mbind outcome_bind].
  pose proof (take_drop_while isspace s) as Ep. set (p := take_while isspace s) in *.
  destruct (drop_while isspace s) as [|x q] eqn:Ed.
  - replace (rd (s ++ nul :: r) (zlen [] + zlen s - zlen [])) with (Ok nul)
      by (symmetry; replace (zlen [] + zlen s - zlen []) with (zlen s) by lia; apply rd_app_mid).
    cbn [mbind outcome_bind]. rewrite bool_decide_true by done.
    destruct (wr_end [] s r) as (r' & E & L). exists (nul :: r').
    unfold strip. rewrite Ed. split_and!; [exact E|done|exact L].
  - pose proof (drop_while_head _ _ _ _ Ed) as Hx.
    assert (Hq : no_nul (x :: q)) by (rewrite <- Ed; by apply no_nul_drop_while).
    assert (E0 : s ++ nul :: r = p ++ x :: q ++ nul :: r) by (rewrite <- Ep; by rewrite <- app_assoc).
    assert (L0 : zlen s = zlen p + zlen (x :: q)) by by rewrite <- Ep, zlen_app.
    rewrite E0, L0.
    replace (zlen [] + (zlen p + zlen (x :: q)) - zlen (x :: q)) with (zlen p)
      by (change (zlen (@nil char)) with 0; lia).
    cbn [app]. rewrite rd_app_mid. cbn [mbind outcome_bind].
    apply no_nul_cons in Hq as [Hxn Hq]. rewrite bool_decide_false by done.
    replace (zlen p + zlen (x :: q) - 1) with (zlen p + zlen q) by (rewrite zlen_cons; lia).
    change (p ++ x :: q ++ nul :: r) with (p ++ (x :: q) ++ nul :: r).
    rewrite strip_end_spec by (try done; rewrite !length_app; cbn; rewrite ?length_app; lia).
    cbn [mbind outcome_bind].
    assert (Es : strip s = rev (drop_while isspace (rev (x :: q)))) by (unfold strip; by rewrite Ed).
    rewrite <- Es.
    pose proof (take_drop_while isspace (rev (x :: q))) as Eq.
    apply (f_equal (@rev char)) in Eq. rewrite rev_app_distr, rev_involutive, <- Es in Eq.
    set (ts := rev (take_while isspace (rev (x :: q)))) in *.
    replace (zlen p + zlen (strip s) - 1 + 1 - zlen p) with (zlen (strip s)) by lia.
    replace (Z.to_nat (zlen (strip s))) with (length (strip s)) by (unfold zlen; lia).
    assert (E1 : (x :: q) ++ nul :: r = strip s ++ ts ++ nul :: r) by (rewrite <- Eq; by rewrite <- app_assoc).
    rewrite E1. destruct (copy_loop (strip s) [] p (ts ++ nul :: r)) as (j' & L & E).
    change (zlen []) with 0 in E. cbn [app] in E. rewrite E. cbn [mbind outcome_bind].
    rewrite (app_assoc j'). destruct (wr_end (strip s) (j' ++ ts) r) as (r' & E' & L').
    exists (strip s ++ nul :: r'). split_and!; [exact E'|by apply cview_app, no_nul_strip|].
    rewrite L', !length_app. unfold zlen in L. lia.
Qed.

(** ** Properties *)

(** the in-place editors, run on the object that holds a string and its
    terminator, access nothing outside it and leave the string their
    specification gives: case mapping, trimming, removal of characters and
    decoding of escapes. *)
Theorem str_edit_correct (s set : cstr) (Hs : no_nul s) :
  via str_toLower s = Ok (map tolower s) /\
  via str_strip s = Ok (strip s) /\
  via (fun m => str_removeChars m set) s = Ok (remove_chars set s) /\
  via str_unEscape s = Ok (unescape s).
Proof.
  split_and!.
  - by apply holds_via, str_toLower_spec.
  - by apply holds_via, str_strip_spec.
  - by apply (holds_via (fun m => str_removeChars m set)), str_removeChars_spec.
  - by apply holds_via, str_unEscape_spec.
Qed.

Lemma str_edit_correct_witness :
  via str_toLower $" a\nB " = Ok (map tolower $" a\nB ") /\
  via str_strip $" a\nB " = Ok (strip $" a\nB ") /\
  via (fun m => str_removeChars m $"a") $" a\nB " = Ok (remove_chars $"a" $" a\nB ") /\
  via str_unEscape $" a\nB " = Ok (unescape $" a\nB ").
Proof. apply (str_edit_correct $" a\nB " $"a"). by repeat constructor. Defined.

(** the searching functions decide what their names say, without an access
    outside the strings: [str_startswith] a prefix, [str_contains] a non-empty
    infix, and [str_endswith] a suffix, provided the suffix is not the longer
    string. *)
Theorem str_search_correct (below : mem) (s p : cstr)
    (Hp : no_nul p) (Hne : p <> []) (Hle : zlen p <= zlen s) :
  (exists b, str_startswith s p = Ok b /\ (b = true <-> exists r, s = p ++ r)) /\
  (exists b, str_contains s p = Ok b /\ (b = true <-> exists l r, s = l ++ p ++ r)) /\
  (exists b, str_endswith below s p = Ok b /\ (b = true <-> exists l, s = l ++ p)).
Proof.
  split_and!; eexists; (split; [|shelve]).
  - by apply str_startswith_spec.
  - by apply str_contains_spec.
  - by apply str_endswith_spec.
  Unshelve.
  + apply prefixb_spec.
  + by apply infixb_spec.
  + apply suffixb_spec.
Qed.

Lemma str_search_correct_witness :
  (exists b, str_startswith $"hn//x" $"hn" = Ok b /\ (b = true <-> exists r, $"hn//x" = $"hn" ++ r)) /\
  (exists b, str_contains $"hn//x" $"hn" = Ok b /\ (b = true <-> exists l r, $"hn//x" = l ++ $"hn" ++ r)) /\
  (exists b, str_endswith [] $"hn//x" $"hn" = Ok b /\ (b = true <-> exists l, $"hn//x" = l ++ $"hn")).
Proof.
  apply (str_search_correct [] $"hn//x" $"hn"); [by repeat constructor|discriminate|by vm_compute].
Defined.

(** asked for a suffix longer than the string, [str_endswith] reads the
    bytes below the string: with none known there the access is out of bounds. *)
Theorem str_endswith_reads_below (s p : cstr) (Hlt : zlen s < zlen p) :
  str_endswith [] s p = Fail OutOfBounds.
Proof.
  unfold str_endswith, str_len. pose proof (zlen_nonneg s).
  destruct (Z.to_nat (zlen p)) as [|k] eqn:E; [lia|]. cbn [for_ret].
  assert (E1 : rd ([] ++ cmem s) (zlen (@nil char) + zlen s - zlen p + 0) = Fail OutOfBounds).
  { unfold rd. apply decide_False. change (zlen (@nil char)) with 0. lia. }
  by rewrite E1.
Qed.

Lemma str_endswith_reads_below_witness : str_endswith [] [] ([CR; LF]) = Fail OutOfBounds.
Proof. apply (str_endswith_reads_below [] [CR; LF]). by vm_compute. Defined.
