(* ===== verification/Containers.v ===== *)
(** * Map and List (src/utils.c, lines 243-404; include/utils.h)

    A [Map] is a singly linked list of items, newest first; a [List] a singly
    linked list of pointers. The chain of [next] pointers is the Rocq list of
    the nodes in that order. Values and data are compared as the pointers they
    are. A routine that calls free() on values returns what it freed. *)
From S2P Require Import Prelude CString Str.

(** ** Map *)

Record Item (V : Type) := mkItem { key : cstr; value : V }.
Arguments mkItem {V} key value.
Arguments key {V} i.
Arguments value {V} i.

Record Map (V : Type) := mkMap { start : list (Item V); count : Z }.
Arguments mkMap {V} start count.
Arguments start {V} m.
Arguments count {V} m.

(** [char key[30]] *)
Definition ITEM_KEY_SIZE : Z := 30.

Section MapOps.
Context {V : Type}.

Definition map_init : Map V := mkMap [] 0.

Fixpoint getItem_loop (i : list (Item V)) (k : cstr) : option (Item V) :=
  match i with
  | [] => None
  | it :: next => if str_isEqual (key it) k then Some it else getItem_loop next k
  end.
Definition map_getItem (map : Map V) (k : cstr) : option (Item V) :=
  getItem_loop (start map) k.

Fixpoint lastItem_loop (it : Item V) (next : list (Item V)) : Item V :=
  match next with [] => it | it' :: next' => lastItem_loop it' next' end.
Definition map_lastItem (map : Map V) : outcome (Item V) :=
  match start map with
  | [] => Fail NullDeref
  | it :: next => Ok (lastItem_loop it next)
  end.

(** [prevItem->value = value] through the pointer [map_getItem] returned. *)
Fixpoint assign_loop (i : list (Item V)) (k : cstr) (v : V) : list (Item V) :=
  match i with
  | [] => []
  | it :: next =>
      if str_isEqual (key it) k then mkItem (key it) v :: next
      else it :: assign_loop next k v
  end.

Definition map_set (map : Map V) (k : cstr) (v : V) (freeItem : bool)
  : outcome (Map V * list V) :=
  match map_getItem map k with
  | Some prevItem =>
      Ok (mkMap (assign_loop (start map) k v) (count map),
          if freeItem then [value prevItem] else [])
  | None =>
      k' ← str_set ITEM_KEY_SIZE k;
      Ok (mkMap (mkItem k' v :: start map)
                (if bool_decide (count map = 0) then 1 else count map + 1), [])
  end.

Definition map_get (map : Map V) (k : cstr) : option V := value <$> map_getItem map k.

Fixpoint del_loop (prev i : list (Item V)) (k : cstr)
  : option (list (Item V) * V) :=
  match i with
  | [] => None
  | it :: next =>
      if str_isEqual (key it) k then Some (rev prev ++ next, value it)
      else del_loop (it :: prev) next k
  end.

(** The boolean is the returned int; the list is what was freed. *)
Definition map_del (map : Map V) (k : cstr) (freeItem : bool)
  : bool * Map V * list V :=
  match del_loop [] (start map) k with
  | Some (s, v) => (true, mkMap s (count map), if freeItem then [v] else [])
  | None => (false, map, [])
  end.

(** The static cursor is the chain that starts at the item it points to;
    the null pointer is the empty chain. *)
Definition map_forEach (map : option (Map V)) (item : list (Item V))
  : option (Item V) * list (Item V) :=
  match map with
  | Some m => (hd_error (start m), start m)
  | None => (hd_error (List.tl item), List.tl item)
  end.

Definition map_cleanup (map : Map V) (freeItem : bool) : Map V * list V :=
  (mkMap [] 0, if freeItem then value <$> start map else []).

(** The loop [for (i = map_forEach(m); i; i = map_forEach(NULL))]; the items
    it visits, in order. *)
Fixpoint forEach_loop (fuel : nat) (cur : option (Item V)) (item : list (Item V))
  : outcome (list (Item V)) :=
  match fuel with
  | O => Fail NoFuel
  | S f =>
      match cur with
      | None => Ok []
      | Some it =>
          let '(cur', item') := map_forEach None item in
          r ← forEach_loop f cur' item'; Ok (it :: r)
      end
  end.
Definition map_items (map : Map V) : outcome (list (Item V)) :=
  let '(cur, item) := map_forEach (Some map) [] in
  forEach_loop (S (length (start map))) cur item.
End MapOps.

(** ** List *)

Record List_ (A : Type) := mkList { lstart : list A; lcount : Z }.
Arguments mkList {A} lstart lcount.
Arguments lstart {A} l.
Arguments lcount {A} l.

Section ListOps.
Context {A : Type} `{EqDecision A}.

Definition list_init : List_ A := mkList [] 0.

Definition list_add (store : List_ A) (data : A) : List_ A :=
  mkList (data :: lstart store) (lcount store).

(** [for (i = store->start; i->next; i = i->next)]: the loop ends when [i]
    is the last node. *)
Fixpoint remove_loop (prev i : list A) (data : A) : outcome (option (list A)) :=
  match i with
  | [] => Fail NullDeref
  | [_] => Ok None
  | x :: next =>
      if bool_decide (x = data) then Ok (Some (rev prev ++ next))
      else remove_loop (x :: prev) next data
  end.
Definition list_remove (store : List_ A) (data : A) : outcome (bool * List_ A) :=
  r ← remove_loop [] (lstart store) data;
  Ok (match r with
      | Some s => (true, mkList s (lcount store))
      | None => (false, store)
      end).

(** All nodes are freed; [start] keeps its value. *)
Definition list_cleanup (store : List_ A) : list A := lstart store.

Definition list_forEach (store : option (List_ A)) (node : list A)
  : outcome (option A * list A) :=
  match store with
  | Some s =>
      match lstart s with
      | [] => Fail NullDeref
      | x :: _ => Ok (Some x, lstart s)
      end
  | None => Ok (hd_error (List.tl node), List.tl node)
  end.
End ListOps.

(** ** Specification: a finite map *)

Definition to_gmap {V} (m : Map V) : gmap cstr V :=
  list_to_map ((fun it => (key it, value it)) <$> start m).

Definition map_wf {V} (m : Map V) : Prop :=
  NoDup (key <$> start m) /\ Forall (fun it => zlen (key it) < ITEM_KEY_SIZE) (start m).

(** ** Lemmas: Map *)

Section MapLemmas.
Context {V : Type}.
Implicit Types (m : Map V) (k : cstr) (v : V).

Lemma str_isEqual_true a b : str_isEqual a b = true <-> a = b.
Proof. apply bool_decide_eq_true. Qed.

Lemma getItem_lookup (l : list (Item V)) k :
  value <$> getItem_loop l k
  = (list_to_map ((fun it => (key it, value it)) <$> l) : gmap cstr V) !! k.
Proof.
  induction l as [|it l IH]; [done|].
  cbn [getItem_loop]. rewrite fmap_cons. cbn [list_to_map].
  unfold str_isEqual, strcmp_eq. case_bool_decide as E.
  - subst k. cbn. by rewrite lookup_insert_eq.
  - cbn. by rewrite lookup_insert_ne.
Qed.

Lemma map_get_lookup m k : map_get m k = to_gmap m !! k.
Proof. apply getItem_lookup. Qed.

Lemma assign_loop_gmap (l : list (Item V)) k v it :
  getItem_loop l k = Some it ->
  (list_to_map ((fun it => (key it, value it)) <$> assign_loop l k v) : gmap cstr V)
  = <[k:=v]> (list_to_map ((fun it => (key it, value it)) <$> l)).
Proof.
  induction l as [|x l IH]; [done|]. cbn [getItem_loop assign_loop].
  unfold str_isEqual, strcmp_eq. case_bool_decide as E; intros H.
  - subst k. rewrite !fmap_cons. cbn. by rewrite insert_insert_eq.
  - rewrite !fmap_cons. cbn. rewrite IH by done. by rewrite insert_insert_ne.
Qed.

Lemma assign_loop_keys (l : list (Item V)) k v : key <$> assign_loop l k v = key <$> l.
Proof.
  induction l as [|x l IH]; [done|]. cbn [assign_loop].
  destruct (str_isEqual (key x) k); cbn; [done|]. by rewrite IH.
Qed.

Lemma getItem_none (l : list (Item V)) k : getItem_loop l k = None <-> k ∉ key <$> l.
Proof.
  induction l as [|x l IH]; cbn [getItem_loop].
  - split; [intros _; apply not_elem_of_nil|done].
  - rewrite fmap_cons, not_elem_of_cons. unfold str_isEqual, strcmp_eq.
    case_bool_decide; rewrite ?IH; intuition congruence.
Qed.

Lemma Forall_keys (l : list (Item V)) (P : cstr -> Prop) :
  Forall (fun it => P (key it)) l <-> Forall P (key <$> l).
Proof. by rewrite Forall_fmap. Qed.

Lemma map_set_ok m k v b :
  map_get m k <> None \/ zlen k < ITEM_KEY_SIZE ->
  exists m' fr, map_set m k v b = Ok (m', fr) /\ to_gmap m' = <[k:=v]> (to_gmap m) /\
    (map_wf m -> map_wf m').
Proof.
  intros Hk. unfold map_set, map_get, map_getItem in *.
  destruct (getItem_loop (start m) k) as [it|] eqn:E.
  - eexists _, _. split_and!; [done|by eapply assign_loop_gmap|].
    intros [Hn Hl]. split; cbn; [by rewrite assign_loop_keys|].
    apply (Forall_keys _ (fun k => zlen k < ITEM_KEY_SIZE)).
    rewrite assign_loop_keys. by apply Forall_keys.
  - destruct Hk as [?|Hk]; [done|]. unfold str_set, strcpy. rewrite decide_True by done.
    eexists _, _. split_and!; [done|done|]. intros [Hn Hl]. split; cbn.
    + apply NoDup_cons. split; [|done]. by apply getItem_none.
    + by constructor.
Qed.

(** A key that is too long for the item overflows it. *)
Lemma map_set_overflow m k v b :
  map_get m k = None -> ITEM_KEY_SIZE <= zlen k -> map_set m k v b = Fail BufOverflow.
Proof.
  unfold map_set, map_get, map_getItem. intros H Hk.
  destruct (getItem_loop (start m) k); [done|].
  unfold str_set, strcpy. by rewrite decide_False by lia.
Qed.

Lemma del_loop_spec (l prev : list (Item V)) k :
  NoDup (key <$> l) ->
  del_loop prev l k =
    match getItem_loop l k with
    | Some it => Some (rev prev ++ List.filter (fun x => negb (str_isEqual (key x) k)) l, value it)
    | None => None
    end.
Proof.
  revert prev. induction l as [|x l IH]; intros prev; [done|].
  rewrite fmap_cons, NoDup_cons. intros [Hx Hn]. cbn [del_loop getItem_loop List.filter].
  destruct (str_isEqual (key x) k) eqn:E; cbn [negb].
  - apply str_isEqual_true in E. subst k. do 3 f_equal.
    clear -Hx. induction l as [|y l IH]; [done|].
    rewrite fmap_cons, not_elem_of_cons in Hx. destruct Hx as [Hy Hx]. cbn.
    destruct (str_isEqual (key y) (key x)) eqn:E; cbn.
    { apply str_isEqual_true in E. congruence. }
    f_equal. by apply IH.
  - rewrite IH by done. cbn [rev]. by rewrite <- app_assoc.
Qed.

Lemma filter_gmap (l : list (Item V)) k :
  (list_to_map ((fun it => (key it, value it)) <$>
     List.filter (fun x => negb (str_isEqual (key x) k)) l) : gmap cstr V)
  = delete k (list_to_map ((fun it => (key it, value it)) <$> l)).
Proof.
  induction l as [|x l IH]; [symmetry; apply delete_empty|]. cbn [List.filter].
  change (list_to_map ((fun it => (key it, value it)) <$> x :: l))
    with (<[key x := value x]> (list_to_map ((fun it => (key it, value it)) <$> l)
          : gmap cstr V)).
  destruct (str_isEqual (key x) k) eqn:E; cbn [negb].
  - apply str_isEqual_true in E. subst k. by rewrite IH, delete_insert_eq.
  - assert (key x <> k) by (intros Hk; apply str_isEqual_true in Hk; congruence).
    rewrite delete_insert_ne, <- IH by done. done.
Qed.

Lemma NoDup_keys_filter (p : Item V -> bool) l :
  NoDup (key <$> l) -> NoDup (key <$> List.filter p l).
Proof.
  induction l as [|x l IH]; [done|]. rewrite fmap_cons, NoDup_cons. intros [Hx Hn].
  cbn [List.filter]. destruct (p x); [|by apply IH]. rewrite fmap_cons, NoDup_cons.
  split; [|by apply IH]. intros Hin. apply Hx.
  apply list_elem_of_fmap in Hin as (y & -> & Hy).
  apply list_elem_of_In, List.filter_In in Hy as [Hy _].
  apply list_elem_of_fmap. exists y. split; [done|]. by apply list_elem_of_In.
Qed.

Lemma List_Forall_filter {A} (P : A -> Prop) (p : A -> bool) l :
  Forall P l -> Forall P (List.filter p l).
Proof.
  induction 1 as [|x l Hx Hl IH]; cbn; [constructor|]. destruct (p x); [by constructor|done].
Qed.

Lemma map_del_spec m k b :
  map_wf m ->
  exists m', map_del m k b = (bool_decide (is_Some (map_get m k)), m',
      if b then option_list (map_get m k) else []) /\
    to_gmap m' = delete k (to_gmap m) /\ map_wf m'.
Proof.
  intros [Hn Hl]. unfold map_del. rewrite del_loop_spec by done.
  unfold map_get, map_getItem.
  destruct (getItem_loop (start m) k) as [it|] eqn:E.
  - eexists. rewrite bool_decide_true by by eexists. split_and!; [done|apply filter_gmap|].
    split; cbn; [by apply NoDup_keys_filter|]. by apply List_Forall_filter.
  - exists m. cbn. split_and!; [by destruct b| |done].
    rewrite delete_id; [done|]. rewrite <- map_get_lookup. unfold map_get, map_getItem.
    by rewrite E.
Qed.

Lemma map_init_wf : map_wf (@map_init V).
Proof. split; constructor. Qed.

Lemma map_init_gmap : to_gmap (@map_init V) = ∅.
Proof. done. Qed.

Lemma forEach_loop_spec (l : list (Item V)) fuel :
  (length l < fuel)%nat -> forEach_loop fuel (hd_error l) l = Ok l.
Proof.
  revert l. induction fuel as [|f IH]; intros l Hl; [lia|]. destruct l as [|x l]; [done|].
  cbn [forEach_loop hd_error map_forEach List.tl]. by rewrite IH by (cbn in Hl; lia).
Qed.

(** The iteration protocol visits every item once, newest first. *)
Lemma map_items_spec m : map_items m = Ok (start m).
Proof. unfold map_items. cbn [map_forEach]. apply forEach_loop_spec. lia. Qed.
End MapLemmas.

(** ** Lemmas: List *)

Section ListLemmas.
Context {A : Type} `{EqDecision A}.

Lemma remove_loop_spec (l prev : list A) z x :
  remove_loop prev (l ++ [z]) x =
    Ok (if bool_decide (x ∈ l)
        then Some (rev prev ++ take_while (fun y => negb (bool_decide (y = x))) l ++
                   List.tl (drop_while (fun y => negb (bool_decide (y = x))) l) ++ [z])
        else None).
Proof.
  revert prev. induction l as [|y l IH]; intros prev; [done|].
  cbn [app remove_loop]. destruct (l ++ [z]) as [|w l'] eqn:E; [by destruct l|].
  cbn [take_while drop_while]. destruct (decide (y = x)) as [->|Hy].
  - rewrite !(bool_decide_true (x = x)), bool_decide_true by (done || apply list_elem_of_here).
    cbn. by rewrite E.
  - rewrite !(bool_decide_false (y = x)) by done. cbn [negb]. rewrite IH. f_equal.
    cbn [rev]. rewrite <- app_assoc.
    assert (Hi : bool_decide (x ∈ l) = bool_decide (x ∈ y :: l)).
    { apply bool_decide_ext. rewrite elem_of_cons. intuition congruence. }
    rewrite Hi. by case_bool_decide.
Qed.
End ListLemmas.

#[export] Hint Resolve map_init_wf : homenet.

(** ** Properties *)

(** C35: [map_set] is insertion into a finite map and [map_get] its lookup, for
    keys that fit an item (or are already there); keys stay distinct and in
    bounds, and freeing the replaced value hands out exactly that value. *)
Theorem map_set_correct {V} (m : Map V) (k : cstr) (v : V) (Hm : map_wf m)
    (Hk : zlen k < ITEM_KEY_SIZE) :
  exists m', map_set m k v true = Ok (m', option_list (map_get m k)) /\ map_wf m' /\
    to_gmap m' = <[k := v]> (to_gmap m) /\
    (forall k', map_get m' k' = if decide (k' = k) then Some v else map_get m k').
Proof.
  destruct (map_set_ok m k v true (or_intror Hk)) as (m' & fr & E & G & W).
  assert (Efr : fr = option_list (map_get m k)).
  { unfold map_set, map_get in *. destruct (map_getItem m k); [by injection E|].
    unfold str_set in E. destruct (strcpy _ _); cbn in E; by inversion E. }
  exists m'. rewrite E, Efr. split_and!; [done|by apply W|done|].
  intros k'. rewrite !map_get_lookup, G. case_decide as D.
  - subst. by rewrite lookup_insert_eq.
  - by rewrite lookup_insert_ne.
Qed.

Lemma map_set_correct_witness :
  exists m', map_set map_init $"Host" 1 true = Ok (m', option_list (map_get map_init $"Host")) /\
    map_wf m' /\ to_gmap m' = <[$"Host" := 1]> (to_gmap map_init) /\
    (forall k', map_get m' k' = if decide (k' = $"Host") then Some 1 else map_get map_init k').
Proof. apply (map_set_correct map_init $"Host" 1); [apply map_init_wf|by vm_compute]. Defined.

(** [map_del] deletes a key: it tells whether the key was there, frees its
    value on request and leaves every other key alone. *)
Theorem map_del_correct {V} (m : Map V) (k : cstr) (Hm : map_wf m) :
  exists m', map_del m k true
      = (bool_decide (is_Some (map_get m k)), m', option_list (map_get m k)) /\
    map_wf m' /\ to_gmap m' = delete k (to_gmap m).
Proof. destruct (map_del_spec m k true Hm) as (m' & E & G & W). by exists m'. Qed.

Lemma map_del_correct_witness :
  exists m', map_del (mkMap [mkItem $"a" 1; mkItem $"b" 2] 2) $"b" true
      = (bool_decide (is_Some (map_get (mkMap [mkItem $"a" 1; mkItem $"b" 2] 2) $"b")), m',
         option_list (map_get (mkMap [mkItem $"a" 1; mkItem $"b" 2] 2) $"b")) /\
    map_wf m' /\ to_gmap m' = delete $"b" (to_gmap (mkMap [mkItem $"a" 1; mkItem $"b" 2] 2)).
Proof.
  apply (map_del_correct (mkMap [mkItem $"a" 1; mkItem $"b" 2] 2) $"b").
  split; [by apply (bool_decide_unpack _)|by repeat constructor].
Defined.

(** [list_remove] never removes the oldest node: on a list whose last node
    is [z] it answers whether the datum is among the others, and [z] stays. *)
Theorem list_remove_keeps_last {A} `{EqDecision A} (s : List_ A) (l : list A) (z x : A)
    (Hs : lstart s = l ++ [z]) :
  exists s', list_remove s x = Ok (bool_decide (x ∈ l), s') /\ last (lstart s') = Some z.
Proof.
  unfold list_remove. rewrite Hs, remove_loop_spec. cbn [mbind outcome_bind].
  case_bool_decide; eexists; (split; [done|]); cbn [lstart].
  - rewrite !app_assoc. apply last_snoc.
  - rewrite Hs. apply last_snoc.
Qed.

Lemma list_remove_keeps_last_witness :
  exists s', list_remove (mkList [2; 1] 2) 1 = Ok (bool_decide (1 ∈ [2]), s') /\
    last (lstart s') = Some 1.
Proof. apply (list_remove_keeps_last (mkList [2; 1] 2) [2] 1 1). reflexivity. Defined.
