(* ===== verification/Buffer.v ===== *)
(** * The write buffer (src/utils.c, lines 406-502; include/utils.h)

    [Buffer] is a ring of [capacity] bytes. The indices are C ints and are kept
    as integers of either sign, because [buffer_clear] can make the start index
    negative; an access outside the ring is a fault.

    [buffer_write] stores at [startIndex], not behind the pending bytes. The
    lemmas show that the ring is a faithful queue as long as each write finds
    it empty, and what happens otherwise. *)
From S2P Require Import Prelude.

Record Buffer := mkBuffer { data : mem; size : Z; capacity : Z; startIndex : Z }.

Definition DEFAULT_BUFFER_SIZE : Z := 1024.

(** [junk] is what malloc returns: [capacity] bytes of indeterminate content. *)
Definition buffer_init (junk : mem) (capacity0 : Z) : Buffer :=
  let capacity := if bool_decide (capacity0 <= 0) then DEFAULT_BUFFER_SIZE else capacity0 in
  mkBuffer (take (Z.to_nat capacity) junk) 0 capacity 0.

Definition buffer_cleanup (buffer : Buffer) : Buffer := mkBuffer [] 0 0 0.

Definition buffer_getFreeSpace (buffer : Buffer) : Z := capacity buffer - size buffer.

(** [ind++; if (ind >= capacity) ind = 0;] *)
Definition next_ind (cap ind : Z) : Z := if bool_decide (ind + 1 >= cap) then 0 else ind + 1.

Definition buffer_write (buffer : Buffer) (src : mem) (size0 : Z) : outcome (Z * Buffer) :=
  let freeSpace := buffer_getFreeSpace buffer in
  let n := if bool_decide (freeSpace < size0) then freeSpace else size0 in
  '(d, _) ← for_fold (Z.to_nat n) 0 (fun i '(d, ind) =>
      c ← rd src i;
      d' ← wr d ind c;
      Ok (d', next_ind (capacity buffer) ind)) (data buffer, startIndex buffer);
  Ok (n, mkBuffer d (size buffer + n) (capacity buffer) (startIndex buffer)).

Definition buffer_clear (buffer : Buffer) (n0 : Z) : Z * Buffer :=
  let n := if bool_decide (n0 > size buffer) then size buffer else n0 in
  let s := startIndex buffer + n in
  (n, mkBuffer (data buffer) (size buffer - n) (capacity buffer)
        (if bool_decide (s >= capacity buffer) then capacity buffer - s else s)).

(** Returns the count and the bytes stored in the caller's object. *)
Definition buffer_read (buffer : Buffer) (size0 : Z) : outcome (Z * mem * Buffer) :=
  if bool_decide (size buffer = 0 \/ size0 = 0) then Ok (0, [], buffer)
  else
    let n := if bool_decide (size buffer < size0) then size buffer else size0 in
    '(out, _) ← for_fold (Z.to_nat n) 0 (fun i '(out, ind) =>
        c ← rd (data buffer) ind;
        Ok (out ++ [c], next_ind (capacity buffer) ind)) ([], startIndex buffer);
    let '(r, b') := buffer_clear buffer n in
    Ok (r, out, b').

(** [first] tells whether the argument is the buffer or the null pointer; [ind]
    is the static index. The result is the offset the pointer designates. *)
Definition buffer_readChar (first : bool) (buffer : Buffer) (ind : Z) : option Z * Z :=
  let ind0 := if first then startIndex buffer else ind in
  let ind1 := next_ind (capacity buffer) ind0 in
  if negb first && bool_decide (ind1 = startIndex buffer) then (None, ind1)
  else (Some ind0, ind1).

Definition buffer_isEmpty (buffer : Buffer) : bool := bool_decide (size buffer = 0).

(** ** Specification *)

Definition buffer_wf (b : Buffer) : Prop :=
  0 < capacity b /\ capacity b = zlen (data b) /\ 0 <= size b <= capacity b /\
  0 <= startIndex b < capacity b.

(** The byte [i] places after the start. *)
Definition ring_at (b : Buffer) (i : nat) : option char :=
  data b !! Z.to_nat ((startIndex b + Z.of_nat i) mod capacity b).

(** The pending bytes, oldest first. *)
Definition contents (b : Buffer) : list char :=
  (fun i => default nul (ring_at b i)) <$> seq 0 (Z.to_nat (size b)).

(** ** Lemmas *)

Lemma next_ind_mod cap s i :
  0 < cap -> next_ind cap ((s + i) mod cap) = (s + (i + 1)) mod cap.
Proof.
  intros Hc. unfold next_ind. pose proof (Z.mod_pos_bound (s + i) cap Hc).
  rewrite Z.add_assoc, <- (Z.add_mod_idemp_l (s + i) 1) by lia.
  case_bool_decide.
  - replace ((s + i) mod cap + 1) with cap by lia. by rewrite Z_mod_same_full.
  - by rewrite (Z.mod_small ((s + i) mod cap + 1)) by lia.
Qed.

Lemma ring_ind_inj cap s i j :
  0 <= i < cap -> 0 <= j < cap -> (s + i) mod cap = (s + j) mod cap -> i = j.
Proof.
  intros Hi Hj E.
  assert (D : ((s + i) - (s + j)) mod cap = 0) by (rewrite Zminus_mod, E, Z.sub_diag; apply Z.mod_0_l; lia).
  apply Z.mod_divide in D; [|lia]. destruct D as [q D].
  assert (q = 0) by nia. lia.
Qed.

Definition set_ring (cap s : Z) (d : mem) (i : Z) (src : mem) : mem :=
  fst (fold_left (fun '(d, i) c => (<[Z.to_nat ((s + i) mod cap) := c]> d, i + 1)) src (d, i)).

Lemma set_ring_cons cap s d i c src :
  set_ring cap s d i (c :: src)
  = set_ring cap s (<[Z.to_nat ((s + i) mod cap) := c]> d) (i + 1) src.
Proof. done. Qed.

Lemma write_loop cap s src pre d :
  0 < cap -> cap = zlen d ->
  for_fold (length src) (zlen pre) (fun i '(d, ind) =>
      c ← rd (pre ++ src) i;
      d' ← wr d ind c;
      Ok (d', next_ind cap ind)) (d, (s + zlen pre) mod cap)
  = Ok (set_ring cap s d (zlen pre) src, (s + zlen pre + zlen src) mod cap).
Proof.
  intros Hc. revert pre d. induction src as [|c src IH]; intros pre d Hd.
  { unfold set_ring. cbn. do 3 f_equal. unfold zlen. cbn. lia. }
  cbn [length for_fold]. rewrite rd_app_mid. cbn [mbind outcome_bind].
  pose proof (Z.mod_pos_bound (s + zlen pre) cap Hc).
  rewrite wr_ok by lia. cbn [mbind outcome_bind].
  rewrite next_ind_mod, set_ring_cons by done.
  specialize (IH (pre ++ [c]) (<[Z.to_nat ((s + zlen pre) mod cap):=c]> d)).
  rewrite zlen_app in IH. change (zlen [c]) with 1 in IH.
  rewrite <- app_assoc in IH. cbn [app] in IH. rewrite IH.
  - do 3 f_equal. rewrite zlen_cons. lia.
  - unfold zlen. by rewrite length_insert.
Qed.

Lemma set_ring_length cap s d i src : length (set_ring cap s d i src) = length d.
Proof.
  revert d i. induction src as [|c src IH]; intros d i; [done|].
  by rewrite set_ring_cons, IH, length_insert.
Qed.

(** After writing [src], position [i + k] of the ring holds byte [k] of it. *)
Lemma set_ring_lookup cap s d i src (k : nat) :
  0 < cap -> cap = zlen d -> 0 <= i -> i + zlen src <= cap ->
  (k < length src)%nat ->
  set_ring cap s d i src !! Z.to_nat ((s + (i + Z.of_nat k)) mod cap) = src !! k.
Proof.
  intros Hc. revert d i k. induction src as [|c src IH]; intros d i k Hd Hi Hl Hk;
    [cbn in Hk; lia|].
  rewrite set_ring_cons. rewrite zlen_cons in Hl.
  pose proof (Z.mod_pos_bound (s + i) cap Hc).
  destruct k as [|k]; cbn [lookup list_lookup].
  - assert (E : forall d' i', i < i' -> i' + zlen src <= cap -> length d' = length d ->
        set_ring cap s d' i' src !! Z.to_nat ((s + i) mod cap) = d' !! Z.to_nat ((s + i) mod cap)).
    { clear IH Hl Hk. induction src as [|x src IH]; intros d' i' Hi' Hl Hd'; [done|].
      rewrite zlen_cons in Hl. pose proof (zlen_nonneg src).
      rewrite set_ring_cons, IH; [|lia|lia|by rewrite length_insert].
      apply list_lookup_insert_ne. intros E.
      pose proof (Z.mod_pos_bound (s + i') cap Hc).
      apply Z2Nat.inj in E; [|lia..]. apply ring_ind_inj in E; lia. }
    rewrite Z.add_0_r, E; [|lia|lia|by rewrite length_insert].
    apply list_lookup_insert_eq. unfold zlen in Hd. lia.
  - rewrite Nat2Z.inj_succ. replace (i + Z.succ (Z.of_nat k)) with (i + 1 + Z.of_nat k) by lia.
    cbn in Hk. apply IH; [|lia..]. unfold zlen. by rewrite length_insert.
Qed.

Lemma buffer_init_wf junk c :
  (c <= 0 -> zlen junk = DEFAULT_BUFFER_SIZE) -> (0 < c -> zlen junk = c) ->
  buffer_wf (buffer_init junk c) /\ contents (buffer_init junk c) = [].
Proof.
  intros H1 H2. unfold buffer_init, buffer_wf, contents, DEFAULT_BUFFER_SIZE in *. cbn.
  case_bool_decide; cbn; unfold zlen in *; rewrite length_take; (split; [|done]); lia.
Qed.

Lemma buffer_write_ok b src n :
  buffer_wf b -> 0 <= n <= zlen src ->
  let k := Z.min n (buffer_getFreeSpace b) in
  buffer_write b src n = Ok (k,
    mkBuffer (set_ring (capacity b) (startIndex b) (data b) 0 (take (Z.to_nat k) src))
      (size b + k) (capacity b) (startIndex b)).
Proof.
  intros (Hc & Hd & Hs & Hi) Hn k. unfold buffer_write.
  assert (Ek : (if bool_decide (buffer_getFreeSpace b < n) then buffer_getFreeSpace b else n) = k)
    by (case_bool_decide; lia).
  rewrite Ek. unfold buffer_getFreeSpace in *.
  assert (Hk : 0 <= k <= zlen src) by lia.
  set (src1 := take (Z.to_nat k) src).
  assert (Lk : length src1 = Z.to_nat k).
  { unfold src1. rewrite length_take. unfold zlen in Hk. lia. }
  rewrite <- Lk.
  pose proof (write_loop (capacity b) (startIndex b) src1 [] (data b) Hc Hd) as E.
  change (zlen (@nil char)) with 0 in E. rewrite Z.add_0_r, Z.mod_small in E by lia.
  assert (X : forall f g (st : mem * Z) i (k : nat),
    (forall j st, i <= j < i + Z.of_nat k -> f j st = g j st) ->
    for_fold k i f st = for_fold k i g st).
  { clear. intros f g st i k. revert st i. induction k as [|k IH]; intros st i H; [done|].
    cbn. rewrite H by lia. destruct (g i st); [|done]. cbn. apply IH. intros. apply H. lia. }
  erewrite X; [rewrite E; reflexivity|].
  intros j [d ind] Hj. cbn. f_equal. unfold rd. rewrite !decide_True by lia.
  unfold src1. rewrite lookup_take_lt by lia. done.
Qed.

Lemma buffer_write_wf b src n r b' :
  buffer_wf b -> 0 <= n <= zlen src -> buffer_write b src n = Ok (r, b') -> buffer_wf b'.
Proof.
  intros Hw Hn. rewrite buffer_write_ok by done. intros [= <- <-].
  destruct Hw as (Hc & Hd & Hs & Hi). unfold buffer_wf, buffer_getFreeSpace; cbn.
  unfold zlen. rewrite set_ring_length. unfold zlen in Hd. lia.
Qed.

(** *** The pending bytes *)

Lemma ring_at_some b i : buffer_wf b -> is_Some (ring_at b i).
Proof.
  intros (Hc & Hd & _). unfold ring_at. apply lookup_lt_is_Some_2.
  pose proof (Z.mod_pos_bound (startIndex b + Z.of_nat i) (capacity b) Hc).
  unfold zlen in Hd. lia.
Qed.

Lemma contents_lookup b i :
  buffer_wf b -> (i < Z.to_nat (size b))%nat -> contents b !! i = ring_at b i.
Proof.
  intros Hw Hi. unfold contents. rewrite list_lookup_fmap, lookup_seq_lt by done. cbn.
  by destruct (ring_at_some b i Hw) as [c ->].
Qed.

Lemma contents_length b : 0 <= size b -> zlen (contents b) = size b.
Proof. intros. unfold contents, zlen. rewrite length_fmap, length_seq. lia. Qed.

Lemma contents_empty b : size b = 0 -> contents b = [].
Proof. intros H. unfold contents. by rewrite H. Qed.

(** The bytes a write stores are the first to come out, whatever was pending. *)
Lemma buffer_write_front b src n k b' :
  buffer_wf b -> 0 <= n <= zlen src -> buffer_write b src n = Ok (k, b') ->
  take (Z.to_nat k) (contents b') = take (Z.to_nat k) src.
Proof.
  intros Hw Hn E. pose proof (buffer_write_wf _ _ _ _ _ Hw Hn E) as Hw'.
  rewrite buffer_write_ok in E by done. injection E as <- <-.
  set (k := Z.min n (buffer_getFreeSpace b)) in *.
  destruct Hw as (Hc & Hd & Hs & Hi). unfold buffer_getFreeSpace in k.
  assert (Hk : 0 <= k <= zlen src) by lia.
  apply list_eq. intros i.
  destruct (decide (i < Z.to_nat k)%nat) as [Hlt|Hge].
  - rewrite !lookup_take_lt by done. rewrite contents_lookup by (try done; cbn; lia).
    unfold ring_at. cbn.
    rewrite <- (Z.add_0_l (Z.of_nat i)), set_ring_lookup; [by rewrite lookup_take_lt| | | | |];
      unfold zlen in *; rewrite ?length_take; lia.
  - rewrite !lookup_take_ge by lia. done.
Qed.

(** A write into an empty ring is a queue insertion. *)
Lemma buffer_write_empty b src n k b' :
  buffer_wf b -> size b = 0 -> 0 <= n <= zlen src -> buffer_write b src n = Ok (k, b') ->
  k = Z.min n (capacity b) /\ contents b' = take (Z.to_nat k) src.
Proof.
  intros Hw H0 Hn E. rewrite <- (buffer_write_front _ _ _ _ _ Hw Hn E).
  rewrite buffer_write_ok in E by done. injection E as <- <-.
  unfold buffer_getFreeSpace. rewrite H0, Z.sub_0_r. split; [done|].
  rewrite (take_ge (contents _)); [done|]. destruct Hw as (Hc & _).
  unfold contents. rewrite length_fmap, length_seq. cbn. lia.
Qed.

Lemma read_loop b k :
  buffer_wf b ->
  for_fold k 0 (fun (_ : Z) '(out, ind) =>
      c ← rd (data b) ind;
      Ok (out ++ [c], next_ind (capacity b) ind)) ([], startIndex b)
  = Ok ((fun i => default nul (ring_at b i)) <$> seq 0 k,
        (startIndex b + Z.of_nat k) mod capacity b).
Proof.
  intros Hw. pose proof Hw as (Hc & Hd & Hs & Hi).
  enough (H : forall k j, for_fold k (Z.of_nat j) (fun (_ : Z) '(out, ind) =>
      c ← rd (data b) ind;
      Ok (out ++ [c], next_ind (capacity b) ind))
      ((fun i => default nul (ring_at b i)) <$> seq 0 j,
       (startIndex b + Z.of_nat j) mod capacity b)
    = Ok ((fun i => default nul (ring_at b i)) <$> seq 0 (j + k),
          (startIndex b + Z.of_nat (j + k)) mod capacity b)).
  { specialize (H k O). cbn in H. rewrite Z.add_0_r, Z.mod_small in H by lia. exact H. }
  clear k. induction k as [|k IH]; intros j; [by rewrite Nat.add_0_r|].
  cbn [for_fold].
  assert (E : rd (data b) ((startIndex b + Z.of_nat j) mod capacity b)
    = Ok (default nul (ring_at b j))).
  { destruct (ring_at_some b j Hw) as [c Hj]. rewrite Hj. apply rd_ok. split; [|exact Hj].
    apply Z.mod_pos_bound. lia. }
  rewrite E. cbn [mbind outcome_bind]. rewrite next_ind_mod by done.
  specialize (IH (S j)). rewrite seq_S, fmap_app in IH. cbn [plus] in IH.
  replace (Z.of_nat (S j)) with (Z.of_nat j + 1) in IH by lia.
  replace (j + S k)%nat with (S j + k)%nat by lia. exact IH.
Qed.

Lemma buffer_read_ok b n :
  buffer_wf b -> size b <> 0 -> 0 < n ->
  let k := Z.min n (size b) in
  buffer_read b n = Ok (k, take (Z.to_nat k) (contents b), snd (buffer_clear b k)).
Proof.
  intros Hw H0 Hn k. unfold buffer_read. rewrite bool_decide_false by lia.
  assert (Ek : (if bool_decide (size b < n) then size b else n) = k) by (case_bool_decide; lia).
  rewrite Ek, read_loop by done. cbn [mbind outcome_bind].
  destruct Hw as (Hc & Hd & Hs & Hi).
  unfold contents. rewrite <- fmap_take, take_seq.
  replace (Z.to_nat k `min` Z.to_nat (size b))%nat with (Z.to_nat k) by lia.
  unfold buffer_clear. rewrite bool_decide_false by lia. done.
Qed.

(** Clearing that does not run past the end of the ring is a queue removal. *)
Lemma buffer_clear_ok b n :
  buffer_wf b -> 0 <= n <= size b -> startIndex b + n <= capacity b ->
  let b' := snd (buffer_clear b n) in
  buffer_wf b' /\ contents b' = drop (Z.to_nat n) (contents b).
Proof.
  intros Hw Hn Hle. pose proof Hw as (Hc & Hd & Hs & Hi).
  unfold buffer_clear. rewrite (bool_decide_false (n > size b)) by lia. cbn.
  assert (Hm : (if bool_decide (startIndex b + n >= capacity b)
    then capacity b - (startIndex b + n) else startIndex b + n)
    = (startIndex b + n) mod capacity b).
  { case_bool_decide.
    - replace (startIndex b + n) with (capacity b) by lia. rewrite Z_mod_same_full. lia.
    - by rewrite Z.mod_small by lia. }
  rewrite Hm. pose proof (Z.mod_pos_bound (startIndex b + n) (capacity b) Hc).
  split; [by unfold buffer_wf; cbn; split_and!; lia|].
  unfold contents. cbn. rewrite <- fmap_drop, drop_seq.
  replace (Z.to_nat (size b) - Z.to_nat n)%nat with (Z.to_nat (size b - n)) by lia.
  replace (seq (0 + Z.to_nat n) (Z.to_nat (size b - n)))
    with (seq (Z.to_nat n + 0) (Z.to_nat (size b - n))) by (by rewrite Nat.add_0_r).
  rewrite <- (fmap_add_seq (Z.to_nat n) 0), <- list_fmap_compose. apply list_fmap_ext.
  intros _ i _. cbn. f_equal. unfold ring_at. cbn. f_equal. f_equal.
  rewrite Z.add_mod_idemp_l by lia. f_equal. lia.
Qed.

(** Clearing past the end of the ring makes the start index negative. *)
Lemma buffer_clear_wraps b n :
  buffer_wf b -> 0 <= n <= size b -> capacity b < startIndex b + n ->
  startIndex (snd (buffer_clear b n)) < 0.
Proof.
  intros (Hc & Hd & Hs & Hi) Hn Hlt. unfold buffer_clear.
  rewrite (bool_decide_false (n > size b)) by lia. cbn.
  rewrite bool_decide_true by lia. lia.
Qed.

Lemma negative_start_faults b src n :
  startIndex b < 0 -> 0 < n <= zlen src -> 0 < buffer_getFreeSpace b ->
  buffer_write b src n = Fail BufOverflow.
Proof.
  intros Hs Hn Hf. unfold buffer_write.
  set (k := if bool_decide _ then _ else _). assert (Hk : 0 < k <= n).
  { subst k. case_bool_decide; lia. }
  destruct (Z.to_nat k) as [|j] eqn:E; [lia|]. cbn [for_fold].
  destruct (rd_in_bounds src 0) as [c ->]; [lia|]. cbn [mbind outcome_bind].
  unfold wr. by rewrite decide_False by lia.
Qed.

#[export] Hint Resolve buffer_write_wf : homenet.

(** ** Properties *)

(** bytes written to an empty buffer come out as they went in, up to the
    capacity, and the buffer is empty again, as long as they do not run past
    the end of the ring. *)
Theorem buffer_write_read (b : Buffer) (src : mem)
    (Hwf : buffer_wf b) (Hempty : size b = 0) (Hsrc : 0 < zlen src)
    (Hend : startIndex b + zlen src <= capacity b) :
  exists b1 b2, buffer_write b src (zlen src) = Ok (zlen src, b1) /\
    buffer_read b1 (zlen src) = Ok (zlen src, src, b2) /\
    buffer_wf b1 /\ buffer_wf b2 /\ contents b1 = src /\ contents b2 = [].
Proof.
  pose proof (zlen_nonneg src). pose proof Hwf as (Hc & Hd & Hs & Hi).
  pose proof (buffer_write_ok b src (zlen src) Hwf ltac:(lia)) as E. cbn zeta in E.
  unfold buffer_getFreeSpace in E. rewrite Z.min_l in E by lia.
  set (b1 := mkBuffer _ _ _ _) in E.
  assert (Hn : 0 <= zlen src <= zlen src) by lia.
  pose proof (buffer_write_wf _ _ _ _ _ Hwf Hn E) as W1.
  destruct (buffer_write_empty _ _ _ _ _ Hwf Hempty Hn E) as [_ C1].
  assert (Z1 : Z.to_nat (zlen src) = length src) by (unfold zlen; lia).
  rewrite Z1, take_ge in C1 by lia.
  assert (S1 : size b1 = zlen src) by (subst b1; cbn; lia).
  pose proof (buffer_read_ok b1 (zlen src) W1 ltac:(lia) ltac:(lia)) as R. cbn zeta in R.
  rewrite S1, Z.min_id, C1, Z1, take_ge in R by lia.
  destruct (buffer_clear_ok b1 (zlen src) W1 ltac:(lia)) as [W2 C2]; [by subst b1|].
  rewrite C1, Z1, drop_ge in C2 by lia.
  by exists b1, (snd (buffer_clear b1 (zlen src))).
Qed.

Lemma buffer_write_read_witness :
  let b := mkBuffer (replicate 8 nul) 0 8 2 in
  exists b1 b2, buffer_write b $"abc" (zlen $"abc") = Ok (zlen $"abc", b1) /\
    buffer_read b1 (zlen $"abc") = Ok (zlen $"abc", $"abc", b2) /\
    buffer_wf b1 /\ buffer_wf b2 /\ contents b1 = $"abc" /\ contents b2 = [].
Proof.
  intros b. apply (buffer_write_read b $"abc");
    [by unfold buffer_wf, b; vm_compute; intuition|reflexivity|reflexivity|by vm_compute].
Defined.

(** a write to a buffer that already holds bytes stores the new bytes over
    the oldest pending ones instead of behind them: they are read first. *)
Theorem buffer_write_overwrites (b b' : Buffer) (src : mem) (n k : Z)
    (Hwf : buffer_wf b) (Hn : 0 <= n <= zlen src) (Hw : buffer_write b src n = Ok (k, b')) :
  take (Z.to_nat k) (contents b') = take (Z.to_nat k) src.
Proof. by eapply buffer_write_front. Qed.

Lemma buffer_write_overwrites_witness :
  take (Z.to_nat 2) (contents (mkBuffer $"xyab----" 6 8 0)) = take (Z.to_nat 2) $"xy".
Proof.
  apply (buffer_write_overwrites (mkBuffer $"cdab----" 4 8 0) (mkBuffer $"xyab----" 6 8 0) $"xy" 2 2).
  - unfold buffer_wf. cbn. change (zlen _) with 8. lia.
  - by vm_compute.
  - by vm_compute.
Defined.

(** clearing past the end of the ring leaves a negative start index, and
    the next write of at least one byte stores outside the buffer. *)
Theorem buffer_clear_then_write_faults (b : Buffer) (n : Z) (src : mem)
    (Hwf : buffer_wf b) (Hn : 0 <= n <= size b) (Hend : capacity b < startIndex b + n)
    (Hsrc : 0 < zlen src) :
  buffer_write (snd (buffer_clear b n)) src (zlen src) = Fail BufOverflow.
Proof.
  pose proof (buffer_clear_wraps b n Hwf Hn Hend) as Hneg. destruct Hwf as (Hc & Hd & Hs & Hi).
  apply negative_start_faults; [done|lia|].
  unfold buffer_clear, buffer_getFreeSpace. rewrite (bool_decide_false (n > size b)) by lia.
  cbn. lia.
Qed.

Lemma buffer_clear_then_write_faults_witness :
  buffer_write (snd (buffer_clear (mkBuffer $"abcd" 3 4 2) 3)) $"x" (zlen $"x") = Fail BufOverflow.
Proof.
  apply (buffer_clear_then_write_faults (mkBuffer $"abcd" 3 4 2) 3 $"x");
    [by unfold buffer_wf; vm_compute; intuition|by vm_compute|reflexivity|reflexivity].
Defined.
