(* ===== verification/IpAddr.v ===== *)
(** * Addresses (src/netUtils.c, lines 31-178)

    [struct sockaddr] is a 16-byte object: family, port in network byte order
    and, for IPv4, the address. Everything the program stores an IPv6 address
    in is such an object too, so writing one ([sin6_addr] lies at offset 8 and
    has 16 bytes) or reading one back is an access past its end.

    [inet_pton] and [inet_ntop] for IPv4 follow their documented format; which
    strings are IPv6 addresses is a parameter. *)
From S2P Require Import Prelude CString Str.

Definition AF_INET : Z := 2.
Definition AF_INET6 : Z := 10.
Definition INET_ADDRSTRLEN : Z := 16.
(** [INET6_ADDRSTRLEN > INET_ADDRSTRLEN ? INET6_ADDRSTRLEN : INET_ADDRSTRLEN] *)
Definition IPADDR_SIZE : Z := 46.

(** ** Byte order *)

Definition htons (x : Z) : Z :=
  Z.lor (Z.shiftl (Z.land x 255) 8) (Z.land (Z.shiftr x 8) 255).
Definition ntohs (x : Z) : Z := htons x.

(** ** IPv4 addresses in text *)

Definition in_addr : Type := Z * Z * Z * Z.

Definition inet_ntop4 (a : in_addr) : cstr :=
  let '(a0, a1, a2, a3) := a in
  dec_nat a0 ++ $"." ++ dec_nat a1 ++ $"." ++ dec_nat a2 ++ $"." ++ dec_nat a3.

(** One decimal octet: no sign, no superfluous leading zero, at most 255. *)
Definition octet (s : cstr) : option Z :=
  if bool_decide (s = []) then None
  else if negb (forallb isdigit s) then None
  else if bool_decide (hd_error s = Some "0"%char /\ 1 < zlen s) then None
  else if bool_decide (dec_value s <= 255) then Some (dec_value s) else None.

(** Cut at the first dot. *)
Definition cut_dot (s : cstr) : cstr * option cstr :=
  let p c := negb (bool_decide (c = "."%char)) in
  (take_while p s, match drop_while p s with [] => None | _ :: r => Some r end).

Definition inet_pton4 (s : cstr) : option in_addr :=
  match cut_dot s with
  | (s0, Some r0) =>
      match cut_dot r0 with
      | (s1, Some r1) =>
          match cut_dot r1 with
          | (s2, Some s3) =>
              a0 ← octet s0; a1 ← octet s1; a2 ← octet s2; a3 ← octet s3;
              Some (a0, a1, a2, a3)
          | _ => None
          end
      | _ => None
      end
  | _ => None
  end.

(** Which strings inet_pton(AF_INET6) accepts. *)
Class Inet6 := inet_pton6 : cstr -> bool.

(** ** The sockaddr operations *)

Record sockaddr := mkSockaddr { sa_family : Z; sin_port : Z; sin_addr : in_addr }.

#[global] Instance sockaddr_eq_dec : EqDecision sockaddr.
Proof. solve_decision. Defined.

(** bzero *)
Definition sockaddr_zero : sockaddr := mkSockaddr 0 0 (0, 0, 0, 0).

Definition ipAddr_isIpv4 (ip : sockaddr) : bool := bool_decide (sa_family ip = AF_INET).

Definition ipAddr_getPort (ip : sockaddr) : Z := ntohs (sin_port ip).

Definition ipAddr_getIp (ip : sockaddr) : outcome cstr :=
  if ipAddr_isIpv4 ip then Ok (inet_ntop4 (sin_addr ip)) else Fail OutOfBounds.

Definition ipAddr_setPort (ip : sockaddr) (port : Z) : sockaddr :=
  mkSockaddr (sa_family ip) (htons port) (sin_addr ip).

Definition ipAddr_isLocal (ip : sockaddr) : bool := true.

(** [cap] is the size of the object [str] points to. *)
Definition ipAddr_toString (cap : Z) (ip : sockaddr) : outcome cstr :=
  let port := ipAddr_getPort ip in
  if ipAddr_isIpv4 ip && bool_decide (port > 0)
  then
    s ← ipAddr_getIp ip;
    s ← str_concat cap s $":";
    pStr ← int_toString 10 port;
    str_concat cap s pStr
  else if bool_decide (port > 0)
  then
    s ← ipAddr_getIp ip;
    s ← str_concat cap ($"[" ++ s) $"]";
    s ← str_concat cap s $":";
    pStr ← int_toString 10 port;
    str_concat cap s pStr
  else ipAddr_getIp ip.

Section Parse.
Context `{Inet6}.

Definition ipAddr_setIp (ip : sockaddr) (addr : cstr) : outcome (bool * sockaddr) :=
  if str_isEqual addr $"localhost"
  then Ok (true, mkSockaddr (sa_family ip) (sin_port ip) (0, 0, 0, 0))
  else if ipAddr_isIpv4 ip
  then match inet_pton4 addr with
       | Some a => Ok (true, mkSockaddr (sa_family ip) (sin_port ip) a)
       | None => Ok (false, ip)
       end
  else if inet_pton6 addr then Fail BufOverflow else Ok (false, ip).

Definition str_getIpAddrType (addr : cstr) : outcome Z :=
  if str_isEqual addr $"localhost" then Ok AF_INET
  else
    cpy ← str_copy IPADDR_SIZE addr;
    let rest := tok_rest $"." cpy in
    Ok (if bool_decide (str_len addr >= INET_ADDRSTRLEN) &&
           bool_decide (str_split rest $"." <> None)
        then AF_INET else AF_INET6).

(** memset with the character '0' *)
Definition ipAddr_init (type : Z) (addr : option cstr) (port : Z)
  : outcome (bool * sockaddr) :=
  family ← (if bool_decide (type = 0)
            then a ← deref addr; str_getIpAddrType a else Ok type);
  let ip := mkSockaddr family 0x3030 (48, 48, 48, 48) in
  let ip := if bool_decide (port >= 0) then ipAddr_setPort ip port else ip in
  match addr with
  | None => Ok (true, ip)
  | Some a => ipAddr_setIp ip a
  end.

Definition str_toIpAddr (constStr : cstr) : outcome (bool * sockaddr) :=
  let port_of pTemp := match pTemp with Some p => str_toInt p | None => 0 end in
  if bool_decide (hd_error constStr = Some "["%char)
  then
    let addrEndInd := str_findIndex constStr "]" in
    addr ← str_substring IPADDR_SIZE constStr 1 (addrEndInd - 1);
    let str := drop (Z.to_nat (addrEndInd + 1)) constStr in
    ipAddr_init AF_INET6 (Some addr) (port_of (tok1 $":" str))
  else
    n ← str_charCount constStr ":";
    if bool_decide (n > 1)
    then
      addr ← str_copy IPADDR_SIZE constStr;
      ipAddr_init AF_INET6 (Some addr) 0
    else
      '(tok, rest) ← deref (str_split constStr $":");
      addr ← str_copy IPADDR_SIZE tok;
      ipAddr_init AF_INET (Some addr) (port_of (tok1 $":" rest)).
End Parse.

Definition isDomainName (str : cstr) : outcome bool :=
  dots ← str_charCount str ".";
  if bool_decide (dots = 0) then Ok false
  else if bool_decide (str_len str < 3) then Ok false
  else
    slashes ← str_charCount str "/";
    if bool_decide (slashes <> 0) then Ok false
    else
      colons ← str_charCount str ":";
      Ok (bool_decide (colons = 0)).

(** ** Lemmas *)

Lemma htons_spec p : 0 <= p < 65536 -> htons p = (p mod 256) * 256 + p / 256.
Proof.
  intros Hp. unfold htons.
  change 255 with (Z.ones 8). rewrite !Z.land_ones by lia.
  rewrite Z.shiftl_mul_pow2, Z.shiftr_div_pow2 by lia. change (2 ^ 8) with 256.
  rewrite (Z.mod_small (p / 256)) by (split; [apply Z.div_pos; lia|apply Z.div_lt_upper_bound; lia]).
  assert (X : Z.land (p mod 256 * 256) (p / 256) = 0).
  { apply Z.bits_inj'; intros n Hn; rewrite Z.land_spec, Z.bits_0.
    change 256 with (2 ^ 8); destruct (decide (n < 8)).
    - by rewrite Z.mul_pow2_bits_low by lia.
    - assert (Hb : Z.testbit p (n + 8) = false).
      { destruct (decide (p = 0)) as [->|]; [apply Z.bits_0|].
        apply Z.bits_above_log2; [lia|]. apply Z.log2_lt_pow2; [lia|].
        apply Z.lt_le_trans with (2 ^ 16); [lia|apply Z.pow_le_mono_r; lia]. }
      rewrite Z.div_pow2_bits, Hb by lia. apply andb_false_r. }
  by rewrite <- Z.lxor_lor, <- Z.add_nocarry_lxor.
Qed.

Lemma ntohs_htons p : 0 <= p < 65536 -> ntohs (htons p) = p.
Proof.
  intros Hp. unfold ntohs. pose proof (Z.mod_pos_bound p 256 ltac:(lia)).
  assert (0 <= p / 256 < 256).
  { split; [apply Z.div_pos; lia|apply Z.div_lt_upper_bound; lia]. }
  rewrite (htons_spec p Hp), htons_spec by nia.
  rewrite Z.div_add_l, (Z.div_small (p / 256)) by lia.
  rewrite (Z.add_comm (p mod 256 * 256) (p / 256)), Z_mod_plus_full, (Z.mod_small (p / 256)) by lia.
  rewrite (Z.div_mod p 256) at 3 by lia. lia.
Qed.

(** *** Text and back *)

Definition octets_ok (a : in_addr) : Prop :=
  let '(a0, a1, a2, a3) := a in
  0 <= a0 < 256 /\ 0 <= a1 < 256 /\ 0 <= a2 < 256 /\ 0 <= a3 < 256.

Lemma octet_dec_nat z : 0 <= z < 256 -> octet (dec_nat z) = Some z.
Proof.
  intros Hz.
  assert (H : forallb (fun i => bool_decide (octet (dec_nat (Z.of_nat i)) = Some (Z.of_nat i)))
                (seq 0 256) = true) by (vm_compute; reflexivity).
  rewrite forallb_forall in H. specialize (H (Z.to_nat z)).
  rewrite bool_decide_eq_true, Z2Nat.id in H by lia. apply H. apply in_seq. lia.
Qed.

Lemma dec_nat_length z : 0 <= z < 256 -> zlen (dec_nat z) <= 3.
Proof.
  intros Hz.
  assert (H : forallb (fun i => bool_decide (zlen (dec_nat (Z.of_nat i)) <= 3)) (seq 0 256)
              = true) by (vm_compute; reflexivity).
  rewrite forallb_forall in H. specialize (H (Z.to_nat z)).
  rewrite bool_decide_eq_true, Z2Nat.id in H by lia. apply H. apply in_seq. lia.
Qed.

Lemma dec_nat_avoids z c :
  0 <= z -> isdigit c = false -> Forall (fun x => x <> c) (dec_nat z).
Proof.
  intros Hz Hc. eapply Forall_impl; [by apply dec_nat_digits|].
  intros x Hx ->. congruence.
Qed.

Lemma cut_dot_app s r :
  Forall (fun x => x <> "."%char) s -> cut_dot (s ++ "."%char :: r) = (s, Some r).
Proof.
  intros Hs. unfold cut_dot.
  assert (H : Forall (fun x => negb (bool_decide (x = "."%char)) = true) s).
  { eapply Forall_impl; [exact Hs|]. intros x Hx. cbn. by rewrite bool_decide_false. }
  by rewrite take_while_app_stop, drop_while_app_stop.
Qed.

(** inet_pton reads back what inet_ntop prints. *)
Lemma inet_pton4_ntop4 a : octets_ok a -> inet_pton4 (inet_ntop4 a) = Some a.
Proof.
  destruct a as [[[a0 a1] a2] a3]. intros (H0 & H1 & H2 & H3).
  unfold inet_pton4, inet_ntop4. cbn [lit String.list_ascii_of_string app].
  rewrite !cut_dot_app by (apply dec_nat_avoids; [lia|done]).
  by rewrite !octet_dec_nat.
Qed.

Definition not_colon (s : cstr) : Prop := Forall (fun x => x <> ":"%char) s.

Lemma inet_ntop4_shape a :
  octets_ok a ->
  not_colon (inet_ntop4 a) /\ no_nul (inet_ntop4 a) /\ zlen (inet_ntop4 a) <= 15 /\
  exists d r, inet_ntop4 a = d :: r /\ isdigit d = true.
Proof.
  destruct a as [[[a0 a1] a2] a3]. intros (H0 & H1 & H2 & H3).
  assert (P : forall c, isdigit c = false -> c <> "."%char ->
      Forall (fun x => x <> c) (inet_ntop4 (a0, a1, a2, a3))).
  { intros c Hc Hd. unfold inet_ntop4.
    repeat (apply Forall_app_2; [apply dec_nat_avoids; [lia|done]|];
            try (apply Forall_app_2; [by repeat constructor; congruence|])).
    apply dec_nat_avoids; [lia|done]. }
  split_and!.
  - by apply P.
  - by apply P.
  - unfold inet_ntop4. rewrite !zlen_app. change (zlen $".") with 1.
    pose proof (dec_nat_length a0 H0). pose proof (dec_nat_length a1 H1).
    pose proof (dec_nat_length a2 H2). pose proof (dec_nat_length a3 H3). lia.
  - unfold inet_ntop4. pose proof (dec_nat_nonempty a0) as Hn.
    pose proof (dec_nat_digits a0 ltac:(lia)) as Hd.
    destruct (dec_nat a0) as [|d r]; [done|]. apply list.Forall_cons in Hd as [Hd _].
    eexists _, _. split; [done|done].
Qed.

Lemma count_char_app c s t : count_char c (s ++ t) = count_char c s + count_char c t.
Proof. induction s as [|x s IH]; cbn; [done|]. rewrite IH. lia. Qed.

Lemma count_char_none c s : Forall (fun x => x <> c) s -> count_char c s = 0.
Proof.
  induction 1 as [|x s Hx Hs IH]; cbn; [done|]. by rewrite bool_decide_false, IH.
Qed.

Lemma count_char_nonneg c s : 0 <= count_char c s.
Proof. induction s as [|x s IH]; cbn; [lia|]. case_bool_decide; lia. Qed.

Lemma dec_digits_length f n acc g :
  0 <= n < 10 ^ Z.of_nat f ->
  zlen (dec_digits g n acc) <= zlen acc + Z.max 1 (Z.of_nat f).
Proof.
  revert n acc g. induction f as [|f IH]; intros n acc g Hn.
  - change (10 ^ Z.of_nat 0) with 1 in Hn. destruct g; cbn [dec_digits]; [lia|].
    rewrite bool_decide_true by lia. rewrite zlen_cons. lia.
  - destruct g; cbn [dec_digits]; [lia|]. case_bool_decide; [rewrite zlen_cons; lia|].
    rewrite Nat2Z.inj_succ, Z.pow_succ_r in Hn by lia.
    destruct f as [|f]; [change (10 ^ Z.of_nat 0) with 1 in Hn; lia|].
    etrans; [apply IH|rewrite zlen_cons; lia].
    split; [apply Z.div_pos; lia|apply Z.div_lt_upper_bound; lia].
Qed.

(** A port has at most five digits. *)
Lemma dec_nat_port p : 0 <= p < 65536 -> zlen (dec_nat p) <= 5.
Proof.
  intros Hp. apply (dec_digits_length 5 p []). change (10 ^ Z.of_nat 5) with 100000. lia.
Qed.

Lemma int_toString_10 p : 0 <= p < 65536 -> int_toString 10 p = Ok (dec_nat p).
Proof.
  intros Hp. unfold int_toString, printf_d. rewrite bool_decide_false by lia.
  apply strcpy_ok. split; [done|]. pose proof (dec_nat_port p Hp). lia.
Qed.

Definition ip4 (a : in_addr) (port : Z) : sockaddr := mkSockaddr AF_INET (htons port) a.

(** The text of an IPv4 address; the port is left out when it is zero. *)
Definition ip4_text (a : in_addr) (port : Z) : cstr :=
  inet_ntop4 a ++ if bool_decide (port > 0) then $":" ++ dec_nat port else [].

Lemma ipAddr_toString_v4 cap a port :
  octets_ok a -> 0 <= port < 65536 -> 22 <= cap ->
  ipAddr_toString cap (ip4 a port) = Ok (ip4_text a port).
Proof.
  intros Ha Hp Hcap. destruct (inet_ntop4_shape a Ha) as (_ & _ & Hl & _).
  pose proof (dec_nat_port port Hp).
  assert (Hport : ipAddr_getPort (ip4 a port) = port) by by apply ntohs_htons.
  unfold ipAddr_toString. rewrite Hport.
  change (ipAddr_isIpv4 (ip4 a port)) with true.
  change (ipAddr_getIp (ip4 a port)) with (Ok (inet_ntop4 a)).
  unfold ip4_text. destruct (bool_decide_reflect (port > 0)); cbn [andb mbind outcome_bind].
  2:{ by rewrite app_nil_r. }
  unfold str_concat.
  assert (E : strcpy cap (inet_ntop4 a ++ $":") = Ok (inet_ntop4 a ++ $":")).
  { apply strcpy_ok. split; [done|]. rewrite zlen_app. change (zlen $":") with 1. lia. }
  rewrite E. cbn [mbind outcome_bind]. rewrite int_toString_10 by done.
  cbn [mbind outcome_bind]. rewrite <- app_assoc. apply strcpy_ok. split; [done|].
  rewrite !zlen_app. change (zlen $":") with 1. lia.
Qed.

Section RoundTrip.
Context `{Inet6}.

Lemma str_findIndex_none s c : Forall (fun x => x <> c) s -> str_findIndex s c = -1.
Proof.
  intros Hs. unfold str_findIndex.
  assert (E : strchr s c = None); [|by rewrite E].
  induction Hs as [|x s Hx Hs IH]; [done|]. cbn. by rewrite bool_decide_false, IH.
Qed.

Lemma ipAddr_init_v4 a port :
  octets_ok a -> 0 <= port < 65536 ->
  ipAddr_init AF_INET (Some (inet_ntop4 a)) port = Ok (true, ip4 a port).
Proof.
  intros Ha Hp. unfold ipAddr_init. cbn [bool_decide mbind outcome_bind].
  rewrite (bool_decide_false (AF_INET = 0)) by done. cbn [mbind outcome_bind].
  rewrite bool_decide_true by lia. unfold ipAddr_setIp, ipAddr_setPort.
  cbn [sa_family sin_port sin_addr].
  change (ipAddr_isIpv4 (mkSockaddr AF_INET (htons port) (48, 48, 48, 48))) with true.
  destruct (inet_ntop4_shape a Ha) as (_ & _ & _ & d & r & E & Hd).
  unfold str_isEqual, strcmp_eq. rewrite bool_decide_false.
  - cbv iota. by rewrite inet_pton4_ntop4.
  - rewrite E. intros [= -> _]. by vm_compute in Hd.
Qed.

(** Reading the text of an address gives the address. *)
Lemma str_toIpAddr_v4 a port :
  octets_ok a -> 0 <= port < 65536 ->
  str_toIpAddr (ip4_text a port) = Ok (true, ip4 a port).
Proof.
  intros Ha Hp. destruct (inet_ntop4_shape a Ha) as (Hc & Hn & Hl & d & r & E & Hd).
  unfold str_toIpAddr. rewrite bool_decide_false.
  2:{ unfold ip4_text. rewrite E. intros [= ->]. by vm_compute in Hd. }
  rewrite str_charCount_spec. cbn [mbind outcome_bind].
  assert (Hcol : isdigit ":" = false) by done.
  assert (Hcnt : ~ count_char ":" (ip4_text a port) > 1).
  { unfold ip4_text. rewrite count_char_app, count_char_none by done.
    case_bool_decide; [|done].
    rewrite count_char_app, (count_char_none _ (dec_nat port)) by (apply dec_nat_avoids; [lia|done]).
    done. }
  rewrite bool_decide_false by done.
  assert (Hne : inet_ntop4 a <> []) by by rewrite E.
  assert (Htok : Forall (fun c => c ∉ $":") (inet_ntop4 a)).
  { eapply Forall_impl; [exact Hc|]. intros x Hx.
    change (x ∉ [":"%char]). by rewrite list_elem_of_singleton. }
  assert (Hcpy : str_copy IPADDR_SIZE (inet_ntop4 a) = Ok (inet_ntop4 a)).
  { apply strcpy_ok. split; [done|]. unfold IPADDR_SIZE. lia. }
  unfold ip4_text, str_split. case_bool_decide as Hpos.
  - change ($":" ++ dec_nat port) with (":"%char :: dec_nat port).
    rewrite strtok_r_app by (try done; apply list_elem_of_here).
    cbn [deref mbind outcome_bind]. rewrite Hcpy. cbn [mbind outcome_bind].
    unfold tok1. rewrite strtok_r_whole; [|apply dec_nat_nonempty|].
    + cbn [fmap option_fmap option_map fst]. unfold str_toInt.
      rewrite <- (app_nil_r (dec_nat port)), atoi_dec_nat by (done || lia).
      by apply ipAddr_init_v4.
    + eapply Forall_impl; [apply (dec_nat_avoids port ":"); [lia|done]|]. intros x Hx.
      change (x ∉ [":"%char]). by rewrite list_elem_of_singleton.
  - rewrite app_nil_r, strtok_r_whole by done.
    cbn [deref mbind outcome_bind]. rewrite Hcpy. cbn [mbind outcome_bind].
    replace port with 0 by lia. by apply ipAddr_init_v4.
Qed.
End RoundTrip.

(** ** Properties *)

(** C37: printing an IPv4 address with its port and reading the text back gives
    the same address, for every address and port, in a buffer of 22 bytes. *)
Theorem ipAddr_round_trip `{Inet6} (a : in_addr) (port : Z)
    (Ha : octets_ok a) (Hp : 0 <= port < 65536) :
  exists s, ipAddr_toString 22 (ip4 a port) = Ok s /\
    str_toIpAddr s = Ok (true, ip4 a port).
Proof.
  exists (ip4_text a port). split; [by apply ipAddr_toString_v4|by apply str_toIpAddr_v4].
Qed.

Lemma ipAddr_round_trip_witness :
  exists s, ipAddr_toString 22 (ip4 (192, 168, 0, 10) 2000) = Ok s /\
    @str_toIpAddr (fun _ => false) s = Ok (true, ip4 (192, 168, 0, 10) 2000).
Proof.
  apply (@ipAddr_round_trip (fun _ => false) (192, 168, 0, 10) 2000);
    [unfold octets_ok; lia|lia].
Defined.

(** [str_getIpAddrType] calls every printed IPv4 address IPv6: the length
    test asks for 16 characters or more, and such a text has at most 15. *)
Theorem str_getIpAddrType_v4 (a : in_addr) (Ha : octets_ok a) :
  str_getIpAddrType (inet_ntop4 a) = Ok AF_INET6.
Proof.
  destruct (inet_ntop4_shape a Ha) as (_ & _ & Hl & d & r & E & Hd).
  unfold str_getIpAddrType, str_isEqual, strcmp_eq. rewrite bool_decide_false.
  2:{ rewrite E. intros [= -> _]. by vm_compute in Hd. }
  unfold str_copy. rewrite (proj2 (strcpy_ok IPADDR_SIZE (inet_ntop4 a) (inet_ntop4 a))).
  - cbn [mbind outcome_bind]. unfold str_len, INET_ADDRSTRLEN.
    by rewrite bool_decide_false by lia.
  - split; [done|]. unfold IPADDR_SIZE. lia.
Qed.

Lemma str_getIpAddrType_v4_witness : str_getIpAddrType $"10.0.0.1" = Ok AF_INET6.
Proof. apply (str_getIpAddrType_v4 (10, 0, 0, 1)). unfold octets_ok. lia. Defined.
