(* ===== verification/Udp.v ===== *)
(** * UDP output and the address of an interface (src/netUtils.c)

    [udp_write] and [getLocalIpAddr], which the program does not call. sendto()
    is a parameter: its result, given the datagrams sent so far. *)
From S2P Require Import Prelude CString IpAddr.

Section Udp.
(** The result of sendto() for the bytes it is handed, given the bytes of the
    calls before it and their results (newest first). *)
Context (sendto : list (mem * Z) -> mem -> Z).

(** The loop, with a bound on the number of calls: the result and the calls. *)
Fixpoint udp_write_loop (k : nat) (sent : list (mem * Z)) (data : mem) (n nbytes : Z)
  : outcome (Z * list (mem * Z)) :=
  if bool_decide (nbytes < n) then
    match k with
    | O => Fail NoFuel
    | S k' =>
        let rest := take (Z.to_nat (n - nbytes)) (drop (Z.to_nat nbytes) data) in
        let eachtime := sendto sent rest in
        if bool_decide (eachtime < 0) then Ok (-1, (rest, eachtime) :: sent)
        else udp_write_loop k' ((rest, eachtime) :: sent) data n (nbytes + eachtime)
    end
  else Ok (nbytes, sent).
Definition udp_write (k : nat) (data : mem) (n : Z) : outcome (Z * list (mem * Z)) :=
  udp_write_loop k [] data n 0.

(** The bytes that the calls took, oldest first. *)
Fixpoint taken (sent : list (mem * Z)) : mem :=
  match sent with
  | [] => []
  | (d, r) :: before => taken before ++ take (Z.to_nat r) d
  end.

(** sendto() takes at least one of the bytes it is handed, or gives -1. *)
Context (sendto_range : forall sent d, 0 < zlen d -> sendto sent d = -1 \/ 0 < sendto sent d <= zlen d).

Lemma udp_write_loop_ok k sent data nbytes :
  0 <= nbytes <= zlen data -> zlen data - nbytes <= Z.of_nat k -> taken sent = take (Z.to_nat nbytes) data ->
  exists r sent', udp_write_loop k sent data (zlen data) nbytes = Ok (r, sent') /\
    (r = zlen data /\ taken sent' = data \/ r = -1 /\ exists m, taken sent' = take m data).
Proof.
  revert sent nbytes. induction k as [|k IH]; intros sent nbytes Hn Hk Ht; cbn [udp_write_loop].
  all: case_bool_decide as Hlt.
  - lia.
  - exists nbytes, sent. split; [done|]. left. split; [lia|].
    rewrite Ht. apply take_ge. unfold zlen in *. lia.
  - set (rest := take _ _).
    assert (Hr : rest = drop (Z.to_nat nbytes) data).
    { apply take_ge. rewrite length_drop. unfold zlen in *. lia. }
    assert (Hz : zlen rest = zlen data - nbytes) by (rewrite Hr; unfold zlen in *; rewrite length_drop; lia).
    clearbody rest. subst rest. destruct (sendto_range sent _ ltac:(rewrite Hz; lia)) as [E|Hs].
    + rewrite E. rewrite bool_decide_true by lia. do 2 eexists. split; [done|]. right. split; [done|].
      exists (Z.to_nat nbytes). cbn. by rewrite app_nil_r.
    + rewrite bool_decide_false by lia. apply IH; [lia|lia|]. cbn [taken].
      rewrite Ht, Z2Nat.inj_add by lia. set (i := Z.to_nat nbytes). set (j := Z.to_nat (sendto _ _)).
      rewrite <- (take_drop i (take (i + j) data)), take_take, Nat.min_l by lia.
      by rewrite <- take_drop_commute.
  - exists nbytes, sent. split; [done|]. left. split; [lia|].
    rewrite Ht. apply take_ge. unfold zlen in *. lia.
Qed.

(** udp_write sends all or reports the failure: it ends after at most one call
    for each byte; the calls took the bytes of the data in order, all of them
    when it returns their number, and a prefix when it returns -1. *)
Theorem udp_write_all data : exists r sent',
  udp_write (length data) data (zlen data) = Ok (r, sent') /\
  (r = zlen data /\ taken sent' = data \/ r = -1 /\ exists m, taken sent' = take m data).
Proof.
  apply udp_write_loop_ok; [|unfold zlen; lia|done]. pose proof (zlen_nonneg data). lia.
Qed.
End Udp.

Definition demo_sendto (sent : list (mem * Z)) (d : mem) : Z := Z.min 4 (zlen d).
Lemma udp_write_all_witness : exists r sent',
  udp_write demo_sendto 7 $"homenet" 7 = Ok (r, sent') /\
  (r = 7 /\ taken sent' = $"homenet" \/ r = -1 /\ exists m, taken sent' = take m $"homenet").
Proof.
  apply (udp_write_all demo_sendto) with (data := $"homenet").
  intros sent d Hd. right. unfold demo_sendto. lia.
Defined.

(** ** getLocalIpAddr *)

Definition IFNAMSIZ : Z := 16.
(** What ioctl(SIOCGIFADDR) stores for a name. *)
Class Interfaces := if_addr : mem -> sockaddr.
(** [memcmp] where memcpy is meant: the caller's object stays as it is. *)
Definition memcmp_sockaddr (a b : sockaddr) : bool := bool_decide (a = b).
Definition getLocalIpAddr `{Interfaces} (ip : sockaddr) (interfaceName : cstr) : Z * sockaddr :=
  let ifr_name := take (Z.to_nat (IFNAMSIZ - 1)) interfaceName in
  let ifr_addr := if_addr ifr_name in
  let _ := memcmp_sockaddr ip ifr_addr in
  (0, ip).
