(* ===== verification/Sha2.v ===== *)
(** * What the SHA-2 functions share (src/lib/sha/sha2.c)

    Words, byte order, the context, copying into its buffer, and the printed
    digest, as the file computes them on a little-endian host. The context of
    SHA-256 counts bits in one word, that of SHA-384 and SHA-512 in two. *)
From S2P Require Import Prelude.

(** ** Words *)

Definition wrap64 (x : Z) : Z := x mod 2 ^ 64.
Definition not64 (x : Z) : Z := 2 ^ 64 - 1 - x.
Definition shl64 (x n : Z) : Z := wrap64 (Z.shiftl x n).

Definition REVERSE64 (w : Z) : Z :=
  let tmp := Z.lor (Z.shiftr w 32) (shl64 w 32) in
  let tmp := Z.lor (Z.shiftr (Z.land tmp 0xff00ff00ff00ff00) 8)
                   (shl64 (Z.land tmp 0x00ff00ff00ff00ff) 8) in
  Z.lor (Z.shiftr (Z.land tmp 0xffff0000ffff0000) 16)
        (shl64 (Z.land tmp 0x0000ffff0000ffff) 16).

Definition R (b x : Z) : Z := Z.shiftr x b.
Definition Maj (x y z : Z) : Z := Z.lxor (Z.lxor (Z.land x y) (Z.land x z)) (Z.land y z).

(** 64-bit loads and stores of a little-endian host. *)
Fixpoint load_le (bs : list Z) : Z :=
  match bs with [] => 0 | b :: r => b + 256 * load_le r end.
Fixpoint store_le (n : nat) (w : Z) : list Z :=
  match n with O => [] | S n' => w mod 256 :: store_le n' (w / 256) end.

(** ** The context *)

Record Ctx (C : Type) := mkCtx { state : list Z; bitcount : C; buffer : list Z }.
Arguments mkCtx {C}. Arguments state {C}. Arguments bitcount {C}. Arguments buffer {C}.

(** The working variables. *)
Record regs := mkRegs { r_a : Z; r_b : Z; r_c : Z; r_d : Z; r_e : Z; r_f : Z; r_g : Z; r_h : Z }.

Definition regs_of (s : list Z) : regs :=
  let n i := nth i s 0 in mkRegs (n 0%nat) (n 1%nat) (n 2%nat) (n 3%nat) (n 4%nat) (n 5%nat) (n 6%nat) (n 7%nat).
Definition regs_list (r : regs) : list Z := [r_a r; r_b r; r_c r; r_d r; r_e r; r_f r; r_g r; r_h r].

(** memcpy into the buffer at an offset. *)
Definition buffer_put (buf : list Z) (off : Z) (src : list Z) : list Z :=
  take (Z.to_nat off) buf ++ src ++ drop (Z.to_nat off + length src) buf.

Definition zero_range (buf : list Z) (off n : Z) : list Z :=
  buffer_put buf off (replicate (Z.to_nat n) 0).

(** ** The digest *)

Definition sha2_hex_digits : cstr := $"0123456789abcdef".

Definition hex_byte (d : Z) : cstr :=
  [ nth (Z.to_nat (Z.shiftr (Z.land d 0xf0) 4)) sha2_hex_digits nul;
    nth (Z.to_nat (Z.land d 0x0f)) sha2_hex_digits nul ].

(** [n] bytes of a number, most significant first. *)
Definition store_be (n : nat) (w : Z) : list Z := rev (store_le n w).

Definition bytes_of (s : cstr) : list Z := code <$> s.

(** ** Lemmas: words and bytes *)

Lemma flat_map_length {A B} (f : A -> list B) n l :
  (forall x, length (f x) = n) -> length (flat_map f l) = (n * length l)%nat.
Proof.
  intros Hf. induction l as [|x l IH]; cbn; [lia|]. rewrite length_app, Hf, IH. lia.
Qed.

Lemma store_le_length n w : length (store_le n w) = n.
Proof. revert w. induction n as [|n IH]; intros w; cbn; [done|]. by rewrite IH. Qed.

Lemma store_le_nth n w i :
  (i < n)%nat -> store_le n w !! i = Some ((w / 2 ^ (8 * Z.of_nat i)) mod 256).
Proof.
  revert w i. induction n as [|n IH]; intros w i Hi; [lia|]. destruct i as [|i]; cbn [store_le].
  - cbn. by rewrite Z.div_1_r.
  - cbn [lookup list_lookup]. change (store_le n (w / 256) !! i = Some ((w / 2 ^ (8 * Z.of_nat (S i))) mod 256)).
    rewrite IH by lia. rewrite Z.div_div by (try lia; apply Z.pow_pos_nonneg; lia).
    do 3 f_equal. change 256 with (2 ^ 8). rewrite <- Z.pow_add_r by lia. f_equal. lia.
Qed.

Lemma byte_testbit w i n :
  0 <= i -> 0 <= n < 8 -> Z.testbit ((w / 2 ^ i) mod 256) n = Z.testbit w (i + n).
Proof.
  intros Hi Hn. change 256 with (2 ^ 8). rewrite Z.mod_pow2_bits_low by lia.
  rewrite Z.div_pow2_bits by lia. f_equal. lia.
Qed.

Lemma byte_ext x y :
  (forall n, 0 <= n < 8 -> Z.testbit (x mod 256) n = Z.testbit (y mod 256) n) ->
  x mod 256 = y mod 256.
Proof.
  intros H. apply Z.bits_inj'. intros n Hn. destruct (decide (n < 8)); [by apply H|].
  change 256 with (2 ^ 8). by rewrite !Z.mod_pow2_bits_high by lia.
Qed.

Lemma testbit_above k w n : 0 <= w < 2 ^ k -> k <= n -> Z.testbit w n = false.
Proof.
  intros Hw Hn. assert (0 <= k) by (destruct (decide (0 <= k)); [done|]; rewrite Z.pow_neg_r in Hw; lia).
  rewrite <- (Z.mod_small w (2 ^ k)) by done. by apply Z.mod_pow2_bits_high.
Qed.
Lemma testbit_high w n : 0 <= w < 2 ^ 64 -> 64 <= n -> Z.testbit w n = false.
Proof. apply testbit_above. Qed.

Lemma testbit_shl64 x s n :
  0 <= s -> 0 <= n -> Z.testbit (shl64 x s) n = bool_decide (n < 64) && Z.testbit x (n - s).
Proof.
  intros Hs Hn. unfold shl64, wrap64. case_bool_decide.
  - by rewrite Z.mod_pow2_bits_low, Z.shiftl_spec by lia.
  - by rewrite Z.mod_pow2_bits_high by lia.
Qed.

Ltac rev_bit :=
  repeat first
    [ rewrite Z.lor_spec | rewrite Z.land_spec
    | rewrite Z.shiftr_spec by lia | rewrite testbit_shl64 by lia ].

(** REVERSE64 moves bit [8 i + n] to bit [8 (7 - i) + n]. *)
Lemma REVERSE64_bit w (i n : nat) :
  0 <= w < 2 ^ 64 -> (i < 8)%nat -> (n < 8)%nat ->
  Z.testbit (REVERSE64 w) (8 * Z.of_nat i + Z.of_nat n)
  = Z.testbit w (8 * (7 - Z.of_nat i) + Z.of_nat n).
Proof.
  intros Hw Hi Hn.
  assert (Hh : forall m, 64 <= m -> Z.testbit w m = false) by (intros; by apply testbit_high).
  assert (Hl : forall m, m < 0 -> Z.testbit w m = false) by (intros; by apply Z.testbit_neg_r).
  unfold REVERSE64.
  do 8 (destruct i as [|i]; [do 8 (destruct n as [|n];
    [ rev_bit; cbn -[Z.testbit];
      repeat match goal with |- context [Z.testbit (Zpos ?c) ?k] =>
        let b := eval vm_compute in (Z.testbit (Zpos c) k) in
        change (Z.testbit (Zpos c) k) with b end;
      rewrite ?andb_true_r, ?andb_false_r, ?orb_false_r, ?orb_false_l;
      rewrite ?Hh by lia; rewrite ?Hl by lia; rewrite ?orb_false_r; reflexivity |]); lia|]).
  lia.
Qed.

(** Storing a word whose bytes are swapped is storing it in network byte order. *)
Lemma store_le_swapped n rw w :
  (forall i m : nat, (i < n)%nat -> (m < 8)%nat ->
     Z.testbit rw (8 * Z.of_nat i + Z.of_nat m) = Z.testbit w (8 * (Z.of_nat n - 1 - Z.of_nat i) + Z.of_nat m)) ->
  store_le n rw = store_be n w.
Proof.
  intros Hb. apply list_eq. intros i. change (store_be n w) with (rev (store_le n w)).
  destruct (decide (i < n)%nat) as [Hi|Hi].
  - rewrite rev_alt. change (rev_append (store_le n w) []) with (reverse (store_le n w)).
    rewrite reverse_lookup, !store_le_nth by (rewrite ?store_le_length; lia).
    f_equal. apply byte_ext. intros m Hm. rewrite !byte_testbit by (rewrite ?store_le_length; lia).
    rewrite <- (Z2Nat.id m) by lia. rewrite Hb, store_le_length by lia. f_equal. lia.
  - rewrite !lookup_ge_None_2; [done| |]; rewrite ?length_rev, store_le_length; lia.
Qed.
Lemma store_le_REVERSE64 w : 0 <= w < 2 ^ 64 -> store_le 8 (REVERSE64 w) = store_be 8 w.
Proof. intros Hw. apply store_le_swapped. intros i m Hi Hm. by apply REVERSE64_bit. Qed.

Lemma store_le_app n m w :
  store_le (n + m) w = store_le n w ++ store_le m (w / 256 ^ Z.of_nat n).
Proof.
  revert w. induction n as [|n IH]; intros w; cbn [plus store_le app].
  - by rewrite Z.div_1_r.
  - rewrite IH, Z.div_div by (try lia; apply Z.pow_pos_nonneg; lia).
    do 3 f_equal. rewrite Nat2Z.inj_succ, Z.pow_succ_r by lia. done.
Qed.

Lemma store_le_mod n w : store_le n (w mod 256 ^ Z.of_nat n) = store_le n w.
Proof.
  revert w. induction n as [|n IH]; intros w; cbn [store_le]; [done|].
  rewrite Nat2Z.inj_succ, Z.pow_succ_r by lia.
  assert (0 < 256 ^ Z.of_nat n) by (apply Z.pow_pos_nonneg; lia).
  rewrite Z.rem_mul_r, (Z.mul_comm 256 ((w / 256) mod _)) by lia. f_equal.
  - by rewrite Z_mod_plus_full, Zmod_mod.
  - rewrite Z.div_add, (Z.div_small (w mod 256)) by (try lia; apply Z.mod_pos_bound; lia).
    apply IH.
Qed.

Lemma store_be_16 w :
  store_be 16 w = store_be 8 (w / 2 ^ 64) ++ store_be 8 (wrap64 w).
Proof.
  unfold store_be, wrap64. rewrite (store_le_app 8 8). rewrite rev_app_distr.
  change (256 ^ Z.of_nat 8) with (2 ^ 64). f_equal.
  by rewrite <- (store_le_mod 8 w).
Qed.

Lemma store_be_length n w : length (store_be n w) = n.
Proof. unfold store_be. by rewrite length_rev, store_le_length. Qed.

(** ** Lemmas: the buffer *)

Lemma buffer_put_app (a b c b' : list Z) off :
  zlen a = off -> length b' = length b -> buffer_put (a ++ b ++ c) off b' = a ++ b' ++ c.
Proof.
  intros <- Hb. unfold buffer_put, zlen. rewrite Nat2Z.id, take_app_length, Hb.
  by rewrite drop_app_add, drop_app_length.
Qed.

(** Filling a buffer behind its first [off] bytes. *)
Lemma buffer_put_take buf off src :
  0 <= off -> off + zlen src <= zlen buf ->
  let b' := buffer_put buf off src in
  length b' = length buf /\
  take (Z.to_nat off + length src) b' = take (Z.to_nat off) buf ++ src.
Proof.
  intros H0 Hl. unfold buffer_put, zlen in *.
  assert (La : length (take (Z.to_nat off) buf) = Z.to_nat off) by (rewrite length_take; lia).
  split.
  - rewrite !length_app, La, length_drop. lia.
  - rewrite app_assoc. apply take_app_length'. by rewrite length_app, La.
Qed.

