(* ===== verification/Sha2Stream.v ===== *)
(** * The SHA-2 functions on data in pieces

    SHA-256, SHA-384 and SHA-512 are one program at two word sizes. The class
    [Sha2] holds what differs: the size of a word, the functions on words, the
    counter of bits. The routines over it ([h_transform], [h_update], [h_last])
    are those of sha2.c, and hash the padded message block by block, whatever
    pieces it comes in: [h_last_hash]. Sha512Correct and Sha256Correct show that
    the routines of the file are instances. *)
From S2P Require Import Prelude Sha2.

Class Sha2 (C : Type) := {
  wbytes : nat;                      (* bytes of a word *)
  nrounds : nat;
  consts : list Z;
  c_Sigma0 : Z -> Z; c_Sigma1 : Z -> Z; c_sigma0 : Z -> Z; c_sigma1 : Z -> Z;
  c_Ch : Z -> Z -> Z -> Z;
  c_rev : Z -> Z;                    (* reversal of the bytes of a word *)
  add_bits : C -> Z -> C;
  bits_of : Z -> C;                  (* the counter that stands for a number *)
  used : C -> Z;                     (* bytes of the buffer in use *)
  rev_bits : C -> C;
  put_len : C -> list Z -> list Z;   (* the counter, stored behind the padding *)
  rezero : Z }.                      (* bytes zeroed before the last block *)

Section Routines.
Context {C : Type} `{Sha2 C}.

Definition wd : Z := 8 * Z.of_nat wbytes.
Definition wrapw (x : Z) : Z := x mod 2 ^ wd.
Definition block : nat := 16 * wbytes.
Definition lenf : nat := 2 * wbytes.
Definition short : nat := block - lenf.

(** ** The compression function *)

Definition h_round (r : regs) (k w : Z) : regs :=
  let T1 := wrapw (r_h r + c_Sigma1 (r_e r) + c_Ch (r_e r) (r_f r) (r_g r) + k + w) in
  let T2 := wrapw (c_Sigma0 (r_a r) + Maj (r_a r) (r_b r) (r_c r)) in
  mkRegs (wrapw (T1 + T2)) (r_a r) (r_b r) (r_c r) (wrapw (r_d r + T1)) (r_e r) (r_f r) (r_g r).

Fixpoint h_load (n : nat) (bs : list Z) : list Z :=
  match n with O => [] | S n' => load_le (take wbytes bs) :: h_load n' (drop wbytes bs) end.
Definition h_store (ws : list Z) : list Z := flat_map (store_le wbytes) ws.

Fixpoint h_rounds_load (j : nat) (data : list Z) (r : regs) (W : list Z) : regs * list Z :=
  match data with
  | [] => (r, W)
  | x :: rest =>
      let w := c_rev x in
      h_rounds_load (S j) rest (h_round r (nth j consts 0) w) (<[j := w]> W)
  end.

Fixpoint h_rounds_expand (n j : nat) (r : regs) (W : list Z) : regs * list Z :=
  match n with
  | O => (r, W)
  | S n' =>
      let at_ i := nth (i mod 16)%nat W 0 in
      let s0 := c_sigma0 (at_ (j + 1)%nat) in
      let s1 := c_sigma1 (at_ (j + 14)%nat) in
      let w := wrapw (at_ j + wrapw (wrapw (s1 + at_ (j + 9)%nat) + s0)) in
      h_rounds_expand n' (S j) (h_round r (nth j consts 0) w) (<[(j mod 16)%nat := w]> W)
  end.

Definition h_transform (c : Ctx C) (data : list Z) : Ctx C :=
  let W := h_load 16 (buffer c) in
  let '(r, W) := h_rounds_load 0 (h_load 16 data) (regs_of (state c)) W in
  let '(r, W) := h_rounds_expand (nrounds - 16) 16 r W in
  mkCtx (zip_with (fun x y => wrapw (x + y)) (state c) (regs_list r)) (bitcount c) (h_store W).

(** ** Pieces *)

Fixpoint h_update_blocks (fuel : nat) (c : Ctx C) (data : list Z) : Ctx C * list Z :=
  match fuel with
  | O => (c, data)
  | S f =>
      if bool_decide (zlen data >= Z.of_nat block)
      then
        let c := h_transform c (take block data) in
        h_update_blocks f
          (mkCtx (state c) (add_bits (bitcount c) (Z.shiftl (Z.of_nat block) 3)) (buffer c))
          (drop block data)
      else (c, data)
  end.

Definition h_update_tail (c : Ctx C) (data : list Z) : Ctx C :=
  let '(c, data) := h_update_blocks (length data) c data in
  if bool_decide (zlen data > 0)
  then mkCtx (state c) (add_bits (bitcount c) (Z.shiftl (zlen data) 3)) (buffer_put (buffer c) 0 data)
  else c.

Definition h_update (c : Ctx C) (data : list Z) : Ctx C :=
  let len := zlen data in
  if bool_decide (len = 0) then c
  else
    let usedspace := used (bitcount c) in
    if bool_decide (usedspace > 0)
    then
      let freespace := Z.of_nat block - usedspace in
      if bool_decide (len >= freespace)
      then
        let buf := buffer_put (buffer c) usedspace (take (Z.to_nat freespace) data) in
        let c := mkCtx (state c) (add_bits (bitcount c) (Z.shiftl freespace 3)) buf in
        h_update_tail (h_transform c buf) (drop (Z.to_nat freespace) data)
      else
        mkCtx (state c) (add_bits (bitcount c) (Z.shiftl len 3)) (buffer_put (buffer c) usedspace data)
    else h_update_tail c data.

Definition h_last (c : Ctx C) : Ctx C :=
  let usedspace := used (bitcount c) in
  let bc := rev_bits (bitcount c) in
  let c := mkCtx (state c) bc (buffer c) in
  let c :=
    if bool_decide (usedspace > 0)
    then
      let buf := buffer_put (buffer c) usedspace [0x80] in
      let usedspace := usedspace + 1 in
      if bool_decide (usedspace <= Z.of_nat short)
      then mkCtx (state c) bc (zero_range buf usedspace (Z.of_nat short - usedspace))
      else
        let buf := if bool_decide (usedspace < Z.of_nat block)
                   then zero_range buf usedspace (Z.of_nat block - usedspace) else buf in
        let c := h_transform (mkCtx (state c) bc buf) buf in
        mkCtx (state c) bc (zero_range (buffer c) 0 rezero)
    else mkCtx (state c) bc (buffer_put (zero_range (buffer c) 0 (Z.of_nat short)) 0 [0x80]) in
  let buf := put_len bc (buffer c) in
  h_transform (mkCtx (state c) bc buf) buf.

(** ** The hash of a message *)

(** One block absorbed into a hash value. *)
Definition compress (st : list Z) (blk : list Z) : list Z :=
  let '(r, W) := h_rounds_load 0 (h_load 16 blk) (regs_of st) (replicate 16 0) in
  let '(r, _) := h_rounds_expand (nrounds - 16) 16 r W in
  zip_with (fun x y => wrapw (x + y)) st (regs_list r).

Fixpoint absorb (n : nat) (st : list Z) (msg : list Z) : list Z :=
  match n with
  | O => st
  | S n' => absorb n' (compress st (take block msg)) (drop block msg)
  end.

Definition pad (msg : list Z) : list Z :=
  msg ++ 0x80 :: replicate (Z.to_nat ((Z.of_nat short - 1 - zlen msg) mod Z.of_nat block)) 0
      ++ store_be lenf (8 * zlen msg).

(** The hash value, from the initial value [iv]. *)
Definition hash_words (iv msg : list Z) : list Z := absorb (length (pad msg) / block) iv (pad msg).

(** The bit count has the size of the length field. *)
Definition h_fits (msg : list Z) : Prop := 8 * zlen msg < 256 ^ Z.of_nat lenf.
End Routines.

(** What the instances promise of the counter. *)
Class Sha2Count (C : Type) `{Sha2 C} : Prop := {
  wbytes_pos : (2 <= wbytes)%nat;
  add_bits_of : forall x n, 0 <= x -> 0 <= n < 2 ^ 64 -> x + n < 256 ^ Z.of_nat lenf ->
    add_bits (bits_of x) n = bits_of (x + n);
  used_of : forall x, 0 <= x -> used (bits_of (8 * x)) = x mod Z.of_nat block;
  put_len_of : forall x q r, 0 <= x < 256 ^ Z.of_nat lenf -> length q = short -> length r = lenf ->
    put_len (rev_bits (bits_of x)) (q ++ r) = q ++ store_be lenf x;
  rezero_bounds : Z.of_nat short <= rezero <= Z.of_nat block }.

Section Theory.
Context {C : Type} `{Sha2Count C}.
Abbreviation blk := (Z.of_nat block).

Lemma block_eq : block = (short + lenf)%nat /\ (0 < short)%nat /\ (0 < lenf)%nat /\ (lenf < short)%nat.
Proof. unfold short, block, lenf. pose proof wbytes_pos. lia. Qed.

(** ** The compression function *)

Lemma h_store_length ws : length (h_store ws) = (wbytes * length ws)%nat.
Proof.
  induction ws as [|w ws IH]; [by rewrite Nat.mul_0_r|]. unfold h_store in *. cbn [flat_map].
  rewrite length_app, store_le_length, IH. cbn. lia.
Qed.
Lemma h_load_length n bs : length (h_load n bs) = n.
Proof. revert bs. induction n as [|n IH]; intros bs; cbn; [done|]. by rewrite IH. Qed.

Lemma h_rounds_load_spec j data r W :
  (j + length data = length W)%nat ->
  h_rounds_load j data r W
  = (fst (h_rounds_load j data r (replicate (j + length data) 0)), take j W ++ (c_rev <$> data)).
Proof.
  enough (Hg : forall data j r W W', (j + length data = length W)%nat ->
    fst (h_rounds_load j data r W) = fst (h_rounds_load j data r W') /\
    snd (h_rounds_load j data r W) = take j W ++ (c_rev <$> data)).
  { intros Hj. destruct (Hg data j r W (replicate (j + length data) 0) Hj) as [E1 E2].
    rewrite <- E1, <- E2. by destruct (h_rounds_load j data r W). }
  clear. induction data as [|x data IH]; intros j r W W' Hj; cbn [h_rounds_load].
  - split; [done|]. cbn in Hj. cbn. rewrite app_nil_r, take_ge; [done|lia].
  - cbn in Hj. destruct (IH (S j) (h_round r (nth j consts 0) (c_rev x))
      (<[j := c_rev x]> W) (<[j := c_rev x]> W')) as [E1 E2].
    { rewrite length_insert. lia. }
    split; [exact E1|]. rewrite E2. cbn. rewrite cons_middle, app_assoc. f_equal.
    rewrite (take_S_r _ j (c_rev x)) by (apply list_lookup_insert_eq; lia).
    by rewrite take_insert_ge.
Qed.

Lemma h_rounds_expand_length n j r W : length (snd (h_rounds_expand n j r W)) = length W.
Proof.
  revert j r W. induction n as [|n IH]; intros j r W; [done|]. cbn [h_rounds_expand].
  by rewrite IH, length_insert.
Qed.

(** The hash value depends on the block only, not on what the buffer held. *)
Lemma h_transform_state c data :
  state (h_transform c data) = compress (state c) data /\
  bitcount (h_transform c data) = bitcount c /\
  length (buffer (h_transform c data)) = block.
Proof.
  unfold h_transform, compress.
  pose proof (h_rounds_load_spec 0 (h_load 16 data) (regs_of (state c))
    (h_load 16 (buffer c)) ltac:(by rewrite !h_load_length)) as E1.
  pose proof (h_rounds_load_spec 0 (h_load 16 data) (regs_of (state c))
    (replicate 16 0) ltac:(by rewrite !h_load_length)) as E2.
  rewrite h_load_length in E1, E2. rewrite !take_0 in E1, E2.
  change (0 + 16)%nat with 16%nat in E1, E2.
  set (r0 := fst (h_rounds_load 0 (h_load 16 data) (regs_of (state c)) (replicate 16 0))) in *.
  rewrite E1, E2. clear E1 E2. clearbody r0. rewrite !app_nil_l.
  pose proof (h_rounds_expand_length (nrounds - 16) 16 r0 (c_rev <$> h_load 16 data)) as L.
  destruct (h_rounds_expand (nrounds - 16) 16 r0 (c_rev <$> h_load 16 data)) as [r W].
  cbn [fst snd state bitcount buffer] in L |- *. split_and!; [reflexivity|reflexivity|].
  rewrite h_store_length, L, length_fmap, h_load_length. unfold block. lia.
Qed.

Definition words_ok (st : list Z) : Prop := Forall (fun w => 0 <= w < 2 ^ wd) st.

Lemma compress_ok st b : words_ok (compress st b).
Proof.
  unfold compress.
  destruct (h_rounds_load _ _ _ _) as [r W]. destruct (h_rounds_expand _ _ _ _) as [r' W'].
  generalize (regs_list r'). induction st as [|x st IH]; intros l; [constructor|].
  destruct l; cbn; [constructor|]. constructor; [|apply IH].
  unfold wrapw. apply Z.mod_pos_bound, Z.pow_pos_nonneg; [lia|unfold wd; lia].
Qed.
Lemma compress_length st b : length (compress st b) = Nat.min (length st) 8.
Proof.
  unfold compress. destruct (h_rounds_load _ _ _ _) as [r W].
  destruct (h_rounds_expand _ _ _ _) as [r' W']. by rewrite length_zip_with.
Qed.

Lemma absorb_snoc k st m b :
  length m = (block * k)%nat -> length b = block -> absorb (S k) st (m ++ b) = compress (absorb k st m) b.
Proof.
  pose proof block_eq as (Hb0 & _). revert st m. induction k as [|k IH]; intros st m Hm Hb.
  - destruct m; [|cbn in Hm; lia]. cbn [absorb app]. rewrite take_ge by lia. reflexivity.
  - cbn [absorb]. rewrite take_app_le, drop_app_le by lia.
    rewrite <- IH by (rewrite ?length_drop; lia). reflexivity.
Qed.
Lemma absorb_ok n st msg : words_ok (absorb (S n) st msg).
Proof.
  revert st msg. induction n as [|n IH]; intros st msg; [apply compress_ok|].
  change (absorb (S (S n)) st msg) with (absorb (S n) (compress st (take block msg)) (drop block msg)).
  apply IH.
Qed.
Lemma absorb_length n st msg : length st = 8%nat -> length (absorb n st msg) = 8%nat.
Proof.
  revert st msg. induction n as [|n IH]; intros st msg Hst; [done|]. cbn [absorb].
  apply IH. rewrite compress_length. lia.
Qed.

(** The compression function is used through its lemmas only. *)
#[local] Opaque h_transform compress.

(** ** Representation of a message by a context *)

Context (iv : list Z).

(** The blocks [m0] are absorbed, the rest [p] waits in the buffer. *)
Record pending (c : Ctx C) (m0 p : list Z) (k : nat) : Prop := {
  pd_len : length m0 = (block * k)%nat;
  pd_short : (length p < block)%nat;
  pd_state : state c = absorb k iv m0;
  pd_count : bitcount c = bits_of (8 * zlen (m0 ++ p));
  pd_buf : length (buffer c) = block;
  pd_rest : take (length p) (buffer c) = p
}.

Definition repr (c : Ctx C) (msg : list Z) : Prop := exists m0 p k, msg = m0 ++ p /\ pending c m0 p k.

Lemma used_pending c m0 p k : pending c m0 p k -> used (bitcount c) = zlen p.
Proof.
  intros [Hl Hs _ Hc _ _]. rewrite Hc, used_of by apply zlen_nonneg.
  rewrite zlen_app. unfold zlen. rewrite Hl, Nat2Z.inj_mul, Z.add_comm, Z.mul_comm, Z_mod_plus_full.
  apply Z.mod_small. lia.
Qed.

Lemma init_pending c : state c = iv -> bitcount c = bits_of 0 -> length (buffer c) = block -> pending c [] [] 0.
Proof. intros Hs Hc Hb. pose proof block_eq. split; [cbn [length]; lia..|done|done|done|done]. Qed.

(** ** Absorption *)

(** A full block, wherever its bytes lie, moves from pending to absorbed. *)
Lemma transform_pending (c c1 : Ctx C) m0 k b :
  length m0 = (block * k)%nat -> length b = block -> state c = absorb k iv m0 ->
  state c1 = compress (state c) b -> bitcount c1 = bits_of (8 * zlen (m0 ++ b)) ->
  length (buffer c1) = block ->
  pending c1 (m0 ++ b) [] (S k).
Proof.
  intros Hl Hb Hs E Hbc Hbuf. pose proof block_eq. split; cbn [length take].
  - rewrite length_app. lia.
  - lia.
  - rewrite E, Hs. by rewrite absorb_snoc.
  - by rewrite app_nil_r.
  - done.
  - done.
Qed.

(** Counting the bits of further bytes. *)
Lemma count_more (m d : list Z) : h_fits (m ++ d) -> zlen d <= blk -> blk < 2 ^ 60 ->
  add_bits (bits_of (8 * zlen m)) (Z.shiftl (zlen d) 3) = bits_of (8 * zlen (m ++ d)).
Proof.
  unfold h_fits. rewrite zlen_app. intros Hf Hd Hb. rewrite Z.shiftl_mul_pow2 by lia.
  pose proof (zlen_nonneg m). pose proof (zlen_nonneg d).
  rewrite add_bits_of; [f_equal; lia|lia..].
Qed.

Hypothesis block_small : blk < 2 ^ 60.

Lemma update_blocks_pending fuel c m0 k data :
  pending c m0 [] k -> (length data <= fuel)%nat -> h_fits (m0 ++ data) ->
  exists m1 rest k', m0 ++ data = m1 ++ rest /\ (length rest < block)%nat /\
    snd (h_update_blocks fuel c data) = rest /\
    pending (fst (h_update_blocks fuel c data)) m1 [] k'.
Proof.
  pose proof block_eq as (Hbe & Hbp & _).
  revert c m0 k data. induction fuel as [|f IH]; intros c m0 k data Hp Hf Hfit.
  { exists m0, data, k. destruct data; [|cbn in Hf; lia]. split_and!; [done|cbn [length]; lia|done|exact Hp]. }
  cbn [h_update_blocks]. case_bool_decide as Hge.
  - unfold zlen in Hge.
    assert (Lb : length (take block data) = block) by (rewrite length_take; lia).
    destruct (h_transform_state c (take block data)) as (Es & Ec & El).
    revert Es Ec El. generalize (h_transform c (take block data)). intros x Es Ec El.
    edestruct (IH (mkCtx (state x) (add_bits (bitcount x) (Z.shiftl blk 3)) (buffer x))
      (m0 ++ take block data) (S k) (drop block data)) as (m1 & rest & k' & E & Hr & H1 & H2).
    + eapply transform_pending; [apply Hp|exact Lb|apply Hp|exact Es| |exact El].
      cbn [bitcount]. rewrite Ec, (pd_count _ _ _ _ Hp), app_nil_r.
      assert (Ez : zlen (take block data) = blk) by (unfold zlen; by rewrite Lb).
      rewrite <- Ez. apply count_more; [|lia|done].
      revert Hfit. unfold h_fits. rewrite !zlen_app. unfold zlen in *. lia.
    + rewrite length_drop. lia.
    + rewrite <- app_assoc, take_drop. exact Hfit.
    + exists m1, rest, k'. split_and!; [|done|exact H1|exact H2].
      rewrite <- E, <- app_assoc. by rewrite take_drop.
  - exists m0, data, k. unfold zlen in Hge. split_and!; [done|lia|done|exact Hp].
Qed.

(** Saving left-over bytes behind what the buffer already holds. *)
Lemma put_pending c m0 p k d bc :
  pending c m0 p k -> (length (p ++ d) < block)%nat -> h_fits (m0 ++ p ++ d) ->
  bc = add_bits (bitcount c) (Z.shiftl (zlen d) 3) ->
  pending (mkCtx (state c) bc (buffer_put (buffer c) (zlen p) d)) m0 (p ++ d) k.
Proof.
  intros Hp Hs Hfit ->. destruct (Hp) as [Hl Hsh Hst Hc Hb Hr].
  pose proof Hs as Hs'. rewrite length_app in Hs'.
  destruct (buffer_put_take (buffer c) (zlen p) d) as [L T].
  { apply zlen_nonneg. }
  { unfold zlen. rewrite Hb. lia. }
  assert (Hz : Z.to_nat (zlen p) = length p) by (unfold zlen; lia). rewrite Hz in T.
  split; cbn [state bitcount buffer]; try done.
  - rewrite Hc, app_assoc. apply count_more; [by rewrite <- app_assoc|unfold zlen; lia|done].
  - by rewrite L.
  - rewrite length_app, T. by rewrite Hr.
Qed.

Lemma update_tail_repr c m0 k data :
  pending c m0 [] k -> h_fits (m0 ++ data) -> repr (h_update_tail c data) (m0 ++ data).
Proof.
  intros Hp Hfit. unfold h_update_tail.
  destruct (update_blocks_pending (length data) c m0 k data Hp) as
    (m1 & rest & k' & E & Hr & H1 & H2); [done|done|].
  destruct (h_update_blocks (length data) c data) as [c' rest']. cbn [fst snd] in H1, H2. subst rest'.
  rewrite E. case_bool_decide as Hz.
  - exists m1, rest, k'. split; [done|]. rewrite E in Hfit.
    exact (put_pending c' m1 [] k' rest _ H2 Hr Hfit eq_refl).
  - assert (rest = []) as -> by (apply zlen_nil_inv; lia).
    exists m1, [], k'. done.
Qed.

(** The buffer, filled to the end. *)
Lemma put_full (buf p d : list Z) :
  take (length p) buf = p -> (length p + length d)%nat = length buf -> buffer_put buf (zlen p) d = p ++ d.
Proof.
  intros Hr Hl. destruct (buffer_put_take buf (zlen p) d) as [L T].
  { apply zlen_nonneg. }
  { unfold zlen. lia. }
  rewrite <- (take_ge (buffer_put buf (zlen p) d) (Z.to_nat (zlen p) + length d)).
  - rewrite T. unfold zlen. by rewrite Nat2Z.id, Hr.
  - rewrite L. unfold zlen. lia.
Qed.

(** Absorbing data appends it to the message. *)
Lemma update_repr c msg data : repr c msg -> h_fits (msg ++ data) -> repr (h_update c data) (msg ++ data).
Proof.
  intros (m0 & p & k & -> & Hp) Hfit. unfold h_update.
  case_bool_decide as Hz.
  { assert (data = []) as -> by (apply zlen_nil_inv; lia). rewrite app_nil_r. by exists m0, p, k. }
  rewrite (used_pending _ _ _ _ Hp). rewrite <- app_assoc in *.
  case_bool_decide as Hu.
  2:{ assert (p = []) as -> by (apply zlen_nil_inv; lia). by apply update_tail_repr with k. }
  destruct (Hp) as [Hl Hsh Hst Hc Hb Hr].
  case_bool_decide as Hge.
  - set (n := Z.to_nat (blk - zlen p)). set (d := take n data).
    assert (Ln : n = (block - length p)%nat) by (unfold n, zlen; lia).
    assert (Ld : length d = n) by (unfold d; rewrite length_take; unfold zlen in Hge; lia).
    rewrite (put_full (buffer c) p d) by (done || lia).
    replace (m0 ++ p ++ data) with ((m0 ++ p ++ d) ++ drop n data)
      by (rewrite <- !app_assoc; unfold d; by rewrite take_drop).
    assert (Hfit' : h_fits ((m0 ++ p) ++ d)).
    { revert Hfit. unfold h_fits. rewrite !zlen_app. unfold zlen. rewrite Ld. unfold zlen in Hge. lia. }
    apply update_tail_repr with (S k).
    2:{ unfold d. rewrite <- !app_assoc, take_drop. exact Hfit. }
    set (c1 := mkCtx _ _ _). destruct (h_transform_state c1 (p ++ d)) as (Es & Ec & El).
    apply (transform_pending c1); [done|rewrite length_app; lia|done|exact Es| |exact El].
    rewrite Ec. unfold c1. cbn [bitcount]. rewrite Hc, app_assoc.
    replace (blk - zlen p) with (zlen d) by (unfold zlen; lia).
    apply count_more; [done|unfold zlen; lia|done].
  - exists m0, (p ++ data), k. split; [done|]. apply put_pending; try done.
    rewrite length_app. unfold zlen in *. lia.
Qed.

(** ** Padding and the final blocks *)

Lemma zero_range_app (a b c : list Z) off n :
  zlen a = off -> zlen b = n -> zero_range (a ++ b ++ c) off n = a ++ replicate (length b) 0 ++ c.
Proof.
  intros Ha <-. unfold zero_range.
  replace (Z.to_nat (zlen b)) with (length b) by (unfold zlen; lia).
  apply buffer_put_app; [done|by rewrite length_replicate].
Qed.

Definition length_field (msg : list Z) : list Z := store_be lenf (8 * zlen msg).
Lemma length_field_length msg : length (length_field msg) = lenf.
Proof. apply store_be_length. Qed.

(** The padding in terms of the bytes that are still pending. *)
Lemma pad_short m0 p k :
  length m0 = (block * k)%nat -> (length p < short)%nat ->
  pad (m0 ++ p) = m0 ++ (p ++ 0x80 :: replicate (short - 1 - length p) 0) ++ length_field (m0 ++ p).
Proof.
  pose proof block_eq. intros Hl Hp. unfold pad, length_field. rewrite <- !app_assoc. do 2 f_equal. cbn [app].
  do 3 f_equal. rewrite zlen_app. unfold zlen. rewrite Hl, Nat2Z.inj_mul.
  replace (Z.of_nat short - 1 - (blk * Z.of_nat k + Z.of_nat (length p)))
    with (Z.of_nat short - 1 - Z.of_nat (length p) + (- Z.of_nat k) * blk) by lia.
  rewrite Z_mod_plus_full, Z.mod_small by lia. lia.
Qed.

Lemma pad_long m0 p k :
  length m0 = (block * k)%nat -> (short <= length p < block)%nat ->
  pad (m0 ++ p) = (m0 ++ (p ++ 0x80 :: replicate (block - 1 - length p) 0)) ++
    replicate short 0 ++ length_field (m0 ++ p).
Proof.
  pose proof block_eq. intros Hl Hp. unfold pad, length_field. rewrite <- !app_assoc. do 2 f_equal. cbn [app].
  f_equal. rewrite app_assoc, <- replicate_add. do 2 f_equal.
  rewrite zlen_app. unfold zlen. rewrite Hl, Nat2Z.inj_mul.
  replace (Z.of_nat short - 1 - (blk * Z.of_nat k + Z.of_nat (length p)))
    with (blk + Z.of_nat short - 1 - Z.of_nat (length p) + (- Z.of_nat k - 1) * blk) by lia.
  rewrite Z_mod_plus_full, Z.mod_small by lia. lia.
Qed.

(** The buffer starts with the pending bytes. *)
Lemma pending_buffer c m0 p k :
  pending c m0 p k -> exists r, buffer c = p ++ r /\ length r = (block - length p)%nat.
Proof.
  intros [_ Hs _ _ Hb Hr]. exists (drop (length p) (buffer c)). split.
  - by rewrite <- Hr at 1; rewrite take_drop.
  - by rewrite length_drop, Hb.
Qed.

(** Splitting the unused part of the buffer. *)
Lemma split_at {A} (r : list A) n :
  (n <= length r)%nat -> exists a b, r = a ++ b /\ length a = n /\ length b = (length r - n)%nat.
Proof.
  intros Hn. exists (take n r), (drop n r). rewrite take_drop, length_take, length_drop. split_and!; [done|lia|done].
Qed.

Lemma first_pad_block c m0 p k n :
  pending c m0 p k -> (length p < n)%nat -> (n <= block)%nat ->
  exists r, zero_range (buffer_put (buffer c) (zlen p) [0x80]) (zlen p + 1) (Z.of_nat n - (zlen p + 1))
    = (p ++ 0x80 :: replicate (n - 1 - length p) 0) ++ r /\ length r = (block - n)%nat.
Proof.
  intros Hp Hn Hn'. destruct (pending_buffer _ _ _ _ Hp) as (r & -> & Lr).
  destruct r as [|x r]; [cbn [length] in Lr; lia|]. cbn [length] in Lr.
  change (p ++ x :: r) with (p ++ [x] ++ r).
  rewrite buffer_put_app by done.
  destruct (split_at r (n - 1 - length p)) as (a & b & -> & La & Lb); [lia|].
  exists b. replace (p ++ [128] ++ a ++ b) with ((p ++ [128]) ++ a ++ b) by by rewrite <- app_assoc.
  rewrite zero_range_app.
  - rewrite La. split; [|rewrite Lb; rewrite length_app in Lr; lia].
    rewrite <- !app_assoc. done.
  - rewrite zlen_app. done.
  - unfold zlen. lia.
Qed.

Section Finalisation.
Context (c : Ctx C) (m0 p : list Z) (k : nat).
Hypothesis Hp : pending c m0 p k.
Hypothesis Hf : h_fits (m0 ++ p).

(** What finalisation must establish of the context it returns. *)
Let finished : Prop :=
  exists n, length (pad (m0 ++ p)) = (block * S n)%nat /\ state (h_last c) = absorb (S n) iv (pad (m0 ++ p)).

(** The last call, on a buffer whose first bytes are ready. *)
Lemma final_transform st q r :
  length q = short -> length r = lenf ->
  let bc := rev_bits (bits_of (8 * zlen (m0 ++ p))) in
  let buf := put_len bc (q ++ r) in
  state (h_transform (mkCtx st bc buf) buf) = compress st (q ++ length_field (m0 ++ p)).
Proof.
  intros Hq Hr bc buf. rewrite (proj1 (h_transform_state _ _)). unfold buf, bc.
  rewrite put_len_of; [done| |done..]. pose proof (zlen_nonneg (m0 ++ p)). unfold h_fits in Hf. lia.
Qed.

Lemma last_block_length q : length q = short -> length (q ++ length_field (m0 ++ p)) = block.
Proof. intros Hq. pose proof block_eq. rewrite length_app, Hq, length_field_length. lia. Qed.

(** Room for the length behind the pending bytes. *)
Lemma last_short : 0 < zlen p -> zlen p + 1 <= Z.of_nat short -> finished.
Proof.
  pose proof block_eq. intros Hlo Hhi. unfold finished, h_last.
  rewrite (used_pending _ _ _ _ Hp), (pd_count _ _ _ _ Hp). cbn [state bitcount buffer].
  rewrite (bool_decide_true (zlen p > 0)), bool_decide_true by lia. cbn [state buffer].
  destruct (first_pad_block _ _ _ _ short Hp) as (r & E & Lr); [unfold zlen in *; lia..|].
  exists k. rewrite (pad_short m0 p k) by (try apply Hp; unfold zlen in *; lia).
  set (q := p ++ _) in *.
  assert (Hq : length q = short).
  { unfold q. rewrite length_app. cbn [length]. rewrite length_replicate. unfold zlen in *. lia. }
  pose proof (last_block_length q Hq) as Lb. split.
  - rewrite length_app, Lb, (pd_len _ _ _ _ Hp). lia.
  - rewrite E, final_transform by (done || lia). rewrite absorb_snoc by (apply Hp || done).
    by rewrite (pd_state _ _ _ _ Hp).
Qed.

(** The block the 1 bit completes when there is no room for the length. *)
Lemma second_to_last_block :
  Z.of_nat short < zlen p + 1 ->
  (if bool_decide (zlen p + 1 < blk)
   then zero_range (buffer_put (buffer c) (zlen p) [0x80]) (zlen p + 1) (blk - (zlen p + 1))
   else buffer_put (buffer c) (zlen p) [0x80])
  = p ++ 0x80 :: replicate (block - 1 - length p) 0.
Proof.
  intros Hlo. pose proof (pd_short _ _ _ _ Hp) as Hs. case_bool_decide as H2.
  - destruct (first_pad_block _ _ _ _ block Hp) as (r & E & Lr); [done|lia|].
    rewrite Nat.sub_diag in Lr. apply length_zero_iff_nil in Lr. subst r. rewrite app_nil_r in E. exact E.
  - unfold zlen in H2. replace (block - 1 - length p)%nat with O by lia.
    apply put_full; [apply Hp|]. rewrite (pd_buf _ _ _ _ Hp). cbn [length replicate]. lia.
Qed.

Lemma zeroed_buffer (buf : list Z) :
  length buf = block -> exists r, zero_range buf 0 rezero = replicate short 0 ++ r /\ length r = lenf.
Proof.
  pose proof block_eq. pose proof rezero_bounds. intros Hb.
  destruct (split_at buf (Z.to_nat rezero)) as (z & r & -> & Lz & Lr); [lia|].
  exists (replicate (Z.to_nat rezero - short) 0 ++ r).
  rewrite (zero_range_app [] z r) by (done || unfold zlen; rewrite Lz; lia).
  rewrite Hb in Lr. split.
  - rewrite Lz. replace (Z.to_nat rezero) with (short + (Z.to_nat rezero - short))%nat at 1 by lia.
    rewrite replicate_add. cbn [app]. by rewrite <- app_assoc.
  - rewrite length_app, length_replicate. lia.
Qed.

Lemma last_long : Z.of_nat short < zlen p + 1 -> finished.
Proof.
  pose proof block_eq. intros Hlo. unfold finished, h_last.
  rewrite (used_pending _ _ _ _ Hp), (pd_count _ _ _ _ Hp). cbn [state bitcount buffer].
  rewrite (bool_decide_true (zlen p > 0)), (bool_decide_false (zlen p + 1 <= Z.of_nat short)) by lia.
  rewrite second_to_last_block by done. pose proof (pd_short _ _ _ _ Hp) as Hs.
  exists (S k). rewrite (pad_long m0 p k) by (try apply Hp; unfold zlen in *; lia).
  set (b1 := p ++ _). assert (Hb1 : length b1 = block).
  { unfold b1. rewrite length_app. cbn [length]. rewrite length_replicate. lia. }
  set (bc := rev_bits _). destruct (h_transform_state (mkCtx (state c) bc b1) b1) as (Es & _ & El).
  revert Es El. generalize (h_transform (mkCtx (state c) bc b1) b1).
  intros x Es El. cbn [state buffer] in Es |- *.
  destruct (zeroed_buffer _ El) as (r & -> & Lr).
  pose proof (last_block_length (replicate short 0) (length_replicate short 0)) as Lb. split.
  - rewrite length_app, Lb, length_app, (pd_len _ _ _ _ Hp), Hb1. lia.
  - unfold bc. rewrite final_transform by (done || apply length_replicate).
    rewrite absorb_snoc; [|rewrite length_app, (pd_len _ _ _ _ Hp), Hb1; lia|exact Lb].
    f_equal. rewrite Es, absorb_snoc by (apply Hp || done). by rewrite (pd_state _ _ _ _ Hp).
Qed.

(** Nothing pending: the padding is a block of its own. *)
Lemma last_aligned : p = [] -> finished.
Proof.
  pose proof block_eq as (Hbe & Hsp & _). intros E. unfold finished, h_last.
  rewrite (used_pending _ _ _ _ Hp), (pd_count _ _ _ _ Hp). cbn [state bitcount buffer].
  rewrite bool_decide_false by (rewrite E; done). cbn [state buffer].
  exists k. rewrite (pad_short m0 p k) by (try apply Hp; rewrite E; cbn [length]; lia).
  set (q := p ++ _). assert (Eq : q = 128 :: replicate (short - 1) 0).
  { unfold q. rewrite E. cbn [length app]. by rewrite Nat.sub_0_r. }
  assert (Hq : length q = short) by (rewrite Eq; cbn [length]; rewrite length_replicate; lia).
  clearbody q.
  destruct (split_at (buffer c) short) as (z & r & Ez & Lz & Lr); [rewrite (pd_buf _ _ _ _ Hp); lia|].
  assert (Eb : buffer_put (zero_range (buffer c) 0 (Z.of_nat short)) 0 [128] = q ++ r).
  { rewrite Ez, Eq. rewrite (zero_range_app [] z r) by (done || unfold zlen; rewrite Lz; done).
    rewrite Lz. replace short with (S (short - 1)) at 1 by lia.
    exact (buffer_put_app [] [0] (replicate (short - 1) 0 ++ r) [128] 0 eq_refl eq_refl). }
  rewrite (pd_buf _ _ _ _ Hp) in Lr. rewrite Eb.
  pose proof (last_block_length q Hq) as Lb. split.
  - rewrite length_app, Lb, (pd_len _ _ _ _ Hp). lia.
  - rewrite final_transform by (done || lia).
    rewrite absorb_snoc by (apply Hp || done). by rewrite (pd_state _ _ _ _ Hp).
Qed.

Lemma last_state : finished.
Proof.
  destruct (decide (p = [])) as [E|Hne]; [by apply last_aligned|].
  assert (0 < zlen p) by (destruct p; [done|]; rewrite zlen_cons; pose proof (zlen_nonneg l); lia).
  destruct (decide (zlen p + 1 <= Z.of_nat short)); [by apply last_short|apply last_long; lia].
Qed.
End Finalisation.

(** Finalisation hashes the message. *)
Lemma h_last_hash c msg : repr c msg -> h_fits msg ->
  state (h_last c) = hash_words iv msg /\ words_ok (hash_words iv msg).
Proof.
  pose proof block_eq. intros (m0 & p & k & -> & Hp) Hf.
  destruct (last_state c m0 p k Hp Hf) as (n & Ln & Es). unfold hash_words. rewrite Es, Ln.
  rewrite (Nat.mul_comm block), Nat.div_mul by lia. split; [done|apply absorb_ok].
Qed.

Lemma hash_words_length msg : length iv = 8%nat -> length (hash_words iv msg) = 8%nat.
Proof. apply absorb_length. Qed.
End Theory.
