(* ===== verification/Sha2Fips.v ===== *)
(** * SHA-2 as FIPS 180-4 defines it

    The standard's own definition, for both word sizes: rotations as
    arithmetic, the constants from the roots of the first primes, the whole
    message schedule, eight working variables. The code keeps 16 words of the
    schedule in a ring that overlays its buffer, and reverses bytes on the way
    in; what implements the functions of the standard ([Implements]) computes
    the same hash. *)
From S2P Require Import Prelude Sha2 Sha2Stream.

(** ** The standard *)

(** Bytes of a word, rounds, constants; the rotations of the four functions
    (and the shift, the last of each of the small ones). *)
Record fips := {
  f_word : nat; f_rounds : nat; f_K : list Z;
  f_Sum0 : Z * Z * Z; f_Sum1 : Z * Z * Z; f_sig0 : Z * Z * Z; f_sig1 : Z * Z * Z }.

Definition byte (x : Z) : Prop := 0 <= x < 256.

(** The first 80 primes; the first [w] bits of the fractional parts of cube
    and square roots. *)
Definition is_prime (p : nat) : bool :=
  forallb (fun d => negb (p mod d =? 0)%nat) (List.seq 2 (p - 2)).
Definition primes : list Z := Z.of_nat <$> List.filter is_prime (List.seq 2 408).
Fixpoint cube_root (bits : nat) (x acc : Z) : Z :=
  match bits with
  | O => acc
  | S b => let r := acc + 2 ^ Z.of_nat b in
           cube_root b x (if r * r * r <=? x then r else acc)
  end.
Definition cube_fraction (w p : Z) : Z := cube_root (Z.to_nat (w + 8)) (p * 2 ^ (3 * w)) 0 mod 2 ^ w.
Definition square_fraction (w p : Z) : Z := Z.sqrt (p * 2 ^ (2 * w)) mod 2 ^ w.

Section Standard.
Context (F : fips).

Definition f_w : Z := 8 * Z.of_nat (f_word F).
Definition word (x : Z) : Prop := 0 <= x < 2 ^ f_w.
Definition ROTR (n x : Z) : Z := x / 2 ^ n + (x mod 2 ^ n) * 2 ^ (f_w - n).
Definition SHR (n x : Z) : Z := x / 2 ^ n.
Definition fips_Ch (x y z : Z) : Z := Z.lxor (Z.land x y) (Z.ldiff z x).
Definition fips_Maj (x y z : Z) : Z := Z.lxor (Z.land x y) (Z.lxor (Z.land x z) (Z.land y z)).
Definition fips_Sum (t : Z * Z * Z) (x : Z) : Z :=
  let '(a, b, c) := t in Z.lxor (ROTR a x) (Z.lxor (ROTR b x) (ROTR c x)).
Definition fips_sig (t : Z * Z * Z) (x : Z) : Z :=
  let '(a, b, c) := t in Z.lxor (ROTR a x) (Z.lxor (ROTR b x) (SHR c x)).

(** The words of a block, and the schedule. *)
Definition be_word (bs : list Z) : Z := foldl (fun w b => 256 * w + b) 0 bs.
Fixpoint be_words (n : nat) (bs : list Z) : list Z :=
  match n with O => [] | S n' => be_word (take (f_word F) bs) :: be_words n' (drop (f_word F) bs) end.

Definition next_word (W : list Z) : Z :=
  let at_ k := nth (length W - k) W 0 in
  (fips_sig (f_sig1 F) (at_ 2%nat) + at_ 7%nat + fips_sig (f_sig0 F) (at_ 15%nat) + at_ 16%nat) mod 2 ^ f_w.
Fixpoint fips_schedule (n : nat) (W : list Z) : list Z :=
  match n with O => W | S n' => fips_schedule n' (W ++ [next_word W]) end.

Definition fips_round (v : regs) (kw : Z * Z) : regs :=
  let '(mkRegs a b c d e f g h) := v in
  let T1 := h + fips_Sum (f_Sum1 F) e + fips_Ch e f g + kw.1 + kw.2 in
  let T2 := fips_Sum (f_Sum0 F) a + fips_Maj a b c in
  mkRegs ((T1 + T2) mod 2 ^ f_w) a b c ((d + T1) mod 2 ^ f_w) e f g.

Definition fips_block (H : list Z) (M : list Z) : list Z :=
  let W := fips_schedule (f_rounds F - 16) (be_words 16 M) in
  zip_with (fun x y => (x + y) mod 2 ^ f_w) H (regs_list (foldl fips_round (regs_of H) (zip (f_K F) W))).

Fixpoint fips_blocks (n : nat) (H : list Z) (msg : list Z) : list Z :=
  match n with
  | O => H
  | S n' => fips_blocks n' (fips_block H (take (16 * f_word F) msg)) (drop (16 * f_word F) msg)
  end.

(** A 1 bit, the smallest number of 0 bits that leaves room for the length at
    the end of a block, and the length in bits. *)
Definition fips_pad (msg : list Z) : list Z :=
  msg ++ 0x80 :: replicate (Z.to_nat ((14 * Z.of_nat (f_word F) - 1 - zlen msg) mod (16 * Z.of_nat (f_word F)))) 0
      ++ store_be (2 * f_word F) (8 * zlen msg).

(** The digest: the first [n] bytes of the hash value. *)
Definition fips_digest (iv : list Z) (n : nat) (msg : list Z) : list Z :=
  take n (flat_map (store_be (f_word F)) (fips_blocks (length (fips_pad msg) / (16 * f_word F)) iv (fips_pad msg))).
End Standard.

(** ** What implements it *)

Class Implements (F : fips) {C : Type} (A : Sha2 C) : Prop := {
  im_word : f_word F = wbytes;
  im_rounds : f_rounds F = nrounds;
  im_K : f_K F = consts;
  im_len : length consts = nrounds;
  im_sixteen : (16 <= nrounds)%nat;
  im_Sum0 : forall x, word F x -> c_Sigma0 x = fips_Sum F (f_Sum0 F) x;
  im_Sum1 : forall x, word F x -> c_Sigma1 x = fips_Sum F (f_Sum1 F) x;
  im_sig0 : forall x, word F x -> c_sigma0 x = fips_sig F (f_sig0 F) x;
  im_sig1 : forall x, word F x -> c_sigma1 x = fips_sig F (f_sig1 F) x;
  im_Ch : forall x y z, word F x -> word F z -> c_Ch x y z = fips_Ch x y z;
  im_rev_word : forall x, word F (c_rev x);
  im_rev : forall bs, length bs = wbytes -> Forall byte bs -> c_rev (load_le bs) = be_word bs }.

(** ** Functions on words *)

Lemma lor_high n a b : 0 <= n -> 0 <= a < 2 ^ n -> Z.lor a (b * 2 ^ n) = a + b * 2 ^ n.
Proof.
  intros Hn Ha. rewrite <- Z.lxor_lor, <- Z.add_nocarry_lxor; [done|..];
    apply Z.bits_inj'; intros i Hi; rewrite Z.land_spec, Z.bits_0;
    (destruct (decide (i < n)); [rewrite Z.mul_pow2_bits_low by lia; by rewrite andb_false_r|]);
    rewrite <- (Z.mod_small a (2 ^ n)) by done; by rewrite Z.mod_pow2_bits_high by lia.
Qed.

Section Functions.
Context (F : fips).

Lemma rotate_ROTR n x : 0 < n < f_w F -> word F x ->
  Z.lor (Z.shiftr x n) (Z.shiftl x (f_w F - n) mod 2 ^ f_w F) = ROTR F n x.
Proof.
  intros Hn Hx. unfold ROTR, word in *. set (w := f_w F) in *.
  rewrite Z.shiftr_div_pow2, Z.shiftl_mul_pow2 by lia.
  assert (Hp : 2 ^ w = 2 ^ n * 2 ^ (w - n)) by (rewrite <- Z.pow_add_r by lia; f_equal; lia).
  assert (0 < 2 ^ n) by (apply Z.pow_pos_nonneg; lia).
  assert (0 < 2 ^ (w - n)) by (apply Z.pow_pos_nonneg; lia).
  rewrite Hp at 1. rewrite Z.mul_mod_distr_r by lia. apply lor_high; [lia|].
  split; [apply Z.div_pos; lia|]. apply Z.div_lt_upper_bound; lia.
Qed.

Lemma Ch_fips x y z : word F x -> word F z ->
  Z.lxor (Z.land x y) (Z.land (2 ^ f_w F - 1 - x) z) = fips_Ch x y z.
Proof.
  intros Hx Hz. unfold fips_Ch. f_equal. rewrite Z.ldiff_land, (Z.land_comm z).
  unfold word in *. assert (Hw : 0 <= f_w F) by (unfold f_w; lia). set (w := f_w F) in *.
  assert (E : 2 ^ w - 1 - x = Z.land (Z.lnot x) (Z.ones w)).
  { rewrite Z.land_ones by lia. unfold Z.lnot.
    replace (Z.pred (- x)) with (2 ^ w - 1 - x + (-1) * 2 ^ w) by lia.
    rewrite Z_mod_plus_full, Z.mod_small; lia. }
  rewrite E, <- Z.land_assoc. f_equal. rewrite Z.land_comm, Z.land_ones by lia.
  by apply Z.mod_small.
Qed.
Lemma Maj_fips x y z : Maj x y z = fips_Maj x y z.
Proof. unfold Maj, fips_Maj. by rewrite Z.lxor_assoc. Qed.

Lemma word_mod x : word F (x mod 2 ^ f_w F).
Proof. apply Z.mod_pos_bound, Z.pow_pos_nonneg; [lia|unfold f_w; lia]. Qed.
Lemma word_0 : word F 0.
Proof. split; [done|]. apply Z.pow_pos_nonneg; [lia|unfold f_w; lia]. Qed.
Lemma nth_word L i : Forall (word F) L -> word F (nth i L 0).
Proof.
  intros HL. destruct (nth_in_or_default i L 0) as [Hin| ->]; [|apply word_0].
  rewrite Forall_forall in HL. apply HL. by apply list_elem_of_In.
Qed.

(** *** Bytes *)

Lemma store_load bs : Forall byte bs -> store_le (length bs) (load_le bs) = bs.
Proof.
  induction 1 as [|b bs Hb _ IH]; [done|]. cbn [length store_le load_le]. unfold byte in Hb. f_equal.
  - rewrite (Z.mul_comm 256), Z_mod_plus_full. by apply Z.mod_small.
  - rewrite (Z.mul_comm 256), Z.div_add, (Z.div_small b) by lia. exact IH.
Qed.
Lemma load_store n w : 0 <= w < 256 ^ Z.of_nat n -> load_le (store_le n w) = w.
Proof.
  revert w. induction n as [|n IH]; intros w Hw; cbn [store_le load_le].
  - change (256 ^ Z.of_nat 0) with 1 in Hw. lia.
  - rewrite Nat2Z.inj_succ, Z.pow_succ_r in Hw by lia. rewrite IH.
    + pose proof (Z.div_mod w 256). lia.
    + split; [apply Z.div_pos; lia|apply Z.div_lt_upper_bound; lia].
Qed.
Lemma load_bound bs : Forall byte bs -> 0 <= load_le bs < 256 ^ Z.of_nat (length bs).
Proof.
  induction 1 as [|b bs Hb _ IH]; [by split|]. cbn [length load_le]. unfold byte in Hb.
  rewrite Nat2Z.inj_succ, Z.pow_succ_r by lia. lia.
Qed.
Lemma be_word_rev bs : be_word bs = load_le (rev bs).
Proof.
  unfold be_word. induction bs as [|b bs IH] using rev_ind; [done|].
  rewrite foldl_snoc, rev_unit. cbn [load_le]. rewrite IH. lia.
Qed.
(** A function that swaps the bytes of a word turns the word the machine
    loads into the one of the standard. *)
Lemma rev_load (rv : Z -> Z) n bs : f_w F = 8 * Z.of_nat n ->
  (forall x, word F (rv x)) -> (forall x, word F x -> store_le n (rv x) = store_be n x) ->
  length bs = n -> Forall byte bs -> rv (load_le bs) = be_word bs.
Proof.
  intros Hw Hrw Hrs Hl Hb. unfold word in *. rewrite Hw in *.
  assert (E : 2 ^ (8 * Z.of_nat n) = 256 ^ Z.of_nat n) by (by rewrite Z.pow_mul_r by lia). rewrite E in *.
  rewrite be_word_rev, <- (load_store n (rv _)) by apply Hrw.
  pose proof (load_bound bs Hb) as Hlb. rewrite Hl in Hlb. rewrite Hrs by done. unfold store_be.
  rewrite <- Hl at 1. by rewrite store_load.
Qed.
Lemma store_le_bytes n w : Forall byte (store_le n w).
Proof.
  revert w. induction n as [|n IH]; intros w; cbn [store_le]; constructor; [|apply IH].
  apply Z.mod_pos_bound. lia.
Qed.
End Functions.

(** ** The rounds *)

Lemma zip_app_drop {A B} (ks : list A) (xs ys : list B) :
  zip ks (xs ++ ys) = zip ks xs ++ zip (drop (length xs) ks) ys.
Proof.
  revert ks. induction xs as [|x xs IH]; intros ks; cbn [app length]; [by destruct ks|].
  destruct ks as [|k ks]; [by destruct ys|]. cbn [zip zip_with drop app]. by rewrite IH.
Qed.
Lemma nth_insert (l : list Z) i k x : (i < length l)%nat ->
  nth k (<[i := x]> l) 0 = if decide (k = i) then x else nth k l 0.
Proof.
  intros Hi. rewrite !nth_lookup, list_lookup_insert. case_decide as E.
  - destruct E as [-> _]. by rewrite decide_True.
  - rewrite decide_False; [done|]. intros ->. by apply E.
Qed.

(** The ring holds the last 16 words of the schedule. *)
Definition ring (W L : list Z) : Prop := length W = 16%nat /\
  forall i, (length L - 16 <= i < length L)%nat -> nth (i mod 16) W 0 = nth i L 0.

Lemma ring_step W L x : ring W L -> (16 <= length L)%nat ->
  ring (<[(length L mod 16)%nat := x]> W) (L ++ [x]).
Proof.
  intros [HW Hr] HL. split; [by rewrite length_insert|]. rewrite length_app. cbn [length].
  intros i Hi. rewrite nth_insert by (rewrite HW; apply Nat.mod_upper_bound; lia).
  destruct (decide (i = length L)) as [->|Hne].
  - rewrite decide_True by done. by rewrite app_nth2, Nat.sub_diag by lia.
  - rewrite decide_False.
    + rewrite app_nth1 by lia. apply Hr. lia.
    + intros E. pose proof (Nat.div_mod i 16). pose proof (Nat.div_mod (length L) 16).
      pose proof (Nat.mod_upper_bound i 16). lia.
Qed.

(** A word of the ring, counted from the end of the schedule. *)
Lemma ring_at W L k j : ring W L -> (16 <= length L)%nat -> (1 <= k <= 16)%nat ->
  j = (length L - k + 16)%nat \/ j = (length L - k)%nat -> nth (j mod 16) W 0 = nth (length L - k) L 0.
Proof.
  intros [HW Hr] HL Hk Hj. rewrite <- Hr by lia.
  assert (E : (j mod 16 = (length L - k) mod 16)%nat); [|by rewrite E].
  destruct Hj as [Hj|Hj]; rewrite Hj; [|done].
  rewrite <- (Nat.Div0.mod_add (length L - k) 1 16). done.
Qed.

Section Implementation.
Context (F : fips) {C : Type} `{A : Sha2 C} `{I : !Implements F A}.

Lemma f_wd : wd = f_w F.
Proof. unfold wd, f_w. by rewrite im_word. Qed.
Lemma wrapw_f x : wrapw x = x mod 2 ^ f_w F.
Proof. unfold wrapw. by rewrite f_wd. Qed.

Definition regs_ok (r : regs) : Prop := Forall (word F) (regs_list r).

Lemma round_fips r k w : regs_ok r -> h_round r k w = fips_round F r (k, w) /\ regs_ok (h_round r k w).
Proof.
  destruct r as [a b c d e f g h]. unfold regs_ok, regs_list. cbn [r_a r_b r_c r_d r_e r_f r_g r_h].
  intros Hr.
  repeat match goal with H : Forall (word F) (_ :: _) |- _ => apply list.Forall_cons in H as [? H] end.
  unfold h_round, fips_round. cbn [r_a r_b r_c r_d r_e r_f r_g r_h fst snd]. rewrite !wrapw_f. split.
  - rewrite im_Sum0, im_Sum1, im_Ch, Maj_fips by done.
    f_equal; [by rewrite <- Zplus_mod|by rewrite Zplus_mod_idemp_r].
  - repeat first [apply Forall_cons_2|apply Forall_nil_2]; done || apply word_mod.
Qed.

Lemma K_drop j : (j < nrounds)%nat -> drop j consts = nth j consts 0 :: drop (S j) consts.
Proof.
  intros Hj. apply drop_S. destruct (lookup_lt_is_Some_2 consts j) as [x Hx]; [by rewrite im_len|].
  rewrite Hx. f_equal. symmetry. by apply nth_lookup_Some.
Qed.

Lemma rounds_load_fips data j r W : regs_ok r -> (j + length data <= nrounds)%nat ->
  (h_rounds_load j data r W).1 = foldl (fips_round F) r (zip (drop j consts) (c_rev <$> data)) /\
  regs_ok (h_rounds_load j data r W).1.
Proof.
  revert j r W. induction data as [|x data IH]; intros j r W Hr Hj; cbn [h_rounds_load].
  - by destruct (drop j consts).
  - cbn in Hj. rewrite (K_drop j) by lia. destruct (round_fips r (nth j consts 0) (c_rev x) Hr) as [E Hr'].
    rewrite fmap_cons. cbn [zip zip_with foldl]. rewrite <- E. apply IH; [done|lia].
Qed.

Lemma schedule_prefix n L : exists E, fips_schedule F n L = L ++ E /\ length E = n.
Proof.
  revert L. induction n as [|n IH]; intros L; cbn [fips_schedule].
  - exists []. by rewrite app_nil_r.
  - destruct (IH (L ++ [next_word F L])) as (E & -> & HE). exists (next_word F L :: E).
    rewrite <- app_assoc. split; [done|cbn; lia].
Qed.

Lemma expand_word W L : ring W L -> (16 <= length L)%nat -> Forall (word F) L ->
  let at_ i := nth (i mod 16)%nat W 0 in let j := length L in
  wrapw (at_ j + wrapw (wrapw (c_sigma1 (at_ (j + 14)%nat) + at_ (j + 9)%nat) +
    c_sigma0 (at_ (j + 1)%nat))) = next_word F L.
Proof.
  intros Hr HL Hw at_ j. unfold at_, j.
  rewrite (ring_at W L 16 (length L)), (ring_at W L 2 (length L + 14)),
    (ring_at W L 7 (length L + 9)), (ring_at W L 15 (length L + 1)) by (done || lia).
  rewrite im_sig0, im_sig1 by by apply nth_word. rewrite !wrapw_f.
  unfold next_word. rewrite Zplus_mod_idemp_l, Zplus_mod_idemp_r. f_equal. lia.
Qed.

Lemma rounds_expand_fips n r W L : ring W L -> (16 <= length L)%nat -> (length L + n <= nrounds)%nat ->
  Forall (word F) L -> regs_ok r ->
  (h_rounds_expand n (length L) r W).1 =
  foldl (fips_round F) r (zip (drop (length L) consts) (drop (length L) (fips_schedule F n L))).
Proof.
  revert r W L. induction n as [|n IH]; intros r W L Hr HL Hn Hw Hok; cbn [h_rounds_expand fips_schedule].
  - rewrite (drop_ge L) by lia. by destruct (drop (length L) consts).
  - rewrite (expand_word W L Hr HL Hw). set (w := next_word F L).
    destruct (schedule_prefix n (L ++ [w])) as (E & Es & _).
    rewrite (K_drop (length L)), Es, <- app_assoc, drop_app_length by lia. cbn [app zip zip_with foldl].
    destruct (round_fips r (nth (length L) consts 0) w Hok) as [<- Hok'].
    assert (Hlen : length (L ++ [w]) = S (length L)) by (rewrite length_app; cbn; lia).
    rewrite <- Hlen. rewrite (IH _ _ (L ++ [w])); [|by apply ring_step|lia..|  |done].
    + by rewrite Es, drop_app_length.
    + apply Forall_app. split; [done|]. apply Forall_singleton, word_mod.
Qed.

(** ** Blocks and messages *)

Lemma load_fips n bs : length bs = (wbytes * n)%nat -> Forall byte bs -> c_rev <$> h_load n bs = be_words F n bs.
Proof.
  revert bs. induction n as [|n IH]; intros bs Hl Hb; [done|]. cbn [h_load be_words]. rewrite im_word.
  rewrite fmap_cons, im_rev; [|rewrite length_take; lia|by apply Forall_take].
  rewrite IH; [done|rewrite length_drop; lia|by apply Forall_drop].
Qed.
Lemma be_words_length n bs : length (be_words F n bs) = n.
Proof. revert bs. induction n as [|n IH]; intros bs; [done|]. cbn. by rewrite IH. Qed.

Lemma compress_fips st b : length b = block -> Forall byte b -> length st = 8%nat -> Forall (word F) st ->
  compress st b = fips_block F st b.
Proof.
  intros Hl Hb Hs Hw. unfold compress, fips_block. rewrite im_K, im_rounds.
  pose proof im_sixteen as H16. assert (Hr : regs_ok (regs_of st)).
  { unfold regs_ok, regs_of, regs_list. cbn.
    repeat first [apply Forall_cons_2|apply Forall_nil_2]; by apply nth_word. }
  pose proof (h_load_length 16 b) as Hlw.
  destruct (rounds_load_fips (h_load 16 b) 0 (regs_of st) (replicate 16 0) Hr) as [E Hr']; [lia|].
  pose proof (h_rounds_load_spec 0 (h_load 16 b) (regs_of st) (replicate 16 0)) as Es.
  rewrite Hlw in Es. specialize (Es eq_refl).
  assert (Hlb : length b = (wbytes * 16)%nat) by (rewrite Hl; unfold block; lia).
  rewrite (load_fips 16 b) in E, Es by done. set (L := be_words F 16 b) in *.
  assert (HL : length L = 16%nat) by apply be_words_length.
  destruct (h_rounds_load 0 (h_load 16 b) (regs_of st) (replicate 16 0)) as [r W].
  injection Es as _ EW. cbn [take app] in EW. subst W.
  destruct (schedule_prefix (nrounds - 16) L) as (X & EX & HX).
  pose proof (rounds_expand_fips (nrounds - 16) r L L) as Ee. rewrite HL in Ee.
  destruct (h_rounds_expand (nrounds - 16) 16 r L) as [r' W']. cbn [fst] in *.
  rewrite Ee; [| |lia|lia| |done].
  - apply zip_with_ext; [intros x y; by rewrite wrapw_f|done|]. rewrite EX, zip_app_drop, HL, foldl_app, E, drop_0. done.
  - split; [done|]. intros i Hi. rewrite Nat.mod_small by lia. done.
  - unfold L. rewrite <- (load_fips 16 b) by done. apply Forall_fmap, Forall_forall.
    intros x _. apply im_rev_word.
Qed.

Lemma fips_block_ok st b : Forall (word F) (fips_block F st b) /\
  (length st = 8%nat -> length (fips_block F st b) = 8%nat).
Proof.
  unfold fips_block.
  match goal with |- context [regs_list ?x] => generalize x end. intros v.
  split; [|by intros E; rewrite length_zip_with, E].
  generalize (regs_list v). induction st as [|x st IH]; intros l; [constructor|].
  destruct l; cbn; constructor; [apply word_mod|apply IH].
Qed.

Lemma absorb_fips n st msg : length msg = (block * n)%nat -> Forall byte msg ->
  length st = 8%nat -> Forall (word F) st -> absorb n st msg = fips_blocks F n st msg.
Proof.
  revert st msg. induction n as [|n IH]; intros st msg Hl Hb Hs Hw; [done|].
  cbn [absorb fips_blocks]. rewrite im_word. fold block.
  rewrite compress_fips; [|rewrite length_take; lia|by apply Forall_take|done|done].
  destruct (fips_block_ok st (take block msg)) as [Hw' Hs'].
  apply IH; [rewrite length_drop; lia|by apply Forall_drop|by apply Hs'|done].
Qed.

Lemma pad_fips msg : pad msg = fips_pad F msg.
Proof.
  unfold pad, fips_pad. rewrite im_word. change (2 * wbytes)%nat with lenf.
  replace (14 * Z.of_nat wbytes - 1 - zlen msg) with (Z.of_nat short - 1 - zlen msg)
    by (unfold short, block, lenf; lia).
  by replace (16 * Z.of_nat wbytes) with (Z.of_nat block) by (unfold block; lia).
Qed.
Lemma pad_bytes msg : Forall byte msg -> Forall byte (pad msg).
Proof.
  intros Hb. unfold pad. apply Forall_app. split; [done|]. apply Forall_cons_2; [by split|].
  apply Forall_app. split; [by apply Forall_replicate|]. apply Forall_rev, store_le_bytes.
Qed.
Lemma pad_length msg : (0 < wbytes)%nat -> length (pad msg) = (block * (length (pad msg) / block))%nat.
Proof.
  intros Hp. assert (Hb0 : block <> O) by (unfold block; lia).
  assert (Hm : Z.of_nat (length (pad msg)) mod Z.of_nat block = 0).
  { unfold pad. rewrite length_app. cbn [length]. rewrite length_app, length_replicate, store_be_length.
    unfold zlen. rewrite Nat2Z.inj_add, Nat2Z.inj_succ, Nat2Z.inj_add, Z2Nat.id by (apply Z.mod_pos_bound; lia).
    set (n := Z.of_nat (length msg)). set (x := Z.of_nat short - 1 - n).
    pose proof (Z.div_mod x (Z.of_nat block)).
    assert (short + lenf = block)%nat by (unfold short, lenf, block; lia).
    replace (n + Z.succ (x mod Z.of_nat block + Z.of_nat lenf))
      with (0 + (1 - x / Z.of_nat block) * Z.of_nat block) by lia.
    by rewrite Z_mod_plus_full. }
  pose proof (Nat.div_mod (length (pad msg)) block Hb0).
  assert ((length (pad msg) mod block = 0)%nat); [|lia].
  apply Nat2Z.inj. by rewrite Nat2Z.inj_mod.
Qed.

(** What the code hashes is the digest of the standard. *)
Lemma hash_words_fips iv n msg : (0 < wbytes)%nat -> Forall byte msg -> length iv = 8%nat ->
  Forall (word F) iv -> take n (flat_map (store_be wbytes) (hash_words iv msg)) = fips_digest F iv n msg.
Proof.
  intros Hp Hb Hl Hw. unfold hash_words, fips_digest. rewrite im_word. fold block. rewrite <- pad_fips.
  rewrite absorb_fips; [done|by apply pad_length|by apply pad_bytes|done|done].
Qed.
End Implementation.
