(* ===== verification/Sha512.v ===== *)
(** * SHA-512 and SHA-384 (src/lib/sha/sha2.c)

    The hash behind the authentication tokens, as the file computes it on a
    little-endian host and without [SHA2_UNROLL_TRANSFORM]: 64-bit words are
    integers reduced modulo 2^64, [context->buffer] doubles as the message
    schedule [W512], and the context absorbs data in pieces of any size.
    SHA-384 differs in the initial value and in the length of the digest. *)
From S2P Require Import Prelude Sha2.

(** ** Words *)

Definition S64 (b x : Z) : Z := Z.lor (Z.shiftr x b) (shl64 x (64 - b)).
Definition Ch (x y z : Z) : Z := Z.lxor (Z.land x y) (Z.land (not64 x) z).
Definition Sigma0_512 (x : Z) : Z := Z.lxor (Z.lxor (S64 28 x) (S64 34 x)) (S64 39 x).
Definition Sigma1_512 (x : Z) : Z := Z.lxor (Z.lxor (S64 14 x) (S64 18 x)) (S64 41 x).
Definition sigma0_512 (x : Z) : Z := Z.lxor (Z.lxor (S64 1 x) (S64 8 x)) (R 7 x).
Definition sigma1_512 (x : Z) : Z := Z.lxor (Z.lxor (S64 19 x) (S64 61 x)) (R 6 x).

Fixpoint load_words (n : nat) (bs : list Z) : list Z :=
  match n with O => [] | S n' => load_le (take 8 bs) :: load_words n' (drop 8 bs) end.
Definition store_words (ws : list Z) : list Z := flat_map (store_le 8) ws.

(** ** Constants *)

Definition K512 : list Z :=
  [
    0x428a2f98d728ae22; 0x7137449123ef65cd; 0xb5c0fbcfec4d3b2f;
    0xe9b5dba58189dbbc; 0x3956c25bf348b538; 0x59f111f1b605d019;
    0x923f82a4af194f9b; 0xab1c5ed5da6d8118; 0xd807aa98a3030242;
    0x12835b0145706fbe; 0x243185be4ee4b28c; 0x550c7dc3d5ffb4e2;
    0x72be5d74f27b896f; 0x80deb1fe3b1696b1; 0x9bdc06a725c71235;
    0xc19bf174cf692694; 0xe49b69c19ef14ad2; 0xefbe4786384f25e3;
    0x0fc19dc68b8cd5b5; 0x240ca1cc77ac9c65; 0x2de92c6f592b0275;
    0x4a7484aa6ea6e483; 0x5cb0a9dcbd41fbd4; 0x76f988da831153b5;
    0x983e5152ee66dfab; 0xa831c66d2db43210; 0xb00327c898fb213f;
    0xbf597fc7beef0ee4; 0xc6e00bf33da88fc2; 0xd5a79147930aa725;
    0x06ca6351e003826f; 0x142929670a0e6e70; 0x27b70a8546d22ffc;
    0x2e1b21385c26c926; 0x4d2c6dfc5ac42aed; 0x53380d139d95b3df;
    0x650a73548baf63de; 0x766a0abb3c77b2a8; 0x81c2c92e47edaee6;
    0x92722c851482353b; 0xa2bfe8a14cf10364; 0xa81a664bbc423001;
    0xc24b8b70d0f89791; 0xc76c51a30654be30; 0xd192e819d6ef5218;
    0xd69906245565a910; 0xf40e35855771202a; 0x106aa07032bbd1b8;
    0x19a4c116b8d2d0c8; 0x1e376c085141ab53; 0x2748774cdf8eeb99;
    0x34b0bcb5e19b48a8; 0x391c0cb3c5c95a63; 0x4ed8aa4ae3418acb;
    0x5b9cca4f7763e373; 0x682e6ff3d6b2b8a3; 0x748f82ee5defb2fc;
    0x78a5636f43172f60; 0x84c87814a1f0ab72; 0x8cc702081a6439ec;
    0x90befffa23631e28; 0xa4506cebde82bde9; 0xbef9a3f7b2c67915;
    0xc67178f2e372532b; 0xca273eceea26619c; 0xd186b8c721c0c207;
    0xeada7dd6cde0eb1e; 0xf57d4f7fee6ed178; 0x06f067aa72176fba;
    0x0a637dc5a2c898a6; 0x113f9804bef90dae; 0x1b710b35131c471b;
    0x28db77f523047d84; 0x32caab7b40c72493; 0x3c9ebe0a15c9bebc;
    0x431d67c49c100d4c; 0x4cc5d4becb3e42b6; 0x597f299cfc657e2a;
    0x5fcb6fab3ad6faec; 0x6c44198c4a475817
  ].

Definition sha512_initial_hash_value : list Z :=
  [
    0x6a09e667f3bcc908; 0xbb67ae8584caa73b; 0x3c6ef372fe94f82b;
    0xa54ff53a5f1d36f1; 0x510e527fade682d1; 0x9b05688c2b3e6c1f;
    0x1f83d9abfb41bd6b; 0x5be0cd19137e2179
  ].

Definition SHA512_BLOCK_LENGTH : Z := 128.
Definition SHA512_SHORT_BLOCK_LENGTH : Z := 112.
Definition SHA512_DIGEST_LENGTH : Z := 64.

(** ** The compression function *)

Definition round512 (r : regs) (k w : Z) : regs :=
  let T1 := wrap64 (r_h r + Sigma1_512 (r_e r) + Ch (r_e r) (r_f r) (r_g r) + k + w) in
  let T2 := wrap64 (Sigma0_512 (r_a r) + Maj (r_a r) (r_b r) (r_c r)) in
  mkRegs (wrap64 (T1 + T2)) (r_a r) (r_b r) (r_c r) (wrap64 (r_d r + T1)) (r_e r) (r_f r) (r_g r).

(** The loop for j < 16 over the words of the block. *)
Fixpoint rounds_load (j : nat) (data : list Z) (r : regs) (W : list Z) : regs * list Z :=
  match data with
  | [] => (r, W)
  | x :: rest =>
      let w := REVERSE64 x in
      rounds_load (S j) rest (round512 r (nth j K512 0) w) (<[j := w]> W)
  end.

(** The loop for 16 <= j < 80, [n] iterations from [j]. *)
Fixpoint rounds_expand (n j : nat) (r : regs) (W : list Z) : regs * list Z :=
  match n with
  | O => (r, W)
  | S n' =>
      let at_ i := nth (i mod 16)%nat W 0 in
      let s0 := sigma0_512 (at_ (j + 1)%nat) in
      let s1 := sigma1_512 (at_ (j + 14)%nat) in
      let w := wrap64 (at_ j + wrap64 (wrap64 (s1 + at_ (j + 9)%nat) + s0)) in
      rounds_expand n' (S j) (round512 r (nth j K512 0) w) (<[(j mod 16)%nat := w]> W)
  end.

Definition SHA512_CTX : Type := Ctx (Z * Z).

Definition SHA512_Transform (context : SHA512_CTX) (data : list Z) : SHA512_CTX :=
  let W512 := load_words 16 (buffer context) in
  let '(r, W) := rounds_load 0 (load_words 16 data) (regs_of (state context)) W512 in
  let '(r, W) := rounds_expand 64 16 r W in
  mkCtx (zip_with (fun x y => wrap64 (x + y)) (state context) (regs_list r))
        (bitcount context) (store_words W).

(** ** The interface *)

Definition SHA512_Init : SHA512_CTX :=
  mkCtx sha512_initial_hash_value (0, 0) (replicate 128 0).

Definition ADDINC128 (w : Z * Z) (n : Z) : Z * Z :=
  let w0 := wrap64 (fst w + n) in
  (w0, if bool_decide (w0 < n) then wrap64 (snd w + 1) else snd w).

Definition usedspace_of (context : SHA512_CTX) : Z :=
  Z.shiftr (fst (bitcount context)) 3 mod SHA512_BLOCK_LENGTH.

Fixpoint update_blocks (fuel : nat) (context : SHA512_CTX) (data : list Z)
  : SHA512_CTX * list Z :=
  match fuel with
  | O => (context, data)
  | S f =>
      if bool_decide (zlen data >= SHA512_BLOCK_LENGTH)
      then
        let c := SHA512_Transform context (take 128 data) in
        update_blocks f
          (mkCtx (state c) (ADDINC128 (bitcount c) (Z.shiftl SHA512_BLOCK_LENGTH 3)) (buffer c))
          (drop 128 data)
      else (context, data)
  end.

Definition update_tail (context : SHA512_CTX) (data : list Z) : SHA512_CTX :=
  let '(c, data) := update_blocks (length data) context data in
  if bool_decide (zlen data > 0)
  then mkCtx (state c) (ADDINC128 (bitcount c) (Z.shiftl (zlen data) 3))
             (buffer_put (buffer c) 0 data)
  else c.

Definition SHA512_Update (context : SHA512_CTX) (data : list Z) : SHA512_CTX :=
  let len := zlen data in
  if bool_decide (len = 0) then context
  else
    let usedspace := usedspace_of context in
    if bool_decide (usedspace > 0)
    then
      let freespace := SHA512_BLOCK_LENGTH - usedspace in
      if bool_decide (len >= freespace)
      then
        let buf := buffer_put (buffer context) usedspace (take (Z.to_nat freespace) data) in
        let c := mkCtx (state context) (ADDINC128 (bitcount context) (Z.shiftl freespace 3)) buf in
        update_tail (SHA512_Transform c buf) (drop (Z.to_nat freespace) data)
      else
        mkCtx (state context) (ADDINC128 (bitcount context) (Z.shiftl len 3))
              (buffer_put (buffer context) usedspace data)
    else update_tail context data.

Definition SHA512_Last (context : SHA512_CTX) : SHA512_CTX :=
  let usedspace := usedspace_of context in
  let bc := (REVERSE64 (fst (bitcount context)), REVERSE64 (snd (bitcount context))) in
  let context := mkCtx (state context) bc (buffer context) in
  let context :=
    if bool_decide (usedspace > 0)
    then
      let buf := buffer_put (buffer context) usedspace [0x80] in
      let usedspace := usedspace + 1 in
      if bool_decide (usedspace <= SHA512_SHORT_BLOCK_LENGTH)
      then mkCtx (state context) bc (zero_range buf usedspace (SHA512_SHORT_BLOCK_LENGTH - usedspace))
      else
        let buf := if bool_decide (usedspace < SHA512_BLOCK_LENGTH)
                   then zero_range buf usedspace (SHA512_BLOCK_LENGTH - usedspace) else buf in
        let c := SHA512_Transform (mkCtx (state context) bc buf) buf in
        mkCtx (state c) bc (zero_range (buffer c) 0 (SHA512_BLOCK_LENGTH - 2))
    else
      mkCtx (state context) bc
        (buffer_put (zero_range (buffer context) 0 SHA512_SHORT_BLOCK_LENGTH) 0 [0x80]) in
  let buf := buffer_put (buffer context) SHA512_SHORT_BLOCK_LENGTH (store_le 8 (snd bc)) in
  let buf := buffer_put buf (SHA512_SHORT_BLOCK_LENGTH + 8) (store_le 8 (fst bc)) in
  SHA512_Transform (mkCtx (state context) bc buf) buf.

Definition SHA512_Final (context : SHA512_CTX) : list Z :=
  store_words (REVERSE64 <$> state (SHA512_Last context)).

Definition SHA512_End (context : SHA512_CTX) : cstr := flat_map hex_byte (SHA512_Final context).

Definition SHA512_Data (data : list Z) : cstr :=
  SHA512_End (SHA512_Update SHA512_Init data).

(** ** SHA-384 *)

Definition sha384_initial_hash_value : list Z :=
  [
    0xcbbb9d5dc1059ed8; 0x629a292a367cd507; 0x9159015a3070dd17;
    0x152fecd8f70e5939; 0x67332667ffc00b31; 0x8eb44a8768581511;
    0xdb0c2e0d64f98fa7; 0x47b5481dbefa4fa4
  ].

Definition SHA384_CTX : Type := SHA512_CTX.

Definition SHA384_Init : SHA384_CTX :=
  mkCtx sha384_initial_hash_value (0, 0) (replicate 128 0).

Definition SHA384_Update (context : SHA384_CTX) (data : list Z) : SHA384_CTX :=
  SHA512_Update context data.

(** Six of the eight words. *)
Definition SHA384_Final (context : SHA384_CTX) : list Z :=
  store_words (REVERSE64 <$> take 6 (state (SHA512_Last context))).

Definition SHA384_End (context : SHA384_CTX) : cstr := flat_map hex_byte (SHA384_Final context).

Definition SHA384_Data (data : list Z) : cstr :=
  SHA384_End (SHA384_Update SHA384_Init data).

(** The test vectors of FIPS 180-4 for the message "abc". *)
Example sha512_abc :
  SHA512_Data (bytes_of $"abc") =
  $"ddaf35a193617abacc417349ae20413112e6fa4e89a97ea20a9eeee64b55d39a2192992a274fc1a836ba3c23a3feebbd454d4423643ce80e2a9ac94fa54ca49f".
Proof. vm_compute. reflexivity. Qed.
Example sha384_abc :
  SHA384_Data (bytes_of $"abc") =
  $"cb00753f45a35e8bb5a03d699ac65007272c32ab0eded1631a8b605a43ff5bed8086072ba1e7cc2358baeca134c825a7".
Proof. vm_compute. reflexivity. Qed.
