(* ===== verification/Sha512Correct.v ===== *)
(** * SHA-512 and SHA-384: correctness of the incremental interface

    The routines of the file are those of Sha2Stream at words of 64 bits with a
    counter of two words, so they hash what they are given in pieces. *)
From S2P Require Import Prelude Sha2 Sha2Stream Sha512.

(** ** The counter of two words *)

Definition split128 (x : Z) : Z * Z := (x mod 2 ^ 64, x / 2 ^ 64).

Lemma ADDINC128_split x n :
  0 <= x -> 0 <= n < 2 ^ 64 -> x + n < 2 ^ 128 ->
  ADDINC128 (split128 x) n = split128 (x + n).
Proof.
  intros Hx Hn Hlt. unfold ADDINC128, split128, wrap64. cbn [fst snd].
  rewrite Z.add_mod_idemp_l by lia.
  pose proof (Z.mod_pos_bound x (2 ^ 64) ltac:(lia)) as Hm.
  pose proof (Z.div_mod x (2 ^ 64) ltac:(lia)) as Hd.
  assert (Hq : 0 <= x / 2 ^ 64) by (apply Z.div_pos; lia).
  destruct (Z_lt_dec (x mod 2 ^ 64 + n) (2 ^ 64)) as [Hs|Hs].
  - assert (E1 : (x + n) mod 2 ^ 64 = x mod 2 ^ 64 + n).
    { symmetry. apply Z.mod_unique with (x / 2 ^ 64); lia. }
    assert (E2 : (x + n) / 2 ^ 64 = x / 2 ^ 64).
    { symmetry. apply Z.div_unique with (x mod 2 ^ 64 + n); lia. }
    rewrite E1, E2, bool_decide_false by lia. done.
  - assert (E1 : (x + n) mod 2 ^ 64 = x mod 2 ^ 64 + n - 2 ^ 64).
    { symmetry. apply Z.mod_unique with (x / 2 ^ 64 + 1); lia. }
    assert (E2 : (x + n) / 2 ^ 64 = x / 2 ^ 64 + 1).
    { symmetry. apply Z.div_unique with (x mod 2 ^ 64 + n - 2 ^ 64); lia. }
    rewrite E1, E2, bool_decide_true by lia. rewrite (Z.mod_small (x / 2 ^ 64 + 1)); [done|].
    split; [lia|]. rewrite <- E2. apply Z.div_lt_upper_bound; [lia|].
    change (2 ^ 64 * 2 ^ 64) with (2 ^ 128). lia.
Qed.

(** The length field, stored over the last 16 bytes. *)
Definition store128 (bc : Z * Z) (buf : list Z) : list Z :=
  buffer_put (buffer_put buf SHA512_SHORT_BLOCK_LENGTH (store_le 8 (snd bc)))
    (SHA512_SHORT_BLOCK_LENGTH + 8) (store_le 8 (fst bc)).
Lemma put_lengths (q r x y : list Z) :
  length q = 112%nat -> length r = 16%nat -> length x = 8%nat -> length y = 8%nat ->
  buffer_put (buffer_put (q ++ r) SHA512_SHORT_BLOCK_LENGTH x) (SHA512_SHORT_BLOCK_LENGTH + 8) y
  = q ++ x ++ y.
Proof.
  intros Hq Hr Hx Hy. rewrite <- (take_drop 8 r).
  rewrite buffer_put_app; [|by unfold zlen; rewrite Hq|by rewrite length_take, Hr, Hx].
  rewrite app_assoc. rewrite <- (app_nil_r (drop 8 r)).
  rewrite buffer_put_app; [by rewrite app_nil_r, <- app_assoc| |by rewrite length_drop, Hr, Hy].
  unfold zlen. by rewrite length_app, Hq, Hx.
Qed.

(** ** The instance *)

#[export] Instance Sha2_64 : Sha2 (Z * Z) := {|
  wbytes := 8; nrounds := 80; consts := K512;
  c_Sigma0 := Sigma0_512; c_Sigma1 := Sigma1_512; c_sigma0 := sigma0_512; c_sigma1 := sigma1_512;
  c_Ch := Ch; c_rev := REVERSE64;
  add_bits := ADDINC128; bits_of := split128;
  used := fun bc => Z.shiftr (fst bc) 3 mod SHA512_BLOCK_LENGTH;
  rev_bits := fun bc => (REVERSE64 (fst bc), REVERSE64 (snd bc));
  put_len := store128; rezero := SHA512_BLOCK_LENGTH - 2 |}.

#[export] Instance Sha2_64_count : Sha2Count (Z * Z).
Proof.
  split.
  - cbn. lia.
  - intros x n Hx Hn Hf. by apply ADDINC128_split.
  - intros x Hx. cbn. rewrite Z.shiftr_div_pow2 by lia. change (2 ^ 3) with 8.
    change (2 ^ 64) with (8 * 2 ^ 61). rewrite Z.mul_mod_distr_l, Z.mul_comm, Z.div_mul by lia.
    change (2 ^ 61) with (128 * 2 ^ 54). change SHA512_BLOCK_LENGTH with 128.
    rewrite Z.rem_mul_r by lia. by rewrite Z.mul_comm, Z_mod_plus_full, Zmod_mod.
  - intros x q r Hx Hq Hr. cbn [put_len rev_bits bits_of Sha2_64]. unfold store128, split128. cbn [fst snd].
    rewrite put_lengths by (done || apply store_le_length). f_equal.
    change (store_be lenf x) with (store_be 16 x). rewrite store_be_16.
    rewrite !store_le_REVERSE64; [done| |].
    + apply Z.mod_pos_bound. lia.
    + change (256 ^ Z.of_nat lenf) with (2 ^ 64 * 2 ^ 64) in Hx.
      split; [apply Z.div_pos; lia|]. apply Z.div_lt_upper_bound; lia.
  - by split.
Qed.
Lemma block_64 : Z.of_nat (block (C := Z * Z)) < 2 ^ 60.
Proof. by vm_compute. Qed.

Lemma round512_h r k w : round512 r k w = h_round r k w.
Proof. unfold round512, h_round. change (@wrapw (Z * Z) Sha2_64) with wrap64. reflexivity. Qed.
Lemma load_words_h n bs : load_words n bs = h_load n bs.
Proof. revert bs. induction n as [|n IH]; intros bs; [done|]. cbn [load_words h_load]. by rewrite IH. Qed.
Lemma rounds_load_h j data r W : rounds_load j data r W = h_rounds_load j data r W.
Proof.
  revert j r W. induction data as [|x data IH]; intros j r W; [done|]. cbn [rounds_load h_rounds_load].
  rewrite IH, round512_h. reflexivity.
Qed.
Lemma rounds_expand_h n j r W : rounds_expand n j r W = h_rounds_expand n j r W.
Proof.
  revert j r W. induction n as [|n IH]; intros j r W; [done|]. cbn [rounds_expand h_rounds_expand].
  cbv zeta. rewrite IH, round512_h. change (@wrapw (Z * Z) Sha2_64) with wrap64. reflexivity.
Qed.
Lemma SHA512_Transform_h c data : SHA512_Transform c data = h_transform c data.
Proof.
  unfold SHA512_Transform, h_transform. rewrite !load_words_h, rounds_load_h.
  destruct (h_rounds_load _ _ _ _) as [r W]. rewrite rounds_expand_h.
  change (nrounds - 16)%nat with 64%nat. by destruct (h_rounds_expand _ _ _ _).
Qed.
(** From here on the compression functions are used through this equation. *)
#[local] Opaque SHA512_Transform h_transform.

Lemma update_blocks_h fuel c data : update_blocks fuel c data = h_update_blocks fuel c data.
Proof.
  revert c data. induction fuel as [|f IH]; intros c data; [done|]. cbn [update_blocks h_update_blocks].
  by rewrite IH, SHA512_Transform_h.
Qed.
Lemma update_tail_h c data : update_tail c data = h_update_tail c data.
Proof. unfold update_tail, h_update_tail. by rewrite update_blocks_h. Qed.
Lemma SHA512_Update_h c data : SHA512_Update c data = h_update c data.
Proof.
  unfold SHA512_Update, h_update. cbv zeta. rewrite (update_tail_h c data).
  match goal with |- context [update_tail ?a ?b] => rewrite (update_tail_h a b) end.
  match goal with |- context [SHA512_Transform ?a ?b] => rewrite (SHA512_Transform_h a b) end.
  change (usedspace_of c) with (used (bitcount c)). change SHA512_BLOCK_LENGTH with (Z.of_nat block).
  change ADDINC128 with add_bits. reflexivity.
Qed.
Lemma SHA512_Last_h c : SHA512_Last c = h_last c.
Proof.
  unfold SHA512_Last, h_last. cbv zeta. cbn [state bitcount buffer]. refine (eq_trans (SHA512_Transform_h _ _) _).
  match goal with |- context [SHA512_Transform ?a ?b] => rewrite (SHA512_Transform_h a b) end.
  change (usedspace_of c) with (used (bitcount c)).
  change (REVERSE64 (bitcount c).1, REVERSE64 (bitcount c).2) with (rev_bits (bitcount c)).
  change SHA512_SHORT_BLOCK_LENGTH with (Z.of_nat short).
  change (SHA512_BLOCK_LENGTH - 2) with rezero. change SHA512_BLOCK_LENGTH with (Z.of_nat block).
  reflexivity.
Qed.

(** ** The interface *)

(** The context stands for the message, from the initial value [iv]. *)
Abbreviation repr := (Sha2Stream.repr (C := Z * Z)).
(** The bit count has 128 bits. *)
Definition fits (msg : list Z) : Prop := 8 * zlen msg < 2 ^ 128.

Section Interface.
Context (iv : list Z).

Lemma Init_repr : repr iv (mkCtx iv (0, 0) (replicate 128 0)) [].
Proof. exists [], [], O. split; [done|]. by apply init_pending. Qed.
Lemma Update_repr c msg data : repr iv c msg -> fits (msg ++ data) -> repr iv (SHA512_Update c data) (msg ++ data).
Proof. intros Hr Hf. rewrite SHA512_Update_h. by apply update_repr; [apply block_64| |]. Qed.
Lemma Last_repr c msg : repr iv c msg -> fits msg ->
  state (SHA512_Last c) = hash_words (C := Z * Z) iv msg /\ words_ok (C := Z * Z) (hash_words (C := Z * Z) iv msg).
Proof. intros Hr Hf. rewrite SHA512_Last_h. by apply h_last_hash; [|]. Qed.
End Interface.

Lemma store_words_REVERSE64 st :
  Forall (fun w => 0 <= w < 2 ^ 64) st -> store_words (REVERSE64 <$> st) = flat_map (store_be 8) st.
Proof.
  unfold store_words. induction 1 as [|w st Hw Hst IH]; [done|].
  cbn [fmap list_fmap flat_map]. rewrite IH. by rewrite store_le_REVERSE64.
Qed.

(** The digests, and their print. *)
Definition sha512 (msg : list Z) : list Z :=
  flat_map (store_be 8) (hash_words (C := Z * Z) sha512_initial_hash_value msg).
Definition sha384 (msg : list Z) : list Z :=
  flat_map (store_be 8) (take 6 (hash_words (C := Z * Z) sha384_initial_hash_value msg)).
Definition sha512_hex (msg : list Z) : cstr := flat_map hex_byte (sha512 msg).

Lemma Data_repr msg : fits msg -> repr sha512_initial_hash_value (SHA512_Update SHA512_Init msg) msg.
Proof. intros Hf. apply (Update_repr _ SHA512_Init []); [apply Init_repr|done]. Qed.
Lemma End_repr c msg : repr sha512_initial_hash_value c msg -> fits msg -> SHA512_End c = sha512_hex msg.
Proof.
  intros Hr Hf. unfold SHA512_End, sha512_hex, SHA512_Final, sha512. destruct (Last_repr _ c msg Hr Hf) as [-> Hw].
  by rewrite store_words_REVERSE64.
Qed.
Lemma SHA384_End_repr c msg : repr sha384_initial_hash_value c msg -> fits msg ->
  SHA384_End c = flat_map hex_byte (sha384 msg).
Proof.
  intros Hr Hf. unfold SHA384_End, SHA384_Final, sha384. destruct (Last_repr _ c msg Hr Hf) as [-> Hw].
  rewrite store_words_REVERSE64; [done|]. by apply Forall_take.
Qed.
Lemma SHA384_Data_repr msg : fits msg -> SHA384_Data msg = flat_map hex_byte (sha384 msg).
Proof.
  intros Hf. apply SHA384_End_repr; [|done]. apply (Update_repr _ SHA384_Init []); [apply Init_repr|done].
Qed.

(** ** The printed digest *)

Definition is_hex (c : char) : bool := mem_of sha2_hex_digits c.

Lemma nth_hex i : (i < 16)%nat -> is_hex (nth i sha2_hex_digits nul) = true.
Proof. intros H. do 16 (destruct i as [|i]; [reflexivity|]). lia. Qed.

Lemma nibble_bound x : (Z.to_nat (Z.land x 0x0f) < 16)%nat.
Proof. change 0x0f with (Z.ones 4). rewrite Z.land_ones by lia. pose proof (Z.mod_pos_bound x (2 ^ 4)). lia. Qed.

Lemma high_nibble d : Z.shiftr (Z.land d 0xf0) 4 = Z.land (Z.shiftr d 4) 0x0f.
Proof. change 0xf0 with (Z.shiftl 0x0f 4). rewrite Z.shiftr_land. done. Qed.

Lemma hex_byte_hex d : Forall (fun c => is_hex c = true) (hex_byte d).
Proof.
  unfold hex_byte. rewrite high_nibble.
  apply Forall_cons_2; [apply nth_hex, nibble_bound|].
  apply Forall_cons_2; [apply nth_hex, nibble_bound|constructor].
Qed.

Lemma flat_map_hex l : Forall (fun c => is_hex c = true) (flat_map hex_byte l).
Proof.
  induction l as [|d l IH]; [constructor|]. cbn [flat_map].
  apply Forall_app_2; [apply hex_byte_hex|done].
Qed.

Lemma sha512_hex_hex msg : Forall (fun c => is_hex c = true) (sha512_hex msg).
Proof. apply flat_map_hex. Qed.

Lemma sha512_hex_length msg : length (sha512_hex msg) = 128%nat.
Proof.
  unfold sha512_hex, sha512. rewrite (flat_map_length hex_byte 2) by done.
  rewrite (flat_map_length (store_be 8) 8) by apply store_be_length.
  by rewrite hash_words_length.
Qed.

(** A hexadecimal digit is none of the separators of the protocol. *)
Lemma hex_not_in c set :
  is_hex c = true -> Forall (fun d => is_hex d = false) set -> c ∉ set.
Proof. intros Hc Hs Hin. rewrite Forall_forall in Hs. apply Hs in Hin. congruence. Qed.

Lemma sha512_hex_free msg set :
  Forall (fun d => is_hex d = false) set -> Forall (fun c => c ∉ set) (sha512_hex msg).
Proof.
  intros Hs. eapply Forall_impl; [apply sha512_hex_hex|]. intros c Hc. by apply hex_not_in.
Qed.

Lemma sha512_hex_no_nul msg : no_nul (sha512_hex msg).
Proof. eapply Forall_impl; [apply sha512_hex_hex|]. by intros c Hc ->. Qed.

(** ** Properties *)

(** feeding a message in two pieces of any sizes gives the digest of the
    whole message. *)
Theorem SHA512_Update_incremental (a b : list Z) (Hfits : fits (a ++ b)) :
  SHA512_End (SHA512_Update (SHA512_Update SHA512_Init a) b) = SHA512_Data (a ++ b).
Proof.
  assert (Ha : fits a) by (unfold fits in *; rewrite zlen_app in Hfits; pose proof (zlen_nonneg b); lia).
  unfold SHA512_Data. rewrite !(End_repr _ (a ++ b)); try done.
  - by apply Data_repr.
  - apply Update_repr; [by apply Data_repr|done].
Qed.

Lemma SHA512_Update_incremental_witness :
  SHA512_End (SHA512_Update (SHA512_Update SHA512_Init (bytes_of $"home")) (bytes_of $"net"))
  = SHA512_Data (bytes_of $"home" ++ bytes_of $"net").
Proof. apply (SHA512_Update_incremental (bytes_of $"home") (bytes_of $"net")). reflexivity. Defined.
