(* ===== verification/Sha512Fips.v ===== *)
(** * SHA-512 and SHA-384 are those of FIPS 180-4

    The functions and constants of the code are the standard's at 64 bits; with
    Sha512Correct, so are the digests. *)
From S2P Require Import Prelude Sha2 Sha2Stream Sha2Fips Sha512 Sha512Correct.

(** The 64-bit functions of the standard; the initial values are fractions of
    the roots of the first eight primes, and of the next eight. *)
Definition fips_64 : fips := {|
  f_word := 8; f_rounds := 80; f_K := cube_fraction 64 <$> primes;
  f_Sum0 := (28, 34, 39); f_Sum1 := (14, 18, 41); f_sig0 := (1, 8, 7); f_sig1 := (19, 61, 6) |}.
Definition H0_512 : list Z := square_fraction 64 <$> take 8 primes.
Definition H0_384 : list Z := square_fraction 64 <$> take 8 (drop 8 primes).
Definition fips_sha512 : list Z -> list Z := fips_digest fips_64 H0_512 64.
Definition fips_sha384 : list Z -> list Z := fips_digest fips_64 H0_384 48.

Lemma K512_fips : f_K fips_64 = K512.
Proof. by vm_compute. Qed.
Lemma H0_512_fips : H0_512 = sha512_initial_hash_value.
Proof. by vm_compute. Qed.
Lemma H0_384_fips : H0_384 = sha384_initial_hash_value.
Proof. by vm_compute. Qed.

Lemma f_w_64 : f_w fips_64 = 64.
Proof. done. Qed.
Lemma S64_ROTR n x : 0 < n < 64 -> word fips_64 x -> S64 n x = ROTR fips_64 n x.
Proof. intros Hn Hx. unfold S64, shl64, wrap64. rewrite <- f_w_64. by apply rotate_ROTR. Qed.
Ltac sigma_64 := intros x Hx; cbn [c_Sigma0 c_Sigma1 c_sigma0 c_sigma1 Sha2_64 f_Sum0 f_Sum1 f_sig0 f_sig1 fips_64];
  unfold Sigma0_512, Sigma1_512, sigma0_512, sigma1_512, fips_Sum, fips_sig, R, SHR;
  rewrite !S64_ROTR by (done || lia); rewrite ?Z.shiftr_div_pow2 by lia; by rewrite Z.lxor_assoc.

Lemma REVERSE64_word w : word fips_64 (REVERSE64 w).
Proof.
  assert (E : REVERSE64 w = REVERSE64 w mod 2 ^ 64); [|rewrite E; apply (word_mod fips_64)].
  apply Z.bits_inj'. intros n Hn. destruct (decide (n < 64)).
  - by rewrite Z.mod_pow2_bits_low by lia.
  - rewrite Z.mod_pow2_bits_high by lia. unfold REVERSE64.
    rewrite Z.lor_spec, testbit_shl64, bool_decide_false, orb_false_r by lia.
    rewrite Z.shiftr_spec, Z.land_spec by lia.
    rewrite (testbit_high 0xffff0000ffff0000) by lia. apply andb_false_r.
Qed.

#[export] Instance fips_64_implemented : Implements fips_64 Sha2_64.
Proof.
  split; [done|done|apply K512_fips|done|cbn; lia|sigma_64|sigma_64|sigma_64|sigma_64| |apply REVERSE64_word|].
  - intros x y z Hx Hz. cbn [c_Ch Sha2_64]. unfold Ch, not64. rewrite <- f_w_64. by apply Ch_fips.
  - intros bs Hl Hb. apply (rev_load fips_64 REVERSE64 8); [done|apply REVERSE64_word| |done|done].
    intros x Hx. by apply store_le_REVERSE64.
Qed.

Lemma sha512_fips msg : Forall byte msg -> sha512 msg = fips_sha512 msg.
Proof.
  intros Hb. unfold sha512, fips_sha512. rewrite H0_512_fips.
  rewrite <- (hash_words_fips fips_64); [|cbn; lia|done|done|].
  - rewrite take_ge; [done|]. rewrite (flat_map_length _ 8) by apply store_be_length. by rewrite hash_words_length.
  - repeat first [apply Forall_cons_2|apply Forall_nil_2]; by split.
Qed.
Lemma sha384_fips msg : Forall byte msg -> sha384 msg = fips_sha384 msg.
Proof.
  intros Hb. unfold sha384, fips_sha384. rewrite H0_384_fips.
  rewrite <- (hash_words_fips fips_64); [|cbn; lia|done|done|].
  - set (l := hash_words _ _). rewrite <- (take_drop 6 l) at 2. rewrite flat_map_app, take_app_length'; [done|].
    rewrite (flat_map_length _ 8) by apply store_be_length. rewrite length_take. unfold l.
    by rewrite hash_words_length.
  - repeat first [apply Forall_cons_2|apply Forall_nil_2]; by split.
Qed.

(** C22: [SHA512_Data] and [SHA384_Data] print the SHA-512 and the SHA-384 of FIPS
    180-4, for every message of less than 2^128 bits: the constants are those of
    the roots of the primes, the ring of 16 words that overlays the buffer
    computes the message schedule of 80 words, and streaming, byte reversal,
    padding and the 128-bit counter do what the standard's padding and block
    iteration say. *)
Theorem SHA512_Data_fips msg : Forall byte msg -> fits msg ->
  SHA512_Data msg = flat_map hex_byte (fips_sha512 msg) /\
  SHA384_Data msg = flat_map hex_byte (fips_sha384 msg).
Proof.
  intros Hb Hf. rewrite <- sha512_fips, <- sha384_fips by done. split; [|by apply SHA384_Data_repr].
  unfold SHA512_Data. apply End_repr; [by apply Data_repr|done].
Qed.
Lemma SHA512_Data_fips_witness :
  SHA512_Data (bytes_of $"homenet") = flat_map hex_byte (fips_sha512 (bytes_of $"homenet")) /\
  SHA384_Data (bytes_of $"homenet") = flat_map hex_byte (fips_sha384 (bytes_of $"homenet")).
Proof.
  apply (SHA512_Data_fips (bytes_of $"homenet")); [|reflexivity].
  repeat first [apply Forall_cons_2|apply Forall_nil_2]; by split.
Defined.
