(* ===== verification/Sha256.v ===== *)
(** * SHA-256 (src/lib/sha/sha2.c, the SHA256 routines)

    The 32-bit member of the family, as the file computes it on a little-endian
    host and without [SHA2_UNROLL_TRANSFORM]. Its counter is one word of 64
    bits, and the length field behind the padding has 8 bytes. *)
From S2P Require Import Prelude Sha2.

(** ** Words *)

Definition wrap32u (x : Z) : Z := x mod 2 ^ 32.
Definition not32 (x : Z) : Z := 2 ^ 32 - 1 - x.
Definition shl32 (x n : Z) : Z := wrap32u (Z.shiftl x n).

Definition REVERSE32 (w : Z) : Z :=
  let tmp := Z.lor (Z.shiftr w 16) (shl32 w 16) in
  Z.lor (Z.shiftr (Z.land tmp 0xff00ff00) 8) (shl32 (Z.land tmp 0x00ff00ff) 8).

Definition S32 (b x : Z) : Z := Z.lor (Z.shiftr x b) (shl32 x (32 - b)).
Definition Ch_256 (x y z : Z) : Z := Z.lxor (Z.land x y) (Z.land (not32 x) z).
Definition Sigma0_256 (x : Z) : Z := Z.lxor (Z.lxor (S32 2 x) (S32 13 x)) (S32 22 x).
Definition Sigma1_256 (x : Z) : Z := Z.lxor (Z.lxor (S32 6 x) (S32 11 x)) (S32 25 x).
Definition sigma0_256 (x : Z) : Z := Z.lxor (Z.lxor (S32 7 x) (S32 18 x)) (R 3 x).
Definition sigma1_256 (x : Z) : Z := Z.lxor (Z.lxor (S32 17 x) (S32 19 x)) (R 10 x).

(** ** Constants *)

(** In rows of four, as the file has them. *)
Definition K256 : list Z := concat
  [
    [0x428a2f98; 0x71374491; 0xb5c0fbcf; 0xe9b5dba5];
    [0x3956c25b; 0x59f111f1; 0x923f82a4; 0xab1c5ed5];
    [0xd807aa98; 0x12835b01; 0x243185be; 0x550c7dc3];
    [0x72be5d74; 0x80deb1fe; 0x9bdc06a7; 0xc19bf174];
    [0xe49b69c1; 0xefbe4786; 0x0fc19dc6; 0x240ca1cc];
    [0x2de92c6f; 0x4a7484aa; 0x5cb0a9dc; 0x76f988da];
    [0x983e5152; 0xa831c66d; 0xb00327c8; 0xbf597fc7];
    [0xc6e00bf3; 0xd5a79147; 0x06ca6351; 0x14292967];
    [0x27b70a85; 0x2e1b2138; 0x4d2c6dfc; 0x53380d13];
    [0x650a7354; 0x766a0abb; 0x81c2c92e; 0x92722c85];
    [0xa2bfe8a1; 0xa81a664b; 0xc24b8b70; 0xc76c51a3];
    [0xd192e819; 0xd6990624; 0xf40e3585; 0x106aa070];
    [0x19a4c116; 0x1e376c08; 0x2748774c; 0x34b0bcb5];
    [0x391c0cb3; 0x4ed8aa4a; 0x5b9cca4f; 0x682e6ff3];
    [0x748f82ee; 0x78a5636f; 0x84c87814; 0x8cc70208];
    [0x90befffa; 0xa4506ceb; 0xbef9a3f7; 0xc67178f2]
  ].

Definition sha256_initial_hash_value : list Z :=
  [
    0x6a09e667; 0xbb67ae85; 0x3c6ef372; 0xa54ff53a; 0x510e527f; 0x9b05688c;
    0x1f83d9ab; 0x5be0cd19
  ].

Definition SHA256_BLOCK_LENGTH : Z := 64.
Definition SHA256_SHORT_BLOCK_LENGTH : Z := 56.
Definition SHA256_DIGEST_LENGTH : Z := 32.

(** ** The compression function *)

Definition round256 (r : regs) (k w : Z) : regs :=
  let T1 := wrap32u (r_h r + Sigma1_256 (r_e r) + Ch_256 (r_e r) (r_f r) (r_g r) + k + w) in
  let T2 := wrap32u (Sigma0_256 (r_a r) + Maj (r_a r) (r_b r) (r_c r)) in
  mkRegs (wrap32u (T1 + T2)) (r_a r) (r_b r) (r_c r) (wrap32u (r_d r + T1)) (r_e r) (r_f r) (r_g r).

(** 32-bit loads and stores. *)
Fixpoint load_words_32 (n : nat) (bs : list Z) : list Z :=
  match n with O => [] | S n' => load_le (take 4 bs) :: load_words_32 n' (drop 4 bs) end.
Definition store_words_32 (ws : list Z) : list Z := flat_map (store_le 4) ws.

(** The loop for j < 16 over the words of the block. *)
Fixpoint rounds_load_256 (j : nat) (data : list Z) (r : regs) (W : list Z) : regs * list Z :=
  match data with
  | [] => (r, W)
  | x :: rest =>
      let w := REVERSE32 x in
      rounds_load_256 (S j) rest (round256 r (nth j K256 0) w) (<[j := w]> W)
  end.

(** The loop for 16 <= j < 64, [n] iterations from [j]. *)
Fixpoint rounds_expand_256 (n j : nat) (r : regs) (W : list Z) : regs * list Z :=
  match n with
  | O => (r, W)
  | S n' =>
      let at_ i := nth (i mod 16)%nat W 0 in
      let s0 := sigma0_256 (at_ (j + 1)%nat) in
      let s1 := sigma1_256 (at_ (j + 14)%nat) in
      let w := wrap32u (at_ j + wrap32u (wrap32u (s1 + at_ (j + 9)%nat) + s0)) in
      rounds_expand_256 n' (S j) (round256 r (nth j K256 0) w) (<[(j mod 16)%nat := w]> W)
  end.

Definition SHA256_CTX : Type := Ctx Z.

Definition SHA256_Transform (context : SHA256_CTX) (data : list Z) : SHA256_CTX :=
  let W256 := load_words_32 16 (buffer context) in
  let '(r, W) := rounds_load_256 0 (load_words_32 16 data) (regs_of (state context)) W256 in
  let '(r, W) := rounds_expand_256 48 16 r W in
  mkCtx (zip_with (fun x y => wrap32u (x + y)) (state context) (regs_list r))
        (bitcount context) (store_words_32 W).

(** ** The interface *)

Definition SHA256_Init : SHA256_CTX :=
  mkCtx sha256_initial_hash_value 0 (replicate 64 0).

(** [context->bitcount += n] *)
Definition add_bitcount (bitcount n : Z) : Z := wrap64 (bitcount + n).

Definition usedspace_256 (context : SHA256_CTX) : Z :=
  Z.shiftr (bitcount context) 3 mod SHA256_BLOCK_LENGTH.

Fixpoint update_blocks_256 (fuel : nat) (context : SHA256_CTX) (data : list Z)
  : SHA256_CTX * list Z :=
  match fuel with
  | O => (context, data)
  | S f =>
      if bool_decide (zlen data >= SHA256_BLOCK_LENGTH)
      then
        let c := SHA256_Transform context (take 64 data) in
        update_blocks_256 f
          (mkCtx (state c) (add_bitcount (bitcount c) (Z.shiftl SHA256_BLOCK_LENGTH 3)) (buffer c))
          (drop 64 data)
      else (context, data)
  end.

Definition update_tail_256 (context : SHA256_CTX) (data : list Z) : SHA256_CTX :=
  let '(c, data) := update_blocks_256 (length data) context data in
  if bool_decide (zlen data > 0)
  then mkCtx (state c) (add_bitcount (bitcount c) (Z.shiftl (zlen data) 3))
             (buffer_put (buffer c) 0 data)
  else c.

Definition SHA256_Update (context : SHA256_CTX) (data : list Z) : SHA256_CTX :=
  let len := zlen data in
  if bool_decide (len = 0) then context
  else
    let usedspace := usedspace_256 context in
    if bool_decide (usedspace > 0)
    then
      let freespace := SHA256_BLOCK_LENGTH - usedspace in
      if bool_decide (len >= freespace)
      then
        let buf := buffer_put (buffer context) usedspace (take (Z.to_nat freespace) data) in
        let c := mkCtx (state context) (add_bitcount (bitcount context) (Z.shiftl freespace 3)) buf in
        update_tail_256 (SHA256_Transform c buf) (drop (Z.to_nat freespace) data)
      else
        mkCtx (state context) (add_bitcount (bitcount context) (Z.shiftl len 3))
              (buffer_put (buffer context) usedspace data)
    else update_tail_256 context data.

(** The first half of SHA256_Final: padding, the length, the last block. *)
Definition SHA256_Last (context : SHA256_CTX) : SHA256_CTX :=
  let usedspace := usedspace_256 context in
  let bc := REVERSE64 (bitcount context) in
  let context := mkCtx (state context) bc (buffer context) in
  let context :=
    if bool_decide (usedspace > 0)
    then
      let buf := buffer_put (buffer context) usedspace [0x80] in
      let usedspace := usedspace + 1 in
      if bool_decide (usedspace <= SHA256_SHORT_BLOCK_LENGTH)
      then mkCtx (state context) bc (zero_range buf usedspace (SHA256_SHORT_BLOCK_LENGTH - usedspace))
      else
        let buf := if bool_decide (usedspace < SHA256_BLOCK_LENGTH)
                   then zero_range buf usedspace (SHA256_BLOCK_LENGTH - usedspace) else buf in
        let c := SHA256_Transform (mkCtx (state context) bc buf) buf in
        mkCtx (state c) bc (zero_range (buffer c) 0 SHA256_SHORT_BLOCK_LENGTH)
    else
      mkCtx (state context) bc
        (buffer_put (zero_range (buffer context) 0 SHA256_SHORT_BLOCK_LENGTH) 0 [0x80]) in
  let buf := buffer_put (buffer context) SHA256_SHORT_BLOCK_LENGTH (store_le 8 bc) in
  SHA256_Transform (mkCtx (state context) bc buf) buf.

Definition SHA256_Final (context : SHA256_CTX) : list Z :=
  store_words_32 (REVERSE32 <$> state (SHA256_Last context)).

Definition SHA256_End (context : SHA256_CTX) : cstr := flat_map hex_byte (SHA256_Final context).

Definition SHA256_Data (data : list Z) : cstr :=
  SHA256_End (SHA256_Update SHA256_Init data).

(** The test vector of FIPS 180-4 for the message "abc". *)
Example sha256_abc :
  SHA256_Data (bytes_of $"abc") =
  $"ba7816bf8f01cfea414140de5dae2223b00361a396177a9cb410ff61f20015ad".
Proof. vm_compute. reflexivity. Qed.
