(* ===== verification/Sha256Correct.v ===== *)
(** * SHA-256 is that of FIPS 180-4

    The routines of the file are those of Sha2Stream at words of 32 bits, and
    the functions and constants are the standard's. *)
From S2P Require Import Prelude Sha2 Sha2Stream Sha2Fips Sha256.

(** ** The instance *)

#[export] Instance Sha2_32 : Sha2 Z := {|
  wbytes := 4; nrounds := 64; consts := K256;
  c_Sigma0 := Sigma0_256; c_Sigma1 := Sigma1_256; c_sigma0 := sigma0_256; c_sigma1 := sigma1_256;
  c_Ch := Ch_256; c_rev := REVERSE32;
  add_bits := add_bitcount; bits_of := fun x => x;
  used := fun bc => Z.shiftr bc 3 mod SHA256_BLOCK_LENGTH;
  rev_bits := REVERSE64;
  put_len := fun bc buf => buffer_put buf SHA256_SHORT_BLOCK_LENGTH (store_le 8 bc);
  rezero := SHA256_SHORT_BLOCK_LENGTH |}.

#[export] Instance Sha2_32_count : Sha2Count Z.
Proof.
  split.
  - cbn. lia.
  - intros x n Hx Hn Hf. cbn [add_bits bits_of Sha2_32]. apply Z.mod_small.
    change (256 ^ Z.of_nat lenf) with (2 ^ 64) in Hf. lia.
  - intros x Hx. cbn [used bits_of Sha2_32]. rewrite Z.shiftr_div_pow2 by lia. change (2 ^ 3) with 8.
    by rewrite Z.mul_comm, Z.div_mul by lia.
  - intros x q r Hx Hq Hr. cbn [put_len rev_bits bits_of Sha2_32]. rewrite store_le_REVERSE64 by exact Hx.
    rewrite <- (app_nil_r r), <- (app_nil_r (store_be lenf x)).
    apply buffer_put_app; [unfold zlen; by rewrite Hq|by rewrite Hr, store_be_length].
  - by split.
Qed.
Lemma block_32 : Z.of_nat (block (C := Z)) < 2 ^ 60.
Proof. by vm_compute. Qed.

Lemma round256_h r k w : round256 r k w = h_round r k w.
Proof. unfold round256, h_round. change (@wrapw Z Sha2_32) with wrap32u. reflexivity. Qed.
Lemma load_words_32_h n bs : load_words_32 n bs = h_load n bs.
Proof. revert bs. induction n as [|n IH]; intros bs; [done|]. cbn [load_words_32 h_load]. by rewrite IH. Qed.
Lemma rounds_load_256_h j data r W : rounds_load_256 j data r W = h_rounds_load j data r W.
Proof.
  revert j r W. induction data as [|x data IH]; intros j r W; [done|]. cbn [rounds_load_256 h_rounds_load].
  rewrite IH, round256_h. reflexivity.
Qed.
Lemma rounds_expand_256_h n j r W : rounds_expand_256 n j r W = h_rounds_expand n j r W.
Proof.
  revert j r W. induction n as [|n IH]; intros j r W; [done|]. cbn [rounds_expand_256 h_rounds_expand].
  cbv zeta. rewrite IH, round256_h. change (@wrapw Z Sha2_32) with wrap32u. reflexivity.
Qed.
Lemma SHA256_Transform_h c data : SHA256_Transform c data = h_transform c data.
Proof.
  unfold SHA256_Transform, h_transform. rewrite !load_words_32_h, rounds_load_256_h.
  destruct (h_rounds_load _ _ _ _) as [r W]. rewrite rounds_expand_256_h.
  change (nrounds - 16)%nat with 48%nat. by destruct (h_rounds_expand _ _ _ _).
Qed.
#[local] Opaque SHA256_Transform h_transform.
Lemma update_blocks_256_h fuel c data : update_blocks_256 fuel c data = h_update_blocks fuel c data.
Proof.
  revert c data. induction fuel as [|f IH]; intros c data; [done|]. cbn [update_blocks_256 h_update_blocks].
  by rewrite IH, SHA256_Transform_h.
Qed.
Lemma update_tail_256_h c data : update_tail_256 c data = h_update_tail c data.
Proof. unfold update_tail_256, h_update_tail. by rewrite update_blocks_256_h. Qed.
Lemma SHA256_Update_h c data : SHA256_Update c data = h_update c data.
Proof.
  unfold SHA256_Update, h_update. cbv zeta. rewrite (update_tail_256_h c data).
  match goal with |- context [update_tail_256 ?a ?b] => rewrite (update_tail_256_h a b) end.
  match goal with |- context [SHA256_Transform ?a ?b] => rewrite (SHA256_Transform_h a b) end.
  change (usedspace_256 c) with (used (bitcount c)). change SHA256_BLOCK_LENGTH with (Z.of_nat block).
  change add_bitcount with add_bits. reflexivity.
Qed.
Lemma SHA256_Last_h c : SHA256_Last c = h_last c.
Proof.
  unfold SHA256_Last, h_last. cbv zeta. cbn [state bitcount buffer]. refine (eq_trans (SHA256_Transform_h _ _) _).
  match goal with |- context [SHA256_Transform ?a ?b] => rewrite (SHA256_Transform_h a b) end.
  change (usedspace_256 c) with (used (bitcount c)).
  change SHA256_BLOCK_LENGTH with (Z.of_nat block). reflexivity.
Qed.

(** ** Reversal of the bytes of a word *)

Lemma testbit_shl32 x s n :
  0 <= s -> 0 <= n -> Z.testbit (shl32 x s) n = bool_decide (n < 32) && Z.testbit x (n - s).
Proof.
  intros Hs Hn. unfold shl32, wrap32u. case_bool_decide.
  - by rewrite Z.mod_pow2_bits_low, Z.shiftl_spec by lia.
  - by rewrite Z.mod_pow2_bits_high by lia.
Qed.
Ltac rev_bit_32 :=
  repeat first
    [ rewrite Z.lor_spec | rewrite Z.land_spec
    | rewrite Z.shiftr_spec by lia | rewrite testbit_shl32 by lia ].
(** REVERSE32 moves bit [8 i + n] to bit [8 (3 - i) + n]. *)
Lemma REVERSE32_bit w (i n : nat) :
  0 <= w < 2 ^ 32 -> (i < 4)%nat -> (n < 8)%nat ->
  Z.testbit (REVERSE32 w) (8 * Z.of_nat i + Z.of_nat n)
  = Z.testbit w (8 * (Z.of_nat 4 - 1 - Z.of_nat i) + Z.of_nat n).
Proof.
  intros Hw Hi Hn.
  assert (Hh : forall m, 32 <= m -> Z.testbit w m = false) by (intros; by apply (testbit_above 32)).
  assert (Hl : forall m, m < 0 -> Z.testbit w m = false) by (intros; by apply Z.testbit_neg_r).
  unfold REVERSE32.
  do 4 (destruct i as [|i]; [do 8 (destruct n as [|n];
    [ rev_bit_32; cbn -[Z.testbit];
      repeat match goal with |- context [Z.testbit (Zpos ?c) ?k] =>
        let b := eval vm_compute in (Z.testbit (Zpos c) k) in
        change (Z.testbit (Zpos c) k) with b end;
      rewrite ?andb_true_r, ?andb_false_r, ?orb_false_r, ?orb_false_l;
      rewrite ?Hh by lia; rewrite ?Hl by lia; rewrite ?orb_false_r; reflexivity |]); lia|]).
  lia.
Qed.
Lemma store_le_REVERSE32 w : 0 <= w < 2 ^ 32 -> store_le 4 (REVERSE32 w) = store_be 4 w.
Proof. intros Hw. apply store_le_swapped. intros i m Hi Hm. by apply REVERSE32_bit. Qed.

(** ** The digest *)

Definition sha256 (msg : list Z) : list Z :=
  flat_map (store_be 4) (hash_words (C := Z) sha256_initial_hash_value msg).
(** The bit count has 64 bits. *)
Definition fits_256 (msg : list Z) : Prop := 8 * zlen msg < 2 ^ 64.

Lemma store_words_REVERSE32 st :
  Forall (fun w => 0 <= w < 2 ^ 32) st -> store_words_32 (REVERSE32 <$> st) = flat_map (store_be 4) st.
Proof.
  unfold store_words_32. induction 1 as [|w st Hw Hst IH]; [done|].
  cbn [fmap list_fmap flat_map]. rewrite IH. by rewrite store_le_REVERSE32.
Qed.

Abbreviation repr_256 := (repr (C := Z) sha256_initial_hash_value).
Lemma SHA256_Update_repr c msg data :
  repr_256 c msg -> fits_256 (msg ++ data) -> repr_256 (SHA256_Update c data) (msg ++ data).
Proof. intros Hr Hf. rewrite SHA256_Update_h. by apply update_repr; [apply block_32| |]. Qed.
Lemma SHA256_Data_repr msg : fits_256 msg -> repr_256 (SHA256_Update SHA256_Init msg) msg.
Proof.
  intros Hf. apply (SHA256_Update_repr SHA256_Init []); [|done].
  exists [], [], O. split; [done|]. by apply init_pending.
Qed.
Lemma SHA256_End_repr c msg : repr_256 c msg -> fits_256 msg -> SHA256_End c = flat_map hex_byte (sha256 msg).
Proof.
  intros Hr Hf. unfold SHA256_End, SHA256_Final, sha256. rewrite SHA256_Last_h.
  destruct (h_last_hash _ c msg Hr Hf) as [-> Hw]. by rewrite store_words_REVERSE32.
Qed.

(** ** The standard *)

Definition fips_32 : fips := {|
  f_word := 4; f_rounds := 64; f_K := cube_fraction 32 <$> take 64 primes;
  f_Sum0 := (2, 13, 22); f_Sum1 := (6, 11, 25); f_sig0 := (7, 18, 3); f_sig1 := (17, 19, 10) |}.
Definition H0_256 : list Z := square_fraction 32 <$> take 8 primes.
Definition fips_sha256 : list Z -> list Z := fips_digest fips_32 H0_256 32.

Lemma K256_fips : f_K fips_32 = K256.
Proof. by vm_compute. Qed.
Lemma H0_256_fips : H0_256 = sha256_initial_hash_value.
Proof. by vm_compute. Qed.

Lemma f_w_32 : f_w fips_32 = 32.
Proof. done. Qed.
Lemma S32_ROTR n x : 0 < n < 32 -> word fips_32 x -> S32 n x = ROTR fips_32 n x.
Proof. intros Hn Hx. unfold S32, shl32, wrap32u. rewrite <- f_w_32. by apply rotate_ROTR. Qed.
Ltac sigma_32 := intros x Hx; cbn [c_Sigma0 c_Sigma1 c_sigma0 c_sigma1 Sha2_32 f_Sum0 f_Sum1 f_sig0 f_sig1 fips_32];
  unfold Sigma0_256, Sigma1_256, sigma0_256, sigma1_256, fips_Sum, fips_sig, R, SHR;
  rewrite !S32_ROTR by (done || lia); rewrite ?Z.shiftr_div_pow2 by lia; by rewrite Z.lxor_assoc.

Lemma REVERSE32_word w : word fips_32 (REVERSE32 w).
Proof.
  assert (E : REVERSE32 w = REVERSE32 w mod 2 ^ 32); [|rewrite E; apply (word_mod fips_32)].
  apply Z.bits_inj'. intros n Hn. destruct (decide (n < 32)).
  - by rewrite Z.mod_pow2_bits_low by lia.
  - rewrite Z.mod_pow2_bits_high by lia. unfold REVERSE32.
    rewrite Z.lor_spec, testbit_shl32, bool_decide_false, orb_false_r by lia.
    rewrite Z.shiftr_spec, Z.land_spec by lia.
    rewrite (testbit_above 32 0xff00ff00) by lia. apply andb_false_r.
Qed.

#[export] Instance fips_32_implemented : Implements fips_32 Sha2_32.
Proof.
  split; [done|done|apply K256_fips|done|cbn; lia|sigma_32|sigma_32|sigma_32|sigma_32| |apply REVERSE32_word|].
  - intros x y z Hx Hz. cbn [c_Ch Sha2_32]. unfold Ch_256, not32. rewrite <- f_w_32. by apply Ch_fips.
  - intros bs Hl Hb. apply (rev_load fips_32 REVERSE32 4); [done|apply REVERSE32_word| |done|done].
    intros x Hx. by apply store_le_REVERSE32.
Qed.

Lemma sha256_fips msg : Forall byte msg -> sha256 msg = fips_sha256 msg.
Proof.
  intros Hb. unfold sha256, fips_sha256. rewrite H0_256_fips.
  rewrite <- (hash_words_fips fips_32); [|cbn; lia|done|done|].
  - rewrite take_ge; [done|]. rewrite (flat_map_length _ 4) by apply store_be_length. by rewrite hash_words_length.
  - repeat first [apply Forall_cons_2|apply Forall_nil_2]; by split.
Qed.

(** C23: [SHA256_Data] prints the SHA-256 of FIPS 180-4, and so does a context that
    is fed the message in two pieces of any sizes, for every message of less
    than 2^64 bits. *)
Theorem SHA256_Data_fips a b : Forall byte (a ++ b) -> fits_256 (a ++ b) ->
  SHA256_Data (a ++ b) = flat_map hex_byte (fips_sha256 (a ++ b)) /\
  SHA256_End (SHA256_Update (SHA256_Update SHA256_Init a) b) = flat_map hex_byte (fips_sha256 (a ++ b)).
Proof.
  intros Hb Hf. rewrite <- sha256_fips by done.
  assert (Ha : fits_256 a) by (unfold fits_256 in *; rewrite zlen_app in Hf; pose proof (zlen_nonneg b); lia).
  split; apply SHA256_End_repr; try done; [by apply SHA256_Data_repr|].
  apply SHA256_Update_repr; [by apply SHA256_Data_repr|done].
Qed.
Lemma SHA256_Data_fips_witness :
  let a := bytes_of $"home" in let b := bytes_of $"net" in
  SHA256_Data (a ++ b) = flat_map hex_byte (fips_sha256 (a ++ b)) /\
  SHA256_End (SHA256_Update (SHA256_Update SHA256_Init a) b) = flat_map hex_byte (fips_sha256 (a ++ b)).
Proof.
  intros a b. apply (SHA256_Data_fips a b); [|reflexivity].
  repeat first [apply Forall_cons_2|apply Forall_nil_2]; by split.
Defined.
