(* ===== verification/Sha2Unroll.v ===== *)
(** * The unrolled SHA-2 transforms (src/lib/sha/sha2.c, SHA2_UNROLL_TRANSFORM)

    With [SHA2_UNROLL_TRANSFORM] the file computes eight rounds per iteration
    and, instead of moving the working variables along, renames the arguments of
    a macro. Both forms give the same context for every block. *)
From S2P Require Import Prelude Sha2 Sha512 Sha256.

(** ** The macros

    A round macro takes the variables in the order of its arguments and assigns
    to the fourth and the last; [X] is what it does the rest of its work on. *)
Definition macro (X : Type) : Type :=
  nat -> X -> Z -> Z -> Z -> Z -> Z -> Z -> Z -> Z -> Z * Z * X.

(** The block yet to be read, and W256 (W512). *)
Definition ROUND256_0_TO_15 : macro (list Z * list Z) := fun j '(data, W) a b c d e f g h =>
  let W := <[j := REVERSE32 (List.hd 0 data)]> W in
  let T1 := wrap32u (h + Sigma1_256 e + Ch_256 e f g + nth j K256 0 + nth j W 0) in
  (wrap32u (d + T1), wrap32u (T1 + Sigma0_256 a + Maj a b c), (List.tl data, W)).

Definition ROUND256 : macro (list Z) := fun j W a b c d e f g h =>
  let at_ i := nth (i mod 16)%nat W 0 in
  let s0 := sigma0_256 (at_ (j + 1)%nat) in
  let s1 := sigma1_256 (at_ (j + 14)%nat) in
  let w := wrap32u (at_ j + wrap32u (wrap32u (s1 + at_ (j + 9)%nat) + s0)) in
  let T1 := wrap32u (h + Sigma1_256 e + Ch_256 e f g + nth j K256 0 + w) in
  (wrap32u (d + T1), wrap32u (T1 + Sigma0_256 a + Maj a b c), <[(j mod 16)%nat := w]> W).

Definition ROUND512_0_TO_15 : macro (list Z * list Z) := fun j '(data, W) a b c d e f g h =>
  let W := <[j := REVERSE64 (List.hd 0 data)]> W in
  let T1 := wrap64 (h + Sigma1_512 e + Ch e f g + nth j K512 0 + nth j W 0) in
  (wrap64 (d + T1), wrap64 (T1 + Sigma0_512 a + Maj a b c), (List.tl data, W)).

Definition ROUND512 : macro (list Z) := fun j W a b c d e f g h =>
  let at_ i := nth (i mod 16)%nat W 0 in
  let s0 := sigma0_512 (at_ (j + 1)%nat) in
  let s1 := sigma1_512 (at_ (j + 14)%nat) in
  let w := wrap64 (at_ j + wrap64 (wrap64 (s1 + at_ (j + 9)%nat) + s0)) in
  let T1 := wrap64 (h + Sigma1_512 e + Ch e f g + nth j K512 0 + w) in
  (wrap64 (d + T1), wrap64 (T1 + Sigma0_512 a + Maj a b c), <[(j mod 16)%nat := w]> W).

(** ** The loops *)

Section Loops.
Context {X : Type} (ROUND : macro X).

(** The body: eight calls, the arguments turned by one place each time. *)
Definition eight_rounds (j : nat) (r : regs) (x : X) : regs * X :=
  let '(mkRegs a b c d e f g h) := r in
  let '(d, h, x) := ROUND j x a b c d e f g h in
  let '(c, g, x) := ROUND (1 + j)%nat x h a b c d e f g in
  let '(b, f, x) := ROUND (2 + j)%nat x g h a b c d e f in
  let '(a, e, x) := ROUND (3 + j)%nat x f g h a b c d e in
  let '(h, d, x) := ROUND (4 + j)%nat x e f g h a b c d in
  let '(g, c, x) := ROUND (5 + j)%nat x d e f g h a b c in
  let '(f, b, x) := ROUND (6 + j)%nat x c d e f g h a b in
  let '(e, a, x) := ROUND (7 + j)%nat x b c d e f g h a in
  (mkRegs a b c d e f g h, x).

(** [n] iterations of the do-loop from [j]. *)
Fixpoint unrolled (n j : nat) (r : regs) (x : X) : regs * X :=
  match n with
  | O => (r, x)
  | S n' => let '(r, x) := eight_rounds j r x in unrolled n' (8 + j) r x
  end.

(** One call, with the variables moved along afterwards. *)
Definition roll (j : nat) (r : regs) (x : X) : regs * X :=
  let '(mkRegs a b c d e f g h) := r in
  let '(d, h, x) := ROUND j x a b c d e f g h in (mkRegs h a b c d e f g, x).
Fixpoint rolled (n j : nat) (r : regs) (x : X) : regs * X :=
  match n with
  | O => (r, x)
  | S n' => let '(r, x) := roll j r x in rolled n' (S j) r x
  end.

Lemma eight_rounds_rolled j r x : eight_rounds j r x = rolled 8 j r x.
Proof.
  destruct r as [a b c d e f g h]. cbn [rolled]. unfold eight_rounds, roll.
  cbn [Nat.add]. repeat match goal with |- context [ROUND ?j ?x ?a ?b ?c ?d ?e ?f ?g ?h] =>
    destruct (ROUND j x a b c d e f g h) as [[? ?] ?] end.
  done.
Qed.

Lemma rolled_add n m j r x :
  rolled (n + m) j r x = let '(r, x) := rolled n j r x in rolled m (n + j) r x.
Proof.
  revert j r x. induction n as [|n IH]; intros j r x; [done|]. cbn [Nat.add rolled].
  destruct (roll j r x) as [r' x']. rewrite IH. by rewrite Nat.add_succ_r.
Qed.

Lemma unrolled_rolled n j r x : unrolled n j r x = rolled (8 * n) j r x.
Proof.
  revert j r x. induction n as [|n IH]; intros j r x; [done|].
  replace (8 * S n)%nat with (8 + 8 * n)%nat by lia. rewrite rolled_add, <- eight_rounds_rolled.
  cbn [unrolled]. destruct (eight_rounds j r x) as [r' x']. by rewrite IH.
Qed.
End Loops.

(** ** The transforms *)

Definition SHA256_Transform_unrolled (context : SHA256_CTX) (data : list Z) : SHA256_CTX :=
  let W256 := load_words_32 16 (buffer context) in
  let '(r, (_, W)) := unrolled ROUND256_0_TO_15 2 0 (regs_of (state context)) (load_words_32 16 data, W256) in
  let '(r, W) := unrolled ROUND256 6 16 r W in
  mkCtx (zip_with (fun x y => wrap32u (x + y)) (state context) (regs_list r))
        (bitcount context) (store_words_32 W).

Definition SHA512_Transform_unrolled (context : SHA512_CTX) (data : list Z) : SHA512_CTX :=
  let W512 := load_words 16 (buffer context) in
  let '(r, (_, W)) := unrolled ROUND512_0_TO_15 2 0 (regs_of (state context)) (load_words 16 data, W512) in
  let '(r, W) := unrolled ROUND512 8 16 r W in
  mkCtx (zip_with (fun x y => wrap64 (x + y)) (state context) (regs_list r))
        (bitcount context) (store_words W).

(** ** Both forms agree *)

Lemma wrap32u_add3 x y z : wrap32u (x + y + z) = wrap32u (x + wrap32u (y + z)).
Proof. unfold wrap32u. by rewrite Zplus_mod_idemp_r, Z.add_assoc. Qed.
Lemma wrap64_add3 x y z : wrap64 (x + y + z) = wrap64 (x + wrap64 (y + z)).
Proof. unfold wrap64. by rewrite Zplus_mod_idemp_r, Z.add_assoc. Qed.
Lemma nth_insert_eq (W : list Z) j x : (j < length W)%nat -> nth j (<[j := x]> W) 0 = x.
Proof. intros Hj. rewrite nth_lookup, list_lookup_insert_eq by done. done. Qed.

(** The first loop, for words that fit the buffer. *)
Lemma load256_rolled data j r W : (j + length data <= length W)%nat ->
  rolled ROUND256_0_TO_15 (length data) j r (data, W) =
  let '(r, W) := rounds_load_256 j data r W in (r, ([], W)).
Proof.
  revert j r W. induction data as [|x data IH]; intros j r W Hj; [done|].
  cbn [length rolled rounds_load_256] in *. destruct r as [a b c d e f g h].
  unfold roll, ROUND256_0_TO_15. cbn [List.hd List.tl]. rewrite nth_insert_eq, wrap32u_add3 by lia.
  by rewrite IH by (rewrite length_insert; lia).
Qed.
Lemma load512_rolled data j r W : (j + length data <= length W)%nat ->
  rolled ROUND512_0_TO_15 (length data) j r (data, W) =
  let '(r, W) := rounds_load j data r W in (r, ([], W)).
Proof.
  revert j r W. induction data as [|x data IH]; intros j r W Hj; [done|].
  cbn [length rolled rounds_load] in *. destruct r as [a b c d e f g h].
  unfold roll, ROUND512_0_TO_15. cbn [List.hd List.tl]. rewrite nth_insert_eq, wrap64_add3 by lia.
  by rewrite IH by (rewrite length_insert; lia).
Qed.

(** The second loop. *)
Lemma expand256_rolled n j r W : rolled ROUND256 n j r W = rounds_expand_256 n j r W.
Proof.
  revert j r W. induction n as [|n IH]; intros j r W; [done|]. cbn [rolled rounds_expand_256].
  destruct r as [a b c d e f g h]. unfold roll, ROUND256. by rewrite IH, wrap32u_add3.
Qed.
Lemma expand512_rolled n j r W : rolled ROUND512 n j r W = rounds_expand n j r W.
Proof.
  revert j r W. induction n as [|n IH]; intros j r W; [done|]. cbn [rolled rounds_expand].
  destruct r as [a b c d e f g h]. unfold roll, ROUND512. by rewrite IH, wrap64_add3.
Qed.

Lemma length_load_words_32 n bs : length (load_words_32 n bs) = n.
Proof. revert bs. induction n as [|n IH]; intros bs; [done|]. cbn. by rewrite IH. Qed.
Lemma length_load_words n bs : length (load_words n bs) = n.
Proof. revert bs. induction n as [|n IH]; intros bs; [done|]. cbn. by rewrite IH. Qed.

(** C24: The unrolled transforms are the transforms. For every context and every
    block, [SHA256_Transform] and [SHA512_Transform] built with
    SHA2_UNROLL_TRANSFORM leave the same state, counter and buffer as the
    variants without it: renaming the arguments of the round macro eight times
    moves the working variables like eight rounds, and adding T1, Sigma0 and Maj
    at once wraps like adding them in two steps. *)
Theorem unrolled_transforms_agree :
  (forall context data, SHA256_Transform_unrolled context data = SHA256_Transform context data) /\
  (forall context data, SHA512_Transform_unrolled context data = SHA512_Transform context data).
Proof.
  split; intros context data.
  - unfold SHA256_Transform_unrolled, SHA256_Transform. rewrite unrolled_rolled.
    rewrite <- (length_load_words_32 (8 * 2) data) at 1. rewrite load256_rolled by by rewrite !length_load_words_32.
    destruct (rounds_load_256 _ _ _ _) as [r W]. by rewrite unrolled_rolled, expand256_rolled.
  - unfold SHA512_Transform_unrolled, SHA512_Transform. rewrite unrolled_rolled.
    rewrite <- (length_load_words (8 * 2) data) at 1. rewrite load512_rolled by by rewrite !length_load_words.
    destruct (rounds_load _ _ _ _) as [r W]. by rewrite unrolled_rolled, expand512_rolled.
Qed.
