(* ===== verification/Sha2Prog.v ===== *)
(** * The hashing program (lib/sha/sha2prog.c)

    Command line, the loop that reads a file in pieces, and the lines it
    prints: the digests are those of the whole file, whatever pieces read()
    gives. Files are a parameter: the pieces that successive calls find. *)
From S2P Require Import Prelude CString Sha2 Sha2Stream Sha2Fips Sha512 Sha512Correct Sha512Fips Sha256 Sha256Correct.

(** What read() finds in turn up to the end of a file or an error; of a file
    that cannot be opened, the text of the error. *)
Class Files := {
  stdin : list mem;
  fopen : cstr -> cstr + list mem }.

Definition BUFLEN : Z := 16384.
(** [read(fd, buf, BUFLEN)] takes at most [BUFLEN] bytes of a piece. *)
Definition read_call (s : list mem) : mem * list mem :=
  match s with
  | [] => ([], [])
  | p :: r =>
      let n := Z.to_nat BUFLEN in
      (take n p, if bool_decide (zlen p <= BUFLEN) then r else drop n p :: r)
  end.

Record contexts := mkContexts { ctx256 : SHA256_CTX; ctx384 : SHA384_CTX; ctx512 : SHA512_CTX }.
Definition update_all (c : contexts) (buf : mem) : contexts :=
  mkContexts (SHA256_Update (ctx256 c) (bytes_of buf)) (SHA384_Update (ctx384 c) (bytes_of buf))
    (SHA512_Update (ctx512 c) (bytes_of buf)).

(** The loop, with a bound on the calls of read; [kl] is counted in an int and
    not used. *)
Fixpoint hash_loop (k : nat) (s : list mem) (kl : Z) (c : contexts) : outcome contexts :=
  let '(buf, s) := read_call s in
  if bool_decide (buf = []) then Ok c
  else
    match k with
    | O => Fail NoFuel
    | S k' => hash_loop k' s (wrap32 (kl + zlen buf)) (update_all c buf)
    end.

(** ** The command line *)

Record arguments := mkArguments { quiet : bool; hash : Z; file : option (cstr * list mem) }.

Definition TAB_ : cstr := [chr 9].
Definition sha2prog_usage (prog msg : cstr) : cstr :=
  msg ++ [LF] ++ $"Usage:" ++ TAB_ ++ prog ++ $" [options] [<file>]" ++ [LF] ++ $"Options:" ++ [LF] ++
  TAB_ ++ $"-256" ++ TAB_ ++ $"Generate SHA-256 hash" ++ [LF] ++
  TAB_ ++ $"-384" ++ TAB_ ++ $"Generate SHA-284 hash" ++ [LF] ++
  TAB_ ++ $"-512" ++ TAB_ ++ $"Generate SHA-512 hash" ++ [LF] ++
  TAB_ ++ $"-ALL" ++ TAB_ ++ $"Generate all three hashes" ++ [LF] ++
  TAB_ ++ $"-q" ++ TAB_ ++ $"Quiet mode - only output hexadecimal hashes, one per line" ++ [LF; LF].

(** One option: its effect, [None] for an unknown one. *)
Definition option_arg (av : cstr) (o : arguments) : option arguments :=
  let set_hash h := Some (mkArguments (quiet o) h (file o)) in
  if strcmp_eq av $"q" then Some (mkArguments true (hash o) (file o))
  else if strcmp_eq av $"256" then set_hash (Z.lor (hash o) 1)
  else if strcmp_eq av $"384" then set_hash (Z.lor (hash o) 2)
  else if strcmp_eq av $"512" then set_hash (Z.lor (hash o) 4)
  else if strcmp_eq av $"ALL" then set_hash 7
  else None.

(** The arguments, or what is written to the standard error before exit(-1).
    The operand has to come last. *)
Fixpoint arguments_loop `{Files} (prog : cstr) (args : list cstr) (o : arguments) : cstr + arguments :=
  match args with
  | [] => inr o
  | a :: rest =>
      if bool_decide (hd_error a = Some "-"%char) then
        match option_arg (List.tl a) o with
        | Some o => arguments_loop prog rest o
        | None => inl (sha2prog_usage prog $"Invalid option.")
        end
      else
        match rest with
        | _ :: _ => inl (sha2prog_usage prog $"Too many arguments.")
        | [] =>
            match fopen a with
            | inl text => inl (prog ++ $": " ++ text ++ [LF])
            | inr s => inr (mkArguments (quiet o) (hash o) (Some (a, s)))
            end
        end
  end.

(** ** The program *)

(** One digest; a null file name is formatted by %s. *)
Definition print_digest (o : arguments) (name digest : cstr) : outcome cstr :=
  head ← (if quiet o then Ok []
          else f ← deref (fst <$> file o); Ok (name ++ $" (" ++ f ++ $") = "));
  Ok (head ++ digest ++ [LF]).
Definition print_if (o : arguments) (bit : Z) (name digest : cstr) : outcome cstr :=
  if bool_decide (Z.land (hash o) bit = 0) then Ok [] else print_digest o name digest.

Record exit_result := mkExit { status : Z; out : cstr; err : cstr }.

Definition contexts_init : contexts := mkContexts SHA256_Init SHA384_Init SHA512_Init.
Definition or_all (o : arguments) : arguments :=
  if bool_decide (hash o = 0) then mkArguments (quiet o) 7 (file o) else o.

Definition sha2prog_main `{Files} (prog : cstr) (args : list cstr) : outcome exit_result :=
  match arguments_loop prog args (mkArguments false 0 None) with
  | inl text => Ok (mkExit 255 [] text)
  | inr o =>
      let o := or_all o in
      let s := default stdin (snd <$> file o) in
      c ← hash_loop (length (concat s)) s 0 contexts_init;
      p256 ← print_if o 1 $"SHA-256" (SHA256_End (ctx256 c));
      p384 ← print_if o 2 $"SHA-384" (SHA384_End (ctx384 c));
      p512 ← print_if o 4 $"SHA-512" (SHA512_End (ctx512 c));
      Ok (mkExit 1 (p256 ++ p384 ++ p512) [])
  end.

(** ** Reading in pieces *)

Definition iv384 : list Z := sha384_initial_hash_value.
Definition iv512 : list Z := sha512_initial_hash_value.

(** The contexts have taken in [msg]. *)
Record hashed (c : contexts) (msg : list Z) : Prop := {
  hashed_256 : repr_256 (ctx256 c) msg;
  hashed_384 : repr iv384 (ctx384 c) msg;
  hashed_512 : repr iv512 (ctx512 c) msg }.

Lemma fits_256_fits msg : fits_256 msg -> fits msg.
Proof. unfold fits_256, fits. intros H. apply (Z.lt_trans _ _ _ H). done. Qed.
Lemma fits_256_prefix a b : fits_256 (a ++ b) -> fits_256 a.
Proof. unfold fits_256. rewrite zlen_app. pose proof (zlen_nonneg b). lia. Qed.

Lemma hashed_init : hashed contexts_init [].
Proof. split; [exists [], [], O; split; [done|]; by apply init_pending|apply Init_repr..]. Qed.
Lemma hashed_update c msg buf : hashed c msg -> fits_256 (msg ++ bytes_of buf) ->
  hashed (update_all c buf) (msg ++ bytes_of buf).
Proof.
  intros [H1 H2 H3] Hf. pose proof (fits_256_fits _ Hf).
  split; [by apply SHA256_Update_repr|by apply Update_repr..].
Qed.

Lemma read_call_spec p r buf s : Forall (fun p => p <> []) (p :: r) -> read_call (p :: r) = (buf, s) ->
  buf <> [] /\ concat (p :: r) = buf ++ concat s /\ Forall (fun p => p <> []) s.
Proof.
  intros [Hp Hr]%Forall_cons_1 [= <- <-]. split_and!.
  - destruct p; [done|]. by change (Z.to_nat BUFLEN) with (S (Z.to_nat (BUFLEN - 1))).
  - case_bool_decide as Hl.
    + rewrite take_ge by (unfold zlen, BUFLEN in *; lia). done.
    + cbn [concat]. by rewrite app_assoc, take_drop.
  - case_bool_decide as Hl; [done|]. constructor; [|done].
    intros E%(f_equal length). rewrite length_drop in E. cbn [length] in E. unfold zlen, BUFLEN in *. lia.
Qed.

Lemma hash_loop_hashed k s kl c msg : Forall (fun p => p <> []) s ->
  (length (concat s) <= k)%nat -> hashed c msg -> fits_256 (msg ++ bytes_of (concat s)) ->
  exists c', hash_loop k s kl c = Ok c' /\ hashed c' (msg ++ bytes_of (concat s)).
Proof.
  revert s kl c msg. induction k as [|k IH]; intros s kl c msg Hs Hk Hc Hf.
  all: destruct s as [|p r]; [exists c; cbn; by rewrite app_nil_r|].
  all: cbn [hash_loop]; destruct (read_call (p :: r)) as [buf s] eqn:E.
  all: destruct (read_call_spec p r buf s Hs E) as (Hb & Hcat & Hs'); rewrite Hcat in *.
  all: rewrite bool_decide_false by done.
  - destruct buf; [done|]. cbn in Hk. lia.
  - unfold bytes_of in *. rewrite fmap_app, app_assoc in *. apply IH; [done| |apply hashed_update; [done|by apply fits_256_prefix in Hf]|done].
    destruct buf; [done|]. rewrite length_app in Hk. cbn in Hk. lia.
Qed.

(** ** What is printed *)

Lemma byte_bytes_of s : Forall byte (bytes_of s).
Proof.
  apply Forall_fmap, Forall_true. intros c. unfold byte, code; cbn. pose proof (N_ascii_bounded c). lia.
Qed.

(** A line for each digest that is asked for. *)
Definition line_for (o : arguments) (bit : Z) (name digest : cstr) : cstr :=
  if bool_decide (Z.land (hash o) bit = 0) then []
  else (if quiet o then [] else name ++ $" (" ++ default [] (fst <$> file o) ++ $") = ") ++ digest ++ [LF].
Definition report (o : arguments) (data : list Z) : cstr :=
  line_for o 1 $"SHA-256" (flat_map hex_byte (fips_sha256 data)) ++
  line_for o 2 $"SHA-384" (flat_map hex_byte (fips_sha384 data)) ++
  line_for o 4 $"SHA-512" (flat_map hex_byte (fips_sha512 data)).

Lemma print_if_line o bit name digest : quiet o = true \/ file o <> None ->
  print_if o bit name digest = Ok (line_for o bit name digest).
Proof.
  intros Ho. unfold print_if, line_for, print_digest. case_bool_decide; [done|].
  destruct (quiet o); [done|]. destruct (file o) as [[f s]|]; [done|]. by destruct Ho.
Qed.

(** C25: The program prints the digests of the standard. When its arguments are
    accepted and it has a file to name (or -q), it prints for each hash that
    is asked for, all three by default, one line with the SHA-256, SHA-384 or
    SHA-512 of FIPS 180-4 of all the bytes of the input: neither the pieces
    read() delivers, cut to the 16384 bytes of the buffer, nor their number
    make a difference, and the loop ends. It then returns 1. *)
Theorem sha2prog_fips `{Files} prog args o
    (s := default stdin (snd <$> file o)) (data := bytes_of (concat s))
    (Hargs : arguments_loop prog args (mkArguments false 0 None) = inr o)
    (Hname : quiet o = true \/ file o <> None)
    (Hs : Forall (fun p => p <> []) s) (Hf : fits_256 data) :
  sha2prog_main prog args = Ok (mkExit 1 (report (or_all o) data) []).
Proof.
  unfold sha2prog_main. rewrite Hargs.
  assert (E : file (or_all o) = file o) by by (unfold or_all; case_bool_decide).
  assert (Hn : quiet (or_all o) = true \/ file (or_all o) <> None).
  { rewrite E. unfold or_all. by case_bool_decide. }
  rewrite E. fold s.
  destruct (hash_loop_hashed (length (concat s)) s 0 contexts_init []) as (c & -> & [H1 H2 H3]);
    [done|done|apply hashed_init|done|].
  cbn [app] in *. fold data in H1, H2, H3. pose proof (fits_256_fits _ Hf). pose proof (byte_bytes_of (concat s)) as Hb.
  rewrite ok_bind, (SHA256_End_repr _ _ H1), (SHA384_End_repr _ _ H2), (End_repr _ _ H3) by done.
  unfold sha512_hex. rewrite sha256_fips, sha384_fips, sha512_fips by done.
  by rewrite !print_if_line, !ok_bind by done.
Qed.

(** A file that arrives in two pieces. *)
Definition demo_files : Files := {|
  stdin := [];
  fopen := fun name => if strcmp_eq name $"abc" then inr [ $"a"; $"bc"] else inl $"No such file or directory" |}.

Lemma sha2prog_fips_witness :
  let o := mkArguments false 1 (Some ($"abc", [ $"a"; $"bc"])) in
  @sha2prog_main demo_files $"sha2" [ $"-256"; $"abc"] =
    Ok (mkExit 1 (report (or_all o) (bytes_of (concat [ $"a"; $"bc"]))) []).
Proof.
  intros o. apply (@sha2prog_fips demo_files $"sha2" [ $"-256"; $"abc"] o);
    [reflexivity|by right|by repeat constructor|reflexivity].
Defined.

Example sha2prog_abc : @sha2prog_main demo_files $"sha2" [ $"-256"; $"abc"] =
  Ok (mkExit 1 ($"SHA-256 (abc) = ba7816bf8f01cfea414140de5dae2223b00361a396177a9cb410ff61f20015ad" ++ [LF]) []).
Proof. by vm_compute. Qed.
(** Without a file and without -q a null pointer is formatted by %s. *)
Example sha2prog_stdin_null : @sha2prog_main demo_files $"sha2" [ $"-256"] = Fail NullDeref.
Proof. by vm_compute. Qed.
(** Options have to come before the file. *)
Example sha2prog_late_option : @sha2prog_main demo_files $"sha2" [ $"abc"; $"-q"] =
  Ok (mkExit 255 [] (sha2prog_usage $"sha2" $"Too many arguments.")).
Proof. by vm_compute. Qed.
