(* ===== verification/Auth.v ===== *)
(** * Authentication and one-time codes (src/homeNet.c, lines 76-92, 117-227,
    716-733, 1019-1049)

    The challenge-response scheme of the protocol, as functions: a bridge sends
    [AUTH nonce], the client answers [key hash] where the hash is the SHA-512
    of [nonce|key|salt], and the bridge recomputes it with the salt it stores
    for the key. Strings live in buffers of the sizes the code declares; a
    string that does not fit is [BufOverflow], a null pointer given to
    [str_len] is [NullDeref]. [rand()] is a parameter. *)
From S2P Require Import Prelude CString Str Containers IpAddr Sha2 Sha512 Sha512Correct.

(** [char buff[BUFF_SIZE]], the message buffers of the protocol. *)
Definition BUFF_SIZE : Z := 600.
Definition HN_MSG_END : cstr := [CR; LF].

(** ** generateCode *)

(** [rand_seq seed n]: the n-th result of rand() after srand(seed). *)
Class Rand := rand_seq : Z -> nat -> Z.

Definition code_alphabet : cstr :=
  $"abcdefghijklmnopqrstuvwxyzABCDEFGHIJKLMNOPQRSTUVWXYZ0123456789".

Section Code.
Context `{Rand}.

Fixpoint code_loop (k n : nat) (seed : Z) : cstr :=
  match k with
  | O => []
  | S k' =>
      let key := rand_seq seed n mod zlen code_alphabet in
      nth (Z.to_nat key) code_alphabet nul :: code_loop k' (S n) seed
  end.

(** [cap] is the size of [randomString]; the static [mySeed] is threaded. *)
Definition generateCode (cap now mySeed length0 : Z) : outcome (cstr * Z) :=
  let mySeed := wrap32 (mySeed + 1) in
  let seed := (now * length0 + mySeed) mod 2 ^ 32 in
  let length := if bool_decide (length0 < 1) then 1 else length0 in
  s ← strcpy cap (code_loop (Z.to_nat length) 0 seed);
  Ok (s, mySeed).

(** [char nonce[16]], the message and the nonce. *)
Definition generateAuthChallenge (now mySeed : Z) : outcome (cstr * cstr * Z) :=
  out ← str_set BUFF_SIZE $"AUTH ";
  '(nonce, mySeed) ← generateCode 16 now mySeed 15;
  out ← str_concat BUFF_SIZE out nonce;
  Ok (out, nonce, mySeed).
End Code.

(** ** Responses *)

Definition generateAuthResp (nonce : cstr) (key salt : option cstr) : outcome cstr :=
  k ← deref key;
  let key := if bool_decide (str_len k = 0) then None else Some k in
  buff ← match key with
         | Some k => b ← str_set BUFF_SIZE k; str_concat BUFF_SIZE b $" "
         | None => Ok []
         end;
  raw ← str_set 513 nonce;
  raw ← str_concat 513 raw $"|";
  raw ← match key with Some k => str_concat 513 raw k | None => Ok raw end;
  raw ← str_concat 513 raw $"|";
  s ← deref salt;
  raw ← str_concat 513 raw s;
  let ctx512 := SHA512_Update SHA512_Init (bytes_of raw) in
  str_concat BUFF_SIZE buff (SHA512_End ctx512).

(** A password is "key:salt" or "salt". *)
Definition generateAuthRespFromPassword (nonce password : cstr) : outcome cstr :=
  let key := tok1 $":" password in
  let salt := tok1 $":" (tok_rest $":" password) in
  match salt with
  | None => generateAuthResp nonce None key
  | Some _ => generateAuthResp nonce key salt
  end.

Definition verifyAuthRespFromMap (buff nonce : cstr) (keyStore : Map cstr) : outcome bool :=
  match strtok_r $" " buff with
  | None => Ok false
  | Some (key, rest) =>
      match strtok_r $" " rest with
      | None => Ok false
      | Some (hash, _) =>
          match map_get keyStore key with
          | None => Ok false
          | Some salt =>
              answer ← generateAuthResp nonce (Some key) (Some salt);
              Ok (str_isEqual answer buff)
          end
      end
  end.

Definition verifyAuthResp (buff nonce key salt : cstr) : outcome bool :=
  '(map, _) ← map_set map_init key salt true;
  verifyAuthRespFromMap buff nonce map.

(** ** Helpers of the connection code *)

(** First index of [c] in [str[start..stop]], -1 when there is none. *)
Definition charIndex (str : mem) (start stop0 : Z) (c : char) : outcome Z :=
  stop ← (if bool_decide (stop0 = -1) then n ← strlen str; Ok (n - 1) else Ok stop0);
  r ← for_ret (Z.to_nat (stop - start + 1)) start (fun i =>
        x ← rd str i; if bool_decide (x = c) then Ok (Some i) else Ok None);
  Ok (default (-1) r).

Definition getNextRetry (retryCount lastRetry : Z) : Z :=
  if bool_decide (retryCount < 2) then lastRetry
  else if bool_decide (retryCount < 5) then lastRetry + 60
  else if bool_decide (retryCount < 10) then lastRetry + 60 * 5
  else lastRetry + 60 * 30.

Definition HN_MODE_CONNECT : Z := 1.
Definition HN_MODE_BRIDGE : Z := 2.
Definition HN_MODE_QUERY : Z := 3.
Definition HN_MODE_REVERSE_LISTEN : Z := 4.
Definition HN_MODE_LISTEN : Z := 5.

Definition AUTH_LEVEL_NONE : Z := 0.
Definition AUTH_LEVEL_LOCAL_IP : Z := 1.
Definition AUTH_LEVEL_ALL : Z := 2.

(** [mode] and [connectAuthLevel] are the two fields of the configuration that
    are read; the second is reached through [conf->bridge]. *)
Definition connect_authRequired `{Inet6} (connUrl : cstr) (mode : Z)
    (connectAuthLevel : option Z) : outcome bool :=
  if bool_decide (mode <> HN_MODE_BRIDGE) then Ok false
  else
    level ← deref connectAuthLevel;
    if bool_decide (level = AUTH_LEVEL_NONE) then Ok false
    else if bool_decide (level = AUTH_LEVEL_ALL) then Ok true
    else
      let urlPtr := if prefixb $"hn://" connUrl then drop 5 connUrl else connUrl in
      let connId :=
        match strtok_r $"/" urlPtr with
        | Some (first, _) => tok1 $"#" first
        | None => None   (* strtok_r(NULL) resumes at the end of the string *)
        end in
      connId ← deref connId;
      '(r, _) ← str_toIpAddr connId;
      Ok r.

(** ** Specification of the scheme *)

Definition auth_raw (nonce key salt : cstr) : cstr :=
  nonce ++ $"|" ++ key ++ $"|" ++ salt.

Definition auth_hash (nonce key salt : cstr) : cstr :=
  sha512_hex (bytes_of (auth_raw nonce key salt)).

Definition auth_resp (nonce key salt : cstr) : cstr :=
  (if bool_decide (key = []) then [] else key ++ $" ") ++ auth_hash nonce key salt.

(** The sizes for which the buffers of [generateAuthResp] are large enough. *)
Definition resp_fits (nonce key salt : cstr) : Prop :=
  zlen nonce + zlen key + zlen salt + 2 < 513 /\ zlen key + 129 < BUFF_SIZE.

(** The keys a store of the configuration can hold, with their salts. *)
Definition store_fits (nonce : cstr) (keyStore : Map cstr) : Prop :=
  forall k s, map_get keyStore k = Some s -> resp_fits nonce k s.

(** ** Lemmas *)

Lemma zlen_bytes_of s : zlen (bytes_of s) = zlen s.
Proof. unfold bytes_of, zlen. by rewrite length_fmap. Qed.

Lemma auth_hash_length nonce key salt : zlen (auth_hash nonce key salt) = 128.
Proof. unfold zlen, auth_hash. by rewrite sha512_hex_length. Qed.

Lemma strcpy_fits cap s : zlen s < cap -> strcpy cap s = Ok s.
Proof. intros H. by apply strcpy_ok. Qed.

Lemma generateAuthResp_raw raw :
  zlen raw < 513 -> SHA512_End (SHA512_Update SHA512_Init (bytes_of raw)) = sha512_hex (bytes_of raw).
Proof.
  intros H. assert (fits (bytes_of raw)).
  { unfold fits. rewrite zlen_bytes_of. change (2 ^ 128) with (8 * 2 ^ 125). lia. }
  apply End_repr; [by apply Data_repr|done].
Qed.

Lemma generateAuthResp_spec nonce key salt :
  resp_fits nonce key salt ->
  generateAuthResp nonce (Some key) (Some salt) = Ok (auth_resp nonce key salt).
Proof.
  intros [H1 H2]. pose proof (zlen_nonneg nonce). pose proof (zlen_nonneg key).
  pose proof (zlen_nonneg salt). unfold BUFF_SIZE in *.
  assert (Hr : zlen (auth_raw nonce key salt) < 513).
  { unfold auth_raw. autorewrite with homenet. change (zlen $"|") with 1. lia. }
  pose proof (generateAuthResp_raw _ Hr) as Eh.
  unfold generateAuthResp, str_set, str_concat, str_len, auth_resp, BUFF_SIZE.
  cbn [deref mbind outcome_bind].
  destruct key as [|c key].
  - rewrite !bool_decide_true by done. cbn [mbind outcome_bind].
    unfold auth_raw in Hr, Eh. cbn [app] in *.
    repeat (rewrite strcpy_fits by
      (autorewrite with homenet; change (zlen $"|") with 1; cbn [zlen length] in *; lia);
      cbn [mbind outcome_bind deref]).
    rewrite <- ?app_assoc. cbn [app]. unfold auth_hash, auth_raw. cbn [app].
    rewrite Eh. by rewrite strcpy_fits by (unfold zlen; rewrite sha512_hex_length; done).
  - rewrite !bool_decide_false by (done || (rewrite zlen_cons; pose proof (zlen_nonneg key); lia)).
    remember (c :: key) as k eqn:Ek. clear Ek. unfold auth_raw in Hr, Eh.
    repeat (rewrite strcpy_fits by
      (autorewrite with homenet; change (zlen $"|") with 1; change (zlen $" ") with 1; lia);
      cbn [mbind outcome_bind deref]).
    rewrite <- !app_assoc. rewrite Eh. unfold auth_hash, auth_raw.
    rewrite strcpy_fits; [done|].
    autorewrite with homenet. change (zlen $" ") with 1. unfold zlen at 2.
    rewrite sha512_hex_length. lia.
Qed.

Lemma space_not_hex msg : Forall (fun c => c ∉ $" ") (sha512_hex msg).
Proof. apply sha512_hex_free. by repeat constructor. Qed.

(** How the verifier cuts a response. *)
Lemma strtok_resp nonce key salt :
  key <> [] -> Forall (fun c => c ∉ $" ") key ->
  strtok_r $" " (auth_resp nonce key salt) = Some (key, auth_hash nonce key salt) /\
  strtok_r $" " (auth_hash nonce key salt) = Some (auth_hash nonce key salt, []).
Proof.
  intros Hne Hk. unfold auth_resp. rewrite bool_decide_false by done. rewrite <- app_assoc. split.
  - apply (strtok_r_app $" " key " "%char); [done..|apply list_elem_of_here].
  - apply strtok_r_whole; [|apply space_not_hex].
    intros E. pose proof (auth_hash_length nonce key salt) as L. by rewrite E in L.
Qed.

(** Acceptance, in both directions. *)
Lemma verify_accepts nonce key salt keyStore :
  key <> [] -> Forall (fun c => c ∉ $" ") key -> resp_fits nonce key salt ->
  map_get keyStore key = Some salt ->
  verifyAuthRespFromMap (auth_resp nonce key salt) nonce keyStore = Ok true.
Proof.
  intros Hne Hk Hf Hm. unfold verifyAuthRespFromMap.
  destruct (strtok_resp nonce key salt Hne Hk) as [-> ->]. rewrite Hm.
  rewrite generateAuthResp_spec by done. cbn [mbind outcome_bind]. f_equal.
  by apply str_isEqual_true.
Qed.

Lemma verify_total buff nonce keyStore :
  store_fits nonce keyStore ->
  exists b, verifyAuthRespFromMap buff nonce keyStore = Ok b /\
    (b = true -> exists key salt, key <> [] /\ Forall (fun c => c ∉ $" ") key /\
       map_get keyStore key = Some salt /\ buff = auth_resp nonce key salt).
Proof.
  intros Hf. unfold verifyAuthRespFromMap.
  destruct (strtok_r $" " buff) as [[key rest]|] eqn:E1; [|by exists false].
  destruct (strtok_r $" " rest) as [[hash rest']|] eqn:E2; [|by exists false].
  destruct (map_get keyStore key) as [salt|] eqn:E3; [|by exists false].
  rewrite generateAuthResp_spec by by apply Hf. cbn [mbind outcome_bind].
  eexists. split; [done|]. intros Hb. apply str_isEqual_true in Hb.
  apply strtok_r_some in E1 as (pre & post & _ & _ & Hne & Hk & _).
  by exists key, salt.
Qed.

Lemma auth_raw_inj nonce key salt salt' :
  auth_raw nonce key salt = auth_raw nonce key salt' -> salt = salt'.
Proof. unfold auth_raw. intros H. by repeat apply app_inv_head in H. Qed.

Lemma bytes_of_inj s t : bytes_of s = bytes_of t -> s = t.
Proof.
  unfold bytes_of. revert t. induction s as [|c s IH]; intros [|d t]; try done.
  cbn. intros [= Hc Hs]. f_equal; [by apply code_inj|by apply IH].
Qed.

(** *** Codes *)

Lemma code_alphabet_length : zlen code_alphabet = 62.
Proof. reflexivity. Qed.

Lemma code_loop_length `{Rand} k n seed : length (code_loop k n seed) = k.
Proof. revert n. induction k as [|k IH]; intros n; cbn; [done|]. by rewrite IH. Qed.

Lemma code_loop_chars `{Rand} k n seed :
  Forall (fun c => c ∈ code_alphabet) (code_loop k n seed).
Proof.
  revert n. induction k as [|k IH]; intros n; [constructor|]. cbn [code_loop].
  apply Forall_cons_2; [|apply IH].
  apply list_elem_of_lookup. rewrite code_alphabet_length.
  pose proof (Z.mod_pos_bound (rand_seq seed n) 62 ltac:(lia)) as Hb.
  exists (Z.to_nat (rand_seq seed n mod 62)). destruct (nth_lookup_or_length
    code_alphabet (Z.to_nat (rand_seq seed n mod 62)) nul) as [E|E]; [done|].
  change (length code_alphabet) with 62%nat in E. lia.
Qed.

Lemma generateCode_ok `{Rand} cap now mySeed n :
  1 <= n < cap ->
  exists s, generateCode cap now mySeed n = Ok (s, wrap32 (mySeed + 1)) /\
    zlen s = n /\ Forall (fun c => c ∈ code_alphabet) s.
Proof.
  intros Hn. unfold generateCode. rewrite bool_decide_false by lia.
  set (seed := _ mod 2 ^ 32). exists (code_loop (Z.to_nat n) 0 seed).
  assert (L : zlen (code_loop (Z.to_nat n) 0 seed) = n).
  { unfold zlen. rewrite code_loop_length. lia. }
  rewrite strcpy_fits by lia. split_and!; [done|done|apply code_loop_chars].
Qed.

Lemma code_chars_free (s set : cstr) :
  Forall (fun c => c ∈ code_alphabet) s ->
  Forall (fun d => mem_of code_alphabet d = false) set -> Forall (fun c => c ∉ set) s.
Proof.
  intros Hs Hset. eapply Forall_impl; [exact Hs|]. cbn. intros c Hc Hin.
  rewrite Forall_forall in Hset. apply Hset, mem_of_false in Hin. done.
Qed.

Lemma generateAuthChallenge_ok `{Rand} now mySeed :
  exists nonce, generateAuthChallenge now mySeed
    = Ok ($"AUTH " ++ nonce, nonce, wrap32 (mySeed + 1)) /\
    zlen nonce = 15 /\ Forall (fun c => c ∈ code_alphabet) nonce.
Proof.
  destruct (generateCode_ok 16 now mySeed 15 ltac:(lia)) as (s & E & L & Hs).
  exists s. unfold generateAuthChallenge, str_set, str_concat. rewrite E.
  rewrite strcpy_fits by done. cbn [mbind outcome_bind].
  rewrite strcpy_fits; [done|]. rewrite zlen_app, L. done.
Qed.

Lemma password_split key salt :
  key <> [] -> Forall (fun c => c ∉ $":") key ->
  salt <> [] -> Forall (fun c => c ∉ $":") salt ->
  tok1 $":" (key ++ $":" ++ salt) = Some key /\
  tok1 $":" (tok_rest $":" (key ++ $":" ++ salt)) = Some salt.
Proof.
  intros Hk Hk' Hs Hs'. unfold tok1, tok_rest.
  pose proof (strtok_r_app $":" key ":"%char salt Hk Hk' (list_elem_of_here _ _)) as E.
  change ($":" ++ salt) with (":"%char :: salt). rewrite E. cbn.
  by rewrite strtok_r_whole.
Qed.

Lemma password_no_colon s :
  Forall (fun c => c ∉ $":") s -> tok1 $":" (tok_rest $":" s) = None.
Proof.
  intros Hs. unfold tok1, tok_rest. destruct s as [|c s]; [done|].
  rewrite (strtok_r_whole _ (c :: s)) by done. reflexivity.
Qed.

Lemma getNextRetry_cases n t :
  getNextRetry n t = t + (if bool_decide (n < 2) then 0 else if bool_decide (n < 5) then 60
                          else if bool_decide (n < 10) then 300 else 1800).
Proof. unfold getNextRetry. bool_cases; lia. Qed.

(** ** Properties *)

(** A store with one key, for the witnesses. *)
Definition store1 (key salt : cstr) : Map cstr := mkMap [mkItem key salt] 1.

Lemma store1_fits : store_fits $"nonce" (store1 $"k1" $"s1").
Proof.
  intros k s. unfold map_get, map_getItem, store1. cbn.
  unfold str_isEqual, strcmp_eq. case_bool_decide as E; [|done]. cbn. intros [= <-]. subst k.
  by vm_compute.
Qed.

(** C1: the verifier never faults on a received message, whatever its bytes,
    and accepts it exactly when it is the response to the nonce for one of the
    keys of the store with the salt stored for that key. *)
Theorem verifyAuthRespFromMap_correct (buff nonce : cstr) (keyStore : Map cstr)
    (Hfits : store_fits nonce keyStore) :
  exists b, verifyAuthRespFromMap buff nonce keyStore = Ok b /\
    (b = true <-> exists key salt, key <> [] /\ Forall (fun c => c ∉ $" ") key /\
       map_get keyStore key = Some salt /\ buff = auth_resp nonce key salt).
Proof.
  destruct (verify_total buff nonce keyStore Hfits) as (b & E & Hb). exists b.
  split; [done|]. split; [done|]. intros (key & salt & Hne & Hk & Hm & ->).
  rewrite verify_accepts with (salt := salt) in E; [congruence|done..|by apply Hfits|done].
Qed.

Lemma verifyAuthRespFromMap_correct_witness :
  exists b, verifyAuthRespFromMap $"k1 00" $"nonce" (store1 $"k1" $"s1") = Ok b /\
    (b = true <-> exists key salt, key <> [] /\ Forall (fun c => c ∉ $" ") key /\
       map_get (store1 $"k1" $"s1") key = Some salt /\ $"k1 00" = auth_resp $"nonce" key salt).
Proof. apply (verifyAuthRespFromMap_correct $"k1 00" $"nonce" (store1 $"k1" $"s1")), store1_fits. Defined.

(** C2: the answer a client computes from a password "key:salt" is accepted by
    every bridge whose store maps that key to that salt. *)
Theorem auth_round_trip (nonce key salt : cstr) (keyStore : Map cstr)
    (Hkey : key <> []) (Hkey' : Forall (fun c => c ∉ $" :") key)
    (Hsalt : salt <> []) (Hsalt' : Forall (fun c => c ∉ $":") salt)
    (Hfits : resp_fits nonce key salt) (Hstore : map_get keyStore key = Some salt) :
  exists r, generateAuthRespFromPassword nonce (key ++ $":" ++ salt) = Ok r /\
    verifyAuthRespFromMap r nonce keyStore = Ok true.
Proof.
  assert (H1 : Forall (fun c => c ∉ $":") key) by by apply (free_sub $" :").
  assert (H2 : Forall (fun c => c ∉ $" ") key) by by apply (free_sub $" :").
  exists (auth_resp nonce key salt). unfold generateAuthRespFromPassword.
  destruct (password_split key salt) as [-> ->]; [done..|]. split.
  - by apply generateAuthResp_spec.
  - by apply verify_accepts with (salt := salt).
Qed.

Lemma auth_round_trip_witness :
  exists r, generateAuthRespFromPassword $"nonce" ($"k1" ++ $":" ++ $"s1") = Ok r /\
    verifyAuthRespFromMap r $"nonce" (store1 $"k1" $"s1") = Ok true.
Proof.
  apply (auth_round_trip $"nonce" $"k1" $"s1" (store1 $"k1" $"s1"));
    first [discriminate | reflexivity | by vm_compute
          | apply free_dec; reflexivity].
Defined.

(** a response computed with another salt is accepted exactly when the two
    digests agree, and the texts that are hashed are different: accepting it
    takes a SHA-512 collision. *)
Theorem auth_wrong_salt (nonce key salt salt' : cstr) (keyStore : Map cstr)
    (Hkey : key <> []) (Hkey' : Forall (fun c => c ∉ $" ") key)
    (Hstore : map_get keyStore key = Some salt) (Hfits : resp_fits nonce key salt)
    (Hne : salt <> salt') :
  verifyAuthRespFromMap (auth_resp nonce key salt') nonce keyStore
    = Ok (bool_decide (sha512_hex (bytes_of (auth_raw nonce key salt))
                       = sha512_hex (bytes_of (auth_raw nonce key salt')))) /\
  bytes_of (auth_raw nonce key salt) <> bytes_of (auth_raw nonce key salt').
Proof.
  split; [|by intros H%bytes_of_inj%auth_raw_inj].
  unfold verifyAuthRespFromMap.
  destruct (strtok_resp nonce key salt' Hkey Hkey') as [E1 E2]. rewrite E1, E2, Hstore.
  rewrite generateAuthResp_spec by done. cbn [mbind outcome_bind]. f_equal.
  unfold str_isEqual, strcmp_eq, auth_resp. apply bool_decide_ext. split; [|unfold auth_hash; congruence].
  by intros H%app_inv_head.
Qed.

Lemma auth_wrong_salt_witness :
  verifyAuthRespFromMap (auth_resp $"nonce" $"k1" $"s2") $"nonce" (store1 $"k1" $"s1")
    = Ok (bool_decide (sha512_hex (bytes_of (auth_raw $"nonce" $"k1" $"s1"))
                       = sha512_hex (bytes_of (auth_raw $"nonce" $"k1" $"s2")))) /\
  bytes_of (auth_raw $"nonce" $"k1" $"s1") <> bytes_of (auth_raw $"nonce" $"k1" $"s2").
Proof.
  apply (auth_wrong_salt $"nonce" $"k1" $"s1" $"s2" (store1 $"k1" $"s1"));
    first [discriminate | reflexivity | by vm_compute | apply free_dec; reflexivity].
Defined.

(** a password without a colon, which the code documents as "salt", makes
    [generateAuthResp] take the length of the null key. *)
Theorem password_without_key_faults (nonce password : cstr)
    (Hcolon : Forall (fun c => c ∉ $":") password) :
  generateAuthRespFromPassword nonce password = Fail NullDeref.
Proof. unfold generateAuthRespFromPassword. by rewrite password_no_colon. Qed.

Lemma password_without_key_faults_witness :
  generateAuthRespFromPassword $"nonce" $"1234" = Fail NullDeref.
Proof. apply (password_without_key_faults $"nonce" $"1234"), free_dec. reflexivity. Defined.
