(* ===== verification/ConfigFile.v ===== *)
(** * The configuration file (src/utils.c, readConfigFile, lines 520-585)

    [readConfigFile] hands out one entry per call and keeps the open file in a
    static variable. The file system is a parameter: [fopen] gives the bytes of
    a file, [None] when it cannot be opened. The specification reads the file
    as a list of lines. *)
From S2P Require Import Prelude CString Str.

Class FileSystem := fopen : cstr -> option cstr.

(** The static variables: the open file (its bytes and those not read yet) and
    the section to look for. *)
Record cfg_static := mkCfg { fp : option (cstr * cstr); sec : option cstr }.
Definition cfg_closed : cfg_static := mkCfg None None.

(** getdelim with delimiter newline: the line with its newline. *)
Definition not_lf (c : char) : bool := negb (bool_decide (c = LF)).
Definition getdelim (rest : cstr) : option (cstr * cstr) :=
  match rest with
  | [] => None
  | _ => match drop_while not_lf rest with
         | [] => Some (rest, [])
         | c :: r => Some (take_while not_lf rest ++ [c], r)
         end
  end.

(** The control characters removed from a line. *)
Definition ctl_chars : cstr := [chr 9; LF].
Definition quote : char := chr 34.

Definition clean_line (line : cstr) : outcome cstr :=
  via (fun m => str_removeChars m ctl_chars) line.

(** [line[str_len(line) - 1] = '\0'] *)
Definition cut_last (line : cstr) : outcome cstr :=
  via (fun m => n ← strlen m; wr m (n - 1) nul) line.

(** The loop that looks for the line "[sec]". *)
Fixpoint skip_section (fuel : nat) (sec rest : cstr) : outcome cstr :=
  match fuel with
  | O => Fail NoFuel
  | S f =>
      match getdelim rest with
      | None => Ok []
      | Some (line, rest') =>
          line ← clean_line line;
          if str_isEqual line ($"[" ++ sec ++ $"]") then Ok rest'
          else skip_section f sec rest'
      end
  end.

(** An entry line: [None] when it holds no "=". [key[50]], [value[200]]. *)
Definition read_entry (line : cstr) : outcome (option (cstr * cstr)) :=
  line ← cut_last line;
  line ← clean_line line;
  eq ← str_contains line $"=";
  if eq : bool then
    let lKey := tok1 $"=" line in
    let lValue := tok1 $"=" (tok_rest $"=" line) in
    k ← deref lKey;
    key ← str_copy 50 k;
    v ← deref lValue;
    value ← str_copy 200 v;
    key ← via str_strip key;
    value ← via str_strip value;
    value ← (if bool_decide (hd nul value = quote)
             then via (fun m => str_removeChars m [quote]) value else Ok value);
    Ok (Some (key, value))
  else Ok None.

Section Read.
Context `{FileSystem}.

Definition opened (path : cstr) : option (cstr * cstr) :=
  (fun c => (c, c)) <$> fopen path.

(** One call; the fuel bounds the recursive calls on lines that are no entry. *)
Fixpoint readConfigFile (fuel : nat) (st : cfg_static)
    (filePath section : option cstr) : outcome (option (cstr * cstr) * cfg_static) :=
  match fuel with
  | O => Fail NoFuel
  | S f =>
      file ← match filePath, fp st with
             | Some p, _ => Ok (opened p)
             | None, Some x => Ok (Some x)
             | None, None => Fail NullDeref
             end;
      match file with
      | None => Ok (None, mkCfg None (sec st))
      | Some (whole, rest) =>
          let '(sec0, rest) :=
            match section with Some s => (Some s, whole) | None => (sec st, rest) end in
          rest ← match sec0 with
                 | Some s => if str_isEqual s [] then Ok rest
                             else skip_section (S (length rest)) s rest
                 | None => Ok rest
                 end;
          match getdelim rest with
          | None => Ok (None, cfg_closed)
          | Some (line, rest') =>
              next ← str_startswith line $"[";
              if next : bool then Ok (None, cfg_closed)
              else
                comment ← str_startswith line $"#";
                let st' := mkCfg (Some (whole, rest')) None in
                if comment : bool then readConfigFile f st' None None
                else
                  e ← read_entry line;
                  match e with
                  | Some kv => Ok (Some kv, st')
                  | None => readConfigFile f st' None None
                  end
          end
      end
  end.
End Read.

(** ** Specification *)

Fixpoint lines (s : cstr) : list cstr :=
  match s with
  | [] => []
  | c :: r =>
      if bool_decide (c = LF) then [LF] :: lines r
      else match lines r with [] => [[c]] | l :: ls => (c :: l) :: ls end
  end.

(** The line without its last byte and without control characters. *)
Definition line_text (l : cstr) : cstr := remove_chars ctl_chars (removelast l).

(** The entry of a line "key = value". *)
Definition unquote (v : cstr) : cstr :=
  if bool_decide (hd nul v = quote) then remove_chars [quote] v else v.

Definition line_entry (l : cstr) : option (cstr * cstr) :=
  match strtok_r $"=" (line_text l) with
  | Some (k, r) => match strtok_r $"=" r with
                   | Some (v, _) => Some (strip k, unquote (strip v))
                   | None => None
                   end
  | None => None
  end.

Definition has_eq (l : cstr) : bool := mem_of (line_text l) "=".

(** The entries up to the next section. *)
Fixpoint entries (ls : list cstr) : list (cstr * cstr) :=
  match ls with
  | [] => []
  | l :: r =>
      if prefixb $"[" l then []
      else if prefixb $"#" l then entries r
      else if has_eq l then match line_entry l with
                            | Some kv => kv :: entries r
                            | None => entries r
                            end
      else entries r
  end.

(** The lines behind the line "[sec]". *)
Fixpoint section_lines (sec : cstr) (ls : list cstr) : list cstr :=
  match ls with
  | [] => []
  | l :: r => if bool_decide (remove_chars ctl_chars l = $"[" ++ sec ++ $"]") then r
              else section_lines sec r
  end.

(** The lines the code can read: a key and a value that fit their buffers on
    both sides of a "=". *)
Definition line_ok (l : cstr) : Prop :=
  prefixb $"[" l = false -> prefixb $"#" l = false -> has_eq l = true ->
  exists k r v r', strtok_r $"=" (line_text l) = Some (k, r) /\
    strtok_r $"=" r = Some (v, r') /\ zlen k < 50 /\ zlen v < 200.

(** ** Lemmas: lines *)

Lemma getdelim_lines s :
  match getdelim s with
  | None => s = [] /\ lines s = []
  | Some (l, r) => lines s = l :: lines r /\ s = l ++ r /\ l <> [] /\ (length r < length s)%nat
  end.
Proof.
  induction s as [|c s IH]; [done|].
  unfold getdelim. cbn [drop_while take_while lines]. unfold not_lf at 1 3.
  case_bool_decide as E; cbn [negb].
  - subst c. split_and!; [done..|cbn; lia].
  - unfold getdelim in IH. destruct s as [|d s]; [by split_and!; [..|cbn; lia]|].
    destruct (drop_while not_lf (d :: s)) as [|x r] eqn:E'.
    + destruct IH as (-> & _ & _ & _). split_and!; [done|by rewrite app_nil_r|done|cbn; lia].
    + destruct IH as (-> & Es & _ & L). split_and!; [done|cbn; by rewrite Es at 1|done|cbn in *; lia].
Qed.

Lemma no_nul_line s l r : no_nul s -> getdelim s = Some (l, r) -> no_nul l /\ no_nul r.
Proof.
  intros Hs E. pose proof (getdelim_lines s) as H. rewrite E in H.
  destruct H as (_ & -> & _ & _). by apply no_nul_app.
Qed.

(** ** Lemmas: one line *)

Lemma clean_line_ok l : no_nul l -> clean_line l = Ok (remove_chars ctl_chars l).
Proof.
  intros Hl. unfold clean_line. apply holds_via, str_removeChars_spec; done.
Qed.

Lemma cut_last_ok l : no_nul l -> l <> [] -> cut_last l = Ok (removelast l).
Proof.
  intros Hl Hne. destruct (exists_last Hne) as (p & x & ->).
  apply no_nul_app in Hl as [Hp Hx]. apply no_nul_cons in Hx as [Hx _].
  rewrite removelast_last. unfold cut_last, via, cmem.
  rewrite (strlen_app (p ++ [x]) []); [|by apply no_nul_app; split; [|apply no_nul_cons; split; [|apply no_nul_nil]]].
  cbn [mbind outcome_bind]. rewrite zlen_app. change (zlen [x]) with 1.
  replace (zlen p + 1 - 1) with (zlen p) by lia.
  rewrite <- app_assoc. cbn [app]. rewrite wr_app_mid. cbn [mbind outcome_bind].
  by rewrite cview_app.
Qed.

Lemma no_nul_removelast l : no_nul l -> no_nul (removelast l).
Proof.
  intros Hl. destruct l as [|c l'] eqn:E; [done|]. rewrite <- E in *.
  assert (Hne : l <> []) by (by rewrite E). destruct (exists_last Hne) as (p & x & Ex).
  rewrite Ex in *. rewrite removelast_last. by apply no_nul_app in Hl as [? _].
Qed.

Lemma no_nul_line_text l : no_nul l -> no_nul (line_text l).
Proof. intros. by apply no_nul_filter, no_nul_removelast. Qed.

Lemma no_nul_tok delim s t r : no_nul s -> strtok_r delim s = Some (t, r) -> no_nul t /\ no_nul r.
Proof.
  intros Hs E. apply strtok_r_some in E as (pre & post & -> & _ & _ & _ & Hp).
  apply no_nul_app in Hs as [_ [Ht Hpost]%no_nul_app]. split; [done|].
  destruct Hp as [[_ ->]|(d & _ & ->)]; [apply no_nul_nil|by apply no_nul_cons in Hpost as [_ ?]].
Qed.

Lemma read_entry_ok l :
  no_nul l -> l <> [] -> prefixb $"[" l = false -> prefixb $"#" l = false -> line_ok l ->
  read_entry l = Ok (if has_eq l then line_entry l else None).
Proof.
  intros Hl Hne H1 H2 Hok. unfold read_entry. rewrite cut_last_ok by done. cbn [mbind outcome_bind].
  rewrite clean_line_ok by by apply no_nul_removelast. cbn [mbind outcome_bind].
  fold (line_text l). rewrite str_contains_spec by by repeat constructor.
  cbn [mbind outcome_bind]. change ($"=") with ["="%char] at 1. rewrite infixb_single.
  fold (has_eq l). destruct (has_eq l) eqn:Eq; [|done].
  destruct (Hok H1 H2 Eq) as (k & r & v & r' & Ek & Ev & Lk & Lv).
  pose proof (no_nul_line_text l Hl) as Ht.
  pose proof (no_nul_tok _ _ _ _ Ht Ek) as [Nk Nr]. pose proof (no_nul_tok _ _ _ _ Nr Ev) as [Nv _].
  unfold line_entry, tok1, tok_rest. rewrite Ek, Ev. cbn [fmap option_fmap option_map fst].
  rewrite ?Ev. cbn [fmap option_fmap option_map fst]. unfold deref, str_copy, mbind, outcome_bind.
  rewrite (proj2 (strcpy_ok 50 k k)), (proj2 (strcpy_ok 200 v v)) by done.
  rewrite (holds_via _ _ _ (str_strip_spec k [] Nk)), (holds_via _ _ _ (str_strip_spec v [] Nv)).
  unfold unquote. case_bool_decide; [|done].
  by rewrite (holds_via (fun m => str_removeChars m [quote]) _ _
    (str_removeChars_spec _ [] _ (no_nul_strip _ Nv))).
Qed.

(** ** Lemmas: the file *)

Lemma skip_section_ok fuel s rest :
  no_nul rest -> (length rest < fuel)%nat ->
  exists r, skip_section fuel s rest = Ok r /\ lines r = section_lines s (lines rest) /\
    no_nul r /\ (length r <= length rest)%nat.
Proof.
  revert rest. induction fuel as [|f IH]; intros rest Hn Hf; [lia|]. cbn [skip_section].
  pose proof (getdelim_lines rest) as H. destruct (getdelim rest) as [[l r]|] eqn:E.
  - destruct H as (EL & _ & _ & L). destruct (no_nul_line _ _ _ Hn E) as [Nl Nr].
    rewrite clean_line_ok by done. cbn [mbind outcome_bind]. rewrite EL. cbn [section_lines].
    unfold str_isEqual, strcmp_eq. case_bool_decide.
    + exists r. split_and!; [done..|lia].
    + destruct (IH r Nr ltac:(lia)) as (r' & -> & E' & N' & L'). exists r'. split_and!; [done..|lia].
  - destruct H as [-> ->]. exists []. by split_and!; [..|cbn; lia].
Qed.

(** What reading on from [rest] gives: the first entry among the lines, and a
    state to read the others from. *)
Definition reads_from (whole : cstr) (ls : list cstr)
    (res : outcome (option (cstr * cstr) * cfg_static)) : Prop :=
  match entries ls with
  | [] => res = Ok (None, cfg_closed)
  | kv :: es => exists rest', res = Ok (Some kv, mkCfg (Some (whole, rest')) None) /\
      entries (lines rest') = es /\ no_nul rest' /\ Forall line_ok (lines rest') /\
      (length (lines rest') < length ls)%nat
  end.

Section ReadLemmas.
Context `{FileSystem}.

(** Reading a line that is not the end, given how the recursive call reads. *)
Lemma read_on fuel whole rest :
  no_nul rest -> Forall line_ok (lines rest) -> (length (lines rest) < fuel)%nat ->
  reads_from whole (lines rest)
    (readConfigFile fuel (mkCfg (Some (whole, rest)) None) None None).
Proof.
  revert rest. induction fuel as [|f IH]; intros rest Hn Hok Hf; [lia|].
  cbn [readConfigFile fp sec mbind outcome_bind].
  pose proof (getdelim_lines rest) as HL. destruct (getdelim rest) as [[l r]|] eqn:E.
  - destruct HL as (EL & _ & Hne & _). destruct (no_nul_line _ _ _ Hn E) as [Nl Nr].
    rewrite EL in *. cbn [length] in Hf. apply list.Forall_cons in Hok as [Hl Hr].
    rewrite !str_startswith_spec by by repeat constructor. cbn [mbind outcome_bind].
    unfold reads_from. cbn [entries].
    destruct (prefixb $"[" l) eqn:E1; [done|].
    specialize (IH r Nr Hr ltac:(lia)). unfold reads_from in IH.
    assert (Hrec : match entries (lines r) with
      | [] => readConfigFile f (mkCfg (Some (whole, r)) None) None None = Ok (None, cfg_closed)
      | kv :: es => exists rest', readConfigFile f (mkCfg (Some (whole, r)) None) None None
          = Ok (Some kv, mkCfg (Some (whole, rest')) None) /\
          entries (lines rest') = es /\ no_nul rest' /\ Forall line_ok (lines rest') /\
          (length (lines rest') < length (l :: lines r))%nat end).
    { destruct (entries (lines r)); [done|]. destruct IH as (rest' & ? & ? & ? & ? & ?).
      exists rest'. split_and!; [done..|cbn; lia]. }
    destruct (prefixb $"#" l) eqn:E2; [exact Hrec|].
    rewrite read_entry_ok by done. cbn [mbind outcome_bind].
    destruct (has_eq l) eqn:Eq; [|exact Hrec].
    destruct (line_entry l) as [kv|] eqn:Ee; [|exact Hrec].
    exists r. split_and!; [done..|cbn; lia].
  - destruct HL as [-> ->]. done.
Qed.

(** Opening a file, with or without a section. *)
Lemma read_first fuel st path content section :
  fopen path = Some content -> sec st = None -> no_nul content ->
  let ls := match section with
            | Some s => if str_isEqual s [] then lines content
                        else section_lines s (lines content)
            | None => lines content end in
  Forall line_ok ls -> (length ls < fuel)%nat ->
  reads_from content ls (readConfigFile fuel st (Some path) section).
Proof.
  intros Hp Hs Hn ls Hok Hf. destruct fuel as [|f]; [lia|].
  assert (Hgo : forall rest, no_nul rest -> lines rest = ls ->
    readConfigFile (S f) (mkCfg (Some (content, rest)) None) None None
    = readConfigFile (S f) st (Some path) section ->
    reads_from content ls (readConfigFile (S f) st (Some path) section)).
  { intros rest Nr <- <-. apply read_on; [done|done|]. lia. }
  unfold ls in *. clear ls. destruct section as [s|].
  - destruct (str_isEqual s []) eqn:Es.
    + apply (Hgo content); [done..|]. cbn [readConfigFile fp sec]. unfold opened. rewrite Hp.
      cbn [fmap option_fmap option_map mbind outcome_bind]. by rewrite Es.
    + destruct (skip_section_ok (S (length content)) s content Hn ltac:(lia)) as (r & E & El & Nr & _).
      apply (Hgo r); [done..|]. cbn [readConfigFile fp sec]. unfold opened. rewrite Hp.
      cbn [fmap option_fmap option_map mbind outcome_bind]. rewrite Es, E. done.
  - apply (Hgo content); [done..|]. cbn [readConfigFile fp sec]. unfold opened. rewrite Hp.
    cbn [fmap option_fmap option_map mbind outcome_bind]. by rewrite Hs.
Qed.

Lemma read_missing fuel st path section :
  fopen path = None ->
  readConfigFile (S fuel) st (Some path) section = Ok (None, mkCfg None (sec st)).
Proof. intros E. cbn. unfold opened. by rewrite E. Qed.
End ReadLemmas.
