(* ===== verification/Config.v ===== *)
(** * Configuration (src/store.c, lines 115-459; include/homeNet.h)

    The configuration structures of the program, and how they are filled: the
    command line, the environment and the configuration file are merged into
    one map of arguments, which [parseArgs] turns into the structure of the
    mode. A string that does not fit the array it is copied to is
    [BufOverflow]; [argv[argc]] is the null pointer. *)
From S2P Require Import Prelude CString Str Containers IpAddr Auth ConfigFile.

(** ** Data *)

(** Address of a heap object. *)
Abbreviation addr := positive.

Record MdnsRecord := mkMdnsRecord {
  mr_ip : sockaddr; mr_name : cstr; mr_data : Map cstr; mr_timestamp : Z }.

Record BridgeContext := mkBridgeContext {
  masterKey : cstr;
  cx_name : cstr;
  queryKeys : Map cstr;
  listenKeys : Map cstr;
  listeningSocks : Map addr;       (* of hn_Socket *)
  mdnsStore : Map MdnsRecord;
  mdnsLastRefresh : Z;
  lastMdnsBroadcast : Z;
  rlSock : option addr;            (* of Socket *)
  rlRetries : Z;
  rlLastRetry : Z;
  rlLastPing : Z }.

Definition MAX_URL_SIZE : Z := 200.
Definition CONFIG_PATH : cstr := $"homenet.conf".

Record bridgeMode := mkBridgeMode {
  bm_port : Z; bm_rlId : cstr; bm_rlUrl : cstr; bm_rlPass : cstr; bm_useMdns : Z;
  connectAuthLevel : Z; requireQueryAuth : Z; requireRLAuth : Z;
  context : BridgeContext }.
Record RLMode := mkRLMode {
  rlm_rlId : cstr; rlm_rlUrl : cstr; rlm_rlPass : cstr; localIp : cstr }.
Record listenMode := mkListenMode { lm_port : Z; lm_connectUrl : cstr }.
Record connectMode := mkConnectMode { cm_connectUrl : cstr; payload : cstr }.
Record queryMode := mkQueryMode {
  qm_name : cstr; bridgeUrl : cstr; qm_salt : cstr; qm_key : cstr }.

Record hn_Config := mkConfig {
  mode : Z;
  bridge : option bridgeMode;
  rl : option RLMode;
  listen : option listenMode;
  connect : option connectMode;
  query : option queryMode }.

Definition bridgeContextInit : BridgeContext :=
  mkBridgeContext [] [] map_init map_init map_init map_init 0 0 None 0 0 0.

(** ** The table of keys *)

Class Environment := getenv : cstr -> option cstr.

(** Key, command line key, configuration file key, environment key. *)
Record mapping_row := mkRow {
  m_key : cstr; m_cli : option cstr; m_config : option cstr; m_env : option cstr }.

Definition mapping : list mapping_row :=
  [ mkRow $"mode"        None             (Some $"Mode")               (Some $"MODE");
    mkRow $"config-file" (Some $"-config") None                        (Some $"CONFIG_FILE");
    mkRow $"use-env"     (Some $"-env")   (Some $"Use Env")            None;
    mkRow $"url"         (Some $"-url")   (Some $"URL")                (Some $"URL");
    mkRow $"key"         (Some $"-key")   (Some $"Key")                (Some $"KEY");
    mkRow $"salt"        (Some $"-salt")  (Some $"Salt")               (Some $"SALT");
    mkRow $"master-key"  None             (Some $"Master Key")         (Some $"MASTER_KEY");
    mkRow $"port"        (Some $"-p")     (Some $"Port")               (Some $"PORT");
    mkRow $"name"        (Some $"-name")  (Some $"Name")               (Some $"NAME");
    mkRow $"local-ip"    (Some $"-ip")    (Some $"Local IP")           (Some $"LOCAL_IP");
    mkRow $"use-rl"      (Some $"-rl")    (Some $"Use RL")             (Some $"USE_RL");
    mkRow $"data"        (Some $"-data")  (Some $"Data")               (Some $"DATA");
    mkRow $"use-mdns"    (Some $"-mdns")  (Some $"Use Mdns")           (Some $"USE_MDNS");
    mkRow $"conn-auth"   None             (Some $"Connect Auth Level") (Some $"CONN_AUTH_LEVEL");
    mkRow $"query-auth"  None             (Some $"Query Auth")         (Some $"QUERY_AUTH");
    mkRow $"rl-auth"     None             (Some $"RL Auth")            (Some $"RL_AUTH") ].

(** [mapping[i][mappingIndex]] *)
Definition column (mappingIndex : Z) (row : mapping_row) : option cstr :=
  if bool_decide (mappingIndex = 0) then Some (m_key row)
  else if bool_decide (mappingIndex = 1) then m_cli row
  else if bool_decide (mappingIndex = 2) then m_config row
  else m_env row.

Fixpoint getMappedKey_loop (rows : list mapping_row) (key : cstr) (mappingIndex : Z)
  : option cstr :=
  match rows with
  | [] => None
  | row :: r =>
      match column mappingIndex row with
      | Some s => if str_isEqual key s then Some (m_key row)
                  else getMappedKey_loop r key mappingIndex
      | None => getMappedKey_loop r key mappingIndex
      end
  end.
Definition getMappedKey (key : cstr) (mappingIndex : Z) : option cstr :=
  getMappedKey_loop mapping key mappingIndex.

Definition mapMode (s : cstr) : outcome Z :=
  str ← str_set (str_len s + 5) s;
  str ← via str_toLower str;
  str ← via str_strip str;
  c ← str_startswith str $"c";
  if c : bool then Ok HN_MODE_CONNECT else
  b ← str_startswith str $"b";
  if b : bool then Ok HN_MODE_BRIDGE else
  l ← str_startswith str $"l";
  if l : bool then Ok HN_MODE_LISTEN else
  r ← str_startswith str $"r";
  if r : bool then Ok HN_MODE_REVERSE_LISTEN else
  q ← str_startswith str $"q";
  if q : bool then Ok HN_MODE_QUERY else Ok (-1).

(** ** The sources of arguments *)

(** [map_set] with the freed value dropped. *)
Definition put (map : Map cstr) (k v : cstr) : outcome (Map cstr) :=
  '(map, _) ← map_set map k v true; Ok map.

Section Sources.
Context `{Environment} `{FileSystem}.

Fixpoint env_loop (rows : list mapping_row) (map : Map cstr) : outcome (Map cstr) :=
  match rows with
  | [] => Ok map
  | row :: r =>
      match m_env row with
      | Some name =>
          match getenv name with
          | Some value => map ← put map (m_key row) value; env_loop r map
          | None => env_loop r map
          end
      | None => env_loop r map
      end
  end.
Definition envToMap (map : Map cstr) : outcome (Map cstr) := env_loop mapping map.

(** The arguments behind the mode. *)
Fixpoint args_loop (argv : list cstr) (map : Map cstr) : outcome (Map cstr) :=
  match argv with
  | [] => Ok map
  | a :: r =>
      match getMappedKey a 1 with
      | Some key =>
          match r with
          | [] => Fail NullDeref
          | value :: r' => map ← put map key value; args_loop r' map
          end
      | None => args_loop r map
      end
  end.
(** [argv[0]] is the name of the program, [argv[1]] the mode. *)
Definition argsToMap (map : Map cstr) (argv : list cstr) : outcome (Map cstr) :=
  match argv with
  | _ :: m :: r => map ← put map $"mode" m; args_loop r map
  | _ => Ok map
  end.

(** One call of readConfigFile per iteration. *)
Fixpoint configFileToMap_loop (fuel rfuel : nat) (st : cfg_static) (map : Map cstr)
    (file section oldSection : option cstr) : outcome (Map cstr * cfg_static) :=
  match fuel with
  | O => Fail NoFuel
  | S f =>
      '(r, st) ← readConfigFile rfuel st file section;
      match r with
      | None => Ok (map, st)
      | Some (key, value) =>
          map ← match oldSection with
                | Some _ => put map key value
                | None => match getMappedKey key 2 with
                          | Some mappedKey => put map mappedKey value
                          | None => Ok map
                          end
                end;
          configFileToMap_loop f rfuel st map None None oldSection
      end
  end.
(** A file has no more lines than bytes. *)
Definition file_fuel (file : cstr) : nat :=
  match fopen file with Some c => S (length c) | None => 1%nat end.
Definition configFileToMap (st : cfg_static) (map : Map cstr) (file : cstr)
    (section : option cstr) : outcome (Map cstr * cfg_static) :=
  configFileToMap_loop (file_fuel file) (file_fuel file) st map (Some file) section section.
End Sources.

(** ** Reading the map *)

(** [old] is what the destination holds, [cap] its size. *)
Definition getValue (key : cstr) (cap : Z) (old : cstr) (args : Map cstr)
  : outcome (bool * cstr) :=
  match map_get args key with
  | Some v => s ← str_set cap v; Ok (true, s)
  | None => Ok (false, old)
  end.

Definition getValueInt (key : cstr) (old : Z) (args : Map cstr) : outcome (bool * Z) :=
  '(r, val) ← getValue key 200 [] args;
  Ok (r, if r : bool then str_toInt val else old).

Definition getValueBool (key : cstr) (old : Z) (args : Map cstr) : outcome (bool * Z) :=
  '(r, val) ← getValue key 200 [] args;
  Ok (r, if r : bool then if str_isEqual val $"true" then 1
                          else if str_isEqual val $"false" then 0 else str_toInt val
         else old).

(** ** parseArgs *)

Section Parse.
Context `{Environment} `{FileSystem}.

Definition conf_bridge (st : cfg_static) (args : Map cstr) (file : cstr)
  : outcome (bridgeMode * cfg_static) :=
  let bm := bridgeContextInit in
  '(lk, qk, st) ←
    (if bool_decide (str_len file > 1) then
       '(lk, st) ← configFileToMap st map_init file (Some $"Listen Keys");
       '(qk, st) ← configFileToMap st map_init file (Some $"Query Keys");
       Ok (lk, qk, st)
     else Ok (map_init, map_init, st));
  '(_, port) ← getValueInt $"port" 0 args;
  '(_, rlId) ← getValue $"key" 50 [] args;
  '(_, rlUrl) ← getValue $"url" MAX_URL_SIZE [] args;
  '(_, rlPass) ← getValue $"salt" 10 [] args;
  '(_, mkey) ← getValue $"master-key" 20 [] args;
  '(_, name) ← getValue $"name" 100 [] args;
  '(_, useMdns) ← getValueBool $"use-mdns" 1 args;
  '(_, requireQueryAuth) ← getValueBool $"query-auth" 1 args;
  '(_, requireQueryAuth) ← getValueBool $"rl-auth" requireQueryAuth args;
  '(_, connectAuthLevel) ← getValueInt $"conn-auth" 0 args;
  '(_, useRL) ← getValueBool $"use-rl" 1 args;
  let rlUrl := if bool_decide (useRL = 0) then [] else rlUrl in
  let cx := mkBridgeContext mkey name qk lk (listeningSocks bm) (mdnsStore bm)
              (mdnsLastRefresh bm) (lastMdnsBroadcast bm) (rlSock bm) (rlRetries bm)
              (rlLastRetry bm) (rlLastPing bm) in
  Ok (mkBridgeMode port rlId rlUrl rlPass useMdns connectAuthLevel requireQueryAuth 0 cx, st).

Definition conf_listen (args : Map cstr) : outcome listenMode :=
  '(_, port) ← getValueInt $"port" 0 args;
  '(_, url) ← getValue $"url" MAX_URL_SIZE [] args;
  Ok (mkListenMode port url).

Definition conf_rl (args : Map cstr) : outcome RLMode :=
  '(_, rlUrl) ← getValue $"url" MAX_URL_SIZE [] args;
  '(_, rlId) ← getValue $"key" 50 [] args;
  '(_, rlPass) ← getValue $"salt" 10 [] args;
  '(_, ip) ← getValue $"local-ip" IPADDR_SIZE [] args;
  Ok (mkRLMode rlId rlUrl rlPass ip).

Definition conf_connect (args : Map cstr) : outcome connectMode :=
  '(_, url) ← getValue $"url" MAX_URL_SIZE [] args;
  '(_, data) ← getValue $"data" BUFF_SIZE [] args;
  Ok (mkConnectMode url data).

Definition conf_query (args : Map cstr) : outcome queryMode :=
  '(_, url) ← getValue $"url" MAX_URL_SIZE [] args;
  '(_, name) ← getValue $"name" 100 [] args;
  '(_, key) ← getValue $"key" 20 [] args;
  '(_, salt) ← getValue $"salt" 10 [] args;
  Ok (mkQueryMode name url salt key).

(** The boolean is the returned int. *)
Definition parseArgs (st : cfg_static) (conf : hn_Config) (args : Map cstr) (file : cstr)
  : outcome (bool * hn_Config) :=
  strMode ← str_set 20 (default $"b" (map_get args $"mode"));
  m ← mapMode strMode;
  if bool_decide (m = -1) then Ok (false, conf)
  else if bool_decide (m = HN_MODE_BRIDGE) then
    '(bm, _) ← conf_bridge st args file;
    Ok (true, mkConfig m (Some bm) (rl conf) (listen conf) (connect conf) (query conf))
  else if bool_decide (m = HN_MODE_LISTEN) then
    lm ← conf_listen args;
    Ok (true, mkConfig m (bridge conf) (rl conf) (Some lm) (connect conf) (query conf))
  else if bool_decide (m = HN_MODE_REVERSE_LISTEN) then
    rlm ← conf_rl args;
    Ok (true, mkConfig m (bridge conf) (Some rlm) (listen conf) (connect conf) (query conf))
  else if bool_decide (m = HN_MODE_CONNECT) then
    cm ← conf_connect args;
    Ok (true, mkConfig m (bridge conf) (rl conf) (listen conf) (Some cm) (query conf))
  else
    qm ← conf_query args;
    Ok (true, mkConfig m (bridge conf) (rl conf) (listen conf) (connect conf) (Some qm)).

(** The map of arguments and the name of the configuration file. *)
Definition confArgs (argv : list cstr) : outcome (Map cstr * cstr * cfg_static) :=
  args ← argsToMap map_init argv;
  let useEnv := match map_get args $"use-env" with Some v => str_toInt v | None => 1 end in
  args ← (if bool_decide (useEnv <> 0) then envToMap args else Ok args);
  configFile ← match map_get args $"config-file" with
               | Some v => str_set 80 v
               | None => Ok CONFIG_PATH
               end;
  '(args, st) ← (if bool_decide (str_len configFile > 1)
                 then configFileToMap cfg_closed args configFile None
                 else Ok (args, cfg_closed));
  args ← envToMap args;
  args ← argsToMap args argv;
  Ok (args, configFile, st).

(** The returned int, and the structure. What parseArgs returns is not looked
    at: when it refuses the mode, the structure keeps mode -1 and its null
    pointers. *)
Definition confInit (argv : list cstr) : outcome (Z * hn_Config) :=
  let conf := mkConfig (-1) None None None None None in
  '(args, configFile, st) ← confArgs argv;
  '(_, conf) ← parseArgs st conf args configFile;
  Ok (1, conf).
End Parse.

(** ** Specification: the arguments as finite maps *)

(** The last value given to a key counts. *)
Definition pairs_map (kvs : list (cstr * cstr)) : gmap cstr cstr := list_to_map (rev kvs).

(** The (key, value) pairs on a command line; [None] when the last option has
    no value. *)
Fixpoint option_pairs (argv : list cstr) : option (list (cstr * cstr)) :=
  match argv with
  | [] => Some []
  | a :: r =>
      match getMappedKey a 1 with
      | Some key =>
          match r with
          | [] => None
          | value :: r' => cons (key, value) <$> option_pairs r'
          end
      | None => option_pairs r
      end
  end.
Definition cli_pairs (argv : list cstr) : option (list (cstr * cstr)) :=
  match argv with
  | _ :: m :: r => cons ($"mode", m) <$> option_pairs r
  | _ => Some []
  end.

Definition env_pairs `{Environment} : list (cstr * cstr) :=
  omap (fun row => name ← m_env row; v ← getenv name; Some (m_key row, v)) mapping.

(** The entries of a file as they are put into the map. *)
Definition file_pairs (section : option cstr) (content : cstr) : list (cstr * cstr) :=
  match section with
  | Some s => entries (if str_isEqual s [] then lines content
                       else section_lines s (lines content))
  | None => omap (fun kv : cstr * cstr =>
                    k ← getMappedKey kv.1 2; Some (k, kv.2)) (entries (lines content))
  end.

Definition keys_short (kvs : list (cstr * cstr)) : Prop :=
  Forall (fun kv => zlen kv.1 < ITEM_KEY_SIZE) kvs.

(** A file the reader can digest: its lines, and in a section its keys. *)
Definition file_ok (section : option cstr) (content : cstr) : Prop :=
  no_nul content /\ Forall line_ok (lines content) /\ keys_short (file_pairs section content).

(** ** Lemmas: putting pairs *)

Fixpoint puts (map : Map cstr) (kvs : list (cstr * cstr)) : outcome (Map cstr) :=
  match kvs with
  | [] => Ok map
  | (k, v) :: r => map ← put map k v; puts map r
  end.

Lemma pairs_map_cons k v kvs : pairs_map ((k, v) :: kvs) = pairs_map kvs ∪ {[k := v]}.
Proof.
  unfold pairs_map. cbn [rev]. rewrite list_to_map_app. f_equal.
Qed.

Lemma puts_app m l l' : puts m (l ++ l') = (m' ← puts m l; puts m' l').
Proof.
  revert m. induction l as [|[k v] l IH]; intros m; [done|]. cbn [app puts].
  destruct (put m k v); cbn; [apply IH|done].
Qed.

Lemma puts_ok kvs m :
  keys_short kvs -> map_wf m ->
  exists m', puts m kvs = Ok m' /\ map_wf m' /\ to_gmap m' = pairs_map kvs ∪ to_gmap m.
Proof.
  intros Hk. revert m. induction Hk as [|[k v] kvs Hkv Hk IH]; intros m Hm.
  - exists m. split_and!; [done|done|]. unfold pairs_map. cbn. by rewrite (left_id_L ∅ (∪)).
  - cbn [puts]. unfold put. destruct (map_set_ok m k v true (or_intror Hkv)) as (m' & fr & E & G & W).
    rewrite E. cbn [mbind outcome_bind]. destruct (IH m' (W Hm)) as (m'' & -> & W' & G').
    exists m''. split_and!; [done|done|]. rewrite G', G, pairs_map_cons, <- (assoc_L (∪)).
    by rewrite insert_union_singleton_l.
Qed.

Lemma puts_fuel_app m l x : puts m (l ++ [x]) = (m' ← puts m l; put m' x.1 x.2).
Proof.
  rewrite puts_app. destruct (puts m l); [|done]. cbn. destruct x as [k v]. cbn.
  by destruct (put _ k v).
Qed.

(** ** Lemmas: the sources *)

Section SourceLemmas.
Context `{Environment} `{FileSystem}.

Lemma env_loop_puts rows m :
  env_loop rows m
  = puts m (omap (fun row => name ← m_env row; v ← getenv name; Some (m_key row, v)) rows).
Proof.
  revert m. induction rows as [|row rows IH]; intros m; [done|]. cbn [env_loop].
  cbn [omap list_omap]. destruct (m_env row) as [name|]; cbn; [|apply IH].
  destruct (getenv name) as [v|]; cbn; [|apply IH]. destruct (put m (m_key row) v); cbn; [apply IH|done].
Qed.

Lemma args_loop_puts argv m :
  args_loop argv m = match option_pairs argv with
                     | Some kvs => puts m kvs
                     | None => args_loop argv m end.
Proof.
  destruct (option_pairs argv) as [kvs|] eqn:E; [|done].
  revert m kvs E. induction argv as [argv IH] using (well_founded_induction
    (Wf_nat.well_founded_ltof _ length)). intros m kvs.
  destruct argv as [|a r]; cbn [args_loop option_pairs]; [by intros [= <-]|].
  destruct (getMappedKey a 1) as [key|].
  - destruct r as [|v r']; [done|].
    destruct (option_pairs r') as [kvs'|] eqn:E'; [|done]. intros [= <-]. cbn [puts].
    destruct (put m key v); cbn [mbind outcome_bind]; [|done]. apply IH; [|done].
    unfold Wf_nat.ltof. cbn. lia.
  - intros E. apply IH; [|done]. unfold Wf_nat.ltof. cbn. lia.
Qed.

Lemma argsToMap_puts argv m kvs :
  cli_pairs argv = Some kvs -> argsToMap m argv = puts m kvs.
Proof.
  unfold cli_pairs, argsToMap. destruct argv as [|p [|mo r]]; [by intros [= <-]..|].
  destruct (option_pairs r) as [kvs'|] eqn:E; [|done]. intros [= <-]. cbn.
  destruct (put m _ mo) as [m'|]; cbn; [|done]. by rewrite args_loop_puts, E.
Qed.

Lemma mapping_short : Forall (fun row => zlen (m_key row) < ITEM_KEY_SIZE) mapping.
Proof. by repeat (apply Forall_cons_2; [done|]). Qed.

Lemma getMappedKey_short k i key : getMappedKey k i = Some key -> zlen key < ITEM_KEY_SIZE.
Proof.
  unfold getMappedKey. pose proof mapping_short as Hm. revert Hm. generalize mapping.
  induction 1 as [|row rows Hr Hs IH]; [done|]. cbn [getMappedKey_loop].
  destruct (column i row) as [c|]; [|done]. destruct (str_isEqual k c); [|done]. by intros [= <-].
Qed.

Lemma env_pairs_short : keys_short env_pairs.
Proof.
  unfold keys_short, env_pairs. pose proof mapping_short as Hm. revert Hm. generalize mapping.
  induction 1 as [|row rows Hr Hs IH]; [constructor|]. cbn [omap list_omap].
  destruct (m_env row) as [n|]; cbn; [|done]. destruct (getenv n); cbn; [|done]. by constructor.
Qed.

Lemma option_pairs_short argv kvs : option_pairs argv = Some kvs -> keys_short kvs.
Proof.
  revert kvs. induction argv as [argv IH] using (well_founded_induction
    (Wf_nat.well_founded_ltof _ length)). intros kvs.
  destruct argv as [|a r]; cbn [args_loop option_pairs]; [by intros [= <-]; constructor|].
  destruct (getMappedKey a 1) as [key|] eqn:Ek.
  - destruct r as [|v r']; [done|].
    destruct (option_pairs r') as [kvs'|] eqn:E'; [|done]. intros [= <-].
    constructor; [by eapply getMappedKey_short|]. eapply IH, E'. unfold Wf_nat.ltof. cbn. lia.
  - intros E. eapply IH, E. unfold Wf_nat.ltof. cbn. lia.
Qed.

Lemma cli_pairs_short argv kvs : cli_pairs argv = Some kvs -> keys_short kvs.
Proof.
  unfold cli_pairs. destruct argv as [|p [|mo r]]; [by intros [= <-]; constructor..|].
  destruct (option_pairs r) as [kvs'|] eqn:E; [|done]. intros [= <-].
  constructor; [done|]. by eapply option_pairs_short.
Qed.
End SourceLemmas.

(** ** Lemmas: the file *)

Section FileLemmas.
Context `{Environment} `{FileSystem}.

(** What one entry does to the map. *)
Definition entry_pair (section : option cstr) (kv : cstr * cstr) : option (cstr * cstr) :=
  match section with
  | Some _ => Some kv
  | None => k ← getMappedKey kv.1 2; Some (k, kv.2)
  end.

Lemma loop_from fuel rfuel st m file section old whole ls :
  reads_from whole ls (readConfigFile rfuel st file section) ->
  (length ls < fuel)%nat -> (length ls < rfuel)%nat ->
  keys_short (omap (entry_pair old) (entries ls)) -> map_wf m ->
  exists m', configFileToMap_loop fuel rfuel st m file section old = Ok (m', cfg_closed) /\
    puts m (omap (entry_pair old) (entries ls)) = Ok m'.
Proof.
  revert st m file section ls. induction fuel as [|f IH]; intros st m file section ls Hr Hf Hrf Hk Hm; [lia|].
  cbn [configFileToMap_loop]. unfold reads_from in Hr.
  destruct (entries ls) as [|[k v] es] eqn:Ee.
  { rewrite Hr. by exists m. }
  destruct Hr as (rest' & -> & Ees & Nr & Hok & L). cbn [mbind outcome_bind].
  assert (Hnext : forall m', map_wf m' -> keys_short (omap (entry_pair old) es) ->
    exists m'', configFileToMap_loop f rfuel (mkCfg (Some (whole, rest')) None) m' None None old
      = Ok (m'', cfg_closed) /\ puts m' (omap (entry_pair old) es) = Ok m'').
  { intros m' Hm' Hk'. rewrite <- Ees in Hk' |- *.
    apply (IH _ _ _ _ (lines rest')); [|lia|lia|done|done]. apply read_on; [done|done|lia]. }
  assert (Hput : forall k' v', zlen k' < ITEM_KEY_SIZE ->
    exists m', put m k' v' = Ok m' /\ map_wf m').
  { intros k' v' Hk'. destruct (map_set_ok m k' v' true (or_intror Hk')) as (m' & fr & E & _ & W).
    exists m'. unfold put. rewrite E. by split; [|apply W]. }
  cbn [omap list_omap] in Hk |- *. destruct old as [s|]; cbn [entry_pair fst snd] in Hk |- *.
  - apply list.Forall_cons in Hk as [H1 H2]. cbn [fst] in H1.
    destruct (Hput k v H1) as (m' & E & W). cbn [puts]. rewrite E. cbn [mbind outcome_bind].
    by apply Hnext.
  - destruct (getMappedKey k 2) as [key|]; cbn [mbind option_bind outcome_bind] in Hk |- *.
    + apply list.Forall_cons in Hk as [H1 H2]. cbn [fst] in H1.
      destruct (Hput key v H1) as (m' & E & W). cbn [puts]. rewrite E. cbn [mbind outcome_bind].
      by apply Hnext.
    + by apply Hnext.
Qed.

Lemma omap_some {A} (l : list A) : omap (fun x => Some x) l = l.
Proof. induction l as [|x l IH]; [done|]. cbn. by rewrite IH. Qed.

Lemma section_lines_sub s ls :
  Forall line_ok ls -> Forall line_ok (section_lines s ls) /\
  (length (section_lines s ls) <= length ls)%nat.
Proof.
  induction 1 as [|l ls Hl Hls IH]; [by split; [constructor|cbn]|]. cbn [section_lines].
  case_bool_decide; cbn [length]; [split; [done|lia]|]. destruct IH. split; [done|lia].
Qed.

Lemma lines_length s : (length (lines s) <= length s)%nat.
Proof.
  induction s as [|c s IH]; cbn [lines length]; [lia|].
  case_bool_decide; cbn [length]; [lia|]. destruct (lines s); cbn in *; lia.
Qed.

Lemma configFileToMap_ok st m file content section :
  fopen file = Some content -> sec st = None -> file_ok section content -> map_wf m ->
  exists m', configFileToMap st m file section = Ok (m', cfg_closed) /\ map_wf m' /\
    to_gmap m' = pairs_map (file_pairs section content) ∪ to_gmap m.
Proof.
  intros Hf Hs (Hn & Hok & Hk) Hm.
  set (ls := match section with
             | Some s => if str_isEqual s [] then lines content
                         else section_lines s (lines content)
             | None => lines content end).
  assert (Hls : Forall line_ok ls /\ (length ls <= length (lines content))%nat).
  { unfold ls. destruct section as [s|]; [|done]. destruct (str_isEqual s []); [done|].
    by apply section_lines_sub. }
  destruct Hls as [Hls Ll]. pose proof (lines_length content) as Lc.
  assert (Ep : omap (entry_pair section) (entries ls) = file_pairs section content).
  { unfold ls, file_pairs. destruct section as [s|]; [|done]. apply omap_some. }
  unfold configFileToMap, file_fuel. rewrite Hf.
  destruct (loop_from (S (length content)) (S (length content)) st m (Some file) section section
    content ls) as (m' & E & Ep').
  - apply (read_first (S (length content)) st file content section Hf Hs Hn); [exact Hls|cbn zeta; fold ls; lia].
  - lia.
  - lia.
  - by rewrite Ep.
  - done.
  - exists m'. rewrite Ep in Ep'. destruct (puts_ok _ m Hk Hm) as (m'' & E'' & W & G).
    assert (m'' = m') as -> by congruence. by split_and!.
Qed.

Lemma configFileToMap_missing st m file section :
  fopen file = None ->
  configFileToMap st m file section = Ok (m, mkCfg None (sec st)).
Proof.
  intros Hf. unfold configFileToMap, file_fuel. rewrite Hf. cbn [configFileToMap_loop].
  by rewrite read_missing.
Qed.
End FileLemmas.

(** ** Lemmas: the modes *)

Definition mode_of (c : char) : Z :=
  if bool_decide (c = "c"%char) then HN_MODE_CONNECT
  else if bool_decide (c = "b"%char) then HN_MODE_BRIDGE
  else if bool_decide (c = "l"%char) then HN_MODE_LISTEN
  else if bool_decide (c = "r"%char) then HN_MODE_REVERSE_LISTEN
  else if bool_decide (c = "q"%char) then HN_MODE_QUERY else -1.

Lemma startswith_single (x : char) s :
  x <> nul -> str_startswith s (lit (String x EmptyString)) = Ok (bool_decide (hd nul s = x)).
Proof.
  intros Hx. change (lit (String x EmptyString)) with [x].
  rewrite str_startswith_spec by by constructor.
  f_equal. destruct s as [|c s]; cbn [prefixb hd].
  { symmetry. by apply bool_decide_eq_false_2, not_eq_sym. }
  rewrite andb_true_r. apply bool_decide_ext. by split.
Qed.

Lemma no_nul_tolower s : no_nul s -> no_nul (map tolower s).
Proof.
  induction 1 as [|c s Hc Hs IH]; [apply no_nul_nil|]. cbn.
  apply no_nul_cons. split; [by apply tolower_not_nul|done].
Qed.

Lemma mapMode_ok s : no_nul s -> mapMode s = Ok (mode_of (hd nul (strip (map tolower s)))).
Proof.
  intros Hs. unfold mapMode, str_set, str_len. rewrite strcpy_fits by lia.
  cbn [mbind outcome_bind].
  rewrite (holds_via _ _ _ (str_toLower_spec s [] Hs)). cbn [mbind outcome_bind].
  rewrite (holds_via _ _ _ (str_strip_spec _ [] (no_nul_tolower s Hs))). cbn [mbind outcome_bind].
  unfold mode_of. 
  do 5 rewrite startswith_single by done. cbn [mbind outcome_bind].
  by repeat case_bool_decide.
Qed.

(** ** Lemmas: precedence *)

Definition use_env (cli : list (cstr * cstr)) : Z :=
  match pairs_map cli !! $"use-env" with Some v => str_toInt v | None => 1 end.

(** The arguments known when the configuration file is chosen. *)
Definition early_args `{Environment} (cli : list (cstr * cstr)) : gmap cstr cstr :=
  if bool_decide (use_env cli <> 0) then pairs_map env_pairs ∪ pairs_map cli else pairs_map cli.

(** Arguments put early are put again later. *)
Lemma union_absorb `{Environment} (cli : list (cstr * cstr)) (f : gmap cstr cstr) :
  pairs_map cli ∪ (pairs_map env_pairs ∪ (f ∪ early_args cli))
  = pairs_map cli ∪ pairs_map env_pairs ∪ f.
Proof.
  unfold early_args. apply map_eq. intros i.
  destruct (bool_decide _); rewrite !lookup_union;
    destruct (pairs_map cli !! i), (pairs_map env_pairs !! i), (f !! i); done.
Qed.

Section Precedence.
Context `{Environment} `{FileSystem}.

Lemma envToMap_puts m : envToMap m = puts m env_pairs.
Proof. apply env_loop_puts. Qed.

#[local] Opaque mapping.

Lemma early_ok (cli : list (cstr * cstr)) m1 :
  map_wf m1 -> to_gmap m1 = pairs_map cli ->
  exists m2,
    (if bool_decide (match map_get m1 $"use-env" with Some v => str_toInt v | None => 1 end <> 0)
     then envToMap m1 else Ok m1) = Ok m2 /\ map_wf m2 /\ to_gmap m2 = early_args cli.
Proof.
  intros W1 G1. rewrite map_get_lookup, G1. fold (use_env cli). unfold early_args.
  case_bool_decide; [|by exists m1]. rewrite envToMap_puts.
  destruct (puts_ok env_pairs m1 env_pairs_short W1) as (m2 & E & W2 & G2).
  exists m2. split_and!; [exact E|done|]. by rewrite G2, G1.
Qed.

Lemma file_choice (cli : list (cstr * cstr)) m2 file :
  to_gmap m2 = early_args cli -> default CONFIG_PATH (early_args cli !! $"config-file") = file ->
  zlen file < 80 ->
  match map_get m2 $"config-file" with
  | Some v => str_set 80 v | None => Ok CONFIG_PATH end = Ok file.
Proof.
  intros G2 Hf Hl. rewrite map_get_lookup, G2. revert Hf.
  generalize (early_args cli !! $"config-file"). intros [v|]; intros <-; [|done].
  by apply strcpy_fits.
Qed.
End Precedence.

(** ** Properties *)

(** A file and an environment for the witnesses. *)
Definition demo_file : cstr :=
  $"# HomeNet" ++ [LF] ++ $"Port = 80" ++ [LF] ++ $"Name = cherry" ++ [LF] ++
  $"[Query Keys]" ++ [LF] ++ $"q001 = a123" ++ [LF].
Definition demo_fs : FileSystem :=
  fun path => if str_isEqual path CONFIG_PATH then Some demo_file else None.
Definition demo_env : Environment :=
  fun k => if str_isEqual k $"PORT" then Some $"81" else None.

Definition line_okb (l : cstr) : bool :=
  (match strtok_r $"=" (line_text l) with
   | Some (k, r) => match strtok_r $"=" r with
                    | Some (v, _) => bool_decide (zlen k < 50) && bool_decide (zlen v < 200)
                    | None => false end
   | None => false end) || negb (has_eq l) || prefixb $"#" l || prefixb $"[" l.

Lemma line_okb_ok ls : forallb line_okb ls = true -> Forall line_ok ls.
Proof.
  rewrite forallb_forall, Forall_forall. intros Hb l Hl%list_elem_of_In%Hb H1 H2 H3.
  unfold line_okb in Hl. rewrite H1, H2, H3, !orb_false_r in Hl.
  destruct (strtok_r _ (line_text l)) as [[k r]|]; [|done].
  destruct (strtok_r _ r) as [[v r']|] eqn:E; [|done].
  apply andb_true_iff in Hl as [H4%bool_decide_eq_true H5%bool_decide_eq_true].
  by exists k, r, v, r'.
Qed.

Lemma demo_file_ok section : section = None \/ section = Some $"Query Keys" ->
  file_ok section demo_file.
Proof.
  intros Hs. split_and!.
  - apply no_nul_not_elem. by apply (bool_decide_unpack _).
  - apply line_okb_ok. vm_compute. reflexivity.
  - by destruct Hs as [-> | ->]; apply (bool_decide_unpack _).
Qed.

(** What the chosen configuration file adds: nothing when its name is too short
    or it cannot be opened. *)
Definition file_args `{FileSystem} (file : cstr) : gmap cstr cstr :=
  if bool_decide (1 < zlen file)
  then match fopen file with Some content => pairs_map (file_pairs None content) | None => ∅ end
  else ∅.

Lemma file_args_ok `{Environment} `{FileSystem} (m : Map cstr) (file : cstr) :
  map_wf m -> (forall content, fopen file = Some content -> file_ok None content) ->
  exists m', (if bool_decide (str_len file > 1) then configFileToMap cfg_closed m file None
              else Ok (m, cfg_closed)) = Ok (m', cfg_closed) /\ map_wf m' /\
    to_gmap m' = file_args file ∪ to_gmap m.
Proof.
  intros W Hok. pose proof (eq_refl : sec cfg_closed = None) as Hclosed.
  unfold file_args, str_len. destruct (decide (1 < zlen file)).
  - rewrite !bool_decide_true by lia. destruct (fopen file) as [content|] eqn:E.
    + apply (configFileToMap_ok cfg_closed m file content None E Hclosed); [by apply Hok|done].
    + rewrite configFileToMap_missing by done. exists m. by rewrite (left_id_L ∅ (∪)).
  - rewrite !bool_decide_false by lia. exists m. by rewrite (left_id_L ∅ (∪)).
Qed.

(** C31: The arguments the program runs with are, key by key, those of the
    command line, then those of the environment, then those of the
    configuration file, when there is one (the documentation puts the file
    before the environment). The environment counts even when the command line
    says "-env 0" and the program has printed "Not using Env Variables": all
    this changes is that the environment no longer chooses the configuration
    file. Otherwise an environment value for "config-file" replaces the command
    line's when the file is chosen. *)
Theorem confArgs_precedence `{Environment} `{FileSystem}
    (argv : list cstr) (cli : list (cstr * cstr)) (file : cstr)
    (Hcli : cli_pairs argv = Some cli)
    (Hfile : default CONFIG_PATH (early_args cli !! $"config-file") = file) (Hlen : zlen file < 80)
    (Hok : forall content, fopen file = Some content -> file_ok None content) :
  exists args, confArgs argv = Ok (args, file, cfg_closed) /\
    to_gmap args = pairs_map cli ∪ pairs_map env_pairs ∪ file_args file.
Proof.
  unfold confArgs. rewrite (argsToMap_puts argv map_init cli Hcli).
  destruct (puts_ok cli map_init (cli_pairs_short _ _ Hcli) map_init_wf) as (m1 & -> & W1 & G1).
  rewrite map_init_gmap, (right_id_L ∅ (∪)) in G1. cbn [mbind outcome_bind].
  destruct (early_ok cli m1 W1 G1) as (m2 & -> & W2 & G2). cbn [mbind outcome_bind].
  rewrite (file_choice cli m2 file G2 Hfile) by lia. cbn [mbind outcome_bind].
  destruct (file_args_ok m2 file W2 Hok) as (m3 & -> & W3 & G3). rewrite ok_bind, envToMap_puts.
  destruct (puts_ok env_pairs m3 env_pairs_short W3) as (m4 & -> & W4 & G4). cbn [mbind outcome_bind].
  rewrite (argsToMap_puts argv m4 cli Hcli).
  destruct (puts_ok cli m4 (cli_pairs_short _ _ Hcli) W4) as (m5 & -> & W5 & G5).
  exists m5. split; [done|]. rewrite G5, G4, G3, G2. apply union_absorb.
Qed.

(** With "-env 0" the port is still that of the environment. *)
Lemma confArgs_precedence_witness :
  exists args, @confArgs demo_env demo_fs [$"homenet"; $"bridge"; $"-env"; $"0"]
      = Ok (args, CONFIG_PATH, cfg_closed) /\
    to_gmap args = pairs_map [($"mode", $"bridge"); ($"use-env", $"0")] ∪
      pairs_map (@env_pairs demo_env) ∪ @file_args demo_fs CONFIG_PATH /\
    to_gmap args !! $"port" = Some $"81".
Proof.
  destruct (@confArgs_precedence demo_env demo_fs [$"homenet"; $"bridge"; $"-env"; $"0"]
    [($"mode", $"bridge"); ($"use-env", $"0")] CONFIG_PATH) as (args & E & G).
  - vm_compute. reflexivity.
  - by vm_compute.
  - by vm_compute.
  - intros content Hc. change (Some demo_file = Some content) in Hc. injection Hc as <-.
    apply demo_file_ok. by left.
  - exists args. split; [exact E|]. split; [exact G|]. rewrite G. by vm_compute.
Defined.

(** whatever the arguments, [parseArgs] leaves [requireRLAuth] off, and
    the value of "rl-auth", when given, ends up in [requireQueryAuth]. *)
Theorem rl_auth_sets_query_auth `{FileSystem} (st st' : cfg_static) (args : Map cstr)
    (file : cstr) (bm : bridgeMode) (Hconf : conf_bridge st args file = Ok (bm, st')) :
  requireRLAuth bm = 0 /\
  (forall v, map_get args $"rl-auth" = Some v ->
     requireQueryAuth bm = if str_isEqual v $"true" then 1
                           else if str_isEqual v $"false" then 0 else str_toInt v).
Proof.
  unfold conf_bridge in Hconf. apply bind_ok in Hconf as ([[lk qk] st1] & _ & Hconf).
  inv_binds. split; [done|]. intros v Hv. cbn [requireQueryAuth].
  match goal with E : getValueBool $"rl-auth" _ _ = Ok _ |- _ =>
    unfold getValueBool, getValue in E; rewrite Hv in E; inv_binds end.
  match goal with E : str_set _ _ = Ok _ |- _ => apply strcpy_ok in E as [-> _] end. done.
Qed.

Lemma rl_auth_sets_query_auth_witness :
  match @conf_bridge demo_fs cfg_closed
          (mkMap [mkItem $"rl-auth" $"false"; mkItem $"query-auth" $"true"] 2) [] with
  | Ok (bm, _) => requireRLAuth bm = 0 /\ requireQueryAuth bm = 0
  | Fail _ => False
  end.
Proof.
  destruct (@conf_bridge demo_fs cfg_closed
    (mkMap [mkItem $"rl-auth" $"false"; mkItem $"query-auth" $"true"] 2) []) as [[bm st']|f] eqn:E;
    [|vm_compute in E; discriminate E].
  destruct (@rl_auth_sets_query_auth demo_fs _ _ _ _ _ E) as [H1 H2]. split; [exact H1|].
  exact (H2 $"false" eq_refl).
Defined.

(** the mode is chosen by the first letter that is not blank, in any case,
    and every string is given a mode or rejected without a fault. *)
Theorem mapMode_correct (s : cstr) (Hs : no_nul s) :
  mapMode s = Ok (mode_of (hd nul (strip (map tolower s)))).
Proof. by apply mapMode_ok. Qed.

Lemma mapMode_correct_witness : mapMode $" Reverse" = Ok (mode_of (hd nul (strip (map tolower $" Reverse")))).
Proof. apply (mapMode_correct $" Reverse"). by repeat constructor. Defined.
