(* ===== verification/ConfigText.v ===== *)
(** * Configuration files as they are written

    The format a configuration file is meant to have, as data: lines
    "key = value", comments, other lines, and sections. [render] is its text;
    the theorem is that configFileToMap reads from the text exactly the
    entries of the data. The examples at the end are texts outside this
    format, of which the code reads something else. *)
From S2P Require Import Prelude CString Str Containers Auth ConfigFile Config.

(** ** The format *)

Inductive cfg_line :=
| Entry (key value : cstr)      (* key = value *)
| Quoted (key value : cstr)     (* key = "value" *)
| Comment (text : cstr)         (* #text *)
| Other (text : cstr).          (* no entry: skipped *)

Record cfg_file := mkFile {
  cf_main : list cfg_line;
  cf_sections : list (cstr * list cfg_line) }.

Definition line_src (l : cfg_line) : cstr :=
  match l with
  | Entry k v => k ++ $" = " ++ v
  | Quoted k v => k ++ $" = " ++ [quote] ++ v ++ [quote]
  | Comment t => $"#" ++ t
  | Other t => t
  end.
Definition render_lines (ls : list cfg_line) : cstr := concat ((fun l => line_src l ++ [LF]) <$> ls).
Definition render_section (s : cstr * list cfg_line) : cstr :=
  ($"[" ++ s.1 ++ $"]") ++ LF :: render_lines s.2.
Definition render (f : cfg_file) : cstr :=
  render_lines (cf_main f) ++ concat (render_section <$> cf_sections f).

(** What a line says. *)
Definition line_pair (l : cfg_line) : option (cstr * cstr) :=
  match l with
  | Entry k v | Quoted k v => Some (k, v)
  | Comment _ | Other _ => None
  end.

(** The lines that are read: those of the first section of the name, or those
    before the first section. *)
Definition part (section : option cstr) (f : cfg_file) : list cfg_line :=
  match section with
  | None => cf_main f
  | Some s => match List.find (fun x => bool_decide (x.1 = s)) (cf_sections f) with
              | Some x => x.2
              | None => []
              end
  end.
(** The pairs put into the map: in the main part a key is replaced by the one
    it is mapped to, and left out when there is none. *)
Definition text_pairs (section : option cstr) (f : cfg_file) : list (cstr * cstr) :=
  omap (entry_pair section) (omap line_pair (part section f)).

Definition eq_sign : char := "="%char.
(** A text on one line, without control characters. *)
Definition plain (s : cstr) : Prop := Forall (fun c => c ∉ [nul; LF; chr 9]) s.
Definition key_wf (k : cstr) : Prop :=
  plain k /\ (eq_sign ∉ k) /\ strip k = k /\ k <> [] /\ (hd nul k ∉ $"[#") /\ zlen k < 49.
Definition line_wf (l : cfg_line) : Prop :=
  match l with
  | Entry k v => key_wf k /\ plain v /\ (eq_sign ∉ v) /\ strip v = v /\ (hd nul v <> quote) /\ zlen v < 199
  | Quoted k v => key_wf k /\ plain v /\ (eq_sign ∉ v) /\ (quote ∉ v) /\ zlen v < 197
  | Comment t => Forall (fun c => c ∉ [nul; LF]) t
  | Other t => plain t /\ (eq_sign ∉ t) /\ (hd nul t <> "["%char)
  end.
Definition section_wf (s : cstr * list cfg_line) : Prop :=
  plain s.1 /\ Forall line_wf s.2 /\ Forall (fun kv => zlen kv.1 < ITEM_KEY_SIZE) (omap line_pair s.2).
#[export] Instance line_wf_dec l : Decision (line_wf l).
Proof. destruct l; unfold line_wf, key_wf, plain; apply _. Defined.
#[export] Instance section_wf_dec s : Decision (section_wf s).
Proof. unfold section_wf, plain. apply _. Defined.
Record file_wf (f : cfg_file) : Prop := {
  fw_main : Forall line_wf (cf_main f);
  fw_sections : Forall section_wf (cf_sections f) }.

(** ** Lemmas: characters *)

Lemma drop_while_app p (s t : cstr) :
  drop_while p (s ++ t) = match drop_while p s with [] => drop_while p t | r => r ++ t end.
Proof. induction s as [|c s IH]; [done|]. cbn. by destruct (p c). Qed.
Lemma strip_blank_end s : strip (s ++ $" ") = strip s.
Proof.
  unfold strip. rewrite drop_while_app. destruct (drop_while isspace s) as [|c r]; [done|].
  rewrite (rev_app_distr (c :: r)). done.
Qed.
Lemma strip_blank_start s : strip ($" " ++ s) = strip s.
Proof. done. Qed.
Lemma strip_quoted v : strip ([quote] ++ v ++ [quote]) = [quote] ++ v ++ [quote].
Proof.
  assert (Hq : forall r, drop_while isspace (quote :: r) = quote :: r) by done.
  unfold strip. cbn [app]. rewrite Hq. change (rev (quote :: v ++ [quote])) with (rev (v ++ [quote]) ++ [quote]).
  rewrite rev_unit. cbn [app]. rewrite Hq. cbn [rev]. by rewrite rev_app_distr, rev_involutive.
Qed.

Lemma remove_none set (s : cstr) : Forall (fun c => c ∉ set) s -> remove_chars set s = s.
Proof.
  induction 1 as [|c s Hc Hs IH]; [done|]. unfold remove_chars in *. cbn.
  by rewrite (proj2 (mem_of_false set c) Hc), IH.
Qed.
Lemma remove_app set s t : remove_chars set (s ++ t) = remove_chars set s ++ remove_chars set t.
Proof. apply List.filter_app. Qed.
Lemma remove_keeps set c s : c ∉ set -> remove_chars set (c :: s) = c :: remove_chars set s.
Proof. intros Hc. unfold remove_chars. cbn. by rewrite (proj2 (mem_of_false set c) Hc). Qed.

Lemma plain_ctl s : plain s -> remove_chars ctl_chars s = s.
Proof. intros Hs. apply remove_none. eapply Forall_impl; [exact Hs|]. intros c Hc. cbn in *. set_solver. Qed.
Lemma plain_sub s : plain s -> Forall (fun c => c ∉ [nul; LF]) s.
Proof. intros Hs. eapply Forall_impl; [exact Hs|]. intros c Hc. cbn in *. set_solver. Qed.
Lemma free_of (x : char) (s : cstr) : x ∉ s -> Forall (fun c => c ∉ [x]) s.
Proof. intros Hx. apply Forall_forall. intros c Hc ->%list_elem_of_singleton. done. Qed.

(** ** Lemmas: lines *)

Lemma lines_line l r : LF ∉ l -> lines (l ++ LF :: r) = (l ++ [LF]) :: lines r.
Proof.
  induction l as [|c l IH]; intros Hl; [done|]. apply not_elem_of_cons in Hl as [Hc Hl].
  cbn [app lines]. rewrite bool_decide_false by done. by rewrite IH.
Qed.

Lemma line_src_free l : line_wf l -> Forall (fun c => c ∉ [nul; LF]) (line_src l).
Proof.
  assert (Hd : forall s : cstr, bool_decide (Forall (fun c => c ∉ [nul; LF]) s) = true ->
    Forall (fun c => c ∉ [nul; LF]) s) by (intros s; by apply bool_decide_eq_true).
  destruct l as [k v|k v|t|t]; cbn [line_wf line_src].
  - intros ((Hk & _) & Hv & _). repeat apply Forall_app_2; try (by apply plain_sub); by apply Hd.
  - intros ((Hk & _) & Hv & _). repeat apply Forall_app_2; try (by apply plain_sub); by apply Hd.
  - intros Ht. apply Forall_app_2; [by apply Hd|done].
  - intros (Ht & _). by apply plain_sub.
Qed.
Lemma free_no_lf s : Forall (fun c => c ∉ [nul; LF]) s -> LF ∉ s.
Proof. rewrite Forall_forall. intros Hs Hl. apply (Hs _ Hl). set_solver. Qed.
Lemma free_no_nul s : Forall (fun c => c ∉ [nul; LF]) s -> no_nul s.
Proof. intros Hs. eapply Forall_impl; [exact Hs|]. intros c Hc ->. apply Hc. set_solver. Qed.

(** The bytes of a line in the file, and what readConfigFile makes of them. *)
Lemma entry_text k v : key_wf k -> plain v -> line_text ((k ++ $" = " ++ v) ++ [LF]) = k ++ $" = " ++ v.
Proof.
  intros (Hk & _) Hv. unfold line_text. rewrite removelast_last, !remove_app.
  by rewrite (plain_ctl k), (plain_ctl v).
Qed.
Lemma entry_tokens k v : key_wf k -> eq_sign ∉ v ->
  strtok_r $"=" (k ++ $" = " ++ v) = Some (k ++ $" ", $" " ++ v) /\
  strtok_r $"=" ($" " ++ v) = Some ($" " ++ v, []).
Proof.
  intros (_ & Hk & _ & Hne & _) Hv. split.
  - change ($" = " ++ v) with ($" " ++ "="%char :: $" " ++ v). rewrite app_assoc.
    apply strtok_r_app; [by destruct k| |apply list_elem_of_here].
    apply Forall_app_2; [by apply free_of|by repeat constructor; set_solver].
  - apply strtok_r_whole; [done|]. apply Forall_app_2; [by repeat constructor; set_solver|by apply free_of].
Qed.
Lemma key_head k v : key_wf k ->
  prefixb $"[" (k ++ v) = false /\ prefixb $"#" (k ++ v) = false.
Proof.
  intros (_ & _ & _ & Hne & Hh & _). destruct k as [|c k]; [done|]. cbn [hd] in Hh.
  cbn [app]. split; (rewrite <- not_true_iff_false, prefixb_spec; intros (r & [= -> _]); set_solver).
Qed.

(** An entry with the value as it is written in the file. *)
Lemma entry_read k v r : key_wf k -> plain v -> eq_sign ∉ v -> zlen v < 199 ->
  let l := (k ++ $" = " ++ v) ++ [LF] in
  line_ok l /\ entries (l :: r) = (k, unquote (strip v)) :: entries r /\ remove_chars ctl_chars l = k ++ $" = " ++ v.
Proof.
  intros Hk Hv Hev Hz l. destruct (entry_tokens k v Hk Hev) as [E1 E2].
  destruct (key_head k (($" = " ++ v) ++ [LF]) Hk) as [H1 H2]. rewrite app_assoc in H1, H2. fold l in H1, H2.
  pose proof Hk as (Hp & _ & Hs & Hne & _ & Hz'). split_and!.
  - intros _ _ _. unfold l. rewrite entry_text by done. exists (k ++ $" "), ($" " ++ v), ($" " ++ v), [].
    split_and!; [done|done|..]; rewrite zlen_app; change (zlen $" ") with 1; lia.
  - cbn [entries]. rewrite H1, H2.
    assert (has_eq l = true) as ->.
    { unfold has_eq, l. rewrite entry_text by done. apply mem_of_true. set_solver. }
    unfold line_entry, l. rewrite entry_text, E1, E2 by done. by rewrite strip_blank_end, Hs, strip_blank_start.
  - unfold l. rewrite !remove_app. rewrite (plain_ctl k), (plain_ctl v) by done. by rewrite app_nil_r.
Qed.

Definition bytes (l : cfg_line) : cstr := line_src l ++ [LF].
Definition no_header (b : cstr) : Prop := forall s, remove_chars ctl_chars b <> $"[" ++ s ++ $"]".

Lemma skipped b r : prefixb $"[" b = false -> prefixb $"#" b = true \/ has_eq b = false ->
  line_ok b /\ entries (b :: r) = entries r.
Proof.
  intros H1 H2. split.
  - intros _ H3 H4. destruct H2; congruence.
  - cbn [entries]. rewrite H1. destruct (prefixb $"#" b); [done|]. by destruct H2 as [?| ->].
Qed.

Lemma line_read l r : line_wf l ->
  line_ok (bytes l) /\ no_header (bytes l) /\
  entries (bytes l :: r) = match line_pair l with Some kv => kv :: entries r | None => entries r end.
Proof.
  assert (Hhead : forall k v, key_wf k -> forall s, k ++ v <> $"[" ++ s ++ $"]").
  { intros k v Hk s E. destruct (key_head k v Hk) as [H1 _]. rewrite E in H1. by rewrite prefixb_app in H1. }
  unfold bytes. destruct l as [k v|k v|t|t]; cbn [line_wf line_src line_pair].
  - intros (Hk & Hv & He & Hs & Hh & Hz). destruct (entry_read k v r Hk Hv He Hz) as (H1 & H2 & H3).
    split_and!; [done|intros s; rewrite H3; by apply Hhead|].
    rewrite H2, Hs. unfold unquote. by rewrite bool_decide_false.
  - intros (Hk & Hv & He & Hq & Hz). set (w := [quote] ++ v ++ [quote]).
    assert (Hqw : forall set : cstr, quote ∉ set -> Forall (fun c => c ∉ set) v -> Forall (fun c => c ∉ set) w).
    { intros set H1 H2. apply Forall_app_2; [by repeat constructor|].
      apply Forall_app_2; [done|by repeat constructor]. }
    assert (Hw : plain w) by (apply Hqw; [by apply (bool_decide_unpack _)|done]).
    assert (Hew : eq_sign ∉ w).
    { unfold w. rewrite !elem_of_app, !list_elem_of_singleton. intros [E|[E|E]]; [by inversion E|done|by inversion E]. }
    destruct (entry_read k w r Hk Hw Hew) as (H1 & H2 & H3).
    { unfold w. rewrite !zlen_app. change (zlen [quote]) with 1. lia. }
    split_and!; [done|intros s; rewrite H3; by apply Hhead|].
    rewrite H2. unfold w. rewrite strip_quoted. unfold unquote. rewrite bool_decide_true by done.
    rewrite !remove_app, (remove_none _ v) by by apply free_of. change (remove_chars [quote] [quote]) with (@nil char).
    by rewrite app_nil_r.
  - intros Ht. destruct (skipped (($"#" ++ t) ++ [LF]) r) as [H1 H2]; [done|by left|]. split_and!; [done| |done].
    intros s E. change (($"#" ++ t) ++ [LF]) with ("#"%char :: t ++ [LF]) in E. rewrite remove_keeps in E by (by apply (bool_decide_unpack _)). done.
  - intros (Ht & He & Hh).
    destruct (skipped (t ++ [LF]) r) as [H1 H2].
    { destruct t as [|c t]; [done|]. cbn [hd] in Hh. apply not_true_iff_false. rewrite prefixb_spec. by intros (x & [= -> _]). }
    { right. unfold has_eq, line_text. rewrite removelast_last, plain_ctl by done. by apply mem_of_false. }
    split_and!; [done| |done]. intros s E. rewrite remove_app, plain_ctl, app_nil_r in E by done.
    rewrite E in Hh. done.
Qed.

(** ** Lemmas: parts of the file *)

Lemma lines_render ls r : Forall line_wf ls -> lines (render_lines ls ++ r) = (bytes <$> ls) ++ lines r.
Proof.
  induction 1 as [|l ls Hl Hls IH]; [done|]. unfold render_lines in *. cbn [fmap list_fmap concat].
  rewrite <- !app_assoc. cbn [app]. rewrite lines_line by by apply free_no_lf, line_src_free.
  by rewrite IH.
Qed.
Lemma entries_render ls r : Forall line_wf ls -> entries ((bytes <$> ls) ++ r) = omap line_pair ls ++ entries r.
Proof.
  induction 1 as [|l ls Hl Hls IH]; [done|]. cbn [fmap list_fmap app omap list_omap].
  destruct (line_read l ((bytes <$> ls) ++ r) Hl) as (_ & _ & ->). destruct (line_pair l); by rewrite IH.
Qed.
Lemma section_skip s ls r : Forall line_wf ls -> section_lines s ((bytes <$> ls) ++ r) = section_lines s r.
Proof.
  induction 1 as [|l ls Hl Hls IH]; [done|]. cbn [fmap list_fmap app section_lines].
  destruct (line_read l [] Hl) as (_ & Hh & _). by rewrite bool_decide_false by apply Hh.
Qed.

Definition header (s : cstr) : cstr := ($"[" ++ s ++ $"]") ++ [LF].
Definition section_text (s : cstr * list cfg_line) : list cstr := header s.1 :: (bytes <$> s.2).

Lemma header_free s : plain s -> Forall (fun c => c ∉ [nul; LF]) ($"[" ++ s ++ $"]").
Proof.
  intros Hs. repeat apply Forall_app_2; [|by apply plain_sub|]; by apply (bool_decide_unpack _).
Qed.
Lemma lines_sections secs : Forall section_wf secs ->
  lines (concat (render_section <$> secs)) = concat (section_text <$> secs).
Proof.
  induction 1 as [|s secs (Hs & Hl & _) Hsecs IH]; [done|]. cbn [fmap list_fmap concat]. unfold render_section at 1.
  rewrite <- app_assoc. cbn [app]. rewrite (lines_line ($"[" ++ s.1 ++ $"]")) by by apply free_no_lf, header_free.
  rewrite lines_render by done. by rewrite IH.
Qed.
Lemma entries_sections secs : entries (concat (section_text <$> secs)) = [].
Proof. by destruct secs as [|s secs]. Qed.
Lemma section_found s secs : Forall section_wf secs ->
  entries (section_lines s (concat (section_text <$> secs)))
  = omap line_pair (part (Some s) (mkFile [] secs)).
Proof.
  induction 1 as [|x secs (Hs & Hl & _) Hsecs IH]; [done|]. cbn [fmap list_fmap concat section_text app section_lines].
  assert (remove_chars ctl_chars (header x.1) = $"[" ++ x.1 ++ $"]") as ->.
  { unfold header. rewrite !remove_app, (plain_ctl x.1) by done. cbn. by rewrite app_nil_r. }
  cbn [part cf_sections List.find].
  destruct (decide (x.1 = s)) as [E|E].
  - rewrite !bool_decide_true by congruence. rewrite entries_render by done. by rewrite entries_sections, app_nil_r.
  - rewrite !bool_decide_false; [|done|].
    + rewrite section_skip by done. exact IH.
    + intros E'. apply E. cbn [app] in E'. injection E' as E'. by apply app_inv_tail in E'.
Qed.

Lemma lines_file f : file_wf f ->
  lines (render f) = (bytes <$> cf_main f) ++ concat (section_text <$> cf_sections f).
Proof. intros [Hm Hs]. unfold render. by rewrite lines_render, lines_sections. Qed.

Lemma part_section s f : part (Some s) f = part (Some s) (mkFile [] (cf_sections f)).
Proof. done. Qed.

Lemma file_pairs_text section f : file_wf f -> section <> Some [] ->
  file_pairs section (render f) = text_pairs section f.
Proof.
  intros Hf Hne. pose proof Hf as [Hm Hs]. unfold file_pairs, text_pairs. rewrite lines_file by done.
  destruct section as [s|].
  - assert (str_isEqual s [] = false) as ->.
    { apply not_true_iff_false. rewrite str_isEqual_true. congruence. }
    rewrite section_skip, section_found by done. rewrite <- part_section. symmetry. apply omap_some.
  - rewrite entries_render, entries_sections, app_nil_r by done. done.
Qed.

Lemma no_nul_concat (ls : list cstr) : Forall no_nul ls -> no_nul (concat ls).
Proof. induction 1; [apply no_nul_nil|]. cbn. by apply no_nul_app. Qed.
Lemma no_nul_lines ls : Forall line_wf ls -> no_nul (render_lines ls).
Proof.
  intros Hl. apply no_nul_concat, Forall_fmap. eapply Forall_impl; [exact Hl|]. intros l H. cbn.
  apply no_nul_app. split; [by apply free_no_nul, line_src_free|by repeat constructor].
Qed.
Lemma no_nul_render f : file_wf f -> no_nul (render f).
Proof.
  intros [Hm Hs]. apply no_nul_app. split; [by apply no_nul_lines|].
  apply no_nul_concat, Forall_fmap. eapply Forall_impl; [exact Hs|]. intros s (H1 & H2 & _).
  unfold render_section. apply no_nul_app. split; [by apply free_no_nul, header_free|].
  apply no_nul_cons. split; [done|by apply no_nul_lines].
Qed.

Lemma line_ok_lines ls : Forall line_wf ls -> Forall line_ok (bytes <$> ls).
Proof.
  intros Hl. apply Forall_fmap. eapply Forall_impl; [exact Hl|]. intros l H. by destruct (line_read l [] H).
Qed.
Lemma line_ok_sections secs : Forall section_wf secs -> Forall line_ok (concat (section_text <$> secs)).
Proof.
  induction 1 as [|s secs (_ & Hl & _) _ IH]; [done|]. cbn [fmap list_fmap concat section_text app].
  constructor; [done|]. apply Forall_app_2; [by apply line_ok_lines|exact IH].
Qed.

Lemma text_keys_short section f : file_wf f -> keys_short (text_pairs section f).
Proof.
  intros [_ Hs]. unfold text_pairs. destruct section as [s|].
  - rewrite (omap_some _ : omap (entry_pair (Some s)) _ = _). cbn [part]. induction Hs as [|x secs (_ & _ & Hk) _ IH]; [constructor|].
    cbn [List.find]. by case_bool_decide.
  - apply Forall_forall. intros kv ([k v] & _ & E)%list_elem_of_omap. cbn [entry_pair fst snd] in E.
    apply bind_Some in E as (key & Ek & [= <-]). exact (getMappedKey_short _ _ _ Ek).
Qed.

Lemma render_ok section f : file_wf f -> section <> Some [] -> file_ok section (render f).
Proof.
  intros Hf Hne. split_and!; [by apply no_nul_render| |].
  - rewrite lines_file by done. destruct Hf. apply Forall_app_2; [by apply line_ok_lines|by apply line_ok_sections].
  - rewrite file_pairs_text by done. by apply text_keys_short.
Qed.

(** ** Properties *)

(** C32: For a well-formed configuration file, that is lines "key = value", in
    which the value has no "=" and may stand in double quotes, comments and
    other lines, each ended by a newline, and sections of such lines: reading the main part,
    or the first section of a name, into a map adds exactly the pairs written
    there, the last value of a key winning; a key of the main part stands for
    the one it is mapped to, and is left out when there is none. Reading ends,
    no buffer overflows, and the file is closed. *)
Theorem configFileToMap_correct `{FileSystem} (st : cfg_static) (m : Map cstr)
    (file : cstr) (f : cfg_file) (section : option cstr)
    (Hopen : fopen file = Some (render f)) (Hsec : sec st = None)
    (Hfile : file_wf f) (Hsection : section <> Some []) (Hm : map_wf m) :
  exists m', configFileToMap st m file section = Ok (m', cfg_closed) /\ map_wf m' /\
    to_gmap m' = pairs_map (text_pairs section f) ∪ to_gmap m.
Proof.
  rewrite <- file_pairs_text by done.
  apply configFileToMap_ok; [done|done|by apply render_ok|done].
Qed.

(** The configuration file of a bridge. *)
Definition text_file : cfg_file := mkFile
  [Comment $" HomeNet"; Entry $"Port" $"80"; Other []; Quoted $"Name" $" cherry "; Entry $"Colour" $"red"]
  [($"Query Keys", [Entry $"q001" $"a123"; Entry $"q002" $"b456"]);
   ($"Listen Keys", [Entry $"l001" $"c789"])].
Definition text_fs : FileSystem :=
  fun path => if str_isEqual path CONFIG_PATH then Some (render text_file) else None.
Lemma text_file_wf : file_wf text_file.
Proof. split; by apply (bool_decide_unpack _). Qed.

Lemma configFileToMap_correct_witness :
  (exists m', @configFileToMap text_fs cfg_closed map_init CONFIG_PATH None
      = Ok (m', cfg_closed) /\ map_wf m' /\
    to_gmap m' = pairs_map (text_pairs None text_file) ∪ to_gmap map_init) /\
  text_pairs None text_file = [($"port", $"80"); ($"name", $" cherry ")] /\
  text_pairs (Some $"Query Keys") text_file = [($"q001", $"a123"); ($"q002", $"b456")].
Proof.
  split; [|split; by vm_compute].
  apply (@configFileToMap_correct text_fs cfg_closed map_init CONFIG_PATH text_file None);
    [reflexivity|reflexivity|exact text_file_wf|discriminate|apply map_init_wf].
Defined.

(** ** Texts outside the format *)

Definition one_file (content : cstr) : FileSystem := fun _ => Some content.
Definition read_main (content : cstr) : outcome (list (cstr * cstr)) :=
  '(m, _) ← @configFileToMap (one_file content) cfg_closed map_init CONFIG_PATH None;
  Ok ((fun i => (key i, value i)) <$> start m).

(** The last byte of a line is cut whether or not it is a newline. *)
Example last_line_loses_a_byte : read_main $"Port = 80" = Ok [($"port", $"8")].
Proof. by vm_compute. Qed.
(** A value ends at a second "=". *)
Example value_ends_at_equals : read_main ($"Name = ab=cd" ++ [LF]) = Ok [($"name", $"ab")].
Proof. by vm_compute. Qed.
(** A key with nothing behind the "=" is a null pointer. *)
Example key_without_value : read_main ($"Port=" ++ [LF]) = Fail NullDeref.
Proof. by vm_compute. Qed.
