(* ===== verification/Http.v ===== *)
(** * HTTP messages (src/httpUtils.c, lines 18-164, 185-189)

    Parsing and writing of HTTP requests and responses. The parsers cut the
    buffer into tokens with [strtok_r]; keys and values of headers are the
    tokens themselves. The body of a request is an offset in the buffer, which
    the later cuts go on editing. *)
From S2P Require Import Prelude CString Str Containers.

Definition HTTP_UNKNOWN : Z := 0.
Definition HTTP_GET : Z := 1.
Definition HTTP_POST : Z := 2.

Record HttpRequest (B : Type) := mkRequest {
  headers : Map cstr; method : Z; url : cstr; body : option B }.
Arguments mkRequest {B} headers method url body.
Arguments headers {B} h.
Arguments method {B} h.
Arguments url {B} h.
Arguments body {B} h.

Record HttpResponse := mkResponse {
  statusCode : Z; statusMessage : cstr; rsp_headers : Map cstr; rsp_body : option cstr }.

Definition CRLF : cstr := [CR; LF].

(** ** Parsing *)

Definition getBodyIndex (buff : cstr) : outcome Z :=
  r ← for_ret (Z.to_nat (str_len buff)) 0 (fun i =>
        b ← str_startswith (drop (Z.to_nat i) buff) (CRLF ++ CRLF);
        if b : bool then Ok (Some (i + 4)) else Ok None);
  Ok (default (-1) r).

(** One header line; a blank after the colon is skipped. *)
Definition parse_header (hs : Map cstr) (line : cstr) : outcome (Map cstr) :=
  match strtok_r $":" line with
  | None => Ok hs
  | Some (key, rest) =>
      match tok1 $":" rest with
      | None => Ok hs
      | Some value =>
          let value := match value with
                       | c :: v => if bool_decide (c = " "%char) then v else value
                       | [] => value
                       end in
          '(hs, _) ← map_set hs key value false;
          Ok hs
      end
  end.

(** The loop over the lines behind the first one. *)
Fixpoint header_loop (fuel : nat) (saveptr1 : cstr) (hs : Map cstr) : outcome (Map cstr) :=
  match fuel with
  | O => Fail NoFuel
  | S f =>
      match strtok_r CRLF saveptr1 with
      | None => Ok hs
      | Some (line, saveptr1) => hs ← parse_header hs line; header_loop f saveptr1 hs
      end
  end.

(** The result of the parsers: the returned int, and the request. On an early
    return the fields written so far are of no use to the callers. *)
Definition parseHttpRequest (buffer : cstr) : outcome (option (HttpRequest Z)) :=
  let line := tok1 CRLF buffer in
  let saveptr1 := tok_rest CRLF buffer in
  bodyInd ← getBodyIndex (tok_cut CRLF buffer);
  let body := if bool_decide (bodyInd > 0) then Some bodyInd else None in
  match line with
  | None => Ok (Some (mkRequest map_init HTTP_UNKNOWN [] body))
  | Some line =>
      get ← str_startswith line $"GET";
      post ← str_startswith line $"POST";
      if negb get && negb post then Ok None
      else
        let method := if get : bool then HTTP_GET else HTTP_POST in
        u ← deref (tok1 $" " (tok_rest $" " line));
        url ← str_set 1024 u;
        stamp ← deref (tok1 $" " (tok_rest $" " (tok_rest $" " line)));
        http ← str_startswith stamp $"HTTP/";
        if negb http then Ok None
        else
          hs ← header_loop (S (length saveptr1)) saveptr1 map_init;
          Ok (Some (mkRequest hs method url body))
  end.

Definition parseHttpResponse (buffer : cstr) : outcome (option HttpResponse) :=
  bodyInd ← getBodyIndex buffer;
  let body := if bool_decide (bodyInd > 0) then Some (drop (Z.to_nat bodyInd) buffer) else None in
  let buffer := if bool_decide (bodyInd > 0) then take (Z.to_nat (bodyInd - 1)) buffer
                else buffer in
  match strtok_r CRLF buffer with
  | None => Ok (Some (mkResponse 0 [] map_init body))
  | Some (line, saveptr1) =>
      http ← str_startswith line $"HTTP/";
      if negb http then Ok None
      else
        statusStr ← deref (tok1 $" " (tok_rest $" " line));
        let code := str_toInt statusStr in
        m ← deref (tok1 $" " (tok_rest $" " (tok_rest $" " line)));
        msg ← str_set 200 m;
        hs ← header_loop (S (length saveptr1)) saveptr1 map_init;
        Ok (Some (mkResponse code msg hs body))
  end.

(** ** Writing *)

(** The loop over the headers: [map_forEach(&req->headers)] is called again in
    the body of the loop, so [item] is the first item every time. The buffer is
    rewritten with [sprintf(buff, "%s...", buff, ...)] and holds [buffSize]
    bytes. *)
Fixpoint write_headers (fuel : nat) (hs : Map cstr) (item : option (Item cstr))
    (buffSize len : Z) (buff : cstr) : outcome (option (Z * cstr)) :=
  match fuel with
  | O => Fail NoFuel
  | S f =>
      match item with
      | None => Ok (Some (len, buff))
      | Some it =>
          let len := len + zlen (key it) + zlen (value it) + 4 in
          if bool_decide (len > buffSize) then Ok None
          else
            buff ← strcpy buffSize (buff ++ key it ++ $": " ++ value it ++ CRLF);
            write_headers f hs (fst (map_forEach (Some hs) [])) buffSize len buff
      end
  end.

(** [None] is the returned 0. *)
Definition writeHttpRequest (buffSize : Z) (req : HttpRequest cstr) : outcome (option cstr) :=
  let m := if bool_decide (method req = HTTP_GET) then Some $"GET"
           else if bool_decide (method req = HTTP_POST) then Some $"POST" else None in
  match m with
  | None => Ok None
  | Some m =>
      let stamp := $"HTTP/1.1" in
      let body := default [] (body req) in
      let len := zlen m + zlen (url req) + zlen stamp in
      if bool_decide (len > buffSize) then Ok None
      else
        buff ← strcpy buffSize (m ++ $" " ++ url req ++ $" " ++ stamp ++ CRLF);
        r ← write_headers (S (Z.to_nat buffSize)) (headers req)
              (fst (map_forEach (Some (headers req)) [])) buffSize len buff;
        match r with
        | None => Ok None
        | Some (len, buff) =>
            let len := len + zlen body + 4 in
            if bool_decide (len > buffSize) then Ok None
            else buff ← strcpy buffSize (buff ++ CRLF ++ body); Ok (Some buff)
        end
  end.

Definition upgrade_response : cstr :=
  $"HTTP/1.1 101 Switching Protocols" ++ CRLF ++ $"Upgrade: websocket" ++ CRLF ++
  $"Connection: Upgrade" ++ CRLF ++
  $"Sec-WebSocket-Accept: s3pPLMBiTxaQ9kYGzzhZRbK+xOo=" ++ CRLF ++ CRLF.

(** The text and the returned length; [cap] is the size of [buff]. *)
Definition writeUpgradeResponse (cap : Z) : outcome (cstr * Z) :=
  buff ← strcpy cap upgrade_response;
  Ok (buff, str_len buff).

(** ** Specification *)

(** A header as it is written on a line. *)
Definition header_text (kv : cstr * cstr) : cstr := kv.1 ++ $": " ++ kv.2 ++ CRLF.

(** Tokens hold none of [set] and are not empty. *)
Definition token (set s : cstr) : Prop := s <> [] /\ Forall (fun c => c ∉ set) s.

(** A line behind the first one: a header, or a text without a colon, as the
    empty line is. *)
Inductive http_line := Field (k v : cstr) | Text (t : cstr).
Definition line_src (l : http_line) : cstr :=
  match l with Field k v => header_text (k, v) | Text t => t ++ CRLF end.
Definition line_ok (l : http_line) : Prop :=
  match l with
  | Field k v => token ($":" ++ CRLF) k /\ zlen k < ITEM_KEY_SIZE /\ Forall (fun c => c ∉ CRLF) v
  | Text t => Forall (fun c => c ∉ $":" ++ CRLF) t
  end.

#[export] Instance line_ok_dec l : Decision (line_ok l).
Proof. destruct l; unfold line_ok, token; apply _. Defined.

(** What the parser keeps of a value: the part before its first colon. *)
Definition upto_colon (v : cstr) : cstr := take_while (fun c => negb (mem_of $":" c)) v.
Definition line_field (l : http_line) : option (cstr * cstr) :=
  match l with Field k v => Some (k, upto_colon v) | Text _ => None end.

(** The headers, an empty line and the lines of the body. *)
Definition request_text (m u : cstr) (hs : list (cstr * cstr)) (body : list http_line) : cstr :=
  m ++ $" " ++ u ++ $" HTTP/1.1" ++ CRLF ++ flat_map header_text hs ++ CRLF ++ flat_map line_src body.
Definition request_lines (hs : list (cstr * cstr)) (body : list http_line) : list http_line :=
  ((fun kv => Field kv.1 kv.2) <$> hs) ++ Text [] :: body.

(** The map of the headers, the last one of a name winning. *)
Definition headers_map (hs : list (cstr * cstr)) : gmap cstr cstr := list_to_map (rev hs).

(** ** Lemmas *)

Lemma token_sub set' s :
  forallb (mem_of ($":" ++ CRLF)) set' = true -> token ($":" ++ CRLF) s -> token set' s.
Proof. intros Hsub [Hne Hs]. split; [done|]. by eapply free_sub. Qed.

Lemma Forall_app_free (set s t : cstr) :
  Forall (fun c => c ∉ set) s -> Forall (fun c => c ∉ set) t -> Forall (fun c => c ∉ set) (s ++ t).
Proof. apply Forall_app_2. Qed.

(** How a header line is cut. *)
Lemma header_tokens k v :
  token ($":" ++ CRLF) k ->
  strtok_r $":" (k ++ $": " ++ v) = Some (k, " "%char :: v).
Proof.
  intros Hk. destruct (token_sub $":" k eq_refl Hk) as [Hk0 Hk1].
  exact (strtok_r_app $":" k ":"%char (" "%char :: v) Hk0 Hk1 (list_elem_of_here _ _)).
Qed.

Lemma header_value v : tok1 $":" (" "%char :: v) = Some (" "%char :: upto_colon v).
Proof. done. Qed.

Lemma parse_header_ok hs k v :
  token ($":" ++ CRLF) k -> zlen k < ITEM_KEY_SIZE -> map_wf hs ->
  exists hs', parse_header hs (k ++ $": " ++ v) = Ok hs' /\ map_wf hs' /\
    to_gmap hs' = <[k := upto_colon v]> (to_gmap hs).
Proof.
  intros Hk Lk W. unfold parse_header.
  rewrite (header_tokens k v Hk), header_value, bool_decide_true by done.
  destruct (map_set_ok hs k (upto_colon v) false (or_intror Lk)) as (hs' & fr & E & G & W').
  rewrite E. cbn [mbind outcome_bind]. exists hs'. split_and!; [done|by apply W'|done].
Qed.
Lemma parse_header_text hs t : t <> [] -> Forall (fun c => c ∉ $":" ++ CRLF) t -> parse_header hs t = Ok hs.
Proof. intros Hne Ht. unfold parse_header. rewrite strtok_r_whole; [done|done|]. by apply (free_sub ($":" ++ CRLF)). Qed.

Lemma CR_in : CR ∈ CRLF.
Proof. apply list_elem_of_here. Qed.
Lemma LF_in : LF ∈ CRLF.
Proof. by apply mem_of_true. Qed.

Lemma header_loop_skip fuel s hs :
  header_loop fuel (LF :: s) hs = header_loop fuel s hs.
Proof. destruct fuel as [|f]; [done|]. cbn [header_loop]. by rewrite (strtok_r_skip CRLF LF s LF_in). Qed.

Lemma header_loop_newline fuel s hs :
  header_loop fuel (CRLF ++ s) hs = header_loop fuel s hs.
Proof.
  destruct fuel as [|f]; [done|]. cbn [header_loop]. change (CRLF ++ s) with (CR :: LF :: s).
  by rewrite (strtok_r_skip CRLF CR (LF :: s) CR_in), (strtok_r_skip CRLF LF s LF_in).
Qed.

(** A line that holds something is one round of the loop. *)
Lemma header_loop_line f t r hs : t <> [] -> Forall (fun c => c ∉ CRLF) t ->
  header_loop (S f) ((t ++ CRLF) ++ r) hs = (hs ← parse_header hs t; header_loop f r hs).
Proof.
  intros Hne Ht. cbn [header_loop]. rewrite <- app_assoc. change (CRLF ++ r) with (CR :: LF :: r).
  rewrite strtok_r_app by (done || apply CR_in). destruct (parse_header hs t); [|done].
  cbn [mbind outcome_bind]. apply header_loop_skip.
Qed.

(** The lines of a message. *)
Lemma header_loop_ok fuel ls m :
  Forall line_ok ls -> map_wf m -> (length ls < fuel)%nat ->
  exists m', header_loop fuel (flat_map line_src ls) m = Ok m' /\ map_wf m' /\
    to_gmap m' = headers_map (omap line_field ls) ∪ to_gmap m.
Proof.
  intros Hh. revert fuel m. induction Hh as [|l ls Hl Hh IH]; intros fuel m W Hf;
    (destruct fuel as [|f]; [cbn in Hf; lia|]).
  { exists m. split_and!; [done|done|]. unfold headers_map. cbn. by rewrite (left_id_L ∅ (∪)). }
  cbn [flat_map]. cbn [length] in Hf. destruct l as [k v|t]; cbn [line_ok line_src] in *.
  - destruct Hl as (Hk & Lk & Hv). destruct (parse_header_ok m k v Hk Lk W) as (m1 & E & W1 & G1).
    change (header_text (k, v)) with (k ++ $": " ++ v ++ CRLF). rewrite !app_assoc, <- (app_assoc k).
    rewrite header_loop_line, E.
    + cbn [mbind outcome_bind]. destruct (IH f m1 W1 ltac:(lia)) as (m2 & E2 & W2 & G2).
      exists m2. split_and!; [done|done|]. rewrite G2, G1. cbn [omap list_omap line_field].
      unfold headers_map. cbn [rev]. rewrite list_to_map_app, <- (assoc_L (∪)). f_equal.
      by rewrite insert_union_singleton_l.
    + by destruct k; [destruct Hk|].
    + destruct (token_sub CRLF k eq_refl Hk) as [_ Hk1]. apply Forall_app_free; [done|].
      apply Forall_app_free; [by apply free_dec|done].
  - cbn [omap list_omap line_field]. destruct t as [|c t].
    + cbn [app]. change ((CR :: LF :: flat_map line_src ls)) with (CRLF ++ flat_map line_src ls).
      rewrite header_loop_newline. apply IH; [done|lia].
    + rewrite header_loop_line, parse_header_text; [|done|done|done|by apply (free_sub ($":" ++ CRLF))].
      cbn [mbind outcome_bind]. apply IH; [done|lia].
Qed.

Lemma header_lines_length ls : (length ls <= length (flat_map line_src ls))%nat.
Proof.
  induction ls as [|l ls IH]; cbn [flat_map length]; [lia|]. rewrite length_app.
  assert (2 <= length (line_src l))%nat; [|lia].
  destruct l; cbn [line_src]; unfold header_text; rewrite !length_app; change (length CRLF) with 2%nat; lia.
Qed.

(** ** Lemmas: requests *)

(** The first line of a request, cut out of the buffer, holds no empty line. *)
Lemma getBodyIndex_line line :
  Forall (fun c => c ∉ CRLF) line -> getBodyIndex line = Ok (-1).
Proof.
  intros Hl. unfold getBodyIndex, str_len. rewrite for_ret_none; [done|].
  intros j Hj. rewrite str_startswith_spec by by repeat constructor. cbn [mbind outcome_bind].
  destruct (prefixb _ _) eqn:E; [|done]. apply prefixb_spec in E as (r & E). exfalso.
  rewrite <- (take_drop (Z.to_nat j) line), E in Hl. apply list.Forall_app in Hl as [_ Hl].
  apply list.Forall_cons in Hl as [Hl _]. apply Hl, CR_in.
Qed.

(** The words of a request line. *)
Lemma request_words (m u : cstr) :
  token $" " m -> token $" " u ->
  let line := m ++ $" " ++ u ++ $" HTTP/1.1" in
  tok1 $" " (tok_rest $" " line) = Some u /\
  tok1 $" " (tok_rest $" " (tok_rest $" " line)) = Some $"HTTP/1.1".
Proof.
  intros [Hm0 Hm] [Hu0 Hu] line. unfold line, tok_rest, tok1.
  pose proof (strtok_r_app $" " m " "%char (u ++ $" HTTP/1.1") Hm0 Hm (list_elem_of_here _ _)) as E1.
  pose proof (strtok_r_app $" " u " "%char $"HTTP/1.1" Hu0 Hu (list_elem_of_here _ _)) as E2.
  change ($" " ++ u ++ $" HTTP/1.1") with (" "%char :: u ++ $" HTTP/1.1").
  change ($" HTTP/1.1") with (" "%char :: $"HTTP/1.1") in *.
  rewrite E1, E2. split; [done|]. reflexivity.
Qed.

Lemma tok_cut_token set t d r :
  token set t -> d ∈ set -> tok_cut set (t ++ d :: r) = t.
Proof.
  intros [Hne Ht] Hd. unfold tok_cut. rewrite strtok_r_app by done.
  destruct t as [|c t]; [done|]. apply list.Forall_cons in Ht as [Hc _].
  cbn [app take_while]. by rewrite (proj2 (mem_of_false _ _) Hc).
Qed.

(** The three results of cutting a first token. *)
Lemma tok_of_token set t d r :
  token set t -> d ∈ set ->
  tok1 set (t ++ d :: r) = Some t /\ tok_rest set (t ++ d :: r) = r /\ tok_cut set (t ++ d :: r) = t.
Proof.
  intros Ht Hd. split_and!; [| |by apply tok_cut_token];
    unfold tok1, tok_rest; by rewrite strtok_r_app by (apply Ht || done).
Qed.

Lemma header_loop_more f g s hs r :
  header_loop f s hs = Ok r -> (f <= g)%nat -> header_loop g s hs = Ok r.
Proof.
  revert g s hs. induction f as [|f IH]; intros g s hs E Hg; [done|].
  destruct g as [|g]; [lia|]. cbn [header_loop] in *.
  destruct (strtok_r CRLF s) as [[l s']|]; [|done].
  destruct (parse_header hs l); cbn [mbind outcome_bind] in *; [|done]. apply IH; [done|lia].
Qed.

(** The loop over the headers never reaches the end of the list. *)
Lemma write_headers_never fuel hs it rest size len buff :
  start hs = it :: rest -> len <= size -> size - len < 4 * Z.of_nat fuel ->
  let r := write_headers fuel hs (Some it) size len buff in
  r = Ok None \/ r = Fail BufOverflow.
Proof.
  intros Hs. revert len buff. induction fuel as [|f IH]; intros len buff Hlen Hf; [lia|].
  cbn [write_headers]. cbn zeta. set (len' := len + _ + _ + 4).
  assert (len + 4 <= len') by (pose proof (zlen_nonneg (key it)); pose proof (zlen_nonneg (value it)); lia).
  case_bool_decide; [by left|]. unfold strcpy. case_decide; [|by right].
  cbn [mbind outcome_bind map_forEach fst]. rewrite Hs. cbn [hd_error].
  apply IH; lia.
Qed.

(** ** Properties *)

(** C36: A GET or POST request is parsed into its method, its URL and its
    headers, each with the part of its value before the first colon: of
    "Host: h:8080" the parser keeps "h". The body is not found, since the buffer
    has been cut after the first line when it is looked for; instead the lines
    of the body are read as further headers: those of the form "key: value" are
    added to the map, lines without a colon are skipped. *)
Theorem parseHttpRequest_correct (m u : cstr) (hs : list (cstr * cstr)) (body : list http_line)
    (Hm : m = $"GET" \/ m = $"POST") (Hu : token ($" " ++ CRLF) u) (Hlen : zlen u < 1024)
    (Hls : Forall line_ok (request_lines hs body)) :
  exists hm, parseHttpRequest (request_text m u hs body)
      = Ok (Some (mkRequest hm (if bool_decide (m = $"GET") then HTTP_GET else HTTP_POST) u None))
    /\ to_gmap hm = headers_map (omap line_field (request_lines hs body)).
Proof.
  set (line := m ++ $" " ++ u ++ $" HTTP/1.1").
  set (t := flat_map line_src (request_lines hs body)).
  assert (Et : request_text m u hs body = line ++ CR :: LF :: t).
  { unfold request_text, line, t, request_lines. rewrite flat_map_app. cbn [flat_map line_src app].
    assert (E : flat_map line_src ((fun kv => Field kv.1 kv.2) <$> hs) = flat_map header_text hs).
    { clear. induction hs as [|[k v] hs IH]; [done|]. cbn. by rewrite IH. }
    rewrite E. by rewrite <- !app_assoc. }
  assert (Hu1 : token $" " u) by (destruct Hu; split; [|apply (free_sub ($" " ++ CRLF))]; done).
  assert (Hu2 : Forall (fun c => c ∉ CRLF) u) by (destruct Hu; by apply (free_sub ($" " ++ CRLF))).
  assert (Hm1 : token $" " m) by by destruct Hm as [-> | ->]; (split; [|apply free_dec]).
  assert (Hline : token CRLF line).
  { split; [by unfold line; destruct Hm as [-> | ->]|]. unfold line.
    repeat apply Forall_app_free; [by destruct Hm as [-> | ->]; apply free_dec|by apply free_dec
      |done|by apply free_dec]. }
  destruct (header_loop_ok (S (length (LF :: t))) (request_lines hs body) map_init Hls map_init_wf)
    as (hm & E & W & G).
  { pose proof (header_lines_length (request_lines hs body)). fold t in H. cbn [length]. lia. }
  exists hm. rewrite map_init_gmap, (right_id_L ∅ (∪)) in G. split; [|done].
  unfold parseHttpRequest. rewrite Et.
  destruct (tok_of_token CRLF line CR (LF :: t) Hline CR_in) as (-> & -> & ->).
  rewrite getBodyIndex_line by apply Hline. cbn [mbind outcome_bind].
  destruct (request_words m u Hm1 Hu1) as [Ew1 Ew2]. fold line in Ew1, Ew2. rewrite Ew1, Ew2.
  rewrite !(str_startswith_spec line) by by repeat constructor.
  cbn [mbind outcome_bind deref].
  assert (Ep : negb (prefixb $"GET" line) && negb (prefixb $"POST" line) = false /\
    prefixb $"GET" line = bool_decide (m = $"GET")) by by destruct Hm as [-> | ->].
  destruct Ep as [-> ->]. unfold str_set. rewrite (proj2 (strcpy_ok 1024 u u)) by done.
  cbn [mbind outcome_bind]. rewrite (str_startswith_spec $"HTTP/1.1") by by repeat constructor.
  cbn [mbind outcome_bind]. change (negb (prefixb $"HTTP/" $"HTTP/1.1")) with false.
  cbv iota. rewrite header_loop_skip. fold t in E. by rewrite E.
Qed.

(** A port in a value is lost, and a line of the body becomes a header. *)
Lemma parseHttpRequest_correct_witness :
  exists hm, parseHttpRequest
      (request_text $"POST" $"/chat" [($"Host", $"h:8080"); ($"Upgrade", $"websocket")]
         [Text $"hello"; Field $"a" $"b"])
      = Ok (Some (mkRequest hm HTTP_POST $"/chat" None))
    /\ to_gmap hm = headers_map [($"Host", $"h"); ($"Upgrade", $"websocket"); ($"a", $"b")].
Proof.
  apply (parseHttpRequest_correct $"POST" $"/chat" [($"Host", $"h:8080"); ($"Upgrade", $"websocket")]
    [Text $"hello"; Field $"a" $"b"]).
  - by right.
  - split; [discriminate|by apply free_dec].
  - reflexivity.
  - by apply (bool_decide_unpack _).
Defined.

(** a header name of 30 bytes or more, in the request of any client,
    overflows the key of the map item it is stored under. *)
Theorem parse_header_overflow (hs : Map cstr) (k v : cstr)
    (Hk : token ($":" ++ CRLF) k) (Hnew : map_get hs k = None) (Hlen : ITEM_KEY_SIZE <= zlen k) :
  parse_header hs (k ++ $": " ++ v) = Fail BufOverflow.
Proof.
  unfold parse_header. rewrite (header_tokens k v Hk), header_value, bool_decide_true by done.
  by rewrite map_set_overflow.
Qed.

Lemma parse_header_overflow_witness :
  parse_header map_init ($"Access-Control-Request-Headers" ++ $": " ++ $"x") = Fail BufOverflow.
Proof.
  apply (parse_header_overflow map_init $"Access-Control-Request-Headers" $"x").
  - split; [discriminate|by apply free_dec].
  - reflexivity.
  - by vm_compute.
Defined.

(** a request that has a header is never written: the loop restarts the
    iteration in every round until the size check or the buffer gives up. *)
Theorem writeHttpRequest_with_header (buffSize : Z) (req : HttpRequest cstr)
    (it : Item cstr) (rest : list (Item cstr)) (Hhs : start (headers req) = it :: rest) :
  writeHttpRequest buffSize req = Ok None \/ writeHttpRequest buffSize req = Fail BufOverflow.
Proof.
  unfold writeHttpRequest.
  destruct (if bool_decide (method req = HTTP_GET) then _ else _) as [m|]; [|by left].
  case_bool_decide; [by left|]. destruct (strcpy buffSize _) as [b|f] eqn:E; [|unfold strcpy in E; case_decide; [done|injection E as <-; by right]].
  cbn [mbind outcome_bind map_forEach fst]. rewrite Hhs. cbn [hd_error].
  pose proof (zlen_nonneg m). pose proof (zlen_nonneg (url req)).
  edestruct (write_headers_never (S (Z.to_nat buffSize)) (headers req) it rest) as [-> | ->];
    [done| | |by left|by right]; change (zlen $"HTTP/1.1") with 8 in *; lia.
Qed.

Lemma writeHttpRequest_with_header_witness :
  let req := mkRequest (mkMap [mkItem $"Host" $"x"] 1) HTTP_GET $"/" None in
  writeHttpRequest 1024 req = Ok None \/ writeHttpRequest 1024 req = Fail BufOverflow.
Proof.
  intros req. apply (writeHttpRequest_with_header 1024 req (mkItem $"Host" $"x") []). reflexivity.
Defined.
