(* ===== verification/Dns.v ===== *)
(** * The data of the DNS codec (lib/dns/dns.h) and its monad

    Constants, questions, resource records and queries as [dns.h] declares
    them, and the machine the two halves of [lib/dns/codec.c] run on: a state
    (the encoding or decoding context), results that are a value or a return
    code [dns_rcode_t], and the faults of [Prelude]. The sources are built
    without [NDEBUG], so a failed [assert] ends the process. *)
From Stdlib Require Import SpecFloat.
From S2P Require Import Prelude CString.

(** [enum dns_type]: types of resource records. *)
Definition RR_A : Z := 1.
Definition RR_NS : Z := 2.
Definition RR_MD : Z := 3.
Definition RR_MF : Z := 4.
Definition RR_CNAME : Z := 5.
Definition RR_SOA : Z := 6.
Definition RR_MB : Z := 7.
Definition RR_MG : Z := 8.
Definition RR_MR : Z := 9.
Definition RR_NULL : Z := 10.
Definition RR_WKS : Z := 11.
Definition RR_PTR : Z := 12.
Definition RR_HINFO : Z := 13.
Definition RR_MINFO : Z := 14.
Definition RR_MX : Z := 15.
Definition RR_TXT : Z := 16.
Definition RR_RP : Z := 17.
Definition RR_AFSDB : Z := 18.
Definition RR_X25 : Z := 19.
Definition RR_ISDN : Z := 20.
Definition RR_RT : Z := 21.
Definition RR_NSAP : Z := 22.
Definition RR_NSAP_PTR : Z := 23.
Definition RR_SIG : Z := 24.
Definition RR_KEY : Z := 25.
Definition RR_PX : Z := 26.
Definition RR_GPOS : Z := 27.
Definition RR_AAAA : Z := 28.
Definition RR_LOC : Z := 29.
Definition RR_NXT : Z := 30.
Definition RR_EID : Z := 31.
Definition RR_NIMLOC : Z := 32.
Definition RR_SRV : Z := 33.
Definition RR_ATMA : Z := 34.
Definition RR_NAPTR : Z := 35.
Definition RR_KX : Z := 36.
Definition RR_CERT : Z := 37.
Definition RR_A6 : Z := 38.
Definition RR_DNAME : Z := 39.
Definition RR_SINK : Z := 40.
Definition RR_OPT : Z := 41.
Definition RR_APL : Z := 42.
Definition RR_DS : Z := 43.
Definition RR_SSHFP : Z := 44.
Definition RR_ISECKEY : Z := 45.
Definition RR_RRSIG : Z := 46.
Definition RR_NSEC : Z := 47.
Definition RR_DNSKEY : Z := 48.
Definition RR_DHCID : Z := 49.
Definition RR_NSEC3 : Z := 50.
Definition RR_NSEC3PARAM : Z := 51.
Definition RR_TLSA : Z := 52.
Definition RR_SMIMEA : Z := 53.
Definition RR_HIP : Z := 55.
Definition RR_NINFO : Z := 56.
Definition RR_RKEY : Z := 57.
Definition RR_TALINK : Z := 58.
Definition RR_CDS : Z := 59.
Definition RR_CDNSKEY : Z := 60.
Definition RR_OPENPGPKEY : Z := 61.
Definition RR_CSYNC : Z := 62.
Definition RR_ZONEMD : Z := 63.
Definition RR_SVCB : Z := 64.
Definition RR_HTTPS : Z := 65.
Definition RR_SPF : Z := 99.
Definition RR_UINFO : Z := 100.
Definition RR_UID : Z := 101.
Definition RR_GID : Z := 102.
Definition RR_UNSPEC : Z := 103.
Definition RR_NID : Z := 104.
Definition RR_L32 : Z := 105.
Definition RR_L64 : Z := 106.
Definition RR_LP : Z := 107.
Definition RR_EUI48 : Z := 108.
Definition RR_EUI64 : Z := 109.
Definition RR_TKEY : Z := 249.
Definition RR_TSIG : Z := 250.
Definition RR_IXFR : Z := 251.
Definition RR_AXFR : Z := 252.
Definition RR_MAILB : Z := 253.
Definition RR_MAILA : Z := 254.
Definition RR_ANY : Z := 255.
Definition RR_URI : Z := 256.
Definition RR_CAA : Z := 257.
Definition RR_AVC : Z := 258.
Definition RR_DOA : Z := 259.
Definition RR_AMTRELAY : Z := 260.
Definition RR_TA : Z := 32768.
Definition RR_DLV : Z := 32769.
Definition RR_PRIVATE : Z := 65280.
Definition RR_UNKNOWN : Z := 65535.

(** [enum edns0_type]: edns0 options. *)
Definition EDNS0RR_NSID : Z := 3.

(** [enum dns_class]: classes. *)
Definition CLASS_IN : Z := 1.
Definition CLASS_CS : Z := 2.
Definition CLASS_CH : Z := 3.
Definition CLASS_HS : Z := 4.
Definition CLASS_NONE : Z := 254.
Definition CLASS_ANY : Z := 255.
Definition CLASS_PRIVATE : Z := 65280.
Definition CLASS_UNKNOWN : Z := 65535.

(** [enum dns_op]: operations. *)
Definition OP_QUERY : Z := 0.
Definition OP_IQUERY : Z := 1.
Definition OP_STATUS : Z := 2.
Definition OP_NOTIFY : Z := 4.
Definition OP_UPDATE : Z := 5.
Definition OP_UNKNOWN : Z := 1.

(** [enum dns_rcode]: return codes. *)
Definition RCODE_OKAY : Z := 0.
Definition RCODE_FORMAT_ERROR : Z := 1.
Definition RCODE_SERVER_FAILURE : Z := 2.
Definition RCODE_NAME_ERROR : Z := 3.
Definition RCODE_NOT_IMPLEMENTED : Z := 4.
Definition RCODE_REFUSED : Z := 5.
Definition RCODE_YXDOMAIN : Z := 6.
Definition RCODE_YXRRSET : Z := 7.
Definition RCODE_NXRRSET : Z := 8.
Definition RCODE_NOTAUTH : Z := 9.
Definition RCODE_NOTZONE : Z := 10.
Definition RCODE_BADVERS : Z := 16.
Definition RCODE_BADSIG : Z := 16.
Definition RCODE_BADKEY : Z := 17.
Definition RCODE_BADTIME : Z := 18.
Definition RCODE_BADMODE : Z := 19.
Definition RCODE_BADNAME : Z := 20.
Definition RCODE_BADALG : Z := 21.
Definition RCODE_BADTRUC : Z := 22.
Definition RCODE_BADCOOKIE : Z := 23.
Definition RCODE_PRIVATE : Z := 3841.
Definition RCODE_NO_MEMORY : Z := 3842.
Definition RCODE_BAD_STRING : Z := 3843.

(** Upper limits of the protocol and of the codec. *)
Definition MAX_DOMAIN_LABEL : Z := 64.
Definition MAXSEG : Z := 100.
Definition UINT16_MAX : Z := 65535.
Definition LOC_BIAS : Z := 2 ^ 31.
Definition LOC_LAT_MAX : Z := 90 * 3600000.
Definition LOC_LNG_MAX : Z := 180 * 3600000.
Definition LOC_ALT_BIAS : Z := 10000000.
Definition HEADER : Z := 12.          (* sizeof(struct idns_header) *)

(** ** Data

    A [char *] field is an [option cstr]; a pointer to bytes with a length
    beside it is an [option mem], the object it points to. *)

Record dns_question_t := mkQuestion {
  q_name : option cstr; q_type : Z; q_class : Z }.

(** An angle of GPOS and LOC records; [nw] is the northern or western half. *)
Record dnsgpos_angle := mkAngle {
  deg : Z; min : Z; sec : Z; frac : Z; nw : bool }.

Record edns0_opt_t := mkOpt { o_code : Z; o_len : Z; o_data : mem }.

(** The members of [union dns_answer_t] the codec reads, after the fields of
    [dns_generic_t] they all begin with. *)
Inductive dns_rdata :=
| R_A (address : mem)
| R_AAAA (address : mem)
| R_SOA (mname rname : option cstr) (serial refresh retry expire minimum : Z)
| R_NAPTR (order preference : Z) (flags services regexp replacement : option cstr)
| R_SRV (priority weight port : Z) (target : option cstr)
| R_WKS (address : mem) (protocol numbits : Z) (bits : option mem)
| R_GPOS (longitude latitude : dnsgpos_angle) (altitude : spec_float)
| R_LOC (version size horiz_pre vert_pre : Z) (latitude longitude : dnsgpos_angle)
        (altitude : Z)
| R_OPT (udp_payload version : Z) (fdo : bool) (fug z : Z) (opts : list edns0_opt_t)
| R_MINFO (rmailbx emailbx : option cstr)
| R_MX (preference : Z) (exchange : option cstr)
| R_HINFO (cpu os : option cstr)
| R_TXT (len : Z) (text : option mem)
| R_CNAME (cname : option cstr)
| R_X (size : Z) (rawdata : option mem).

Record dns_answer_t := mkAnswer {
  a_name : option cstr; a_type : Z; a_class : Z; a_ttl : Z; a_data : dns_rdata }.

(** The sections hold as many entries as their counts say. *)
Record dns_query_t := mkQuery {
  dq_id : Z; dq_query : bool; dq_opcode : Z; dq_aa : bool; dq_tc : bool; dq_rd : bool;
  dq_ra : bool; dq_z : bool; dq_ad : bool; dq_cd : bool; dq_rcode : Z;
  questions : list dns_question_t; answers : list dns_answer_t;
  nameservers : list dns_answer_t; additional : list dns_answer_t }.
Definition qdcount (q : dns_query_t) : Z := zlen (questions q).
Definition ancount (q : dns_query_t) : Z := zlen (answers q).
Definition nscount (q : dns_query_t) : Z := zlen (nameservers q).
Definition arcount (q : dns_query_t) : Z := zlen (additional q).

(** A query with other return code, or other answers and direction. *)
Definition set_rcode (rc : Z) (q : dns_query_t) : dns_query_t :=
  mkQuery (dq_id q) (dq_query q) (dq_opcode q) (dq_aa q) (dq_tc q) (dq_rd q) (dq_ra q)
    (dq_z q) (dq_ad q) (dq_cd q) rc (questions q) (answers q) (nameservers q) (additional q).
Definition set_answers (ans : list dns_answer_t) (is_query : bool) (q : dns_query_t)
  : dns_query_t :=
  mkQuery (dq_id q) is_query (dq_opcode q) (dq_aa q) (dq_tc q) (dq_rd q) (dq_ra q)
    (dq_z q) (dq_ad q) (dq_cd q) (dq_rcode q) (questions q) ans (nameservers q) (additional q).

(** The bytes of a string up to its first NUL: what a [char *] to them shows. *)
Definition cstr_of (m : mem) : cstr := take_while (fun c => negb (is_nul c)) m.

(** Conversions between doubles and text depend on the locale. *)
Class FloatText := {
  printf_f : spec_float -> cstr;
  strtod : cstr -> option spec_float }.

(** ** The monad *)

Definition Codec (S A : Type) : Type := S -> outcome (S * (Z + A)).

#[global] Instance codec_ret {S} : MRet (Codec S) := fun A a s => Ok (s, inr a).
#[global] Instance codec_bind {S} : MBind (Codec S) := fun A B f m s =>
  match m s with
  | Ok (s', inr a) => f a s'
  | Ok (s', inl rc) => Ok (s', inl rc)
  | Fail e => Fail e
  end.

Definition cret {S A} (a : A) : Codec S A := fun s => Ok (s, inr a).
Definition code_ {S A} (rc : Z) : Codec S A := fun s => Ok (s, inl rc).
Definition cfault {S A} (f : fault) : Codec S A := fun s => Fail f.
Definition cget {S A} (f : S -> A) : Codec S A := fun s => Ok (s, inr (f s)).
Definition cmodify {S} (f : S -> S) : Codec S unit := fun s => Ok (f s, inr tt).
Definition clift {S A} (o : outcome A) : Codec S A := fun s =>
  match o with Ok a => Ok (s, inr a) | Fail f => Fail f end.
Definition cassert {S} (b : bool) : Codec S unit := fun s =>
  if b then Ok (s, inr tt) else Fail AssertFailed.
(** [if (b) return rc;] *)
Definition return_if {S} (b : bool) (rc : Z) : Codec S unit := fun s =>
  if b then Ok (s, inl rc) else Ok (s, inr tt).
(** [assert(p != NULL)], then a use of [*p]. *)
Definition cassert_ptr {S A} (p : option A) : Codec S A := fun s =>
  match p with Some a => Ok (s, inr a) | None => Fail AssertFailed end.

(** [size_t] arithmetic. *)
Definition wrap64 (z : Z) : Z := z mod 2 ^ 64.

Definition zltb (a b : Z) : bool := bool_decide (a < b).
Definition zleb (a b : Z) : bool := bool_decide (a <= b).

(** ** Lemmas: running the monad *)

Lemma codec_bind_ok {S A B} (m : Codec S A) (f : A -> Codec S B) s s' a :
  m s = Ok (s', inr a) -> (m ≫= f) s = f a s'.
Proof. intros E. unfold mbind, codec_bind. by rewrite E. Qed.

Lemma codec_bind_code {S A B} (m : Codec S A) (f : A -> Codec S B) s s' rc :
  m s = Ok (s', inl rc) -> (m ≫= f) s = Ok (s', inl rc).
Proof. intros E. unfold mbind, codec_bind. by rewrite E. Qed.

Lemma codec_bind_fail {S A B} (m : Codec S A) (f : A -> Codec S B) s e :
  m s = Fail e -> (m ≫= f) s = Fail e.
Proof. intros E. unfold mbind, codec_bind. by rewrite E. Qed.

Lemma cassert_ok {S} (b : bool) (s : S) : b = true -> cassert b s = Ok (s, inr tt).
Proof. by intros ->. Qed.

Lemma return_if_not {S} (b : bool) rc (s : S) : b = false -> return_if b rc s = Ok (s, inr tt).
Proof. by intros ->. Qed.

Lemma codec_bind_inv {S A B} (m : Codec S A) (f : A -> Codec S B) s s' b :
  (m ≫= f) s = Ok (s', inr b) ->
  exists a s1, m s = Ok (s1, inr a) /\ f a s1 = Ok (s', inr b).
Proof.
  unfold mbind, codec_bind. destruct (m s) as [[s1 [rc|a]]|]; [done| |done].
  intros H. by exists a, s1.
Qed.
