(* ===== verification/Mappings.v ===== *)
(** * Names of DNS constants (lib/dns/mappings.c)

    The tables that pair the values of the enumerations of [dns.h] with their
    names, and the binary searches in them. *)
From S2P Require Import Prelude CString Dns.

(** ** The tables

    [struct int_string_map] and [struct string_int_map] are both pairs of a
    value and a name; the first kind is sorted by value, the second (the
    tables whose name ends in [_is]) by name. The entry with a null name that
    closes [c_dns_rcode_enum] is never searched. *)

Definition cm_dns_rcode : list (Z * cstr) := [
  (RCODE_OKAY, $"No error"); (RCODE_FORMAT_ERROR, $"Format error");
  (RCODE_SERVER_FAILURE, $"Server failure"); (RCODE_NAME_ERROR, $"Non-existant domain");
  (RCODE_NOT_IMPLEMENTED, $"Not implemented"); (RCODE_REFUSED, $"Query refused");
  (RCODE_YXDOMAIN, $"Name exists when it should not");
  (RCODE_YXRRSET, $"RRset exists when it should not");
  (RCODE_NXRRSET, $"RRset does not exist"); (RCODE_NOTAUTH, $"Server not authoritative");
  (RCODE_NOTZONE, $"Zone not in zone section");
  (RCODE_BADVERS, $"Bad OPT version/TSIG failed"); (RCODE_BADKEY, $"Key not recognized");
  (RCODE_BADTIME, $"Signature out of time window"); (RCODE_BADMODE, $"Bad TKEY mode");
  (RCODE_BADNAME, $"Duplicate key name"); (RCODE_BADALG, $"Algorithm not supported");
  (RCODE_BADTRUC, $"Bad truncation"); (RCODE_BADCOOKIE, $"Bad/missing server cookie");
  (RCODE_NO_MEMORY, $"No memory"); (RCODE_BAD_STRING, $"Bad sring")].

Definition c_dns_rcode_enum : list (Z * cstr) := [
  (RCODE_OKAY, $"OKAY"); (RCODE_FORMAT_ERROR, $"FORMAT_ERROR");
  (RCODE_SERVER_FAILURE, $"SERVER_FAILURE"); (RCODE_NAME_ERROR, $"NAME_ERROR");
  (RCODE_NOT_IMPLEMENTED, $"NOT_IMPLEMENTED"); (RCODE_REFUSED, $"REFUSED");
  (RCODE_YXDOMAIN, $"YXDOMAIN"); (RCODE_YXRRSET, $"YXRRSET");
  (RCODE_NXRRSET, $"NXRRSET"); (RCODE_NOTAUTH, $"NOTAUTH"); (RCODE_NOTZONE, $"NOTZONE");
  (RCODE_BADVERS, $"BADVERS"); (RCODE_BADKEY, $"BADKEY"); (RCODE_BADTIME, $"BADTIME");
  (RCODE_BADMODE, $"BADMODE"); (RCODE_BADNAME, $"BADNAME"); (RCODE_BADALG, $"BADALG");
  (RCODE_BADTRUC, $"BADTRUNC"); (RCODE_BADCOOKIE, $"BADCOOKIE");
  (RCODE_NO_MEMORY, $"NO_MEMORY"); (RCODE_BAD_STRING, $"BAD_STRING")].

Definition cm_dns_rcode_is : list (Z * cstr) := [
  (RCODE_BADALG, $"BADALG"); (RCODE_BADCOOKIE, $"BADCOOKIE"); (RCODE_BADKEY, $"BADKEY");
  (RCODE_BADMODE, $"BADMODE"); (RCODE_BADNAME, $"BADNAME"); (RCODE_BADTIME, $"BADTIME");
  (RCODE_BADTRUC, $"BADTRUNC"); (RCODE_BADVERS, $"BADVERS");
  (RCODE_BAD_STRING, $"BAD_STRING"); (RCODE_FORMAT_ERROR, $"FORMAT_ERROR");
  (RCODE_NAME_ERROR, $"NAME_ERROR"); (RCODE_NOTAUTH, $"NOTAUTH");
  (RCODE_NOTZONE, $"NOTZONE"); (RCODE_NOT_IMPLEMENTED, $"NOT_IMPLEMENTED");
  (RCODE_NO_MEMORY, $"NO_MEMORY"); (RCODE_NXRRSET, $"NXRRSET"); (RCODE_OKAY, $"OKAY");
  (RCODE_REFUSED, $"REFUSED"); (RCODE_SERVER_FAILURE, $"SERVER_FAILURE");
  (RCODE_YXDOMAIN, $"YXDOMAIN"); (RCODE_YXRRSET, $"YXRRSET")].

Definition cm_dns_type : list (Z * cstr) := [
  (RR_A, $"A"); (RR_NS, $"NS"); (RR_MD, $"MD"); (RR_MF, $"MF"); (RR_CNAME, $"CNAME");
  (RR_SOA, $"SOA"); (RR_MB, $"MB"); (RR_MG, $"MG"); (RR_MR, $"MR"); (RR_NULL, $"NULL");
  (RR_WKS, $"WKS"); (RR_PTR, $"PTR"); (RR_HINFO, $"HINFO"); (RR_MINFO, $"MINFO");
  (RR_MX, $"MX"); (RR_TXT, $"TXT"); (RR_RP, $"RP"); (RR_AFSDB, $"AFSDB");
  (RR_X25, $"X25"); (RR_ISDN, $"ISDN"); (RR_RT, $"RT"); (RR_NSAP, $"NSAP");
  (RR_NSAP_PTR, $"NSAP-PTR"); (RR_SIG, $"SIG"); (RR_KEY, $"KEY"); (RR_PX, $"PX");
  (RR_GPOS, $"GPOS"); (RR_AAAA, $"AAAA"); (RR_LOC, $"LOC"); (RR_NXT, $"NXT");
  (RR_EID, $"EID"); (RR_NIMLOC, $"NIMLOC"); (RR_SRV, $"SRV"); (RR_ATMA, $"ATMA");
  (RR_NAPTR, $"NAPTR"); (RR_KX, $"KX"); (RR_CERT, $"CERT"); (RR_A6, $"A6");
  (RR_DNAME, $"DNAME"); (RR_SINK, $"SINK"); (RR_OPT, $"OPT"); (RR_APL, $"APL");
  (RR_DS, $"DS"); (RR_SSHFP, $"SSHFP"); (RR_ISECKEY, $"ISECKEY"); (RR_RRSIG, $"RRSIG");
  (RR_NSEC, $"NSEC"); (RR_DNSKEY, $"DNSKEY"); (RR_DHCID, $"DHCID"); (RR_NSEC3, $"NSEC3");
  (RR_NSEC3PARAM, $"NSEC3PARAM"); (RR_TLSA, $"TLSA"); (RR_SMIMEA, $"SMIMEA");
  (RR_HIP, $"HIP"); (RR_NINFO, $"NINFO"); (RR_RKEY, $"RKEY"); (RR_TALINK, $"TALINK");
  (RR_CDS, $"CDS"); (RR_CDNSKEY, $"CDNSKEY"); (RR_OPENPGPKEY, $"OPENPGPKEY");
  (RR_CSYNC, $"CSYNC"); (RR_ZONEMD, $"ZONEMD"); (RR_HTTPS, $"HTTPS"); (RR_SPF, $"SPF");
  (RR_UINFO, $"UINFO"); (RR_UID, $"UID"); (RR_GID, $"GID"); (RR_UNSPEC, $"UNSPEC");
  (RR_NID, $"NID"); (RR_L32, $"L32"); (RR_L64, $"L64"); (RR_LP, $"LP");
  (RR_EUI48, $"EUI48"); (RR_EUI64, $"EUI64"); (RR_TKEY, $"TKEY"); (RR_TSIG, $"TSIG");
  (RR_IXFR, $"IXFR"); (RR_AXFR, $"AXFR"); (RR_MAILB, $"MAILB"); (RR_MAILA, $"MAILA");
  (RR_ANY, $"ANY"); (RR_URI, $"URI"); (RR_CAA, $"CAA"); (RR_AVC, $"AVC");
  (RR_DOA, $"DOA"); (RR_AMTRELAY, $"AMTRELAY"); (RR_TA, $"TA"); (RR_DLV, $"DLV");
  (RR_PRIVATE, $"PRIVATE"); (RR_UNKNOWN, $"UNKNOWN")].

Definition cm_dns_type_is : list (Z * cstr) := [
  (RR_A, $"A"); (RR_A6, $"A6"); (RR_AAAA, $"AAAA"); (RR_AFSDB, $"AFSDB");
  (RR_AMTRELAY, $"AMTRELAY"); (RR_ANY, $"ANY"); (RR_APL, $"APL"); (RR_ATMA, $"ATMA");
  (RR_AVC, $"AVC"); (RR_AXFR, $"AXFR"); (RR_CAA, $"CAA"); (RR_CDNSKEY, $"CDNSKEY");
  (RR_CDS, $"CDS"); (RR_CERT, $"CERT"); (RR_CNAME, $"CNAME"); (RR_CSYNC, $"CSYNC");
  (RR_DHCID, $"DHCID"); (RR_DLV, $"DLV"); (RR_DNAME, $"DNAME"); (RR_DNSKEY, $"DNSKEY");
  (RR_DOA, $"DOA"); (RR_DS, $"DS"); (RR_EID, $"EID"); (RR_EUI48, $"EUI48");
  (RR_EUI64, $"EUI64"); (RR_GID, $"GID"); (RR_GPOS, $"GPOS"); (RR_HINFO, $"HINFO");
  (RR_HIP, $"HIP"); (RR_HTTPS, $"HTTPS"); (RR_ISDN, $"ISDN"); (RR_ISECKEY, $"ISECKEY");
  (RR_IXFR, $"IXFR"); (RR_KEY, $"KEY"); (RR_KX, $"KX"); (RR_L32, $"L32");
  (RR_L64, $"L64"); (RR_LOC, $"LOC"); (RR_LP, $"LP"); (RR_MAILA, $"MAILA");
  (RR_MAILB, $"MAILB"); (RR_MB, $"MB"); (RR_MD, $"MD"); (RR_MF, $"MF"); (RR_MG, $"MG");
  (RR_MINFO, $"MINFO"); (RR_MR, $"MR"); (RR_MX, $"MX"); (RR_NAPTR, $"NAPTR");
  (RR_NID, $"NID"); (RR_NIMLOC, $"NIMLOC"); (RR_NINFO, $"NINFO"); (RR_NS, $"NS");
  (RR_NSAP, $"NSAP"); (RR_NSAP_PTR, $"NSAP-PTR"); (RR_NSEC, $"NSEC");
  (RR_NSEC3, $"NSEC3"); (RR_NSEC3PARAM, $"NSEC3PARAM"); (RR_NULL, $"NULL");
  (RR_NXT, $"NXT"); (RR_OPENPGPKEY, $"OPENPGPKEY"); (RR_OPT, $"OPT");
  (RR_PRIVATE, $"PRIVATE"); (RR_PTR, $"PTR"); (RR_PX, $"PX"); (RR_RKEY, $"RKEY");
  (RR_RP, $"RP"); (RR_RRSIG, $"RRSIG"); (RR_RT, $"RT"); (RR_SIG, $"SIG");
  (RR_SINK, $"SINK"); (RR_SMIMEA, $"SMIMEA"); (RR_SOA, $"SOA"); (RR_SPF, $"SPF");
  (RR_SRV, $"SRV"); (RR_SSHFP, $"SSHFP"); (RR_TA, $"TA"); (RR_TALINK, $"TALINK");
  (RR_TKEY, $"TKEY"); (RR_TLSA, $"TLSA"); (RR_TSIG, $"TSIG"); (RR_TXT, $"TXT");
  (RR_UID, $"UID"); (RR_UINFO, $"UINFO"); (RR_UNKNOWN, $"UNKNOWN");
  (RR_UNSPEC, $"UNSPEC"); (RR_URI, $"URI"); (RR_WKS, $"WKS"); (RR_X25, $"X25");
  (RR_ZONEMD, $"ZONEMD")].

Definition cm_dns_class : list (Z * cstr) := [
  (CLASS_IN, $"IN"); (CLASS_CS, $"CS"); (CLASS_CH, $"CH"); (CLASS_HS, $"HS");
  (CLASS_NONE, $"NONE"); (CLASS_ANY, $"ANY"); (CLASS_PRIVATE, $"PRIVATE");
  (CLASS_UNKNOWN, $"UNKNOWN")].

Definition cm_dns_class_is : list (Z * cstr) := [
  (CLASS_ANY, $"ANY"); (CLASS_CH, $"CH"); (CLASS_CS, $"CS"); (CLASS_HS, $"HS");
  (CLASS_IN, $"IN"); (CLASS_NONE, $"NONE"); (CLASS_PRIVATE, $"PRIVATE");
  (CLASS_UNKNOWN, $"UNKNOWN")].

Definition cm_dns_op : list (Z * cstr) := [
  (OP_QUERY, $"QUERY"); (OP_UNKNOWN, $"UKNOWN"); (OP_STATUS, $"STATUS");
  (OP_NOTIFY, $"NOTIFY"); (OP_UPDATE, $"UPDATE")].

Definition cm_dns_op_is : list (Z * cstr) := [
  (OP_NOTIFY, $"NOTIFY"); (OP_QUERY, $"QUERY"); (OP_STATUS, $"STATUS");
  (OP_UNKNOWN, $"UNKNOWN"); (OP_UPDATE, $"UPDATE")].

(** ** Searching *)

(** [strcmp]: the sign of the first difference between two strings. *)
Fixpoint strcmp (a b : cstr) : Z :=
  match a, b with
  | [], [] => 0
  | [], y :: _ => - code y
  | x :: _, [] => code x
  | x :: a', y :: b' => if code x =? code y then strcmp a' b' else code x - code y
  end.

(** [bsearch] between the indices [l] and [u]. *)
Fixpoint bsearch {A} (k : nat) (cmp : A -> Z) (tab : list A) (l u : nat) : option A :=
  match k with
  | O => None
  | S k' =>
      if bool_decide (l < u)%nat then
        let idx := Nat.div2 (l + u) in
        match tab !! idx with
        | None => None
        | Some x =>
            if zltb (cmp x) 0 then bsearch k' cmp tab l idx
            else if zltb 0 (cmp x) then bsearch k' cmp tab (S idx) u
            else Some x
        end
      else None
  end.

Definition intstr_cmp (needle : Z) (row : Z * cstr) : Z := needle - row.1.
Definition strint_cmp (needle : cstr) (row : Z * cstr) : Z := strcmp needle row.2.

Definition itosdef (v : Z) (pitab : list (Z * cstr)) (def : cstr) : outcome cstr :=
  if negb (zleb 0 v) then Fail AssertFailed
  else
    match bsearch (S (length pitab)) (intstr_cmp v) pitab 0 (length pitab) with
    | Some row => Ok row.2
    | None => Ok def
    end.

(** The buffer keeps 15 characters of the tag. *)
Definition stoidef (tag : cstr) (pstab : list (Z * cstr)) (def : Z) : Z :=
  let buffer := toupper <$> take 15 tag in
  match bsearch (S (length pstab)) (strint_cmp buffer) pstab 0 (length pstab) with
  | Some row => row.1
  | None => def
  end.

Definition dns_rcode_enum (r : Z) : outcome cstr := itosdef r c_dns_rcode_enum $"X-UNKN".
Definition dns_rcode_text (r : Z) : outcome cstr := itosdef r cm_dns_rcode $"Unknown error".
Definition dns_type_text (t : Z) : outcome cstr := itosdef t cm_dns_type $"X-UNKN".
Definition dns_class_text (c : Z) : outcome cstr := itosdef c cm_dns_class $"X-UNKN".
Definition dns_op_text (o : Z) : outcome cstr := itosdef o cm_dns_op $"X-UNKNOWN".
Definition dns_rcode_value (tag : cstr) : Z :=
  stoidef tag cm_dns_rcode_is RCODE_NOT_IMPLEMENTED.
Definition dns_type_value (tag : cstr) : Z := stoidef tag cm_dns_type_is RR_UNKNOWN.
Definition dns_class_value (tag : cstr) : Z := stoidef tag cm_dns_class_is CLASS_UNKNOWN.
Definition dns_op_value (tag : cstr) : Z := stoidef tag cm_dns_op_is OP_UNKNOWN.

(** ** Lemmas: binary search *)

(** The entries before a match compare greater, those after it smaller. *)
Definition searchable {A} (cmp : A -> Z) (tab : list A) : Prop :=
  forall i j x y, (i < j)%nat -> tab !! i = Some x -> tab !! j = Some y ->
    cmp x <= 0 -> cmp y < 0.

Lemma bsearch_sound {A} k (cmp : A -> Z) tab l u x :
  bsearch k cmp tab l u = Some x -> x ∈ tab /\ cmp x = 0.
Proof.
  revert l u. induction k as [|k IH]; intros l u; cbn [bsearch]; [done|].
  case_bool_decide; [|done]. destruct (tab !! _) as [y|] eqn:Ey; [|done].
  unfold zltb. case_bool_decide; [apply IH|]. case_bool_decide; [apply IH|].
  intros [= <-]. split; [by eapply list_elem_of_lookup_2|lia].
Qed.

Lemma bsearch_complete {A} k (cmp : A -> Z) tab l u i x :
  searchable cmp tab -> tab !! i = Some x -> cmp x = 0 ->
  (l <= i < u)%nat -> (u <= length tab)%nat -> (u - l < k)%nat ->
  bsearch k cmp tab l u = Some x.
Proof.
  intros Hs Hi Hx. revert l u. induction k as [|k IH]; intros l u Hl Hu Hk; [lia|].
  cbn [bsearch]. rewrite bool_decide_true by lia.
  set (idx := Nat.div2 (l + u)).
  assert (Hidx : (l <= idx < u)%nat).
  { unfold idx. rewrite Nat.div2_div.
    split; [apply Nat.div_le_lower_bound|apply Nat.Div0.div_lt_upper_bound]; lia. }
  destruct (lookup_lt_is_Some_2 tab idx) as [y Ey]; [lia|]. rewrite Ey.
  unfold zltb. destruct (Nat.lt_total i idx) as [Hlt|[->|Hgt]].
  - pose proof (Hs i idx x y Hlt Hi Ey). rewrite bool_decide_true by lia. apply IH; lia.
  - assert (x = y) as -> by congruence. by rewrite !bool_decide_false by lia.
  - assert (0 < cmp y).
    { destruct (decide (cmp y <= 0)) as [H|]; [|lia]. pose proof (Hs idx i y x Hgt Ey Hi H). lia. }
    rewrite bool_decide_false, bool_decide_true by lia. apply IH; lia.
Qed.

(** ** Lemmas: ordered tables *)

Fixpoint sortedb {A} (lt : A -> A -> bool) (tab : list A) : bool :=
  match tab with
  | x :: (y :: _) as r => lt x y && sortedb lt r
  | _ => true
  end.

Lemma sortedb_lookup {A} (lt : A -> A -> bool) tab i j x y :
  (forall a b c, lt a b = true -> lt b c = true -> lt a c = true) ->
  sortedb lt tab = true -> (i < j)%nat -> tab !! i = Some x -> tab !! j = Some y ->
  lt x y = true.
Proof.
  intros Ht. revert i j x. induction tab as [|a tab IH]; [done|].
  intros i j x Hs Hij Hi Hj. destruct j as [|j]; [lia|]. cbn in Hj.
  destruct tab as [|b tab]; [done|]. cbn [sortedb] in Hs.
  apply andb_true_iff in Hs as [Hab Hs].
  destruct i as [|i]; cbn in Hi.
  - injection Hi as ->. destruct j as [|j]; cbn in Hj; [by injection Hj as <-|].
    eapply Ht; [exact Hab|]. eapply (IH O (S j)); [done|lia|done|done].
  - eapply IH; [done| |done|done]. lia.
Qed.

Lemma strcmp_eq_0 a b : no_nul a -> no_nul b -> strcmp a b = 0 <-> a = b.
Proof.
  revert b. induction a as [|x a IH]; intros [|y b] Ha Hb; cbn; [done|..].
  - apply no_nul_cons in Hb as [Hy _]. rewrite code_nul in Hy. split; [lia|done].
  - apply no_nul_cons in Ha as [Hx _]. rewrite code_nul in Hx. split; [lia|done].
  - apply no_nul_cons in Ha as [_ Ha]. apply no_nul_cons in Hb as [_ Hb].
    destruct (Z.eqb_spec (code x) (code y)) as [E|E].
    + rewrite IH by done. apply code_inj in E as ->. split; [by intros ->|by intros [= ->]].
    + split; [lia|]. intros [= -> ->]. done.
Qed.

Lemma strcmp_trans a b c :
  no_nul a -> no_nul b -> no_nul c -> strcmp a b <= 0 -> strcmp b c < 0 -> strcmp a c < 0.
Proof.
  revert b c. induction a as [|x a IH]; intros [|y b] [|z c] Ha Hb Hc; cbn; try lia;
    rewrite ?no_nul_cons in *; repeat match goal with H : _ /\ _ |- _ => destruct H end;
    rewrite ?code_nul in *;
    try pose proof (code_bound x); try pose proof (code_bound y); try pose proof (code_bound z);
    repeat case (Z.eqb_spec _ _); intros; try lia.
  exact (IH b c H4 H2 H0 H8 H9).
Qed.

Definition row_no_nulb (row : Z * cstr) : bool := forallb (fun c => negb (is_nul c)) row.2.
Lemma row_no_nul_ok row : row_no_nulb row = true -> no_nul row.2.
Proof.
  unfold row_no_nulb, no_nul. rewrite forallb_forall, Forall_forall.
  intros H x Hx%list_elem_of_In ->. by specialize (H _ Hx).
Qed.

(** A table sorted by value, and one sorted by name. *)
Definition by_value (tab : list (Z * cstr)) : bool := sortedb (fun a b => zltb a.1 b.1) tab.
Definition by_name (tab : list (Z * cstr)) : bool :=
  sortedb (fun a b => row_no_nulb a && row_no_nulb b && zltb (strcmp a.2 b.2) 0) tab &&
  forallb row_no_nulb tab.

Lemma searchable_value v tab : by_value tab = true -> searchable (intstr_cmp v) tab.
Proof.
  intros Hs i j x y Hij Hi Hj. unfold intstr_cmp.
  assert (H : zltb x.1 y.1 = true).
  { eapply (sortedb_lookup (fun a b => zltb a.1 b.1)); [|exact Hs|..]; try done.
    intros a b c. unfold zltb. rewrite !bool_decide_eq_true. lia. }
  unfold zltb in H. apply bool_decide_eq_true in H. lia.
Qed.

Lemma searchable_name tag tab : no_nul tag -> by_name tab = true -> searchable (strint_cmp tag) tab.
Proof.
  intros Ht [Hs _]%andb_true_iff i j x y Hij Hi Hj. unfold strint_cmp.
  assert (H : row_no_nulb x && row_no_nulb y && zltb (strcmp x.2 y.2) 0 = true).
  { eapply (sortedb_lookup (fun a b => row_no_nulb a && row_no_nulb b && zltb (strcmp a.2 b.2) 0));
      [|exact Hs|..]; try done.
    intros a b c. unfold zltb. rewrite !andb_true_iff, !bool_decide_eq_true.
    intros [[Ha Hb] Hab] [[_ Hc] Hbc]. split_and!; try done.
    apply (strcmp_trans a.2 b.2); auto using row_no_nul_ok. lia. }
  unfold zltb in H. rewrite !andb_true_iff, bool_decide_eq_true in H.
  destruct H as [[Hx Hy] Hxy]. intros Hle.
  apply (strcmp_trans tag x.2); auto using row_no_nul_ok.
Qed.

(** ** What the searches give *)

(** Rows of a table decide the result, the default answers the rest. *)
Lemma itosdef_spec v tab def : by_value tab = true -> 0 <= v ->
  exists t, itosdef v tab def = Ok t /\
    ((v, t) ∈ tab \/ (forall t', (v, t') ∉ tab) /\ t = def).
Proof.
  intros Hs Hv. unfold itosdef, zleb. rewrite bool_decide_true by done. cbn [negb].
  destruct (bsearch _ _ _ _ _) as [[v' t]|] eqn:E; eexists; split; try done.
  - left. apply bsearch_sound in E as [Hin Hc]. unfold intstr_cmp in Hc. cbn in Hc |- *.
    by replace v with v' by lia.
  - right. split; [|done]. intros t' (i & Hi)%list_elem_of_lookup.
    erewrite (bsearch_complete _ _ _ _ _ i) in E; [done| |exact Hi|..].
    + by apply searchable_value.
    + unfold intstr_cmp. cbn. lia.
    + apply lookup_lt_Some in Hi. lia.
    + lia.
    + lia.
Qed.

Lemma toupper_nul c : toupper c = nul -> c = nul.
Proof.
  unfold toupper. case_bool_decide as H; [|done]. intros E%(f_equal code).
  rewrite code_chr in E by lia. change (code nul) with 0 in E. lia.
Qed.

Lemma no_nul_toupper n tag : no_nul tag -> no_nul (toupper <$> take n tag).
Proof.
  intros H. apply Forall_fmap, Forall_take. eapply Forall_impl; [exact H|].
  cbn. intros c Hc ?. by apply Hc, toupper_nul.
Qed.

Lemma stoidef_spec tag tab def : by_name tab = true -> no_nul tag ->
  (stoidef tag tab def, toupper <$> take 15 tag) ∈ tab \/
  (forall v, (v, toupper <$> take 15 tag) ∉ tab) /\ stoidef tag tab def = def.
Proof.
  intros Hs Ht. unfold stoidef. pose proof (no_nul_toupper 15 tag Ht) as Hb.
  revert Hb. generalize (toupper <$> take 15 tag). intros buf Hb.
  pose proof Hs as [_ Hnul]%andb_true_iff. rewrite forallb_forall in Hnul.
  destruct (bsearch _ _ _ _ _) as [[v t]|] eqn:E.
  - left. apply bsearch_sound in E as [Hin Hc]. unfold strint_cmp in Hc. cbn in Hc |- *.
    apply strcmp_eq_0 in Hc as ->; [done|done|].
    by apply (row_no_nul_ok (v, t)), Hnul, list_elem_of_In.
  - right. split; [|done]. intros v (i & Hi)%list_elem_of_lookup.
    erewrite (bsearch_complete _ _ _ _ _ i) in E; [done| |exact Hi|..].
    + by apply searchable_name.
    + unfold strint_cmp. cbn. by apply strcmp_eq_0.
    + apply lookup_lt_Some in Hi. lia.
    + lia.
    + lia.
Qed.

Lemma tables_by_value : Forall (fun t => by_value t = true)
  [cm_dns_rcode; c_dns_rcode_enum; cm_dns_type; cm_dns_class; cm_dns_op].
Proof. repeat constructor; by vm_compute. Qed.
Lemma tables_by_name : Forall (fun t => by_name t = true)
  [cm_dns_rcode_is; cm_dns_type_is; cm_dns_class_is; cm_dns_op_is].
Proof. repeat constructor; by vm_compute. Qed.

(** Every name of a value in one table leads back to it in the other. *)
Definition leads_back (value : cstr -> Z) (tab : list (Z * cstr)) : bool :=
  forallb (fun row => value row.2 =? row.1) tab.

(** C38: Names and values of DNS record types correspond. [dns_type_text] gives
    the table's name of a type, or "X-UNKN" for a type without one;
    [dns_type_value] reads a name back, in either case of letters, and gives
    [RR_UNKNOWN] exactly when the table has no such name; and reading the name
    of a named type gives the type. The binary searches miss no entry. *)
Theorem dns_type_names_correct t tag : 0 <= t -> no_nul tag ->
  (exists s, dns_type_text t = Ok s /\
     ((t, s) ∈ cm_dns_type /\ dns_type_value s = t \/
      (forall s', (t, s') ∉ cm_dns_type) /\ s = $"X-UNKN")) /\
  ((dns_type_value tag, toupper <$> take 15 tag) ∈ cm_dns_type_is \/
   (forall v, (v, toupper <$> take 15 tag) ∉ cm_dns_type_is) /\ dns_type_value tag = RR_UNKNOWN).
Proof.
  intros Ht Htag. split.
  - destruct (itosdef_spec t cm_dns_type $"X-UNKN") as (s & Hs & Hr); [by vm_compute|done|].
    exists s. split; [done|]. destruct Hr as [Hin|?]; [left|by right]. split; [done|].
    assert (Hb : leads_back dns_type_value cm_dns_type = true) by by vm_compute.
    unfold leads_back in Hb. rewrite forallb_forall in Hb.
    specialize (Hb (t, s) (proj1 (list_elem_of_In _ _) Hin)). by apply Z.eqb_eq in Hb.
  - apply stoidef_spec; [by vm_compute|done].
Qed.
Lemma dns_type_names_correct_witness :
  (exists s, dns_type_text 16 = Ok s /\
     ((16, s) ∈ cm_dns_type /\ dns_type_value s = 16 \/
      (forall s', (16, s') ∉ cm_dns_type) /\ s = $"X-UNKN")) /\
  ((dns_type_value $"txt", toupper <$> take 15 $"txt") ∈ cm_dns_type_is \/
   (forall v, (v, toupper <$> take 15 $"txt") ∉ cm_dns_type_is) /\
   dns_type_value $"txt" = RR_UNKNOWN) /\
  dns_type_value $"txt" = RR_TXT.
Proof.
  enough (H : _ /\ _) by (destruct H as [H1 H2]; split; [exact H1|split; [exact H2|by vm_compute]]).
  apply (dns_type_names_correct 16 $"txt"); [lia|no_nul].
Defined.
