(* ===== verification/DnsEncode.v ===== *)
(** * Encoding DNS packets (lib/dns/codec.c, lines 156-1042)

    [dns_encode] writes a query into a zeroed buffer. The state of the encoder
    ([edns_context]) holds the bytes written so far, from the start of the
    buffer, the size the code believes is left, the extent of the buffer, and
    the table of the domain suffixes written so far, with their offsets. *)
From Stdlib Require Import SpecFloat.
From S2P Require Import Prelude CString Dns.

Record edns_context := mkE {
  e_out : mem;                       (* base .. packet.ptr *)
  e_size : Z;                        (* packet.size *)
  e_cap : Z;                         (* the extent of the buffer *)
  e_segs : list (cstr * Z);          (* segments *)
  e_edns : bool;
  e_rcode : Z }.

Definition set_out (o : mem) (s : edns_context) : edns_context :=
  mkE o (e_size s) (e_cap s) (e_segs s) (e_edns s) (e_rcode s).
Definition set_size (n : Z) (s : edns_context) : edns_context :=
  mkE (e_out s) n (e_cap s) (e_segs s) (e_edns s) (e_rcode s).
Definition add_seg (name : cstr) (off : Z) (s : edns_context) : edns_context :=
  mkE (e_out s) (e_size s) (e_cap s) (e_segs s ++ [(name, off)]) (e_edns s) (e_rcode s).
Definition set_edns (b : bool) (s : edns_context) : edns_context :=
  mkE (e_out s) (e_size s) (e_cap s) (e_segs s) b (e_rcode s).

Abbreviation E := (Codec edns_context).

(** ** Writing *)

(** [*packet.ptr++ = ...] for each byte, within the buffer. *)
Definition emit (bs : mem) : E unit := fun s =>
  if zleb (zlen (e_out s) + zlen bs) (e_cap s)
  then Ok (set_out (e_out s ++ bs) s, inr tt) else Fail BufOverflow.
(** [packet.size -= n] *)
Definition shrink (n : Z) : E unit := cmodify (fun s => set_size (wrap64 (e_size s - n)) s).
(** [assert(econtext_okay(data))], [assert(pblock_okay(parse))] *)
Definition econtext_okay : E unit := n ← cget e_size; cassert (zltb 0 n).
(** [if (packet.size < n) return RCODE_NO_MEMORY;] *)
Definition need (n : Z) : E unit := sz ← cget e_size; return_if (zltb sz n) RCODE_NO_MEMORY.

Definition u8 (z : Z) : char := chr (Z.land z 255).
Definition be16 (v : Z) : mem := [u8 (Z.shiftr v 8); u8 v].
Definition be32 (v : Z) : mem :=
  [u8 (Z.shiftr v 24); u8 (Z.shiftr v 16); u8 (Z.shiftr v 8); u8 v].

Definition write_uint16 (v : Z) : E unit :=
  sz ← cget e_size;
  cassert (zltb 0 sz);; cassert (zleb 2 sz);;
  emit (be16 v);; shrink 2.
Definition write_uint32 (v : Z) : E unit :=
  sz ← cget e_size;
  cassert (zltb 0 sz);; cassert (zleb 4 sz);;
  emit (be32 v);; shrink 4.

(** [memcpy(packet.ptr, m, n)] from an object, with the size adjusted. *)
Definition copy_bytes (m : mem) (n : Z) : E unit :=
  (if zleb n (zlen m) then cret tt else cfault OutOfBounds);;
  emit (take (Z.to_nat n) m);; shrink n.

(** ** Domain names *)

Fixpoint segment_find (src : cstr) (seg : list (cstr * Z)) : option Z :=
  match seg with
  | [] => None
  | (name, offset) :: r => if strcmp_eq src name then Some offset else segment_find src r
  end.

(** The first label of a name; gives the offset it is written at and the rest
    of the name after the dot. *)
Definition encode_segment (src : cstr) : E (Z * cstr) :=
  match strchr src "."%char with
  | None => code_ RCODE_NAME_ERROR
  | Some len =>
      return_if (zleb MAX_DOMAIN_LABEL (Z.of_nat len)) RCODE_NAME_ERROR;;
      need (Z.of_nat len + 1);;
      out ← cget e_out;
      emit (u8 (Z.of_nat len) :: take len src);;
      shrink (Z.of_nat len + 1);;
      cret (zlen out, drop (S len) src)
  end.

Fixpoint encode_labels (k : nat) (name : cstr) : E unit :=
  let finish := need 1;; emit [nul];; shrink 1 in
  match k with
  | O => cfault NoFuel
  | S k' =>
      match name with
      | [] => finish
      | c :: _ =>
          if bool_decide (c = "."%char) then finish
          else
            segs ← cget e_segs;
            match segment_find name segs with
            | None =>
                return_if (bool_decide (zlen segs = MAXSEG)) RCODE_NO_MEMORY;;
                '(offset, rest) ← encode_segment name;
                cmodify (add_seg name offset);;
                encode_labels k' rest
            | Some offset =>
                need 2;;
                emit [chr (Z.lor (Z.land (Z.shiftr offset 8) 255) 192); u8 offset];;
                shrink 2
            end
      end
  end.

(** Each round drops a label and its dot. *)
Definition encode_domain (name : option cstr) : E unit :=
  econtext_okay;;
  name ← cassert_ptr name;
  encode_labels (S (length name)) name.

Definition encode_string (text : option mem) (size : Z) : E unit :=
  econtext_okay;;
  text ← cassert_ptr text;
  return_if (zltb 255 size) RCODE_BAD_STRING;;
  need (size + 1);;
  (if zleb size (zlen text) then cret tt else cfault OutOfBounds);;
  emit (u8 size :: take (Z.to_nat size) text);;
  shrink (size + 1).

(** ** Questions *)

Definition encode_question (q : dns_question_t) : E unit :=
  econtext_okay;;
  _ ← cassert_ptr (q_name q);
  cassert (negb (q_type q =? RR_OPT));;
  cassert (zleb 1 (q_class q));;
  cassert (zleb (q_class q) 4);;
  encode_domain (q_name q);;
  need 4;;
  write_uint16 (q_type q);;
  write_uint16 (q_class q).

(** ** Resource records *)

Definition encode_rr_a (address : mem) : E unit :=
  econtext_okay;; need 4;; copy_bytes address 4.

Definition encode_rr_soa (mname rname : option cstr)
    (serial refresh retry expire minimum : Z) : E unit :=
  econtext_okay;;
  _ ← cassert_ptr mname; _ ← cassert_ptr rname;
  encode_domain mname;;
  encode_domain rname;;
  need 20;;
  write_uint32 serial;; write_uint32 refresh;; write_uint32 retry;;
  write_uint32 expire;; write_uint32 minimum.

Definition encode_rr_aaaa (address : mem) : E unit :=
  econtext_okay;; need 16;; copy_bytes address 16.

Definition encode_rr_srv (priority weight port : Z) (target : option cstr) : E unit :=
  econtext_okay;;
  cassert (zleb priority UINT16_MAX);; cassert (zleb weight UINT16_MAX);;
  cassert (zleb port UINT16_MAX);;
  _ ← cassert_ptr target;
  need 7;;
  write_uint16 priority;; write_uint16 weight;; write_uint16 port;;
  encode_domain target.

Definition encode_rr_wks (address : mem) (protocol numbits : Z) (bits : option mem) : E unit :=
  econtext_okay;;
  cassert (zleb protocol UINT16_MAX);; cassert (zleb numbits 8192);;
  bits ← cassert_ptr bits;
  need (numbits + 6);;
  copy_bytes address 4;;
  write_uint16 protocol;;
  copy_bytes bits numbits.

(** An angle in degrees, as a double. *)
Definition d_ofZ (z : Z) : spec_float := binary_normalize 53 1024 z 0 false.
Definition d_add := SFadd 53 1024.
Definition d_mul := SFmul 53 1024.
Definition d_div := SFdiv 53 1024.
Definition gpos_angle (a : dnsgpos_angle) : spec_float :=
  d_add (d_add (d_add (d_ofZ (deg a)) (d_div (d_ofZ (min a)) (d_ofZ 60)))
               (d_div (d_ofZ (sec a)) (d_ofZ 3600)))
        (d_div (d_ofZ (frac a)) (d_ofZ 3600000)).

(** [snprintf(text, 12, "%f", v)] and the length it returns, which is that of
    the whole text even when it does not fit. *)
Definition encode_double `{FloatText} (v : spec_float) : E unit :=
  let s := printf_f v in
  encode_string (Some (cmem (take 11 s))) (zlen s).

Definition encode_rr_gpos `{FloatText} (longitude latitude : dnsgpos_angle)
    (altitude : spec_float) : E unit :=
  econtext_okay;;
  cassert (zleb (deg longitude) 180);; cassert (zltb (min longitude) 60);;
  cassert (zltb (sec longitude) 60);; cassert (zltb (frac longitude) 1000);;
  cassert (zleb (deg latitude) 90);; cassert (zltb (min latitude) 60);;
  cassert (zltb (sec latitude) 60);; cassert (zltb (frac latitude) 1000);;
  let lat := gpos_angle latitude in
  let lat := if nw latitude then lat else SFopp lat in
  let lng := gpos_angle longitude in
  let lng := if nw longitude then SFopp lng else lng in
  encode_double lng;;
  encode_double lat;;
  encode_double altitude.

(** The decimal mantissa and exponent of a size: the decimal logarithm of an
    integer below 2^53 is one less than the number of its digits. *)
Definition eloc_scale (scale def : Z) : E Z :=
  let scale := if scale =? 0 then def else scale in
  let ip := zlen (dec_nat scale) - 1 in
  let smul := scale / 10 ^ ip in
  cassert (zleb 0 smul);; cassert (zleb smul 9);;
  cassert (zleb 0 ip);; cassert (zleb ip 9);;
  cret (Z.land (Z.lor (Z.shiftl smul 4) ip) 255).

Definition wrap_u32 (z : Z) : Z := z mod 2 ^ 32.
Definition loc_angle (a : dnsgpos_angle) : Z :=
  wrap_u32 (deg a * 3600000 + min a * 60000 + sec a * 1000 + frac a).

(** The first four bytes are written without being taken off the size. *)
Definition encode_rr_loc (size horiz_pre vert_pre : Z) (latitude longitude : dnsgpos_angle)
    (altitude : Z) : E unit :=
  econtext_okay;;
  cassert (zleb size 9000000000);; cassert (zleb horiz_pre 9000000000);;
  cassert (zleb vert_pre 9000000000);;
  cassert (zleb (deg latitude) 180);; cassert (zltb (min longitude) 60);;
  cassert (zltb (sec longitude) 60);; cassert (zltb (frac longitude) 1000);;
  cassert (zleb (deg latitude) 90);; cassert (zltb (min latitude) 60);;
  cassert (zltb (sec latitude) 60);; cassert (zltb (frac latitude) 1000);;
  need 16;;
  emit [nul];;
  s ← eloc_scale size 100; emit [chr s];;
  h ← eloc_scale horiz_pre 1000000; emit [chr h];;
  v ← eloc_scale vert_pre 1000; emit [chr v];;
  let v := loc_angle latitude in
  cassert (zleb v LOC_LAT_MAX);;
  write_uint32 (wrap_u32 (if nw latitude then v + LOC_BIAS else LOC_BIAS - v));;
  let v := loc_angle longitude in
  cassert (zleb v LOC_LNG_MAX);;
  write_uint32 (wrap_u32 (if negb (nw longitude) then v + LOC_BIAS else LOC_BIAS - v));;
  write_uint32 (wrap_u32 altitude + LOC_ALT_BIAS).

(** ** EDNS0 options *)

Definition hex_digit (z : Z) : char := chr (if zltb z 10 then 48 + z else 55 + z).
(** [sprintf("%02X")] *)
Definition hex_byte (c : char) : mem := [hex_digit (code c / 16); hex_digit (code c mod 16)].

Definition encode_edns0rr_nsid (opt : edns0_opt_t) : E unit :=
  econtext_okay;;
  cassert (o_code opt =? EDNS0RR_NSID);; cassert (zleb (o_len opt) UINT16_MAX);;
  let newlen := o_len opt * 2 in
  need (newlen + 2 + 2);;
  (if zleb (o_len opt) (zlen (o_data opt)) then cret tt else cfault OutOfBounds);;
  let buffer := take (Z.to_nat (o_len opt)) (o_data opt) ≫= hex_byte in
  write_uint16 (o_code opt);;
  write_uint16 newlen;;
  copy_bytes buffer newlen.

Definition encode_edns0rr_raw (opt : edns0_opt_t) : E unit :=
  econtext_okay;;
  cassert (zleb (o_code opt) UINT16_MAX);; cassert (zleb (o_len opt) UINT16_MAX);;
  need (o_len opt + 2 + 2);;
  write_uint16 (o_code opt);;
  write_uint16 (o_len opt);;
  copy_bytes (o_data opt) (o_len opt).

Fixpoint encode_opts (opts : list edns0_opt_t) : E unit :=
  match opts with
  | [] => cret tt
  | o :: rest =>
      (if o_code o =? EDNS0RR_NSID then encode_edns0rr_nsid o else encode_edns0rr_raw o);;
      encode_opts rest
  end.

Definition encode_rr_opt (class udp_payload version : Z) (opts : list edns0_opt_t) : E unit :=
  econtext_okay;;
  cassert (class =? udp_payload);; cassert (version =? 0);;
  cassert (zleb udp_payload UINT16_MAX);;
  edns ← cget e_edns;
  return_if edns RCODE_FORMAT_ERROR;;
  need 11;;
  cmodify (set_edns true);;
  encode_opts opts.

(** A [char *] handed over with [strlen] of it. *)
Definition encode_cstr (s : cstr) : E unit := encode_string (Some (cmem s)) (zlen s).

Definition encode_rr_naptr (type class order preference : Z)
    (flags services regexp replacement : option cstr) : E unit :=
  econtext_okay;;
  cassert (type =? RR_NAPTR);; cassert (class =? CLASS_IN);;
  cassert (zleb 0 order);; cassert (zleb order UINT16_MAX);;
  cassert (zleb 0 preference);; cassert (zleb preference UINT16_MAX);;
  flags ← cassert_ptr flags; services ← cassert_ptr services;
  regexp ← cassert_ptr regexp; _ ← cassert_ptr replacement;
  need 4;;
  write_uint16 order;; write_uint16 preference;;
  encode_cstr flags;; encode_cstr services;; encode_cstr regexp;;
  encode_domain replacement.

Definition encode_rr_minfo (rmailbx emailbx : option cstr) : E unit :=
  econtext_okay;;
  _ ← cassert_ptr rmailbx; _ ← cassert_ptr emailbx;
  encode_domain rmailbx;;
  encode_domain emailbx.

Definition encode_rr_mx (preference : Z) (exchange : option cstr) : E unit :=
  econtext_okay;;
  cassert (zleb preference UINT16_MAX);;
  _ ← cassert_ptr exchange;
  need 2;;
  write_uint16 preference;;
  encode_domain exchange.

Definition encode_rr_hinfo (cpu os : option cstr) : E unit :=
  econtext_okay;;
  cpu ← cassert_ptr cpu; os ← cassert_ptr os;
  encode_cstr cpu;;
  encode_cstr os.

(** Chunks of at most 255 bytes: [max] bytes are left, from [p] on. *)
Fixpoint encode_chunks (k : nat) (p : mem) (max : Z) : E unit :=
  if zleb max 0 then cret tt
  else match k with
  | O => cfault NoFuel
  | S k' =>
      let chunk := Z.min max 255 in
      encode_string (Some p) chunk;;
      encode_chunks k' (drop (Z.to_nat chunk) p) (max - chunk)
  end.
Definition encode_rr_txt (len : Z) (text : option mem) : E unit :=
  econtext_okay;;
  cassert (zltb 0 len);;
  text ← cassert_ptr text;
  encode_chunks (Z.to_nat len) text len.

Definition encode_rr_x (size : Z) (rawdata : option mem) : E unit :=
  econtext_okay;;
  rawdata ← cassert_ptr rawdata;
  need size;;
  copy_bytes rawdata size.

(** ** Answers *)

(** The types that share an encoding. *)
Definition is_minfo (t : Z) : bool := bool_decide (t ∈ [RR_PX; RR_RP; RR_MINFO]).
Definition is_mx (t : Z) : bool := bool_decide (t ∈ [RR_AFSDB; RR_RT; RR_MX]).
Definition is_hinfo (t : Z) : bool := bool_decide (t ∈ [RR_NSAP; RR_ISDN; RR_HINFO]).
Definition is_txt (t : Z) : bool := bool_decide (t ∈ [RR_X25; RR_SPF; RR_TXT]).
Definition is_domain (t : Z) : bool := bool_decide (t ∈
  [RR_NSAP_PTR; RR_MD; RR_MF; RR_MB; RR_MG; RR_MR; RR_NS; RR_PTR; RR_CNAME]).

(** The switch on the type of the record. *)
Definition encode_rdata `{FloatText} (type class : Z) (d : dns_rdata) : E unit :=
  if type =? RR_A then
    match d with R_A a => encode_rr_a a | _ => cfault WrongMember end
  else if type =? RR_SOA then
    match d with R_SOA m r se rf rt ex mi => encode_rr_soa m r se rf rt ex mi
    | _ => cfault WrongMember end
  else if type =? RR_NAPTR then
    match d with R_NAPTR o p f s r rp => encode_rr_naptr type class o p f s r rp
    | _ => cfault WrongMember end
  else if type =? RR_AAAA then
    match d with R_AAAA a => encode_rr_aaaa a | _ => cfault WrongMember end
  else if type =? RR_SRV then
    match d with R_SRV p w po t => encode_rr_srv p w po t | _ => cfault WrongMember end
  else if type =? RR_WKS then
    match d with R_WKS a p n b => encode_rr_wks a p n b | _ => cfault WrongMember end
  else if type =? RR_GPOS then
    match d with R_GPOS lo la al => encode_rr_gpos lo la al | _ => cfault WrongMember end
  else if type =? RR_LOC then
    match d with R_LOC _ s h v la lo al => encode_rr_loc s h v la lo al
    | _ => cfault WrongMember end
  else if type =? RR_OPT then
    match d with R_OPT u v _ _ _ opts => encode_rr_opt class u v opts
    | _ => cfault WrongMember end
  else if is_minfo type then
    match d with R_MINFO r e => encode_rr_minfo r e | _ => cfault WrongMember end
  else if is_mx type then
    match d with R_MX p e => encode_rr_mx p e | _ => cfault WrongMember end
  else if is_hinfo type then
    match d with R_HINFO c o => encode_rr_hinfo c o | _ => cfault WrongMember end
  else if is_txt type then
    match d with R_TXT l t => encode_rr_txt l t | _ => cfault WrongMember end
  else if is_domain type then
    match d with R_CNAME c => encode_domain c | _ => cfault WrongMember end
  else if type =? RR_NULL then
    match d with R_X s r => encode_rr_x s r | _ => cfault WrongMember end
  else code_ RCODE_NOT_IMPLEMENTED.

(** htons on a little-endian machine. *)
Definition htons16 (z : Z) : Z :=
  Z.lor (Z.shiftl (Z.land z 255) 8) (Z.land (Z.shiftr z 8) 255).

(** For an OPT record the class and TTL fields hold its payload size and its
    flags. *)
Definition opt_header (rcode : Z) (ans : dns_answer_t) : E (Z * Z) :=
  if a_type ans =? RR_OPT then
    match a_data ans with
    | R_OPT udp_payload version fdo _ z _ =>
        cret (udp_payload,
              Z.lor (Z.lor (Z.lor (Z.shiftl (Z.land (Z.shiftr rcode 4) 255) 24)
                                  (Z.shiftl (Z.land version 255) 16))
                           (Z.shiftl (if fdo then 128 else 0) 8))
                    (htons16 (Z.land z 65535)))
    | _ => cfault WrongMember
    end
  else cret (a_class ans, a_ttl ans).

(** [write_uint16] at an earlier place of the buffer. *)
Definition patch (pos : nat) (v : Z) : E unit := cmodify (fun s =>
  set_out (take pos (e_out s) ++ be16 v ++ drop (pos + 2) (e_out s)) s).

Definition encode_answer `{FloatText} (ans : dns_answer_t) : E unit :=
  econtext_okay;;
  encode_domain (a_name ans);;
  need 10;;
  rcode ← cget e_rcode;
  '(class, ttl) ← opt_header rcode ans;
  write_uint16 (a_type ans);;
  write_uint16 class;;
  write_uint32 ttl;;
  prdlen ← cget e_out;
  emit [nul; nul];; shrink 2;;
  encode_rdata (a_type ans) class (a_data ans);;
  out ← cget e_out;
  patch (length prdlen) (zlen out - (zlen prdlen + 2)).

(** ** Queries *)

Fixpoint encode_all {A} (encode : A -> E unit) (l : list A) : E unit :=
  match l with
  | [] => cret tt
  | x :: rest => encode x;; encode_all encode rest
  end.
Definition encode_questions (qs : list dns_question_t) : E unit := encode_all encode_question qs.
Definition encode_answers `{FloatText} (ans : list dns_answer_t) : E unit :=
  encode_all encode_answer ans.

Definition flag (b : bool) (v : Z) : Z := if b then v else 0.
Definition header_bytes (q : dns_query_t) : mem :=
  be16 (dq_id q) ++
  [chr (Z.lor (Z.shiftl (Z.land (dq_opcode q) 15) 3)
        (Z.lor (flag (negb (dq_query q)) 128) (Z.lor (flag (dq_aa q) 4)
        (Z.lor (flag (dq_tc q) 2) (flag (dq_rd q) 1)))));
   chr (Z.lor (Z.land (dq_rcode q) 15)
        (Z.lor (flag (dq_ra q) 128) (Z.lor (flag (dq_z q) 64)
        (Z.lor (flag (dq_ad q) 32) (flag (dq_cd q) 16)))))] ++
  be16 (qdcount q) ++ be16 (ancount q) ++ be16 (nscount q) ++ be16 (arcount q).

(** [query_okay] *)
Definition query_okay (q : dns_query_t) : E unit :=
  cassert (zleb 0 (dq_id q));; cassert (zleb (dq_id q) UINT16_MAX);;
  cassert (zleb (dq_opcode q) 5);; cassert (zleb (dq_rcode q) 15);;
  cassert (zleb (qdcount q) UINT16_MAX);; cassert (zleb (ancount q) UINT16_MAX);;
  cassert (zleb (nscount q) UINT16_MAX);; cassert (zleb (arcount q) UINT16_MAX).

Definition encode_sections `{FloatText} (q : dns_query_t) : E unit :=
  encode_questions (questions q);;
  encode_answers (answers q);;
  encode_answers (nameservers q);;
  edns ← cget e_edns;
  return_if edns RCODE_FORMAT_ERROR;;
  encode_answers (additional q).

(** The return code, the buffer ([plen] bytes) and the new value of [*plen],
    which is left alone when the code is not RCODE_OKAY. *)
Definition dns_encode `{FloatText} (plen : Z) (q : dns_query_t) : outcome (Z * mem * Z) :=
  let s := mkE (header_bytes q) (plen - HEADER) plen [] false (dq_rcode q) in
  let padded (s : edns_context) := e_out s ++ replicate (Z.to_nat (plen - zlen (e_out s))) nul in
  if negb (zleb HEADER plen) then Fail AssertFailed
  else
    '(_, _) ← query_okay q s;
    '(s', r) ← encode_sections q s;
    match r with
    | inl rc => Ok (rc, padded s', plen)
    | inr _ => Ok (RCODE_OKAY, padded s', zlen (e_out s'))
    end.
