(* ===== verification/DnsDecode.v ===== *)
(** * Decoding DNS packets (lib/dns/codec.c, lines 1044-2181)

    [dns_decode] reads a packet of [len] bytes out of a buffer and carves the
    response out of a pool ([dest]). The state of the decoder
    ([ddns_context]) holds the buffer, the read pointer with the size the code
    believes is left, and the free part of the pool. Strings are built as
    values; the pool only counts, with its alignment. Addresses are offsets:
    in the buffer for [parse], in the pool for [dest]. *)
From Stdlib Require Import SpecFloat.
From S2P Require Import Prelude CString Dns DnsEncode.

Record ddns_context := mkD {
  d_mem : mem; d_len : Z;            (* packet *)
  d_ptr : Z; d_size : Z;             (* parse *)
  d_dest : Z; d_free : Z; d_cap : Z; (* dest, and the extent of the pool *)
  d_edns : bool;
  d_rcode : Z }.                     (* response->rcode *)

Definition set_parse (p n : Z) (s : ddns_context) : ddns_context :=
  mkD (d_mem s) (d_len s) p n (d_dest s) (d_free s) (d_cap s) (d_edns s) (d_rcode s).
Definition set_dest (p n : Z) (s : ddns_context) : ddns_context :=
  mkD (d_mem s) (d_len s) (d_ptr s) (d_size s) p n (d_cap s) (d_edns s) (d_rcode s).
Definition set_d_edns (b : bool) (s : ddns_context) : ddns_context :=
  mkD (d_mem s) (d_len s) (d_ptr s) (d_size s) (d_dest s) (d_free s) (d_cap s) b (d_rcode s).
Definition set_d_rcode (rc : Z) (s : ddns_context) : ddns_context :=
  mkD (d_mem s) (d_len s) (d_ptr s) (d_size s) (d_dest s) (d_free s) (d_cap s) (d_edns s) rc.

Abbreviation D := (Codec ddns_context).

(** ** Memory *)

(** Sizes of the structures, on a 64-bit machine. *)
Definition MEM_ALIGN : Z := 8.
Definition sizeof_query : Z := 88.
Definition sizeof_question : Z := 16.
Definition sizeof_answer : Z := 96.
Definition sizeof_opt : Z := 24.

Definition rdn (m : mem) (off n : Z) : outcome mem :=
  if zleb 0 off && zleb 0 n && zleb (off + n) (zlen m)
  then Ok (take (Z.to_nat n) (drop (Z.to_nat off) m)) else Fail OutOfBounds.

(** The byte at an offset of the buffer, and [n] bytes. *)
Definition peek (p : Z) : D Z := s ← cget id; c ← clift (rd (d_mem s) p); cret (code c).
Definition peekn (p n : Z) : D mem := s ← cget id; clift (rdn (d_mem s) p n).
(** [parse.ptr += n; parse.size -= n] *)
Definition advance (n : Z) : D unit :=
  cmodify (fun s => set_parse (d_ptr s + n) (wrap64 (d_size s - n)) s).
(** [n] bytes are written at [dest.ptr], which moves past them. *)
Definition put (n : Z) : D unit := fun s =>
  if zleb (d_dest s + n) (d_cap s)
  then Ok (set_dest (d_dest s + n) (wrap64 (d_free s - n)) s, inr tt)
  else Fail BufOverflow.

Definition dcontext_okay : D unit :=
  s ← cget id;
  cassert (zltb 0 (d_len s));; cassert (zltb 0 (d_size s));; cassert (zltb 0 (d_free s)).

Definition align_memory : D bool :=
  size ← cget d_free;
  cassert (zltb 0 size);;
  if zltb size MEM_ALIGN then cret false
  else
    let newsize := Z.land size (2 ^ 64 - MEM_ALIGN) in
    if newsize =? size then cret true
    else
      cassert (zltb newsize size);;
      let delta := newsize + MEM_ALIGN - size in
      cassert (zltb delta size);;
      cmodify (fun s => set_dest (d_dest s + delta) (size - delta) s);;
      cret true.

(** [None] is the null pointer. *)
Definition alloc_struct (size : Z) : D (option Z) :=
  free ← cget d_free;
  cassert (zltb 0 free);;
  ok ← align_memory;
  free ← cget d_free;
  if negb ok || zltb free size then cret None
  else
    p ← cget d_dest;
    cmodify (fun s => set_dest (p + size) (free - size) s);;
    cret (Some p).

(** ** Reading *)

Definition of_be (m : mem) : Z := fold_left (fun v c => Z.lor (Z.shiftl v 8) (code c)) m 0.

Definition read_uint16 : D Z :=
  s ← cget id;
  cassert (zltb 0 (d_size s));; cassert (zleb 2 (d_size s));;
  m ← peekn (d_ptr s) 2;
  advance 2;;
  cret (of_be m).
Definition read_uint32 : D Z :=
  s ← cget id;
  cassert (zltb 0 (d_size s));; cassert (zleb 4 (d_size s));;
  m ← peekn (d_ptr s) 4;
  advance 4;;
  cret (of_be m).

Definition read_raw (len : Z) : D (option mem) :=
  dcontext_okay;;
  if zltb 0 len then
    s ← cget id;
    return_if (zltb (d_size s) len) RCODE_FORMAT_ERROR;;
    ok ← align_memory;
    return_if (negb ok) RCODE_NO_MEMORY;;
    free ← cget d_free;
    return_if (zltb free len) RCODE_NO_MEMORY;;
    m ← peekn (d_ptr s) len;
    put len;;
    advance len;;
    cret (Some m)
  else cret None.

Definition read_string : D (option cstr) :=
  dcontext_okay;;
  s ← cget id;
  len ← peek (d_ptr s);
  return_if (zltb (d_free s) (len + 1)) RCODE_NO_MEMORY;;
  return_if (zltb (d_size s) (len + 1)) RCODE_FORMAT_ERROR;;
  m ← peekn (d_ptr s + 1) len;
  advance (len + 1);;
  put (len + 1);;
  cret (Some (cstr_of m)).

(** The loop of read_domain: [p] and [size] are the block [*parse], which is
    the context's own one as long as [main] holds; [acc] is what the pool
    holds of the name. *)
Fixpoint read_labels (k : nat) (p size : Z) (main : bool) (loop : Z) (acc : mem) : D mem :=
  match k with
  | O => cfault NoFuel
  | S k' =>
      (* the test that closes the do-while loop *)
      let continue p size main loop acc :=
        b ← peek p;
        if b =? 0 then
          (if main : bool then cmodify (set_parse (p + 1) (wrap64 (size - 1))) else cret tt);;
          put 1;;
          cret acc
        else read_labels k' p size main loop acc in
      b ← peek p;
      if zltb b 64 then
        return_if (zltb size (b + 1)) RCODE_FORMAT_ERROR;;
        free ← cget d_free;
        return_if (zltb free (b + 1)) RCODE_NO_MEMORY;;
        label ← peekn (p + 1) b;
        put (b + 1);;
        let n := if b =? 0 then 0 else b + 1 in
        continue (p + n) (size - n) main loop (acc ++ label ++ ["."%char])
      else if zleb 192 b then
        return_if (loop + 1 =? 256) RCODE_FORMAT_ERROR;;
        return_if (zltb size 2) RCODE_FORMAT_ERROR;;
        m ← peekn p 2;
        (if main : bool then cmodify (set_parse (p + 2) (size - 2)) else cret tt);;
        let len := Z.land (of_be m) 16383 in
        plen ← cget d_len;
        return_if (zleb plen len) RCODE_FORMAT_ERROR;;
        continue len (plen - len) false (loop + 1) acc
      else code_ RCODE_FORMAT_ERROR
  end.

(** Each round takes room in the pool or follows one of at most 255
    pointers. *)
Definition read_domain : D (option cstr) :=
  dcontext_okay;;
  s ← cget id;
  acc ← read_labels (Z.to_nat (d_free s) + 258) (d_ptr s) (d_size s) true 0 [];
  cret (Some (cstr_of acc)).

(** ** Questions *)

Definition decode_question : D dns_question_t :=
  dcontext_okay;;
  name ← read_domain;
  size ← cget d_size;
  return_if (zltb size 4) RCODE_FORMAT_ERROR;;
  type ← read_uint16;
  class ← read_uint16;
  return_if (type =? RR_OPT) RCODE_FORMAT_ERROR;;
  cret (mkQuestion name type class).

(** ** Resource records; [len] is the RDLENGTH field *)

Definition decode_rr_soa (len : Z) : D dns_rdata :=
  dcontext_okay;;
  mname ← read_domain;
  rname ← read_domain;
  return_if (zltb len 20) RCODE_FORMAT_ERROR;;
  serial ← read_uint32; refresh ← read_uint32; retry ← read_uint32;
  expire ← read_uint32; minimum ← read_uint32;
  cret (R_SOA mname rname serial refresh retry expire minimum).

Definition decode_rr_a (len : Z) : D dns_rdata :=
  dcontext_okay;;
  return_if (negb (len =? 4)) RCODE_FORMAT_ERROR;;
  p ← cget d_ptr; m ← peekn p 4; advance 4;;
  cret (R_A m).

Definition decode_rr_aaaa (len : Z) : D dns_rdata :=
  dcontext_okay;;
  return_if (negb (len =? 16)) RCODE_FORMAT_ERROR;;
  p ← cget d_ptr; m ← peekn p 16; advance 16;;
  cret (R_AAAA m).

Definition decode_rr_wks (len : Z) : D dns_rdata :=
  dcontext_okay;;
  return_if (zltb len 6) RCODE_FORMAT_ERROR;;
  p ← cget d_ptr; m ← peekn p 4; advance 4;;
  protocol ← read_uint16;
  bits ← read_raw (len - 6);
  cret (R_WKS m protocol (len - 6) bits).

Definition decode_rr_mx (len : Z) : D dns_rdata :=
  dcontext_okay;;
  return_if (zltb len 4) RCODE_FORMAT_ERROR;;
  preference ← read_uint16;
  exchange ← read_domain;
  cret (R_MX preference exchange).

(** The strings of a TXT record are joined into one, ended by a NUL. *)
Fixpoint txt_strings (k : nat) (len : Z) (acc : mem) : D mem :=
  if len =? 0 then cret acc
  else match k with
  | O => cfault NoFuel
  | S k' =>
      size ← cget d_size;
      return_if (zltb size 1) RCODE_FORMAT_ERROR;;
      p ← cget d_ptr;
      slen ← peek p;
      advance 1;;
      let len := len - 1 in
      return_if (zltb len slen) RCODE_FORMAT_ERROR;;
      size ← cget d_size;
      return_if (zltb size slen) RCODE_FORMAT_ERROR;;
      free ← cget d_free;
      return_if (zltb free slen) RCODE_NO_MEMORY;;
      m ← peekn (p + 1) slen;
      cassert (zleb slen len);;
      put slen;;
      advance slen;;
      txt_strings k' (len - slen) (acc ++ m)
  end.
Definition decode_rr_txt (len : Z) : D dns_rdata :=
  dcontext_okay;;
  text ← txt_strings (Z.to_nat len) len [];
  free ← cget d_free;
  return_if (free =? 0) RCODE_NO_MEMORY;;
  put 1;;
  cret (R_TXT (zlen text) (Some (text ++ [nul]))).

Definition decode_rr_hinfo : D dns_rdata :=
  dcontext_okay;;
  cpu ← read_string;
  os ← read_string;
  cret (R_HINFO cpu os).

Definition decode_rr_srv (len : Z) : D dns_rdata :=
  dcontext_okay;;
  return_if (zltb len 7) RCODE_FORMAT_ERROR;;
  priority ← read_uint16; weight ← read_uint16; port ← read_uint16;
  target ← read_domain;
  cret (R_SRV priority weight port target).

Definition decode_rr_naptr (len : Z) : D dns_rdata :=
  dcontext_okay;;
  return_if (zltb len 4) RCODE_FORMAT_ERROR;;
  order ← read_uint16; preference ← read_uint16;
  flags ← read_string; services ← read_string; regexp ← read_string;
  replacement ← read_domain;
  cret (R_NAPTR order preference flags services regexp replacement).

Definition decode_rr_minfo : D dns_rdata :=
  dcontext_okay;;
  rmailbx ← read_domain;
  emailbx ← read_domain;
  cret (R_MINFO rmailbx emailbx).

(** *** GPOS *)

(** The integral part of a double, and what modf() returns beside it. *)
Definition d_trunc (v : spec_float) : option Z :=
  match v with
  | S754_zero _ => Some 0
  | S754_finite s m e =>
      let z := if zleb 0 e then Z.pos m * 2 ^ e else Z.pos m / 2 ^ (- e) in
      Some (if s then - z else z)
  | _ => None
  end.
(** A double is converted to an [int] it fits in. *)
Definition to_int (v : spec_float) : outcome Z :=
  match d_trunc v with
  | Some z => if zleb (- 2 ^ 31) z && zltb z (2 ^ 31) then Ok z else Fail BadConversion
  | None => Fail BadConversion
  end.
Definition modf (v : spec_float) (z : Z) : spec_float := SFsub 53 1024 v (d_ofZ z).

Definition dgpos_angle (half : bool) (v : spec_float) : outcome dnsgpos_angle :=
  d ← to_int v;
  let v := d_mul (modf v d) (d_ofZ 60) in
  m ← to_int v;
  let v := d_mul (modf v m) (d_ofZ 60) in
  s ← to_int v;
  let v := d_mul (modf v s) (d_ofZ 1000) in
  f ← to_int v;
  Ok (mkAngle d m s f half).

Definition dloc_double `{FloatText} : D spec_float :=
  dcontext_okay;;
  s ← cget id;
  len ← peek (d_ptr s);
  return_if (zltb (d_size s - 1) len) RCODE_FORMAT_ERROR;;
  m ← peekn (d_ptr s + 1) len;
  advance (len + 1);;
  match strtod (cstr_of m) with
  | Some v => cret v
  | None => code_ RCODE_FORMAT_ERROR
  end.

Definition decode_rr_gpos `{FloatText} : D dns_rdata :=
  dcontext_okay;;
  lng ← dloc_double;
  lat ← dloc_double;
  let zero := d_ofZ 0 in
  let west := SFltb lng zero in
  let north := SFleb zero lat in
  longitude ← clift (dgpos_angle west (if west then SFabs lng else lng));
  latitude ← clift (dgpos_angle north (if north then lat else SFabs lat));
  altitude ← dloc_double;
  cret (R_GPOS longitude latitude altitude).

(** *** LOC *)

Definition dloc_scale (scale : Z) : D Z :=
  let smul := Z.shiftr scale 4 in
  let spow := Z.land scale 15 in
  return_if (zltb 9 spow || zltb 9 smul) RCODE_FORMAT_ERROR;;
  cret (10 ^ spow * smul).

Definition dloc_angle (half : bool) (v : Z) : dnsgpos_angle :=
  mkAngle (v / 1000 / 60 / 60) (v / 1000 / 60 mod 60) (v / 1000 mod 60) (v mod 1000) half.

(** The read pointer moves past the first four bytes, the size does not. *)
Definition decode_rr_loc (len : Z) : D dns_rdata :=
  dcontext_okay;;
  return_if (zltb len 16) RCODE_FORMAT_ERROR;;
  p ← cget d_ptr;
  version ← peek p;
  return_if (negb (version =? 0)) RCODE_FORMAT_ERROR;;
  size ← (b ← peek (p + 1); dloc_scale b);
  horiz_pre ← (b ← peek (p + 2); dloc_scale b);
  vert_pre ← (b ← peek (p + 3); dloc_scale b);
  cmodify (fun s => set_parse (d_ptr s + 4) (d_size s) s);;
  lat ← read_uint32;
  lng ← read_uint32;
  alt ← read_uint32;
  let north := zleb LOC_BIAS lat in
  let lat := if north then lat - LOC_BIAS else LOC_BIAS - lat in
  let east := zleb LOC_BIAS lng in
  let lng := if east then lng - LOC_BIAS else LOC_BIAS - lng in
  return_if (zltb LOC_LAT_MAX lat) RCODE_FORMAT_ERROR;;
  return_if (zltb LOC_LNG_MAX lng) RCODE_FORMAT_ERROR;;
  cret (R_LOC version size horiz_pre vert_pre (dloc_angle north lat)
          (dloc_angle (negb east) lng) (alt - LOC_ALT_BIAS)).

(** *** EDNS0 options *)

(** The number of options in [length] bytes from [scan] on; [None] when the
    last one is cut short. *)
Fixpoint count_opts (k : nat) (scan length numopts : Z) : D Z :=
  if length =? 0 then cret numopts
  else match k with
  | O => cfault NoFuel
  | S k' =>
      m ← peekn (scan + 2) 2;
      let size := of_be m + 4 in
      return_if (zltb length size) RCODE_FORMAT_ERROR;;
      count_opts k' (scan + size) (length - size) (numopts + 1)
  end.

Definition isxdigit (z : Z) : bool :=
  bool_decide (48 <= z <= 57 \/ 65 <= z <= 70 \/ 97 <= z <= 102).
(** The index of a hexadecimal digit, taken in upper case. *)
Definition xvalue (z : Z) : Z :=
  if zleb z 57 then z - 48 else if zleb z 70 then z - 55 else z - 87.

(** [k] pairs of digits from [p] on. *)
Fixpoint nsid_bytes (k : nat) (p : Z) (acc : mem) : D mem :=
  match k with
  | O => cret acc
  | S k' =>
      h ← peek p;
      return_if (negb (isxdigit h)) RCODE_FORMAT_ERROR;;
      l ← peek (p + 1);
      return_if (negb (isxdigit l)) RCODE_FORMAT_ERROR;;
      put 1;;
      nsid_bytes k' (p + 2) (acc ++ [chr (Z.lor (Z.shiftl (xvalue h) 4) (xvalue l))])
  end.
Definition decode_edns0rr_nsid (code len : Z) : D edns0_opt_t :=
  return_if (len mod 2 =? 1) RCODE_FORMAT_ERROR;;
  s ← cget id;
  return_if (zltb (d_free s) (len / 2)) RCODE_NO_MEMORY;;
  m ← nsid_bytes (Z.to_nat (len / 2)) (d_ptr s) [];
  advance len;;
  cret (mkOpt code (len / 2) m).

Definition decode_edns0rr_raw (code len : Z) : D edns0_opt_t :=
  s ← cget id;
  return_if (zltb (d_free s) len) RCODE_NO_MEMORY;;
  m ← peekn (d_ptr s) len;
  put len;;
  advance len;;
  cret (mkOpt code len m).

Fixpoint decode_opts (numopts : nat) : D (list edns0_opt_t) :=
  match numopts with
  | O => cret []
  | S n =>
      code ← read_uint16;
      len ← read_uint16;
      ok ← align_memory;
      return_if (negb ok) RCODE_NO_MEMORY;;
      o ← (if code =? EDNS0RR_NSID then decode_edns0rr_nsid code len
           else decode_edns0rr_raw code len);
      rest ← decode_opts n;
      cret (o :: rest)
  end.

(** [ttl] has been set to 0 by the caller. *)
Definition decode_rr_opt (udp_payload fug : Z) (fdo : bool) (len : Z) : D dns_rdata :=
  edns ← cget d_edns;
  return_if edns RCODE_FORMAT_ERROR;;
  cmodify (set_d_edns true);;
  let ttl := 0 in
  let version := Z.land (Z.shiftr ttl 16) 255 in
  let z := htons16 (Z.land ttl 65535) in
  cmodify (fun s => set_d_rcode (Z.lor (d_rcode s) (Z.land (Z.shiftr ttl 20) 4080)) s);;
  if len =? 0 then cret (R_OPT udp_payload version fdo fug z [])
  else
    dcontext_okay;;
    cassert (zltb 4 len);;
    p ← cget d_ptr;
    numopts ← count_opts (Z.to_nat len) p len 0;
    mem ← alloc_struct (sizeof_opt * numopts);
    return_if (bool_decide (mem = None)) RCODE_NO_MEMORY;;
    opts ← decode_opts (Z.to_nat numopts);
    cret (R_OPT udp_payload version fdo fug z opts).

(** ** Answers *)

Definition decode_rdata `{FloatText} (type len udp_payload fug : Z) (fdo : bool) : D dns_rdata :=
  if type =? RR_A then decode_rr_a len
  else if type =? RR_SOA then decode_rr_soa len
  else if type =? RR_NAPTR then decode_rr_naptr len
  else if type =? RR_AAAA then decode_rr_aaaa len
  else if type =? RR_SRV then decode_rr_srv len
  else if type =? RR_WKS then decode_rr_wks len
  else if type =? RR_GPOS then decode_rr_gpos
  else if type =? RR_LOC then decode_rr_loc len
  else if type =? RR_OPT then decode_rr_opt udp_payload fug fdo len
  else if is_minfo type then decode_rr_minfo
  else if is_mx type then decode_rr_mx len
  else if is_hinfo type then decode_rr_hinfo
  else if is_txt type then decode_rr_txt len
  else if is_domain type then c ← read_domain; cret (R_CNAME c)
  else r ← read_raw len; cret (R_X len r).

(** Class, TTL, and the fields only an OPT record has. *)
Definition decode_header (type : Z) : D (Z * Z * Z * Z * bool) :=
  if type =? RR_OPT then
    udp_payload ← read_uint16;
    p ← cget d_ptr;
    rc ← peek p;
    cmodify (fun s => set_d_rcode (Z.lor (Z.shiftl rc 4) (d_rcode s)) s);;
    version ← peek (p + 1);
    return_if (negb (version =? 0)) RCODE_FORMAT_ERROR;;
    advance 2;;
    fug ← read_uint16;
    cret (CLASS_UNKNOWN, 0, udp_payload, Z.land fug 32767, zltb 32767 fug)
  else
    class ← read_uint16;
    ttl ← read_uint32;
    cret (class, ttl, 0, 0, false).

Definition decode_answer `{FloatText} : D dns_answer_t :=
  dcontext_okay;;
  name ← read_domain;
  size ← cget d_size;
  return_if (zltb size 10) RCODE_FORMAT_ERROR;;
  type ← read_uint16;
  '(class, ttl, udp_payload, fug, fdo) ← decode_header type;
  len ← read_uint16;
  s ← cget id;
  return_if (zltb (wrap64 (d_len s - d_ptr s)) len) RCODE_FORMAT_ERROR;;
  data ← decode_rdata type len udp_payload fug fdo;
  cret (mkAnswer name type class ttl data).

(** ** Queries *)

(** [n] entries of a section. *)
Fixpoint repeat_n {A} (n : nat) (m : D A) : D (list A) :=
  match n with
  | O => cret []
  | S n' => a ← m; r ← repeat_n n' m; cret (a :: r)
  end.

(** A section cannot be allocated although it has entries. *)
Definition no_room (count : Z) (p : option Z) : bool :=
  negb (count =? 0) && bool_decide (p = None).

Definition alloc_sections (qd an ns ar : Z) : D unit :=
  p1 ← alloc_struct (qd * sizeof_question);
  p2 ← alloc_struct (an * sizeof_answer);
  p3 ← alloc_struct (ns * sizeof_answer);
  p4 ← alloc_struct (ar * sizeof_answer);
  return_if (no_room qd p1 || no_room an p2 || no_room ns p3 || no_room ar p4)
    RCODE_NO_MEMORY.

Definition decode_sections `{FloatText} (m : mem) : D dns_query_t :=
  let field i := of_be (take 2 (drop i m)) in
  let opcode := of_be (take 1 (drop 2 m)) in
  let rcode := of_be (take 1 (drop 3 m)) in
  let bit b v := Z.land b v =? v in
  r ← alloc_struct sizeof_query;
  cassert (bool_decide (r = Some 0));;
  cmodify (set_d_rcode (Z.land rcode 15));;
  let qd := field 4%nat in let an := field 6%nat in
  let ns := field 8%nat in let ar := field 10%nat in
  alloc_sections qd an ns ar;;
  questions ← repeat_n (Z.to_nat qd) decode_question;
  answers ← repeat_n (Z.to_nat an) decode_answer;
  nameservers ← repeat_n (Z.to_nat ns) decode_answer;
  edns ← cget d_edns;
  return_if edns RCODE_FORMAT_ERROR;;
  additional ← repeat_n (Z.to_nat ar) decode_answer;
  rc ← cget d_rcode;
  cret (mkQuery (field 0%nat) (negb (bit opcode 128)) (Z.land (Z.shiftr opcode 3) 15)
          (bit opcode 4) (bit opcode 2) (bit opcode 1) (bit rcode 128) (bit rcode 64)
          (bit rcode 32) (bit rcode 16) rc
          questions answers nameservers additional).

(** [m] is the object [buffer] points into, [len] the length of the packet and
    [rsize] that of the pool. *)
Definition dns_decode `{FloatText} (rsize : Z) (m : mem) (len : Z) : outcome (Z + dns_query_t) :=
  if negb (zleb sizeof_query rsize) then Fail AssertFailed
  else if zltb len HEADER then Ok (inl RCODE_FORMAT_ERROR)
  else
    '(_, r) ← decode_sections m
      (mkD m len HEADER (len - HEADER) 0 rsize rsize false 0);
    Ok r.
