(* ===== verification/DnsNames.v ===== *)
(** * Domain names on the wire

    [name_at] says which labels a decoder finds at an offset of a packet and
    how many compression pointers it follows. [read_domain] computes it, and
    [encode_domain] writes names, with its table of suffixes, so that it
    holds. *)
From S2P Require Import Prelude CString Dns DnsEncode DnsDecode.

(** ** Labels and names *)

Definition dot : char := "."%char.

Record label_ok (l : cstr) : Prop := {
  label_nonempty : l <> [];
  label_short : zlen l < MAX_DOMAIN_LABEL;
  label_no_dot : dot ∉ l;
  label_no_nul : no_nul l }.

Definition dotted (ls : list cstr) : cstr := ls ≫= (fun l => l ++ [dot]).
(** The text of a name; the root is a single dot. *)
Definition name_text (ls : list cstr) : cstr :=
  match ls with [] => [dot] | _ => dotted ls end.
Definition domain_ok (name : cstr) : Prop :=
  exists ls, Forall label_ok ls /\ name = name_text ls.

(** Deciding that labels are well-formed. *)
Definition label_okb (l : cstr) : bool :=
  bool_decide (l <> [] /\ zlen l < MAX_DOMAIN_LABEL /\ (dot ∉ l) /\ (nul ∉ l)).
Lemma labels_ok ls : forallb label_okb ls = true -> Forall label_ok ls.
Proof.
  rewrite forallb_forall, Forall_forall. intros H l Hl%list_elem_of_In%H.
  apply bool_decide_eq_true in Hl as (? & ? & ? & ?). split; try done. by apply no_nul_not_elem.
Qed.
Lemma domain_ok_text ls name : forallb label_okb ls = true -> name_text ls = name -> domain_ok name.
Proof. intros H%labels_ok <-. by exists ls. Qed.

Lemma dotted_cons l ls : dotted (l :: ls) = l ++ dot :: dotted ls.
Proof. unfold dotted. cbn. by rewrite <- app_assoc. Qed.

Lemma dotted_no_nul ls : Forall label_ok ls -> no_nul (dotted ls).
Proof.
  induction 1 as [|l ls Hl _ IH]; [constructor|]. rewrite dotted_cons.
  apply no_nul_app. split; [apply Hl|]. by apply no_nul_cons.
Qed.

Lemma name_text_no_nul ls : Forall label_ok ls -> no_nul (name_text ls).
Proof. intros H. destruct ls; [by repeat constructor|]. by apply dotted_no_nul. Qed.

Lemma cstr_of_id m : no_nul m -> cstr_of m = m.
Proof.
  intros H. apply take_while_id. eapply Forall_impl; [exact H|].
  cbn. intros c Hc. by rewrite is_nul_false.
Qed.

Lemma dotted_longer l ls : zlen (dotted ls) < zlen (dotted (l :: ls)).
Proof. rewrite dotted_cons, zlen_app, zlen_cons. pose proof (zlen_nonneg l). lia. Qed.

Lemma strchr_app l r : dot ∉ l -> strchr (l ++ dot :: r) dot = Some (length l).
Proof.
  induction l as [|c l IH]; intros H; cbn; [done|].
  apply not_elem_of_cons in H as [Hc Hl].
  by rewrite bool_decide_false, IH by congruence.
Qed.

(** ** Bytes and big-endian numbers *)

Lemma code_u8 z : code (u8 z) = z mod 256.
Proof.
  unfold u8. rewrite code_chr.
  - change 255 with (Z.ones 8). by rewrite Z.land_ones by lia.
  - change 255 with (Z.ones 8). rewrite Z.land_ones by lia. apply Z.mod_pos_bound. lia.
Qed.

Lemma of_be_app a b : of_be (a ++ b) = fold_left (fun v c => Z.lor (Z.shiftl v 8) (code c)) b (of_be a).
Proof. apply fold_left_app. Qed.

Lemma of_be_snoc a c : 0 <= of_be a -> of_be (a ++ [c]) = of_be a * 256 + code c.
Proof.
  intros H. rewrite of_be_app. cbn [fold_left]. pose proof (code_bound c).
  assert (Hd : Z.land (Z.shiftl (of_be a) 8) (code c) = 0).
  { apply Z.bits_inj'. intros n Hn. rewrite Z.land_spec, Z.bits_0.
    destruct (Z_lt_dec n 8); [by rewrite Z.shiftl_spec_low by lia|].
    rewrite (Z.bits_above_log2 (code c)), andb_false_r; [done|lia|].
    destruct (decide (code c = 0)) as [->|]; [cbn; lia|].
    apply Z.log2_lt_pow2; [lia|]. apply Z.lt_le_trans with (2 ^ 8); [lia|].
    apply Z.pow_le_mono_r; lia. }
  rewrite <- Z.lxor_lor by done.
  rewrite <- Z.add_nocarry_lxor by done. rewrite Z.shiftl_mul_pow2 by lia. lia.
Qed.

Lemma of_be_nonneg a : 0 <= of_be a.
Proof.
  induction a as [|c a IH] using rev_ind; [done|].
  rewrite of_be_snoc by done. pose proof (code_bound c). lia.
Qed.

Lemma shiftr_mod z n : 0 <= n -> Z.shiftr z n mod 256 = z / 2 ^ n mod 256.
Proof. intros. by rewrite Z.shiftr_div_pow2. Qed.

Lemma of_be16 z : 0 <= z < 2 ^ 16 -> of_be (be16 z) = z.
Proof.
  intros H. change (be16 z) with (([] ++ [u8 (Z.shiftr z 8)]) ++ [u8 z]).
  rewrite !of_be_snoc by apply of_be_nonneg. rewrite !code_u8, shiftr_mod by lia.
  change (of_be []) with 0. change (2 ^ 8) with 256. change (2 ^ 16) with 65536 in H.
  pose proof (Z.div_mod z 256). rewrite (Z.mod_small (z / 256)); [lia|].
  split; [apply Z.div_pos; lia|apply Z.div_lt_upper_bound; lia].
Qed.

Lemma of_be32 z : 0 <= z < 2 ^ 32 -> of_be (be32 z) = z.
Proof.
  intros H.
  change (be32 z) with
    (((([] ++ [u8 (Z.shiftr z 24)]) ++ [u8 (Z.shiftr z 16)]) ++ [u8 (Z.shiftr z 8)]) ++ [u8 z]).
  rewrite !of_be_snoc by apply of_be_nonneg. rewrite !code_u8, !shiftr_mod by lia.
  change (of_be []) with 0.
  replace (2 ^ 24) with (2 ^ 8 * 2 ^ 8 * 2 ^ 8) by done.
  replace (2 ^ 16) with (2 ^ 8 * 2 ^ 8) by done. change (2 ^ 8) with 256.
  rewrite <- !Z.div_div by lia.
  change (2 ^ 32) with 4294967296 in H.
  pose proof (Z.div_mod z 256). pose proof (Z.div_mod (z / 256) 256).
  pose proof (Z.div_mod (z / 256 / 256) 256).
  rewrite (Z.mod_small (z / 256 / 256 / 256)); [lia|].
  split; [repeat apply Z.div_pos; lia|].
  repeat (apply Z.div_lt_upper_bound; [lia|]). lia.
Qed.

(** ** The reader *)

(** The bytes [bs] lie at an offset of the packet. *)
Definition bytes_at (m : mem) (off : Z) (bs : mem) : Prop :=
  0 <= off /\ forall k c, bs !! k = Some c -> m !! (Z.to_nat off + k)%nat = Some c.

Lemma bytes_at_app m off a b :
  bytes_at m off (a ++ b) <-> bytes_at m off a /\ bytes_at m (off + zlen a) b.
Proof.
  unfold bytes_at, zlen. split.
  - intros [H0 H]. split; (split; [lia|]); intros k c Hk.
    + apply H. by apply lookup_app_l_Some.
    + replace (Z.to_nat (off + Z.of_nat (length a)) + k)%nat
        with (Z.to_nat off + (length a + k))%nat by lia.
      apply H. rewrite lookup_app_r by lia. by replace (length a + k - length a)%nat with k by lia.
  - intros [[H0 Ha] [_ Hb]]. split; [done|]. intros k c [Hk|[Hlen Hk]]%lookup_app_Some; [by apply Ha|].
    specialize (Hb _ _ Hk).
    by replace (Z.to_nat off + k)%nat
      with (Z.to_nat (off + Z.of_nat (length a)) + (k - length a))%nat by lia.
Qed.

Lemma bytes_at_cons m off c b :
  bytes_at m off (c :: b) <-> bytes_at m off [c] /\ bytes_at m (off + 1) b.
Proof. apply (bytes_at_app m off [c] b). Qed.

Lemma bytes_at_rd m off c b : bytes_at m off (c :: b) -> rd m off = Ok c.
Proof.
  intros [H0 H]. apply rd_ok. split; [done|]. specialize (H 0%nat c).
  rewrite Nat.add_0_r in H. by apply H.
Qed.

Lemma bytes_at_rdn m off b : bytes_at m off b -> off + zlen b <= zlen m -> rdn m off (zlen b) = Ok b.
Proof.
  intros [H0 H] Hl. unfold rdn, zleb. pose proof (zlen_nonneg b).
  rewrite !bool_decide_true by lia. cbn [andb]. f_equal. unfold zlen in *. rewrite Nat2Z.id.
  apply list_eq. intros i. destruct (decide (i < length b)%nat) as [Hi|Hi].
  - destruct (lookup_lt_is_Some_2 b i Hi) as [c Hc].
    rewrite lookup_take_lt, lookup_drop, Hc by done. by apply H.
  - rewrite lookup_take_ge by lia. symmetry. apply lookup_ge_None. lia.
Qed.

(** A decoder that stands at offset [off] of the first [L] bytes of [m], its
    sizes in step with its pointers, with [free] bytes left in the pool. *)
Section Reader.
Context (m : mem) (L cap : Z) (edns : bool) (rc : Z).
Context (HL : L <= zlen m) (HL64 : L < 2 ^ 14) (Hcap : cap < 2 ^ 64).

Definition rdr (off free : Z) : ddns_context :=
  mkD m L off (L - off) (cap - free) free cap edns rc.

Lemma wrap64_id z : 0 <= z < 2 ^ 64 -> wrap64 z = z.
Proof. apply Z.mod_small. Qed.

Lemma peek_at s off c b :
  d_mem s = m -> bytes_at m off (c :: b) -> peek off s = Ok (s, inr (code c)).
Proof.
  intros Hm H. unfold peek. unfold mbind, codec_bind, cget, clift, cret, id.
  rewrite Hm. by erewrite bytes_at_rd.
Qed.

Lemma peekn_at s off b n :
  d_mem s = m -> bytes_at m off b -> n = zlen b -> off + n <= L -> peekn off n s = Ok (s, inr b).
Proof.
  intros Hm H -> Hn. unfold peekn. unfold mbind, codec_bind, cget, clift, id.
  rewrite Hm, bytes_at_rdn; [done|done|lia].
Qed.

Lemma advance_at off free n : 0 <= n -> 0 <= off -> off + n <= L ->
  advance n (rdr off free) = Ok (rdr (off + n) free, inr tt).
Proof.
  intros. unfold advance, cmodify, set_parse, rdr. cbn.
  rewrite wrap64_id by lia. do 3 f_equal. lia.
Qed.

Lemma put_at s n :
  0 <= n <= d_free s -> d_dest s + d_free s = d_cap s -> d_free s < 2 ^ 64 ->
  put n s = Ok (set_dest (d_dest s + n) (d_free s - n) s, inr tt).
Proof.
  intros Hn Hs Hf. unfold put, zleb. rewrite bool_decide_true by lia.
  by rewrite wrap64_id by lia.
Qed.

Lemma set_dest_rdr off free n :
  set_dest (d_dest (rdr off free) + n) (d_free (rdr off free) - n) (rdr off free) =
  rdr off (free - n).
Proof. unfold set_dest, rdr. cbn. f_equal. lia. Qed.

Lemma dcontext_okay_at off free : 0 <= off < L -> 0 < free ->
  dcontext_okay (rdr off free) = Ok (rdr off free, inr tt).
Proof.
  intros. unfold dcontext_okay, mbind, codec_bind, cget, id, cassert, zltb. cbn.
  by rewrite !bool_decide_true by lia.
Qed.

Lemma read_uint16_at off free v :
  0 <= v < 2 ^ 16 -> bytes_at m off (be16 v) -> off + 2 <= L ->
  read_uint16 (rdr off free) = Ok (rdr (off + 2) free, inr v).
Proof.
  intros Hv Hb Hl. pose proof (proj1 Hb). unfold read_uint16.
  rewrite (codec_bind_ok _ _ (rdr off free) (rdr off free) (rdr off free)) by done.
  unfold zltb, zleb. rewrite !bool_decide_true by (cbn; lia).
  erewrite codec_bind_ok by done. erewrite codec_bind_ok by done.
  erewrite codec_bind_ok by by apply (peekn_at _ _ (be16 v)).
  erewrite codec_bind_ok by (apply advance_at; lia). unfold cret. by rewrite of_be16.
Qed.

Lemma read_uint32_at off free v :
  0 <= v < 2 ^ 32 -> bytes_at m off (be32 v) -> off + 4 <= L ->
  read_uint32 (rdr off free) = Ok (rdr (off + 4) free, inr v).
Proof.
  intros Hv Hb Hl. pose proof (proj1 Hb). unfold read_uint32.
  rewrite (codec_bind_ok _ _ (rdr off free) (rdr off free) (rdr off free)) by done.
  unfold zltb, zleb. rewrite !bool_decide_true by (cbn; lia).
  erewrite codec_bind_ok by done. erewrite codec_bind_ok by done.
  erewrite codec_bind_ok by by apply (peekn_at _ _ (be32 v)).
  erewrite codec_bind_ok by (apply advance_at; lia). unfold cret. by rewrite of_be32.
Qed.

(** ** Names in a packet *)

Definition ptr_bytes (target : Z) : mem :=
  [chr (Z.lor (Z.land (Z.shiftr target 8) 255) 192); u8 target].

(** [name_at off j ls e]: at [off] a name with the labels [ls] begins, whose
    part in place ends at [e]; [j] pointers are followed. *)
Inductive name_at : Z -> nat -> list cstr -> Z -> Prop :=
| na_end off : bytes_at m off [nul] -> off + 1 <= L -> name_at off 0 [] (off + 1)
| na_label off l ls j e :
    label_ok l -> bytes_at m off (u8 (zlen l) :: l) -> off + 1 + zlen l < L ->
    name_at (off + 1 + zlen l) j ls e -> name_at off j (l :: ls) e
| na_ptr off target ls j e :
    bytes_at m off (ptr_bytes target) -> 0 <= target < 2 ^ 14 -> target < L -> off + 2 <= L ->
    ls <> [] -> name_at target j ls e -> name_at off (S j) ls (off + 2).

Lemma ptr_high target : 0 <= target < 2 ^ 14 ->
  Z.lor (Z.land (Z.shiftr target 8) 255) 192 = 192 + target / 256.
Proof.
  intros H.
  assert (Hq : 0 <= target / 256 < 64).
  { split; [apply Z.div_pos; lia|apply Z.div_lt_upper_bound; lia]. }
  change 255 with (Z.ones 8). rewrite Z.land_ones, Z.shiftr_div_pow2 by lia.
  change (2 ^ 8) with 256. rewrite (Z.mod_small (target / 256)) by lia.
  revert Hq. generalize (target / 256). intros q Hq.
  assert (Hl : Z.land q 192 = 0).
  { change 192 with (Z.shiftl 3 6). apply Z.bits_inj'. intros n Hn.
    rewrite Z.land_spec, Z.bits_0. destruct (Z_lt_dec n 6).
    - by rewrite Z.shiftl_spec_low, andb_false_r by lia.
    - rewrite (Z.bits_above_log2 q); [done|lia|]. destruct (decide (q = 0)) as [->|]; [cbn; lia|].
      apply Z.log2_lt_pow2; [lia|]. apply Z.lt_le_trans with (2 ^ 6); [lia|].
      apply Z.pow_le_mono_r; lia. }
  rewrite <- Z.lxor_lor, <- Z.add_nocarry_lxor by done. lia.
Qed.

Lemma ptr_bytes_target target : 0 <= target < 2 ^ 14 ->
  Z.land (of_be (ptr_bytes target)) 16383 = target.
Proof.
  intros H. unfold ptr_bytes. rewrite ptr_high by done.
  change [chr (192 + target / 256); u8 target] with (([] ++ [chr (192 + target / 256)]) ++ [u8 target]).
  rewrite !of_be_snoc by apply of_be_nonneg. change (of_be []) with 0.
  assert (0 <= target / 256 < 64).
  { split; [apply Z.div_pos; lia|apply Z.div_lt_upper_bound; lia]. }
  rewrite code_u8, code_chr by lia. change 16383 with (Z.ones 14). rewrite Z.land_ones by lia.
  pose proof (Z.div_mod target 256).
  replace ((0 * 256 + (192 + target / 256)) * 256 + target mod 256) with (target + 3 * 2 ^ 14) by lia.
  by rewrite Z.mod_add, Z.mod_small by lia.
Qed.

Lemma ptr_bytes_code target : 0 <= target < 2 ^ 14 ->
  192 <= code (chr (Z.lor (Z.land (Z.shiftr target 8) 255) 192)).
Proof.
  intros H. rewrite ptr_high by done.
  assert (0 <= target / 256 < 64).
  { split; [apply Z.div_pos; lia|apply Z.div_lt_upper_bound; lia]. }
  rewrite code_chr; lia.
Qed.

Lemma label_length l : label_ok l -> 0 < zlen l < 64.
Proof.
  intros [Hn Hs _ _]. unfold MAX_DOMAIN_LABEL in Hs. destruct l; [done|].
  rewrite zlen_cons in *. pose proof (zlen_nonneg l). lia.
Qed.

Lemma code_label l : label_ok l -> code (u8 (zlen l)) = zlen l.
Proof. intros H%label_length. rewrite code_u8, Z.mod_small; lia. Qed.

(** The first byte tells the end of a name from the rest of one. *)
Lemma name_at_byte off j ls e : name_at off j ls e ->
  exists c b, bytes_at m off (c :: b) /\ (code c = 0 <-> ls = []) /\ off < e <= L /\
    (ls = [] -> e = off + 1 /\ j = 0%nat).
Proof.
  induction 1 as [off H HL'|off l ls j e Hl H HL' _ IH|off t ls j e H Ht HtL HL' Hls _ _].
  - exists nul, []. by split_and!; try lia.
  - exists (u8 (zlen l)), l. rewrite code_label by done.
    pose proof (label_length l Hl) as [Hl1 Hl2].
    destruct IH as (_ & _ & _ & _ & [He HeL] & _).
    split; [done|]. split; [split; [lia|done]|]. split; [lia|done].
  - eexists _, _. split; [exact H|]. pose proof (ptr_bytes_code t Ht).
    split; [split; [lia|done]|]. split; [lia|done].
Qed.

Lemma zlen_dotted_pos l ls : 0 < zlen (dotted (l :: ls)).
Proof. pose proof (dotted_longer l ls). pose proof (zlen_nonneg (dotted ls)). lia. Qed.

(** The state after a name: its text and a NUL are in the pool, and the read
    pointer is past the part in place, unless a pointer was followed before. *)
Definition name_read (main : bool) (e u : Z) (s : ddns_context) : ddns_context :=
  set_dest (d_dest s + u) (d_free s - u) (if main then set_parse e (L - e) s else s).

(** The loop of [read_domain] reads the name off the packet; the rounds it
    takes are those of the labels and of the pointers. *)
Lemma read_labels_at off j ls e : name_at off j ls e -> ls <> [] ->
  forall k main loop acc s,
  d_mem s = m -> d_len s = L -> d_dest s + d_free s = d_cap s -> d_free s < 2 ^ 64 ->
  zlen (dotted ls) + 1 <= d_free s -> 0 <= loop -> loop + Z.of_nat j < 256 ->
  (length ls + j <= k)%nat ->
  read_labels k off (L - off) main loop acc s =
  Ok (name_read main e (zlen (dotted ls) + 1) s, inr (acc ++ dotted ls)).
Proof.
  induction 1 as [off H HL'|off l ls j e Hl H HL' Hat IH|off t ls j e H Ht HtL HL' Hls Hat IH];
    intros Hne k main loop acc s Hm Hlen Hd Hf Hfree Hloop Hj Hk; [done|..];
    (destruct k as [|k]; [cbn in Hk; lia|]); cbn [read_labels].
  - pose proof (label_length l Hl) as Hll. pose proof H as Hl'. pose proof (proj1 H) as Hoff.
    rewrite bytes_at_cons in Hl'. destruct Hl' as [Hlb Hlt].
    rewrite dotted_cons, zlen_app, zlen_cons in Hfree |- *.
    pose proof (zlen_nonneg (dotted ls)).
    erewrite codec_bind_ok by by eapply peek_at. rewrite code_label by done.
    unfold zltb at 1. rewrite bool_decide_true by lia.
    erewrite codec_bind_ok by (apply return_if_not, bool_decide_eq_false_2; lia).
    erewrite codec_bind_ok by done.
    erewrite codec_bind_ok by (apply return_if_not, bool_decide_eq_false_2; lia).
    erewrite codec_bind_ok by (apply (peekn_at s (off + 1) l); [done|done|done|lia]).
    erewrite codec_bind_ok by (apply put_at; [lia|done|done]).
    replace (zlen l =? 0) with false by (symmetry; apply Z.eqb_neq; lia).
    replace (off + (zlen l + 1)) with (off + 1 + zlen l) by lia.
    destruct (name_at_byte _ _ _ _ Hat) as (c & b & Hc & Hcls & He & Hend).
    erewrite codec_bind_ok by by eapply peek_at.
    set (s1 := set_dest _ _ s).
    destruct (Z.eqb_spec (code c) 0) as [Ec|Ec].
    + apply Hcls in Ec as ->. destruct (Hend eq_refl) as [-> ->].
      rewrite (codec_bind_ok _ _ s1
        (if main then set_parse (off + 1 + zlen l + 1) (L - (off + 1 + zlen l + 1)) s1 else s1) tt).
      2:{ destruct main; [|done]. unfold cmodify. rewrite wrap64_id by lia.
          do 3 f_equal. lia. }
      erewrite codec_bind_ok by (apply put_at; destruct main; subst s1; cbn; lia).
      unfold cret, name_read. subst s1. change (zlen (dotted [])) with 0.
      apply (f_equal Ok), (f_equal2 pair); [|done].
      destruct main; unfold set_dest, set_parse; cbn; f_equal; lia.
    + assert (Hls : ls <> []) by (intros E; by apply Ec, Hcls).
      replace (L - off - (zlen l + 1)) with (L - (off + 1 + zlen l)) by lia.
      rewrite IH; try done; try (subst s1; cbn; lia); [|cbn in Hk; lia].
      unfold name_read. subst s1.
      apply (f_equal Ok), (f_equal2 pair); [|by rewrite <- !app_assoc].
      destruct main; unfold set_dest, set_parse; cbn; f_equal; lia.
  - pose proof (ptr_bytes_code t Ht) as Hc192.
    erewrite codec_bind_ok by by eapply peek_at.
    unfold zltb at 1. rewrite bool_decide_false by lia.
    unfold zleb at 1. rewrite bool_decide_true by lia.
    replace (loop + 1 =? 256) with false by (symmetry; apply Z.eqb_neq; lia).
    erewrite codec_bind_ok by done.
    erewrite codec_bind_ok by (apply return_if_not, bool_decide_eq_false_2; lia).
    erewrite codec_bind_ok by (apply (peekn_at s off (ptr_bytes t)); [done|done|done|lia]).
    rewrite (codec_bind_ok _ _ s (if main then set_parse (off + 2) (L - (off + 2)) s else s) tt).
    2:{ destruct main; [|done]. unfold cmodify. do 3 f_equal. lia. }
    set (s1 := if main then _ else s). rewrite ptr_bytes_target by done.
    rewrite (codec_bind_ok _ _ s1 s1 L) by by (unfold cget; subst s1; destruct main; cbn; rewrite Hlen).
    erewrite codec_bind_ok by (apply return_if_not, bool_decide_eq_false_2; lia).
    destruct (name_at_byte _ _ _ _ Hat) as (c & b & Hc & Hcls & He & Hend).
    erewrite codec_bind_ok by by eapply (peek_at s1 t c b); [subst s1; destruct main|].
    replace (code c =? 0) with false by (symmetry; apply Z.eqb_neq; intros E; by apply Hls, Hcls).
    rewrite IH; try done; try (subst s1; destruct main; cbn; lia || done); try lia.
Qed.

(** The root: a zero byte, read as a dot. *)
Lemma read_root_at off k main loop acc s :
  bytes_at m off [nul] -> off + 1 <= L ->
  d_mem s = m -> d_dest s + d_free s = d_cap s -> d_free s < 2 ^ 64 -> 2 <= d_free s ->
  read_labels (S k) off (L - off) main loop acc s =
  Ok (name_read main (off + 1) 2 s, inr (acc ++ [dot])).
Proof.
  intros H HL' Hm Hd Hf Hfree. pose proof (proj1 H). cbn [read_labels].
  erewrite codec_bind_ok by by eapply peek_at.
  change (code nul) with 0. cbn [zltb]. unfold zltb at 1. rewrite bool_decide_true by lia.
  erewrite codec_bind_ok by (apply return_if_not, bool_decide_eq_false_2; lia).
  erewrite codec_bind_ok by done.
  erewrite codec_bind_ok by (apply return_if_not, bool_decide_eq_false_2; lia).
  erewrite codec_bind_ok by (apply (peekn_at s (off + 1) []); [done|split; [lia|done]|done|cbn; lia]).
  erewrite codec_bind_ok by (apply put_at; [lia|done|done]).
  change (0 =? 0) with true. cbv iota. rewrite Z.add_0_r.
  erewrite codec_bind_ok by by eapply peek_at. change (code nul =? 0) with true. cbv iota.
  set (s1 := set_dest _ _ s).
  rewrite (codec_bind_ok _ _ s1
    (if main then set_parse (off + 1) (L - (off + 1)) s1 else s1) tt).
  2:{ destruct main; [|done]. unfold cmodify. rewrite wrap64_id by lia. do 3 f_equal. lia. }
  erewrite codec_bind_ok by (apply put_at; destruct main; subst s1; cbn; lia).
  unfold cret, name_read. subst s1. apply (f_equal Ok), (f_equal2 pair); [|done].
  destruct main; unfold set_dest, set_parse; cbn; f_equal; lia.
Qed.

(** A whole name, and what [read_domain] makes of it. *)
Definition domain_at (off : Z) (ls : list cstr) (e : Z) : Prop :=
  exists j, (j < 256)%nat /\ name_at off j ls e.

Lemma name_at_labels off j ls e : name_at off j ls e -> Forall label_ok ls.
Proof. by induction 1; [constructor|constructor|]. Qed.

Lemma name_at_off off j ls e : name_at off j ls e -> 0 <= off.
Proof. destruct 1 as [? []|? ? ? ? ? ? []|? ? ? ? ? []]; lia. Qed.

(** Each label takes at least two bytes of the text. *)
Lemma length_dotted ls : Z.of_nat (length ls) <= zlen (dotted ls).
Proof.
  induction ls as [|l ls IH]; [done|]. rewrite dotted_cons, zlen_app, zlen_cons.
  pose proof (zlen_nonneg l). cbn [length]. lia.
Qed.

Lemma read_domain_at off ls e free :
  domain_at off ls e -> free < 2 ^ 64 -> zlen (name_text ls) + 1 <= free ->
  read_domain (rdr off free) =
  Ok (rdr e (free - (zlen (name_text ls) + 1)), inr (Some (name_text ls))).
Proof.
  intros (j & Hj & Hat) Hf Hfree. pose proof (name_at_off _ _ _ _ Hat).
  pose proof (name_at_labels _ _ _ _ Hat) as Hls.
  destruct (name_at_byte _ _ _ _ Hat) as (c & b & Hc & Hcls & He & Hend).
  assert (0 < zlen (name_text ls)).
  { destruct ls; [done|]. apply zlen_dotted_pos. }
  unfold read_domain. erewrite codec_bind_ok by (apply dcontext_okay_at; lia).
  erewrite codec_bind_ok by done. unfold id. cbn [d_ptr d_size d_free rdr].
  assert (E : forall k main, (Z.to_nat free + 257 < k)%nat ->
    read_labels k off (L - off) main 0 [] (rdr off free) =
    Ok (name_read main e (zlen (name_text ls) + 1) (rdr off free), inr (name_text ls))).
  { intros k main Hk. destruct ls as [|l ls].
    - destruct (Hend eq_refl) as [-> ->]. destruct k as [|k]; [lia|].
      apply read_root_at; try done; cbn in Hfree |- *; try lia. by inversion Hat.
    - rewrite (read_labels_at _ _ _ _ Hat); try done; cbn [rdr d_free d_dest d_cap]; try lia; try done.
      pose proof (length_dotted (l :: ls)). cbn [name_text] in Hfree. lia. }
  erewrite codec_bind_ok by (apply E; lia).
  unfold cret. rewrite cstr_of_id by by apply name_text_no_nul.
  apply (f_equal Ok), (f_equal2 pair); [|done].
  unfold name_read, set_dest, set_parse, rdr. cbn. f_equal; lia.
Qed.
End Reader.

(** ** Inversion of the encoder *)

Lemma cassert_inv {S} b (s s' : S) r : cassert b s = Ok (s', r) -> b = true /\ s' = s.
Proof. unfold cassert. by destruct b; intros [= <- _]. Qed.
Lemma cassert_ptr_inv {S A} (p : option A) (s s' : S) r :
  cassert_ptr p s = Ok (s', inr r) -> p = Some r /\ s' = s.
Proof. unfold cassert_ptr. by destruct p; intros [= <- <-]. Qed.
Lemma return_if_inv {S} b rc (s s' : S) u : return_if b rc s = Ok (s', inr u) -> b = false /\ s' = s.
Proof. unfold return_if. by destruct b; intros [= <-]. Qed.
Lemma cget_inv {S A} (f : S -> A) (s s' : S) r : cget f s = Ok (s', inr r) -> r = f s /\ s' = s.
Proof. by intros [= <- <-]. Qed.
Lemma cret_inv {S A} (a r : A) (s s' : S) : cret a s = Ok (s', inr r) -> r = a /\ s' = s.
Proof. by intros [= <- <-]. Qed.
Lemma cmodify_inv {S} (f : S -> S) s s' u : cmodify f s = Ok (s', inr u) -> s' = f s.
Proof. by intros [= <-]. Qed.
Lemma need_inv n s s' u : need n s = Ok (s', inr u) -> s' = s.
Proof.
  intros (a & s1 & [-> ->]%cget_inv & [_ ->]%return_if_inv)%codec_bind_inv. done.
Qed.
Lemma econtext_okay_inv s s' u : econtext_okay s = Ok (s', inr u) -> s' = s.
Proof.
  intros (a & s1 & [-> ->]%cget_inv & [_ ->]%cassert_inv)%codec_bind_inv. done.
Qed.
Lemma emit_inv bs s s' u : emit bs s = Ok (s', inr u) -> s' = set_out (e_out s ++ bs) s.
Proof. unfold emit. by destruct (zleb _ _); intros [= <-]. Qed.

(** Take a successful run of the encoder apart. *)
Ltac cinv :=
  repeat match goal with
  | H : (_ ≫= _) _ = Ok (_, inr _) |- _ =>
      let a := fresh "a" in let s := fresh "s" in let E := fresh "E" in
      apply codec_bind_inv in H as (a & s & E & H); cbn beta iota zeta in H
  | H : cassert _ _ = Ok (_, inr _) |- _ => apply cassert_inv in H as [? ->]
  | H : cassert_ptr _ _ = Ok (_, inr _) |- _ => apply cassert_ptr_inv in H as [? ->]
  | H : return_if _ _ _ = Ok (_, inr _) |- _ => apply return_if_inv in H as [? ->]
  | H : cget _ _ = Ok (_, inr _) |- _ => apply cget_inv in H as [-> ->]
  | H : cret _ _ = Ok (_, inr _) |- _ => apply cret_inv in H as [-> ->]
  | H : cret tt _ = Ok (_, inr _) |- _ => apply cret_inv in H as [_ ->]
  | H : cmodify _ _ = Ok (_, inr _) |- _ => apply cmodify_inv in H as ->
  | H : shrink _ _ = Ok (_, inr _) |- _ => apply cmodify_inv in H as ->
  | H : need _ _ = Ok (_, inr _) |- _ => apply need_inv in H as ->
  | H : econtext_okay _ = Ok (_, inr _) |- _ => apply econtext_okay_inv in H as ->
  | H : emit _ _ = Ok (_, inr _) |- _ => apply emit_inv in H as ->
  | H : code_ _ _ = Ok (_, inr _) |- _ => discriminate H
  | H : cfault _ _ = Ok (_, inr _) |- _ => discriminate H
  end.

(** [Extends n e]: a successful run of [e] appends at least [n] bytes. *)
Class Extends {A} (n : Z) (e : E A) : Prop :=
  extends : forall s s' r, e s = Ok (s', inr r) ->
    exists bs, e_out s' = e_out s ++ bs /\ n <= zlen bs.
#[global] Hint Mode Extends - - ! : typeclass_instances.

Lemma extends_none {A} (e : E A) :
  (forall s s' r, e s = Ok (s', inr r) -> e_out s' = e_out s) -> Extends 0 e.
Proof. intros H s s' r E. exists []. by rewrite app_nil_r, (H _ _ _ E). Qed.

Lemma extends_le {A} n n' (e : E A) : Extends n e -> n' <= n -> Extends n' e.
Proof. intros He Hn s s' r E. destruct (He _ _ _ E) as (bs & ? & ?). exists bs. split; [done|lia]. Qed.

#[global] Instance extends_bind {A B} n k (e : E A) (f : A -> E B) :
  Extends n e -> (forall a, Extends k (f a)) -> Extends (n + k) (e ≫= f).
Proof.
  intros He Hf s s' r (a & s1 & E1 & E2)%codec_bind_inv.
  destruct (He _ _ _ E1) as (b1 & H1 & ?). destruct (Hf _ _ _ _ E2) as (b2 & H2 & ?).
  exists (b1 ++ b2). rewrite H2, H1, app_assoc. split; [done|]. rewrite zlen_app. lia.
Qed.
#[global] Instance extends_emit bs : Extends (zlen bs) (emit bs).
Proof. intros s s' r ->%emit_inv. by exists bs. Qed.
#[global] Instance extends_shrink n : Extends 0 (shrink n).
Proof. apply extends_none. by intros s s' r ->%cmodify_inv. Qed.
#[global] Instance extends_need n : Extends 0 (need n).
Proof. apply extends_none. by intros s s' r ->%need_inv. Qed.
#[global] Instance extends_econtext_okay : Extends 0 econtext_okay.
Proof. apply extends_none. by intros s s' r ->%econtext_okay_inv. Qed.
#[global] Instance extends_cassert b : Extends 0 (cassert b : E unit).
Proof. apply extends_none. by intros s s' r [_ ->]%cassert_inv. Qed.
#[global] Instance extends_cassert_ptr {A} (p : option A) : Extends 0 (cassert_ptr p : E A).
Proof. apply extends_none. by intros s s' r [_ ->]%cassert_ptr_inv. Qed.
#[global] Instance extends_return_if b rc : Extends 0 (return_if b rc : E unit).
Proof. apply extends_none. by intros s s' r [_ ->]%return_if_inv. Qed.
#[global] Instance extends_cget {A} (f : edns_context -> A) : Extends 0 (cget f : E A).
Proof. apply extends_none. by intros s s' r [_ ->]%cget_inv. Qed.
#[global] Instance extends_cret {A} (a : A) : Extends 0 (cret a : E A).
Proof. apply extends_none. by intros s s' r [_ ->]%cret_inv. Qed.
#[global] Instance extends_cfault {A} f : Extends 0 (cfault f : E A).
Proof. apply extends_none. by intros s s' r [=]. Qed.
#[global] Instance extends_code {A} rc : Extends 0 (code_ rc : E A).
Proof. apply extends_none. by intros s s' r [=]. Qed.
#[global] Instance extends_add_seg n o : Extends 0 (cmodify (add_seg n o)).
Proof. apply extends_none. by intros s s' r ->%cmodify_inv. Qed.
#[global] Instance extends_if {A} n (b : bool) (e f : E A) :
  Extends n e -> Extends n f -> Extends n (if b then e else f).
Proof. by destruct b. Qed.

#[global] Typeclasses Opaque emit shrink need econtext_okay copy_bytes write_uint16 write_uint32
  encode_segment encode_labels encode_domain encode_string encode_cstr
  cassert cassert_ptr return_if cget cret cfault code_ cmodify Extends.

Lemma encode_labels_extends k : forall name, Extends 1 (encode_labels k name).
Proof.
  assert (Hf : Extends 1 (need 1;; emit [nul];; shrink 1)).
  { eapply extends_le; [apply _|]. by vm_compute. }
  induction k as [|k IH]; intros name; cbn [encode_labels].
  { by intros s s' r [=]. }
  destruct name as [|c name]; [exact Hf|]. case_bool_decide; [exact Hf|].
  intros s s' r (segs & s1 & [-> ->]%cget_inv & H2)%codec_bind_inv.
  destruct (segment_find _ _) as [off|].
  - revert s s' r H2. apply (extends_le (0 + (zlen (ptr_bytes off) + 0))); [apply _|by vm_compute].
  - cinv. unfold encode_segment in *. destruct (strchr _ _) as [len|]; [|cinv]. cinv.
    destruct (IH _ _ _ _ H2) as (bs & Hbs & Hn). cbn [add_seg set_size set_out e_out] in Hbs.
    rewrite Hbs, <- app_assoc. eexists. split; [done|].
    rewrite zlen_app, zlen_cons. pose proof (zlen_nonneg (take len (c :: name))). lia.
Qed.
#[global] Existing Instance encode_labels_extends.
#[global] Instance encode_domain_extends name : Extends 1 (encode_domain name).
Proof. apply (extends_le (0 + (0 + 1))); [unfold encode_domain; apply _|lia]. Qed.

#[global] Instance extends_write_uint16 v : Extends 2 (write_uint16 v).
Proof.
  apply (extends_le (0 + (0 + (0 + (zlen (be16 v) + 0))))); [unfold write_uint16; apply _|by vm_compute].
Qed.
#[global] Instance extends_write_uint32 v : Extends 4 (write_uint32 v).
Proof.
  apply (extends_le (0 + (0 + (0 + (zlen (be32 v) + 0))))); [unfold write_uint32; apply _|by vm_compute].
Qed.
#[global] Instance extends_encode_string text n : Extends 1 (encode_string text n).
Proof.
  intros s s' r Hr. unfold encode_string in Hr. cinv. unfold zleb in *.
  case_bool_decide; cinv. cbn. eexists. split; [done|]. rewrite zlen_cons.
  match goal with |- _ <= 1 + zlen ?x => pose proof (zlen_nonneg x) end. lia.
Qed.
#[global] Instance extends_encode_cstr s : Extends 1 (encode_cstr s).
Proof. apply extends_encode_string. Qed.
#[global] Instance extends_copy_bytes bs n : Extends 0 (copy_bytes bs n).
Proof.
  intros s s' r Hr. unfold copy_bytes, zleb in Hr. case_bool_decide; cinv. cbn.
  eexists. split; [done|]. apply zlen_nonneg.
Qed.

(** ** The table of suffixes *)

Section Table.
Context (m : mem) (L : Z) (HL14 : L < 2 ^ 14).

(** The final packet agrees with what is written so far, the two bytes of a
    length field that is still to be filled in apart. *)
Definition agree (hole : option nat) (out : mem) : Prop :=
  forall i c, out !! i = Some c ->
    match hole with None => True | Some p => (i < p \/ p + 2 <= i)%nat end -> m !! i = Some c.
Definition past_hole (hole : option nat) (out : mem) : Prop :=
  match hole with None => True | Some p => (p + 2 <= length out)%nat end.

Lemma agree_prefix h a b : agree h (a ++ b) -> agree h a.
Proof. intros H i c Hi. apply H. by apply lookup_app_l_Some. Qed.

Lemma agree_bytes h a b c : past_hole h a -> agree h (a ++ b ++ c) -> bytes_at m (zlen a) b.
Proof.
  intros Hh H. split; [apply zlen_nonneg|]. intros k x Hk. unfold zlen. rewrite Nat2Z.id. apply H.
  - rewrite lookup_app_r by lia. replace (length a + k - length a)%nat with k by lia.
    by apply lookup_app_l_Some.
  - destruct h; [cbn in Hh; lia|done].
Qed.

Lemma past_hole_app h a b : past_hole h a -> past_hole h (a ++ b).
Proof. destruct h; [|done]. cbn. rewrite length_app. lia. Qed.

(** A suffix in the table can be read back at its offset; the entry with
    index [i] needs at most [i] pointers. *)
Definition seg_ok (i : nat) (name : cstr) (off : Z) : Prop :=
  exists ls e j, name = dotted ls /\ ls <> [] /\ name_at m L off j ls e /\ (j <= i)%nat.
Definition segs_ok (segs : list (cstr * Z)) : Prop :=
  (length segs <= 100)%nat /\ forall i name off, segs !! i = Some (name, off) -> seg_ok i name off.

Lemma segment_find_some src segs off : segment_find src segs = Some off ->
  exists i, segs !! i = Some (src, off).
Proof.
  induction segs as [|[n o] segs IH]; cbn; [done|].
  unfold strcmp_eq. case_bool_decide as E.
  - intros [= <-]. exists 0%nat. by rewrite E.
  - intros (i & Hi)%IH. by exists (S i).
Qed.

Lemma dotted_inj ls ls' : Forall label_ok ls -> Forall label_ok ls' ->
  dotted ls = dotted ls' -> ls = ls'.
Proof.
  intros H. revert ls'. induction H as [|l ls Hl _ IH]; intros ls' H' E; destruct H' as [|l' ls' Hl' Hls'].
  - done.
  - rewrite dotted_cons in E. destruct l'; done.
  - rewrite dotted_cons in E. destruct l; done.
  - rewrite !dotted_cons in E.
    assert (El : l = l').
    { apply (f_equal (take_while (fun c => negb (bool_decide (c = dot))))) in E.
      rewrite !take_while_app_stop in E; try done.
      all: eapply Forall_forall; intros c Hc; apply negb_true_iff, bool_decide_eq_false; intros ->.
      - by apply (label_no_dot _ Hl').
      - by apply (label_no_dot _ Hl). }
    subst l'. f_equal. apply IH; [done|]. apply (app_inv_head l) in E. congruence.
Qed.

(** What [encode_labels] writes for a name reads back as the name, and the
    entries it adds to the table are good. The first [b] entries are those of
    earlier names; the later ones belong to longer suffixes of this name. *)
Lemma encode_labels_at b h ls : Forall label_ok ls -> forall k s s' r,
  encode_labels k (dotted ls) s = Ok (s', inr r) ->
  agree h (e_out s') -> past_hole h (e_out s) -> zlen (e_out s') <= L ->
  (b <= length (e_segs s) <= 100)%nat ->
  (forall i name off, e_segs s !! i = Some (name, off) ->
     (i < b)%nat /\ seg_ok i name off \/ zlen (dotted ls) < zlen name) ->
  exists j new, (j <= b)%nat /\ name_at m L (zlen (e_out s)) j ls (zlen (e_out s')) /\
    e_segs s' = e_segs s ++ new /\ (length (e_segs s') <= 100)%nat /\
    forall name off, (name, off) ∈ new -> seg_ok b name off.
Proof.
  induction 1 as [|l ls Hl Hls IH]; intros [|k] s s' r Hrun Ha Hh HL Hb Hsegs;
    cbn [encode_labels] in Hrun; try (by cinv).
  - cbn in Hrun. cinv. exists 0%nat, []. split_and!; [lia| |by rewrite app_nil_r|cbn; lia|by intros ? ? Hin; inversion Hin].
    cbn [set_size set_out e_out] in *. rewrite zlen_app in *. apply na_end; [|done].
    apply (agree_bytes h _ _ []); [done|by rewrite app_nil_r].
  - pose proof (label_length l Hl) as Hll. rewrite dotted_cons in Hrun.
    destruct l as [|c l]; [by destruct Hl|]. cbn [app] in Hrun.
    assert (Hc : c <> "."%char) by (intros ->; apply (label_no_dot _ Hl), list_elem_of_here).
    rewrite bool_decide_false in Hrun by done.
    change (c :: l ++ dot :: dotted ls) with ((c :: l) ++ dot :: dotted ls) in Hrun.
    apply codec_bind_inv in Hrun as (segs & s1 & [-> ->]%cget_inv & Hrun).
    change (c :: l ++ dot :: dotted ls) with ((c :: l) ++ dot :: dotted ls) in Hrun.
    set (lab := c :: l) in *. rewrite <- dotted_cons in Hrun. clearbody lab.
    destruct (segment_find _ _) as [off|] eqn:Ef.
    + apply segment_find_some in Ef as (i & Hi).
      destruct (Hsegs _ _ _ Hi) as [[Hib (ls' & e & j & En & Hne & Hat & Hj)]|Hlong]; [|lia].
      apply dotted_inj in En as <-; [|by constructor|by apply name_at_labels in Hat].
      cinv. cbn [set_size set_out e_out e_segs] in *. rewrite zlen_app in *.
      exists (S j), []. split_and!; [lia| |by rewrite app_nil_r|lia|by intros ? ? Hin; inversion Hin].
      pose proof (name_at_off _ _ _ _ _ _ Hat).
      destruct (name_at_byte _ _ _ _ _ _ Hat) as (_ & _ & _ & _ & ? & _).
      apply (na_ptr m L _ off _ _ e); try done; try lia.
      apply (agree_bytes h _ _ []); [done|by rewrite app_nil_r].
    + rewrite dotted_cons in Hrun. unfold encode_segment in Hrun.
      rewrite strchr_app in Hrun by apply Hl. cinv.
      rewrite take_app_length in Hrun.
      replace (drop (S (length lab)) (lab ++ dot :: dotted ls)) with (dotted ls) in Hrun.
      2:{ change (dot :: dotted ls) with ([dot] ++ dotted ls). rewrite app_assoc.
          by rewrite drop_app_length' by (rewrite length_app; cbn; lia). }
      rewrite <- dotted_cons in Hrun.
      assert (Hn : length (e_segs s) <> 100%nat).
      { apply bool_decide_eq_false in H0. unfold zlen, MAXSEG in H0. lia. }
      destruct (encode_labels_extends _ _ _ _ _ Hrun) as (bs & Hbs & Hbs1).
      cbn [add_seg set_size set_out e_out] in Hbs.
      change (Z.of_nat (length lab)) with (zlen lab) in *.
      rewrite Hbs in Ha, HL. rewrite !zlen_app, zlen_cons in HL.
      pose proof (zlen_nonneg (e_out s)).
      destruct (IH _ _ _ _ Hrun) as (j & new & Hj & Hat & Hnew & Hlen & Hok).
      * by rewrite Hbs.
      * by apply past_hole_app.
      * rewrite Hbs, !zlen_app, zlen_cons. lia.
      * cbn. rewrite length_app. cbn. lia.
      * cbn. intros i name off [Hi|[Hi E]]%lookup_app_Some.
        -- destruct (Hsegs _ _ _ Hi) as [?|?]; [by left|right].
           pose proof (dotted_longer lab ls). lia.
        -- destruct (i - length (e_segs s))%nat; [|done]. injection E as <- <-.
           right. apply dotted_longer.
      * cbn [add_seg set_size set_out e_out e_segs] in Hat, Hnew.
        rewrite zlen_app, zlen_cons in Hat. replace (zlen (e_out s) + (1 + zlen lab))
          with (zlen (e_out s) + 1 + zlen lab) in Hat by lia.
        assert (Hlab : name_at m L (zlen (e_out s)) j (lab :: ls) (zlen (e_out s'))).
        { apply na_label; [done| |lia|done].
          apply (agree_bytes h _ _ bs); [done|]. by rewrite <- app_assoc in Ha. }
        exists j, ((dotted (lab :: ls), zlen (e_out s)) :: new). split_and!; try done.
        -- by rewrite Hnew, <- app_assoc.
        -- intros name off [E|Hin]%elem_of_cons; [|by apply Hok].
           injection E as -> ->. by exists (lab :: ls), (zlen (e_out s')), j.
Qed.

(** A name of the text form, written by [encode_domain]. *)
Lemma encode_domain_at h ls s s' r : Forall label_ok ls ->
  encode_domain (Some (name_text ls)) s = Ok (s', inr r) ->
  agree h (e_out s') -> past_hole h (e_out s) -> zlen (e_out s') <= L -> segs_ok (e_segs s) ->
  domain_at m L (zlen (e_out s)) ls (zlen (e_out s')) /\ segs_ok (e_segs s').
Proof.
  intros Hls Hrun Ha Hh HL [Hlen Hsegs]. unfold encode_domain in Hrun. cinv.
  injection H as <-.
  assert (Hrun' : exists k, encode_labels k (dotted ls) s = Ok (s', inr r)).
  { destruct ls as [|l ls]; [|by eexists]. exists 1%nat. cbn [name_text] in Hrun.
    cbn [length encode_labels] in Hrun |- *. by rewrite bool_decide_true in Hrun. }
  destruct Hrun' as [k Hrun'].
  destruct (encode_labels_at (length (e_segs s)) h ls Hls k s s' r)
    as (j & new & Hj & Hat & Hnew & Hlen' & Hok); try done.
  - intros i name off Hi. left. split; [by eapply lookup_lt_Some|by apply Hsegs].
  - split; [exists j; split; [lia|done]|]. split; [done|].
    rewrite Hnew. intros i name off [Hi|[Hi E]]%lookup_app_Some; [by apply Hsegs|].
    apply list_elem_of_lookup_2 in E. destruct (Hok _ _ E) as (ls' & e & j' & ? & ? & ? & ?).
    exists ls', e, j'. split_and!; try done. lia.
Qed.
End Table.
