(* ===== verification/DnsRoundTrip.v ===== *)
(** * Decoding what was encoded

    [rt h e d a u]: after the encoder action [e], the decoder action [d] reads
    [a] back from the final packet and takes [u] bytes of the pool. The rules
    follow the structure of the two halves of [codec.c], so that each record
    type is a composition; they end in the round trip of whole queries. *)
From S2P Require Import Prelude CString Dns DnsEncode DnsDecode DnsNames.

(** ** What can be sent *)

Definition u16_ok (v : Z) : Prop := 0 <= v < 2 ^ 16.
Definition u32_ok (v : Z) : Prop := 0 <= v < 2 ^ 32.

(** The record types of the round trip, with their data well formed. An MX
    exchange must not be the root: the decoder wants four bytes of data. *)
Inductive rdata_ok : Z -> dns_rdata -> Prop :=
| ok_a m : zlen m = 4 -> rdata_ok RR_A (R_A m)
| ok_aaaa m : zlen m = 16 -> rdata_ok RR_AAAA (R_AAAA m)
| ok_soa mn rn se rf ry ex mi : domain_ok mn -> domain_ok rn ->
    u32_ok se -> u32_ok rf -> u32_ok ry -> u32_ok ex -> u32_ok mi ->
    rdata_ok RR_SOA (R_SOA (Some mn) (Some rn) se rf ry ex mi)
| ok_srv p w po t : u16_ok p -> u16_ok w -> u16_ok po -> domain_ok t ->
    rdata_ok RR_SRV (R_SRV p w po (Some t))
| ok_naptr o p f s r rp : u16_ok o -> u16_ok p ->
    no_nul f -> no_nul s -> no_nul r -> domain_ok rp ->
    rdata_ok RR_NAPTR (R_NAPTR o p (Some f) (Some s) (Some r) (Some rp))
| ok_minfo t r e : is_minfo t = true -> domain_ok r -> domain_ok e ->
    rdata_ok t (R_MINFO (Some r) (Some e))
| ok_mx t p e : is_mx t = true -> u16_ok p -> domain_ok e -> e <> [dot] ->
    rdata_ok t (R_MX p (Some e))
| ok_hinfo t c o : is_hinfo t = true -> no_nul c -> no_nul o ->
    rdata_ok t (R_HINFO (Some c) (Some o))
| ok_txt t x : is_txt t = true -> rdata_ok t (R_TXT (zlen x) (Some (x ++ [nul])))
| ok_domain t c : is_domain t = true -> domain_ok c -> rdata_ok t (R_CNAME (Some c)).

(** The bytes of the pool a string, a record and a query take. *)
Definition str_pool (s : option cstr) : Z := match s with Some s => zlen s + 1 | None => 0 end.
Definition rdata_pool (d : dns_rdata) : Z :=
  match d with
  | R_SOA a b _ _ _ _ _ | R_MINFO a b | R_HINFO a b => str_pool a + str_pool b
  | R_NAPTR _ _ a b c d => str_pool a + (str_pool b + (str_pool c + str_pool d))
  | R_SRV _ _ _ a | R_MX _ a | R_CNAME a => str_pool a
  | R_TXT len _ => len + 1
  | _ => 0
  end.
Definition zsum {A} (f : A -> Z) (l : list A) : Z := foldr (fun a n => f a + n) 0 l.
Definition question_pool (q : dns_question_t) : Z := str_pool (q_name q).
Definition answer_pool (a : dns_answer_t) : Z := str_pool (a_name a) + rdata_pool (a_data a).
Definition query_pool (q : dns_query_t) : Z :=
  sizeof_query + sizeof_question * qdcount q +
  sizeof_answer * (ancount q + nscount q + arcount q) +
  (zsum question_pool (questions q) + (zsum answer_pool (answers q) +
   (zsum answer_pool (nameservers q) + zsum answer_pool (additional q)))).

Record question_ok (q : dns_question_t) : Prop := {
  question_name : exists n, q_name q = Some n /\ domain_ok n;
  question_type : u16_ok (q_type q) }.
Record answer_ok (a : dns_answer_t) : Prop := {
  answer_name : exists n, a_name a = Some n /\ domain_ok n;
  answer_class : u16_ok (a_class a);
  answer_ttl : u32_ok (a_ttl a);
  answer_data : rdata_ok (a_type a) (a_data a) }.
Record query_ok (q : dns_query_t) : Prop := {
  query_opcode : 0 <= dq_opcode q;
  query_rcode : 0 <= dq_rcode q;
  query_questions : Forall question_ok (questions q);
  query_answers : Forall answer_ok (answers q);
  query_nameservers : Forall answer_ok (nameservers q);
  query_additional : Forall answer_ok (additional q) }.

(** The number of bytes an action writes at least. *)
Ltac extends := eapply extends_le; [apply _|lia].

(** ** The encoder: strings, texts and the switch on the type *)

Lemma copy_bytes_inv bs n s s' r : zlen bs = n -> copy_bytes bs n s = Ok (s', inr r) ->
  e_out s' = e_out s ++ bs /\ e_segs s' = e_segs s.
Proof.
  intros <- Hr. unfold copy_bytes in Hr.
  destruct (zleb (zlen bs) (zlen bs)); cinv. cbn. unfold zlen. rewrite Nat2Z.id.
  by rewrite firstn_all.
Qed.

Lemma encode_string_inv text size s s' r : 0 <= size ->
  encode_string (Some text) size s = Ok (s', inr r) ->
  e_out s' = e_out s ++ u8 size :: take (Z.to_nat size) text /\ e_segs s' = e_segs s /\
  size <= 255 /\ size <= zlen text.
Proof.
  intros Hs Hr. unfold encode_string in Hr. cinv.
  match goal with E : Some _ = Some _ |- _ => injection E as <- end.
  unfold zltb, zleb in *.
  match goal with E : bool_decide (255 < _) = false |- _ => apply bool_decide_eq_false in E end.
  case_bool_decide; cinv. split_and!; [done|done|lia|done].
Qed.

Lemma code_u8_small n : 0 <= n <= 255 -> code (u8 n) = n.
Proof. intros H. rewrite code_u8, Z.mod_small; lia. Qed.

(** The strings a text is cut into. *)
Fixpoint chunks (k : nat) (text : mem) : list mem :=
  match k with
  | O => []
  | S k' => match text with [] => [] | _ => take 255 text :: chunks k' (drop 255 text) end
  end.

Lemma chunks_join k text : (length text <= k)%nat -> mjoin (chunks k text) = text.
Proof.
  revert text. induction k as [|k IH]; intros text Hk; [destruct text; [done|cbn in Hk; lia]|].
  cbn [chunks]. destruct text as [|c text]; [done|]. remember (c :: text) as t eqn:Et.
  cbn [mjoin list_join]. rewrite IH.
  - by rewrite take_drop.
  - rewrite length_drop. subst t. cbn in *. lia.
Qed.

Lemma encode_chunks_inv k text rest s s' r : (length text <= k)%nat ->
  encode_chunks k (text ++ rest) (zlen text) s = Ok (s', inr r) ->
  e_out s' = e_out s ++ (chunks k text ≫= fun c => u8 (zlen c) :: c) /\ e_segs s' = e_segs s.
Proof.
  revert text s. induction k as [|k IH]; intros text s Hk Hr; cbn [encode_chunks] in Hr.
  { destruct text; [|cbn in Hk; lia]. unfold zleb in Hr. rewrite bool_decide_true in Hr by done.
    cinv. cbn. by rewrite app_nil_r. }
  destruct text as [|c text]; [unfold zleb in Hr; rewrite bool_decide_true in Hr by done; cinv;
    cbn; by rewrite app_nil_r|].
  unfold zleb in Hr. rewrite bool_decide_false in Hr by (rewrite zlen_cons; pose proof (zlen_nonneg text); lia).
  cbn [chunks]. remember (c :: text) as t eqn:Et.
  apply codec_bind_inv in Hr as (u & s1 & H1 & Hr).
  apply encode_string_inv in H1 as (Ho & Hs & _); [|pose proof (zlen_nonneg t); lia].
  assert (Ht : take (Z.to_nat (zlen t `min` 255)) (t ++ rest) = take 255 t /\
               drop (Z.to_nat (zlen t `min` 255)) (t ++ rest) = drop 255 t ++ rest /\
               zlen (take 255 t) = zlen t `min` 255 /\
               zlen (drop 255 t) = zlen t - zlen t `min` 255).
  { unfold zlen. rewrite length_take, length_drop.
    replace (Z.to_nat (Z.of_nat (length t) `min` 255)) with (Nat.min 255 (length t)) by lia.
    rewrite take_app_le, drop_app_le by lia. split_and!; try lia.
    - by rewrite <- take_take, firstn_all.
    - destruct (Nat.le_gt_cases 255 (length t)); [by rewrite Nat.min_l|].
      by rewrite Nat.min_r, !drop_ge by lia. }
  destruct Ht as (Et1 & Et2 & Et3 & Et4). rewrite Et1 in Ho. rewrite Et2, <- Et4 in Hr.
  apply IH in Hr as [-> ->].
  - rewrite Ho, Hs, <- app_assoc. split; [|done]. cbn [mbind list_bind]. by rewrite Et3.
  - rewrite length_drop. subst t. cbn in Hk |- *. lia.
Qed.

Definition wire (cs : list mem) : mem := cs ≫= fun c => u8 (zlen c) :: c.

Lemma chunks_small k text c : c ∈ chunks k text -> zlen c <= 255.
Proof.
  revert text. induction k as [|k IH]; intros text H; [inversion H|]. cbn [chunks] in H.
  destruct text as [|x text]; [inversion H|].
  apply elem_of_cons in H as [->|H]; [|by eapply IH]. unfold zlen. rewrite length_take. lia.
Qed.

Lemma chunks_wire_pos k c text : 1 <= zlen (wire (chunks (S k) (c :: text))).
Proof.
  cbn [chunks]. change (wire (?a :: ?b)) with ((u8 (zlen a) :: a) ++ wire b).
  rewrite zlen_app, zlen_cons.
  match goal with |- _ <= 1 + zlen ?a + zlen ?b => pose proof (zlen_nonneg a); pose proof (zlen_nonneg b) end.
  lia.
Qed.

Lemma encode_rr_txt_inv text s s' r :
  encode_rr_txt (zlen text) (Some (text ++ [nul])) s = Ok (s', inr r) ->
  e_out s' = e_out s ++ wire (chunks (length text) text) /\ e_segs s' = e_segs s /\ text <> [].
Proof.
  intros Hr. unfold encode_rr_txt in Hr. cinv.
  match goal with E : Some _ = Some _ |- _ => injection E as <- end.
  match goal with E : zltb 0 _ = true |- _ => apply bool_decide_eq_true in E end.
  unfold zlen in Hr at 1. rewrite Nat2Z.id in Hr.
  apply encode_chunks_inv in Hr as [-> ->]; [|done]. split_and!; [done|done|].
  intros ->. unfold zlen in *. cbn in *. lia.
Qed.

Lemma length_txt_chunks k text : (length (chunks k text) <= length (wire (chunks k text)))%nat.
Proof.
  generalize (chunks k text). intros cs. induction cs as [|c cs IH]; [done|].
  change (wire (c :: cs)) with ((u8 (zlen c) :: c) ++ wire cs). rewrite length_app. cbn. lia.
Qed.

(** A type in one of the lists of the switch is one of its values. *)
Ltac type_cases H :=
  apply bool_decide_eq_true in H;
  repeat (apply elem_of_cons in H as [->|H]); [..|by inversion H].

Lemma encode_rdata_domain `{FloatText} t class c : is_domain t = true ->
  encode_rdata t class (R_CNAME c) = encode_domain c.
Proof. intros Ht. type_cases Ht; reflexivity. Qed.

Lemma decode_rdata_domain `{FloatText} t n : is_domain t = true ->
  decode_rdata t n 0 0 false = (c ← read_domain; cret (R_CNAME c)).
Proof. intros Ht. type_cases Ht; reflexivity. Qed.

Lemma encode_rdata_minfo `{FloatText} t class r e : is_minfo t = true ->
  encode_rdata t class (R_MINFO r e) = encode_rr_minfo r e.
Proof. intros Ht. type_cases Ht; reflexivity. Qed.

Lemma decode_rdata_minfo `{FloatText} t n : is_minfo t = true -> decode_rdata t n 0 0 false = decode_rr_minfo.
Proof. intros Ht. type_cases Ht; reflexivity. Qed.

Lemma encode_rdata_mx `{FloatText} t class p e : is_mx t = true ->
  encode_rdata t class (R_MX p e) = encode_rr_mx p e.
Proof. intros Ht. type_cases Ht; reflexivity. Qed.

Lemma decode_rdata_mx `{FloatText} t n : is_mx t = true -> decode_rdata t n 0 0 false = decode_rr_mx n.
Proof. intros Ht. type_cases Ht; reflexivity. Qed.

Lemma encode_rdata_hinfo `{FloatText} t class c o : is_hinfo t = true ->
  encode_rdata t class (R_HINFO c o) = encode_rr_hinfo c o.
Proof. intros Ht. type_cases Ht; reflexivity. Qed.

Lemma decode_rdata_hinfo `{FloatText} t n : is_hinfo t = true -> decode_rdata t n 0 0 false = decode_rr_hinfo.
Proof. intros Ht. type_cases Ht; reflexivity. Qed.

Lemma encode_rdata_txt `{FloatText} t class l x : is_txt t = true ->
  encode_rdata t class (R_TXT l x) = encode_rr_txt l x.
Proof. intros Ht. type_cases Ht; reflexivity. Qed.

Lemma decode_rdata_txt `{FloatText} t n : is_txt t = true -> decode_rdata t n 0 0 false = decode_rr_txt n.
Proof. intros Ht. type_cases Ht; reflexivity. Qed.

(** A name other than the root takes two bytes at least. *)
Lemma encode_domain_extends2 e : domain_ok e -> e <> [dot] ->
  forall s s' r, encode_domain (Some e) s = Ok (s', inr r) ->
  exists bs, e_out s' = e_out s ++ bs /\ 2 <= zlen bs.
Proof.
  intros (ls & Hls & ->) Hne s s' r Hr. destruct ls as [|l ls]; [done|]. cbn [name_text] in *.
  apply list.Forall_cons in Hls as [Hl _]. pose proof (label_length l Hl).
  unfold encode_domain in Hr. cinv.
  match goal with E : Some _ = Some _ |- _ => injection E as <- end.
  rewrite <- app_assoc in Hr. destruct l as [|c l]; [by destruct Hl|].
  cbn [encode_labels app] in Hr.
  rewrite bool_decide_false in Hr by (intros ->; apply (label_no_dot _ Hl), list_elem_of_here).
  apply codec_bind_inv in Hr as (segs & s1 & [-> ->]%cget_inv & Hr).
  destruct (segment_find _ _) as [off|]; [cinv; by eexists|].
  change (c :: l ++ dot :: dotted ls) with ((c :: l) ++ dot :: dotted ls) in Hr.
  unfold encode_segment in Hr. rewrite strchr_app in Hr by apply Hl. cinv.
  apply encode_labels_extends in Hr as (bs & -> & Hbs). cbn [add_seg set_size set_out e_out].
  rewrite <- app_assoc. eexists. split; [done|]. rewrite zlen_app, zlen_cons.
  match goal with |- _ <= 1 + zlen ?x + _ => pose proof (zlen_nonneg x) end. lia.
Qed.

(** ** The relation *)

Section RoundTrip.
Context (m : mem) (L cap : Z) (edns : bool) (rc : Z) (h : option nat).
Context (HL : L <= zlen m) (HL14 : L < 2 ^ 14).

Local Abbreviation rdr := (rdr m L cap edns rc).

Definition rt {A} (e : E unit) (d : Z -> D A) (a : A) (u : Z) : Prop :=
  forall s s', e s = Ok (s', inr tt) ->
  agree m h (e_out s') -> past_hole h (e_out s) -> zlen (e_out s') <= L ->
  segs_ok m L (e_segs s) ->
  segs_ok m L (e_segs s') /\
  forall free, u < free -> free < 2 ^ 64 ->
    d (zlen (e_out s') - zlen (e_out s)) (rdr (zlen (e_out s)) free) =
    Ok (rdr (zlen (e_out s')) (free - u), inr a).

(** *** Steps of the encoder that write nothing *)

Lemma rt_econtext {A} e (d : Z -> D A) a u : rt e d a u -> rt (econtext_okay;; e) d a u.
Proof. intros H s s' Hr. cinv. by apply H. Qed.
Lemma rt_need {A} n e (d : Z -> D A) a u : rt e d a u -> rt (need n;; e) d a u.
Proof. intros H s s' Hr. cinv. by apply H. Qed.
Lemma rt_assert {A} b e (d : Z -> D A) a u : (b = true -> rt e d a u) -> rt (cassert b;; e) d a u.
Proof. intros H s s' Hr. cinv. by apply H. Qed.
Lemma rt_ptr {A B} (x : B) e (d : Z -> D A) a u :
  rt (e x) d a u -> rt (x ← cassert_ptr (Some x); e x) d a u.
Proof. intros H s s' Hr. cinv. match goal with E : Some _ = Some _ |- _ => injection E as <- end. by apply H. Qed.

(** *** Steps of the decoder that read nothing *)

Lemma rt_dcontext {A} e (d : Z -> D A) a u :
  Extends 1 e -> 0 <= u -> rt e d a u -> rt e (fun n => dcontext_okay;; d n) a u.
Proof.
  intros He Hu H s s' Hr Ha Hh Hl Hs. destruct (H s s' Hr Ha Hh Hl Hs) as [? Hd].
  destruct (He _ _ _ Hr) as (bs & Hbs & Hn). split; [done|]. intros free Hf Hf64.
  pose proof (zlen_nonneg (e_out s)). rewrite Hbs, zlen_app in Hl.
  erewrite codec_bind_ok; [by apply Hd|]. apply dcontext_okay_at; lia.
Qed.

(** A test of the RDLENGTH, and one of the bytes that are left. *)
Lemma rt_check {A} k (test : Z -> bool) c e (d : Z -> D A) a u :
  Extends k e -> (forall n, k <= n -> test n = false) ->
  rt e d a u -> rt e (fun n => return_if (test n) c;; d n) a u.
Proof.
  intros He Ht H s s' Hr Ha Hh Hl Hs. destruct (H s s' Hr Ha Hh Hl Hs) as [? Hd].
  destruct (He _ _ _ Hr) as (bs & Hbs & Hn). split; [done|]. intros free Hf Hf64.
  erewrite codec_bind_ok; [by apply Hd|]. apply return_if_not, Ht.
  rewrite Hbs, zlen_app. lia.
Qed.

Lemma rt_left {A} k c e (d : Z -> D A) a u :
  Extends k e -> rt e d a u ->
  rt e (fun n => size ← cget d_size; return_if (zltb size k) c;; d n) a u.
Proof.
  intros He H s s' Hr Ha Hh Hl Hs. destruct (H s s' Hr Ha Hh Hl Hs) as [? Hd].
  destruct (He _ _ _ Hr) as (bs & Hbs & Hn). split; [done|]. intros free Hf Hf64.
  erewrite codec_bind_ok by done. erewrite codec_bind_ok; [by apply Hd|].
  apply return_if_not, bool_decide_eq_false_2. cbn. rewrite Hbs, zlen_app in Hl. lia.
Qed.

(** *** Composition *)

Lemma rt_seq {A B} e1 e2 (d1 : D A) (d2 : A -> D B) a b u1 u2 :
  Extends 0 e1 -> Extends 0 e2 -> 0 <= u1 -> 0 <= u2 ->
  rt e1 (fun _ => d1) a u1 -> rt e2 (fun _ => d2 a) b u2 ->
  rt (e1;; e2) (fun _ => x ← d1; d2 x) b (u1 + u2).
Proof.
  intros He1 He2 Hu1 Hu2 H1 H2 s s' Hr Ha Hh Hl Hs.
  apply codec_bind_inv in Hr as ([] & s1 & Hr1 & Hr2).
  destruct (He1 _ _ _ Hr1) as (b1 & Hb1 & _). destruct (He2 _ _ _ Hr2) as (b2 & Hb2 & _).
  pose proof Ha as Ha1. rewrite Hb2 in Ha1. apply agree_prefix in Ha1.
  assert (Hl1 : zlen (e_out s1) <= L).
  { rewrite Hb2, zlen_app in Hl. pose proof (zlen_nonneg b2). lia. }
  destruct (H1 s s1 Hr1 Ha1 Hh Hl1 Hs) as [Hs1 Hd1].
  destruct (H2 s1 s' Hr2) as [Hs2 Hd2]; try done.
  { rewrite Hb1. by apply past_hole_app. }
  split; [done|]. intros free Hf Hf64.
  erewrite codec_bind_ok by (apply Hd1; lia). rewrite Hd2 by lia. do 3 f_equal. lia.
Qed.

Lemma rt_ret {A B} e (d : D A) (g : A -> B) a u :
  rt e (fun _ => d) a u -> rt e (fun _ => x ← d; cret (g x)) (g a) u.
Proof.
  intros H s s' Hr Ha Hh Hl Hs. destruct (H s s' Hr Ha Hh Hl Hs) as [? Hd]. split; [done|].
  intros free Hf Hf64. by erewrite codec_bind_ok by by apply Hd.
Qed.

Lemma rt_eq {A} e (d : Z -> D A) a a' u u' : rt e d a u -> a = a' -> u = u' -> rt e d a' u'.
Proof. by intros ? <- <-. Qed.

(** *** Leaves *)

(** An action that appends given bytes, which the decoder reads. *)
Lemma rt_leaf {A} e bs (d : Z -> D A) a u :
  (forall s s', e s = Ok (s', inr tt) -> e_out s' = e_out s ++ bs /\ e_segs s' = e_segs s) ->
  (forall off free, bytes_at m off bs -> off + zlen bs <= L -> u < free -> free < 2 ^ 64 ->
     d (zlen bs) (rdr off free) = Ok (rdr (off + zlen bs) (free - u), inr a)) ->
  rt e d a u.
Proof.
  intros He Hd s s' Hr Ha Hh Hl Hs. destruct (He s s' Hr) as [Hb ->]. split; [done|].
  intros free Hf Hf64. rewrite Hb, zlen_app in Hl |- *.
  replace (zlen (e_out s) + zlen bs - zlen (e_out s)) with (zlen bs) by lia.
  apply Hd; [|lia|done|done]. rewrite Hb in Ha. apply (agree_bytes m h _ _ []); [done|].
  by rewrite app_nil_r.
Qed.

Lemma rt_uint16 v : u16_ok v -> rt (write_uint16 v) (fun _ => read_uint16) v 0.
Proof.
  intros Hv. apply (rt_leaf _ (be16 v)).
  - intros s s' Hr. unfold write_uint16 in Hr. by cinv.
  - intros off free Hb Hl _ _. rewrite Z.sub_0_r. by apply read_uint16_at.
Qed.

Lemma rt_uint32 v : u32_ok v -> rt (write_uint32 v) (fun _ => read_uint32) v 0.
Proof.
  intros Hv. apply (rt_leaf _ (be32 v)).
  - intros s s' Hr. unfold write_uint32 in Hr. by cinv.
  - intros off free Hb Hl _ _. rewrite Z.sub_0_r. by apply read_uint32_at.
Qed.

Lemma rt_bytes {A} (g : mem -> A) bs n : zlen bs = n ->
  rt (copy_bytes bs n)
     (fun _ => p ← cget d_ptr; x ← peekn p n; advance n;; cret (g x)) (g bs) 0.
Proof.
  intros Hn. apply (rt_leaf _ bs).
  - intros s s'. by apply copy_bytes_inv.
  - intros off free Hb Hl _ _. pose proof (zlen_nonneg bs). pose proof (proj1 Hb). subst n.
    erewrite codec_bind_ok by done.
    erewrite codec_bind_ok by (by apply (peekn_at m L HL)).
    erewrite codec_bind_ok by (apply advance_at; lia). by rewrite Z.sub_0_r.
Qed.

Lemma rt_domain name : domain_ok name ->
  rt (encode_domain (Some name)) (fun _ => read_domain) (Some name) (zlen name + 1).
Proof.
  intros (ls & Hls & ->) s s' Hr Ha Hh Hl Hs.
  destruct (encode_domain_at m L HL14 h ls s s' tt) as [Hd Hs']; try done. split; [done|].
  intros free Hf Hf64. apply read_domain_at; try done. lia.
Qed.

(** *** Strings *)

Lemma rt_string s : no_nul s ->
  rt (encode_cstr s) (fun _ => read_string) (Some s) (zlen s + 1).
Proof.
  intros Hn st st' Hr. pose proof (zlen_nonneg s).
  destruct (encode_string_inv _ _ _ _ _ (zlen_nonneg s) Hr) as (_ & _ & H255 & _).
  revert st st' Hr. change (rt (encode_cstr s) (fun _ => read_string) (Some s) (zlen s + 1)).
  apply (rt_leaf _ (u8 (zlen s) :: s)).
  - intros st st' Hr. destruct (encode_string_inv _ _ _ _ _ (zlen_nonneg s) Hr) as (-> & -> & _).
    unfold zlen, cmem. by rewrite Nat2Z.id, take_app_length.
  - intros off free Hb Hl Hf Hf64. pose proof (proj1 Hb). pose proof Hb as Hb'.
    rewrite bytes_at_cons in Hb'. destruct Hb' as [_ Hb'].
    rewrite zlen_cons in *. unfold read_string.
    erewrite codec_bind_ok by (apply dcontext_okay_at; lia).
    erewrite codec_bind_ok by done.
    erewrite codec_bind_ok by by eapply peek_at. rewrite code_u8_small by lia.
    erewrite codec_bind_ok by (apply return_if_not, bool_decide_eq_false_2; cbn; lia).
    erewrite codec_bind_ok by (apply return_if_not, bool_decide_eq_false_2; cbn; lia).
    erewrite codec_bind_ok by (apply (peekn_at m L HL _ _ s); [done|done|done|cbn; lia]).
    erewrite codec_bind_ok by (apply advance_at; lia).
    erewrite codec_bind_ok by (apply put_at; cbn; lia).
    rewrite set_dest_rdr. unfold cret. rewrite cstr_of_id by done.
    do 3 f_equal; lia.
Qed.

(** *** TXT records *)

Lemma txt_strings_at cs : forall k off free acc,
  Forall (fun c => zlen c <= 255) cs -> bytes_at m off (wire cs) -> off + zlen (wire cs) <= L ->
  zlen (mjoin cs) <= free -> free < 2 ^ 64 -> (length cs <= k)%nat ->
  txt_strings k (zlen (wire cs)) acc (rdr off free) =
  Ok (rdr (off + zlen (wire cs)) (free - zlen (mjoin cs)), inr (acc ++ mjoin cs)).
Proof.
  induction cs as [|c cs IH]; intros k off free acc Hsm Hb Hl Hf Hf64 Hk.
  { destruct k; cbn; by rewrite Z.add_0_r, Z.sub_0_r, app_nil_r. }
  destruct k as [|k]; [cbn in Hk; lia|]. apply list.Forall_cons in Hsm as [Hc Hsm].
  change (wire (c :: cs)) with ((u8 (zlen c) :: c) ++ wire cs) in *.
  change (mjoin (c :: cs)) with (c ++ mjoin cs) in *.
  rewrite zlen_app in Hf |- *. rewrite zlen_app, zlen_cons in Hl |- *.
  pose proof (zlen_nonneg c). pose proof (zlen_nonneg (wire cs)). pose proof (zlen_nonneg (mjoin cs)).
  rewrite bytes_at_app, bytes_at_cons, zlen_cons in Hb. destruct Hb as [[Hb1 Hb2] Hb3].
  pose proof (proj1 Hb1). cbn [txt_strings].
  replace (_ =? 0) with false by (symmetry; apply Z.eqb_neq; lia).
  erewrite codec_bind_ok by done.
  erewrite codec_bind_ok by (apply return_if_not, bool_decide_eq_false_2; cbn; lia).
  erewrite codec_bind_ok by done.
  erewrite codec_bind_ok by by eapply peek_at. rewrite code_u8_small by lia.
  erewrite codec_bind_ok by (apply advance_at; lia).
  erewrite codec_bind_ok by (apply return_if_not, bool_decide_eq_false_2; lia).
  erewrite codec_bind_ok by done.
  erewrite codec_bind_ok by (apply return_if_not, bool_decide_eq_false_2; cbn; lia).
  erewrite codec_bind_ok by done.
  erewrite codec_bind_ok by (apply return_if_not, bool_decide_eq_false_2; cbn; lia).
  erewrite codec_bind_ok by (apply (peekn_at m L HL _ _ c); [done|done|done|cbn; lia]).
  erewrite codec_bind_ok by (apply cassert_ok, bool_decide_eq_true_2; lia).
  erewrite codec_bind_ok by (apply put_at; cbn; lia). rewrite set_dest_rdr.
  erewrite codec_bind_ok by (apply advance_at; lia).
  replace (1 + zlen c + zlen (wire cs) - 1 - zlen c) with (zlen (wire cs)) by lia.
  replace (off + (1 + zlen c)) with (off + 1 + zlen c) in Hb3 by lia.
  rewrite IH; [|done|done|lia|lia|lia|cbn in Hk; lia].
  rewrite <- app_assoc. do 3 f_equal; lia.
Qed.

Lemma rt_txt text :
  rt (encode_rr_txt (zlen text) (Some (text ++ [nul]))) decode_rr_txt
     (R_TXT (zlen text) (Some (text ++ [nul]))) (zlen text + 1).
Proof.
  intros st st' Hr. destruct (encode_rr_txt_inv _ _ _ _ Hr) as (_ & _ & Hne).
  revert st st' Hr.
  change (rt (encode_rr_txt (zlen text) (Some (text ++ [nul]))) decode_rr_txt
             (R_TXT (zlen text) (Some (text ++ [nul]))) (zlen text + 1)).
  apply (rt_leaf _ (wire (chunks (length text) text))).
  - intros s s' Hr. by apply encode_rr_txt_inv in Hr as (? & ? & _).
  - intros off free Hb Hl Hf Hf64. pose proof (proj1 Hb). pose proof (zlen_nonneg text).
    assert (1 <= zlen (wire (chunks (length text) text))).
    { destruct text; [done|]. apply chunks_wire_pos. }
    unfold decode_rr_txt. erewrite codec_bind_ok by (apply dcontext_okay_at; lia).
    pose proof (chunks_join (length text) text (le_n _)) as Hj.
    erewrite codec_bind_ok.
    2:{ apply txt_strings_at; rewrite ?Hj; try done; try lia.
        - apply Forall_forall. intros c. apply chunks_small.
        - unfold zlen. rewrite Nat2Z.id. apply length_txt_chunks. }
    rewrite Hj. erewrite codec_bind_ok by done.
    erewrite codec_bind_ok by (apply return_if_not, Z.eqb_neq; cbn; lia).
    erewrite codec_bind_ok by (apply put_at; cbn; lia). rewrite set_dest_rdr.
    unfold cret. cbn [app]. do 3 f_equal; lia.
Qed.

(** *** Record data *)

Context `{FloatText}.

Lemma str_pool_nonneg s : 0 <= str_pool s.
Proof. destruct s as [s|]; [|done]. cbn. pose proof (zlen_nonneg s). lia. Qed.
Lemma rdata_pool_nonneg t d : rdata_ok t d -> 0 <= rdata_pool d.
Proof.
  destruct 1; cbn [rdata_pool]; repeat apply Z.add_nonneg_nonneg; try apply str_pool_nonneg;
    try apply zlen_nonneg; lia.
Qed.

(** The side conditions of the rules, and the fields. *)
Ltac nonneg :=
  cbn [str_pool rdata_pool];
  repeat match goal with
  | |- 0 <= _ + _ => apply Z.add_nonneg_nonneg
  | |- 0 <= zlen _ => apply zlen_nonneg
  | |- 0 <= str_pool _ => apply str_pool_nonneg
  | |- 0 <= _ => lia
  end.
Ltac rt_side :=
  match goal with
  | |- 0 <= _ => nonneg
  | |- Extends _ _ => extends
  | |- rt (write_uint16 _) _ _ _ => by apply rt_uint16
  | |- rt (write_uint32 _) _ _ _ => by apply rt_uint32
  | |- rt (encode_domain _) _ _ _ => by apply rt_domain
  | |- rt (encode_cstr _) _ _ _ => by apply rt_string
  end.
(** The first field of a sequence holds [a]. *)
Ltac rt_field a := apply (rt_seq _ _ _ _ a); try rt_side.

(** Go through a record field by field. *)
Ltac rt_start := first
  [ apply rt_econtext | apply rt_need | apply rt_assert; intros _ | apply rt_ptr; cbv beta ].

Lemma rt_rr_domain c : domain_ok c ->
  rt (encode_domain (Some c)) (fun _ => c ← read_domain; cret (R_CNAME c)) (R_CNAME (Some c))
     (rdata_pool (R_CNAME (Some c))).
Proof. intros Hc. by apply (rt_ret _ read_domain R_CNAME), rt_domain. Qed.

Lemma rt_rr_minfo r e : domain_ok r -> domain_ok e ->
  rt (encode_rr_minfo (Some r) (Some e)) (fun _ => decode_rr_minfo) (R_MINFO (Some r) (Some e))
     (rdata_pool (R_MINFO (Some r) (Some e))).
Proof.
  intros Hr He. unfold encode_rr_minfo, decode_rr_minfo. repeat rt_start.
  apply rt_dcontext; try rt_side.
  rt_field (Some r).
  by apply (rt_ret _ _ (R_MINFO (Some r))), rt_domain.
Qed.

Lemma rt_ext {A} k e (d d' : Z -> D A) a u :
  Extends k e -> (forall n s, k <= n -> d n s = d' n s) -> rt e d' a u -> rt e d a u.
Proof.
  intros He Hd Hr s s' Hs Ha Hh Hl Hsg. destruct (Hr s s' Hs Ha Hh Hl Hsg) as [? Hf].
  destruct (He _ _ _ Hs) as (bs & Hbs & Hn). split; [done|]. intros free ? ?.
  rewrite Hd; [by apply Hf|]. rewrite Hbs, zlen_app. lia.
Qed.

Lemma codec_bind_ext {S A B} (c : Codec S A) (f g : A -> Codec S B) s :
  (forall a s, f a s = g a s) -> (c ≫= f) s = (c ≫= g) s.
Proof. intros H'. unfold mbind, codec_bind. destruct (c s) as [[? []]|]; [done|apply H'|done]. Qed.

Lemma rt_address (g : mem -> dns_rdata) a n : zlen a = n -> 1 <= n ->
  rt (econtext_okay;; need n;; copy_bytes a n)
     (fun len => dcontext_okay;; return_if (negb (len =? n)) RCODE_FORMAT_ERROR;;
        p ← cget d_ptr; x ← peekn p n; advance n;; cret (g x)) (g a) 0.
Proof.
  intros Hn H1. apply (rt_leaf _ a).
  - intros s s' Hr. cinv. by eapply copy_bytes_inv.
  - intros off free Hb Hl Hf Hf64. pose proof (proj1 Hb). subst n.
    erewrite codec_bind_ok by (apply dcontext_okay_at; lia).
    rewrite Z.eqb_refl. erewrite codec_bind_ok by done. erewrite codec_bind_ok by done.
    erewrite codec_bind_ok by (by apply (peekn_at m L HL)).
    erewrite codec_bind_ok by (apply advance_at; lia). by rewrite Z.sub_0_r.
Qed.

Lemma rt_rr_hinfo c o : no_nul c -> no_nul o ->
  rt (encode_rr_hinfo (Some c) (Some o)) (fun _ => decode_rr_hinfo) (R_HINFO (Some c) (Some o))
     (rdata_pool (R_HINFO (Some c) (Some o))).
Proof.
  intros Hc Ho. unfold encode_rr_hinfo, decode_rr_hinfo. repeat rt_start.
  apply rt_dcontext; try rt_side.
  rt_field (Some c).
  by apply (rt_ret _ _ (R_HINFO (Some c))), rt_string.
Qed.

Lemma rt_rr_mx p e : u16_ok p -> domain_ok e -> e <> [dot] ->
  rt (encode_rr_mx p (Some e)) decode_rr_mx (R_MX p (Some e)) (rdata_pool (R_MX p (Some e))).
Proof.
  intros Hp He Hne. unfold encode_rr_mx, decode_rr_mx. repeat rt_start.
  apply rt_dcontext; try rt_side.
  apply (rt_check (2 + 2) (fun n => zltb n 4)).
  - apply extends_bind; [apply _|]. intros _ s s' r. by apply encode_domain_extends2.
  - intros n Hn. apply bool_decide_eq_false_2. lia.
  - cbn [rdata_pool]. change (str_pool (Some e)) with (0 + str_pool (Some e)).
    rt_field p.
    by apply (rt_ret _ _ (R_MX p)), rt_domain.
Qed.

Lemma rt_rr_srv p w po t : u16_ok p -> u16_ok w -> u16_ok po -> domain_ok t ->
  rt (encode_rr_srv p w po (Some t)) decode_rr_srv (R_SRV p w po (Some t))
     (rdata_pool (R_SRV p w po (Some t))).
Proof.
  intros Hp Hw Hpo Ht. unfold encode_rr_srv, decode_rr_srv. repeat rt_start.
  apply rt_dcontext; try rt_side.
  apply (rt_check (2 + (2 + (2 + 1))) (fun n => zltb n 7)); [apply _|..].
  - intros n Hn. apply bool_decide_eq_false_2. lia.
  - cbn [rdata_pool]. change (str_pool (Some t)) with (0 + (0 + (0 + str_pool (Some t)))).
    rt_field p.
    rt_field w.
    rt_field po.
    by apply (rt_ret _ _ (R_SRV p w po)), rt_domain.
Qed.

Lemma rt_rr_naptr o p f s r rp : u16_ok o -> u16_ok p ->
  no_nul f -> no_nul s -> no_nul r -> domain_ok rp -> forall class,
  rt (encode_rr_naptr RR_NAPTR class o p (Some f) (Some s) (Some r) (Some rp)) decode_rr_naptr
     (R_NAPTR o p (Some f) (Some s) (Some r) (Some rp))
     (rdata_pool (R_NAPTR o p (Some f) (Some s) (Some r) (Some rp))).
Proof.
  intros Ho Hp Hf Hs Hr Hrp class. unfold encode_rr_naptr, decode_rr_naptr. repeat rt_start.
  apply rt_dcontext; try rt_side.
  apply (rt_check (2 + (2 + (1 + (1 + (1 + 1))))) (fun n => zltb n 4)); [apply _|..].
  - intros n Hn. apply bool_decide_eq_false_2. lia.
  - cbn [rdata_pool]. change (?a + ?b) with (0 + (0 + (a + b))).
    rt_field o. rt_field p.
    rt_field (Some f).
    rt_field (Some s).
    rt_field (Some r).
    by apply (rt_ret _ _ (R_NAPTR o p (Some f) (Some s) (Some r))), rt_domain.
Qed.

Lemma rt_rr_soa mn rn se rf rt' ex mi : domain_ok mn -> domain_ok rn ->
  u32_ok se -> u32_ok rf -> u32_ok rt' -> u32_ok ex -> u32_ok mi ->
  rt (encode_rr_soa (Some mn) (Some rn) se rf rt' ex mi) decode_rr_soa
     (R_SOA (Some mn) (Some rn) se rf rt' ex mi)
     (rdata_pool (R_SOA (Some mn) (Some rn) se rf rt' ex mi)).
Proof.
  intros Hm Hr Hse Hrf Hrt Hex Hmi. unfold encode_rr_soa, decode_rr_soa. repeat rt_start.
  apply rt_dcontext; try rt_side.
  apply (rt_ext 20 _ _ (fun _ =>
    mname ← read_domain; rname ← read_domain;
    serial ← read_uint32; refresh ← read_uint32; retry ← read_uint32;
    expire ← read_uint32; minimum ← read_uint32;
    cret (R_SOA mname rname serial refresh retry expire minimum))).
  - eapply extends_le; [apply _|lia].
  - intros n s Hn. do 2 (apply codec_bind_ext; intros ? ?).
    by rewrite (codec_bind_ok _ _ _ _ tt) by (apply return_if_not, bool_decide_eq_false_2; lia).
  - cbn [rdata_pool].
    replace (str_pool (Some rn)) with (str_pool (Some rn) + (0 + (0 + (0 + (0 + 0))))) by lia.
    rt_field (Some mn).
    rt_field (Some rn).
    apply rt_need.
    rt_field se. rt_field rf. rt_field rt'. rt_field ex.
    by apply (rt_ret _ _ (R_SOA (Some mn) (Some rn) se rf rt' ex)), rt_uint32.
Qed.

Lemma rt_rdata type class d : rdata_ok type d ->
  rt (encode_rdata type class d) (fun n => decode_rdata type n 0 0 false) d (rdata_pool d).
Proof.
  intros Hd. destruct Hd.
  - by apply (rt_address R_A).
  - by apply (rt_address R_AAAA).
  - by apply rt_rr_soa.
  - by apply rt_rr_srv.
  - by apply rt_rr_naptr.
  - rewrite encode_rdata_minfo by done.
    apply (rt_ext 0 _ _ (fun _ => decode_rr_minfo)); [unfold encode_rr_minfo; rt_side| |by apply rt_rr_minfo].
    intros. by rewrite decode_rdata_minfo.
  - rewrite encode_rdata_mx by done.
    apply (rt_ext 0 _ _ decode_rr_mx); [unfold encode_rr_mx; rt_side| |by apply rt_rr_mx].
    intros. by rewrite decode_rdata_mx.
  - rewrite encode_rdata_hinfo by done.
    apply (rt_ext 0 _ _ (fun _ => decode_rr_hinfo)); [unfold encode_rr_hinfo; rt_side| |by apply rt_rr_hinfo].
    intros. by rewrite decode_rdata_hinfo.
  - rewrite encode_rdata_txt by done.
    apply (rt_ext 0 _ _ decode_rr_txt); [| |by apply rt_txt].
    + intros s s' r (-> & _)%encode_rr_txt_inv. eexists. split; [done|apply zlen_nonneg].
    + intros. by rewrite decode_rdata_txt.
  - rewrite encode_rdata_domain by done.
    apply (rt_ext 0 _ _ (fun _ => c ← read_domain; cret (R_CNAME c))); [rt_side| |by apply rt_rr_domain].
    intros. by rewrite decode_rdata_domain.
Qed.

Lemma rt_question q : question_ok q ->
  rt (encode_question q) (fun _ => decode_question) q (question_pool q).
Proof.
  destruct q as [name type class]. intros [(n & [= ->] & Hn) Ht]. cbn in Ht.
  unfold encode_question, decode_question, question_pool. cbn [q_name q_type q_class].
  apply rt_econtext, rt_ptr, rt_assert; intros Hopt%negb_true_iff.
  apply rt_assert; intros H1. apply rt_assert; intros H4.
  unfold zleb in H1, H4. apply bool_decide_eq_true in H1, H4.
  apply rt_dcontext; try rt_side.
  apply (rt_eq _ _ (mkQuestion (Some n) type class) _ (str_pool (Some n) + (0 + 0))); [|done|cbn; lia].
  rt_field (Some n). apply rt_need, rt_left; try rt_side.
  rt_field type.
  apply (rt_ext 0 _ _ (fun _ => class ← read_uint16; cret (mkQuestion (Some n) type class)));
    [rt_side| |].
  - intros k s _. apply codec_bind_ext. intros c s'.
    by rewrite (codec_bind_ok _ _ s' s' tt) by by apply return_if_not.
  - apply (rt_ret _ _ (mkQuestion (Some n) type)), rt_uint16. split; lia.
Qed.
End RoundTrip.

(** ** Answers *)

Lemma rdata_type t d : rdata_ok t d -> u16_ok t /\ (t =? RR_OPT) = false.
Proof.
  assert (Hl : forall l t, forallb (fun t => zleb 0 t && zltb t (2 ^ 16) && negb (t =? RR_OPT)) l = true ->
    bool_decide (t ∈ l) = true -> u16_ok t /\ (t =? RR_OPT) = false).
  { intros l t' H Hin%bool_decide_eq_true%list_elem_of_In. rewrite forallb_forall in H.
    specialize (H _ Hin). unfold zleb, zltb in H.
    rewrite !andb_true_iff, !bool_decide_eq_true, negb_true_iff in H. unfold u16_ok. tauto. }
  destruct 1; try (by split; [by vm_compute|]); eapply Hl; try eassumption; by vm_compute.
Qed.

Lemma encode_rdata_extends `{FloatText} type class d : rdata_ok type d -> Extends 0 (encode_rdata type class d).
Proof.
  destruct 1.
  - change (Extends 0 (encode_rr_a m)). unfold encode_rr_a. extends.
  - change (Extends 0 (encode_rr_aaaa m)). unfold encode_rr_aaaa. extends.
  - change (Extends 0 (encode_rr_soa (Some mn) (Some rn) se rf ry ex mi)).
    unfold encode_rr_soa. extends.
  - change (Extends 0 (encode_rr_srv p w po (Some t))). unfold encode_rr_srv. extends.
  - change (Extends 0 (encode_rr_naptr RR_NAPTR class o p (Some f) (Some s) (Some r) (Some rp))).
    unfold encode_rr_naptr. extends.
  - rewrite encode_rdata_minfo by done. unfold encode_rr_minfo. extends.
  - rewrite encode_rdata_mx by done. unfold encode_rr_mx. extends.
  - rewrite encode_rdata_hinfo by done. unfold encode_rr_hinfo. extends.
  - rewrite encode_rdata_txt by done. intros st st' r (-> & _)%encode_rr_txt_inv.
    eexists. split; [done|apply zlen_nonneg].
  - rewrite encode_rdata_domain by done. extends.
Qed.

Section Answers.
Context `{FloatText} (m : mem) (L cap : Z) (edns : bool) (rc : Z).
Context (HL : L <= zlen m) (HL14 : L < 2 ^ 14).
Local Abbreviation rt := (rt m L cap edns rc None).

(** The length field is filled in after the data it counts. *)
Lemma patched p out a b : length out = p ->
  take p (out ++ [nul; nul] ++ b) ++ a ++ drop (p + 2) (out ++ [nul; nul] ++ b) = out ++ a ++ b.
Proof.
  intros <-. rewrite take_app_length. f_equal. f_equal.
  rewrite app_assoc. by rewrite drop_app_length' by (rewrite length_app; cbn; lia).
Qed.

Lemma agree_hole out v b : agree m None (out ++ be16 v ++ b) ->
  agree m (Some (length out)) (out ++ [nul; nul] ++ b).
Proof.
  intros Ha i c Hi Hh. apply Ha; [|done]. destruct Hh as [Hh|Hh].
  - by rewrite lookup_app_l in Hi |- * by done.
  - rewrite !lookup_app_r in Hi |- * by (cbn; lia). done.
Qed.

Lemma rt_answer a : answer_ok a -> rt (encode_answer a) (fun _ => decode_answer) a (answer_pool a).
Proof.
  destruct a as [name type class ttl d]. intros [(n & [= ->] & Hn) Hc Ht Hd]. cbn in Hc, Ht, Hd.
  intros s s' Hr Ha _ Hl Hs. unfold encode_answer, opt_header, patch in Hr.
  cbn [a_name a_type a_class a_ttl a_data] in Hr.
  destruct (rdata_type _ _ Hd) as [Hty Hopt]. rewrite Hopt in Hr. cinv.
  repeat match goal with u : unit |- _ => destruct u end.
  cbn [set_out e_out e_segs] in Ha, Hl |- *.
  set (s6 := set_size _ _) in *.
  destruct (encode_domain_extends _ _ _ _ E0) as (b1 & Hb1 & H1).
  destruct (extends_write_uint16 _ _ _ _ E2) as (b2 & Hb2 & H2).
  destruct (extends_write_uint16 _ _ _ _ E3) as (b3 & Hb3 & H3).
  destruct (extends_write_uint32 _ _ _ _ E4) as (b4 & Hb4 & H4).
  destruct (encode_rdata_extends _ _ _ Hd _ _ _ E8) as (b5 & Hb5 & _).
  change (e_out s6) with (e_out s5 ++ [nul; nul]) in Hb5. rewrite <- app_assoc in Hb5.
  assert (Hv : zlen (e_out s9) - (zlen (e_out s5) + 2) = zlen b5).
  { rewrite Hb5, !zlen_app. change (zlen [nul; nul]) with 2. lia. }
  rewrite Hv, Hb5, patched in Ha, Hl |- * by done.
  pose proof (agree_hole _ _ _ Ha) as Hah. rewrite <- Hb5 in Hah.
  pose proof (agree_bytes _ None _ _ _ I Ha) as Hlen.
  rewrite !zlen_app in Hl |- *. change (zlen (be16 (zlen b5))) with 2 in *.
  pose proof (zlen_nonneg b5). pose proof (zlen_nonneg (e_out s)).
  apply agree_prefix in Ha. pose proof Ha as Ha4. rewrite Hb4 in Ha4.
  apply agree_prefix in Ha4. pose proof Ha4 as Ha3. rewrite Hb3 in Ha3.
  apply agree_prefix in Ha3. pose proof Ha3 as Ha2. rewrite Hb2 in Ha2. apply agree_prefix in Ha2.
  pose proof (f_equal zlen Hb1) as L1. pose proof (f_equal zlen Hb2) as L2.
  pose proof (f_equal zlen Hb3) as L3. pose proof (f_equal zlen Hb4) as L4.
  rewrite zlen_app in L1, L2, L3, L4.
  destruct (rt_domain m L cap edns rc None HL HL14 n Hn _ _ E0) as [Hs1 D1]; try done; [lia|].
  destruct (rt_uint16 m L cap edns rc None HL HL14 type Hty _ _ E2) as [Hs3 D2]; try done; [lia|].
  destruct (rt_uint16 m L cap edns rc None HL HL14 class Hc _ _ E3) as [Hs4 D3]; try done; [lia|].
  destruct (rt_uint32 m L cap edns rc None HL HL14 ttl Ht _ _ E4) as [Hs5 D4]; try done; [lia|].
  destruct (rt_rdata m L cap edns rc (Some (length (e_out s5))) HL HL14 type class d Hd _ _ E8)
    as [Hs9 D9]; try done.
  { subst s6. cbn. rewrite length_app. cbn. lia. }
  { rewrite Hb5, !zlen_app. change (zlen [nul; nul]) with 2. lia. }
  split; [done|]. intros free Hf Hf64.
  unfold answer_pool in Hf |- *. cbn [a_name a_data str_pool] in Hf |- *.
  pose proof (rdata_pool_nonneg _ _ Hd). pose proof (zlen_nonneg n).
  assert (L6 : zlen (e_out s6) = zlen (e_out s5) + 2).
  { subst s6. cbn [set_size set_out e_out]. by rewrite zlen_app. }
  unfold decode_answer. erewrite codec_bind_ok by (apply dcontext_okay_at; lia).
  erewrite codec_bind_ok by (apply D1; lia). erewrite codec_bind_ok by done.
  erewrite codec_bind_ok by (apply return_if_not, bool_decide_eq_false_2; cbn; lia).
  erewrite codec_bind_ok by (apply D2; lia).
  unfold decode_header. rewrite Hopt.
  rewrite (codec_bind_ok _ _ _ (rdr m L cap edns rc (zlen (e_out s5)) (free - (zlen n + 1)))
    (class, ttl, 0, 0, false)).
  2:{ erewrite codec_bind_ok by (apply D3; lia). erewrite codec_bind_ok by (apply D4; lia).
      unfold cret. do 3 f_equal. lia. }
  cbn beta iota.
  erewrite codec_bind_ok by (apply (read_uint16_at m L cap edns rc HL HL14 _ _ (zlen b5)); [split; lia|done|lia]).
  erewrite codec_bind_ok by done. unfold id. cbn [d_len d_ptr rdr].
  erewrite codec_bind_ok.
  2:{ apply return_if_not, bool_decide_eq_false_2. rewrite wrap64_id by lia. lia. }
  specialize (D9 (free - (zlen n + 1)) ltac:(lia) ltac:(lia)).
  rewrite L6 in D9. rewrite Hv in D9. erewrite codec_bind_ok by exact D9.
  unfold cret. do 3 f_equal; lia.
Qed.

Lemma answer_extends a : answer_ok a -> Extends 0 (encode_answer a).
Proof.
  intros [_ _ _ Hd] s s' r Hr. unfold encode_answer, opt_header, patch in Hr.
  destruct (rdata_type _ _ Hd) as [_ Hopt]. rewrite Hopt in Hr. cinv.
  destruct (encode_domain_extends _ _ _ _ E0) as (b1 & Hb1 & H1).
  destruct (extends_write_uint16 _ _ _ _ E2) as (b2 & Hb2 & H2).
  destruct (extends_write_uint16 _ _ _ _ E3) as (b3 & Hb3 & H3).
  destruct (extends_write_uint32 _ _ _ _ E4) as (b4 & Hb4 & H4).
  destruct (encode_rdata_extends _ _ _ Hd _ _ _ E8) as (b5 & Hb5 & _).
  cbn [set_out set_size e_out] in Hb5 |- *. rewrite Hb5, <- app_assoc, patched by done.
  rewrite Hb4, Hb3, Hb2, Hb1, <- !app_assoc. eexists. split; [done|apply zlen_nonneg].
Qed.

(** ** Sections and queries *)

Lemma zsum_nonneg {A} (f : A -> Z) l : (forall x, x ∈ l -> 0 <= f x) -> 0 <= zsum f l.
Proof.
  induction l as [|x l IH]; intros Hf; [done|]. cbn [zsum foldr].
  apply Z.add_nonneg_nonneg; [apply Hf, list_elem_of_here|].
  apply IH. intros y Hy. apply Hf. by apply list_elem_of_further.
Qed.

Lemma rt_all {A} (e : A -> E unit) (d : D A) (pool : A -> Z) l :
  (forall x, x ∈ l -> Extends 0 (e x) /\ 0 <= pool x /\ rt (e x) (fun _ => d) x (pool x)) ->
  Extends 0 (encode_all e l) /\ rt (encode_all e l) (fun _ => repeat_n (length l) d) l (zsum pool l).
Proof.
  induction l as [|x l IH]; intros Hl.
  - split; [apply extends_cret|]. intros s s' Hr _ _ _ Hs. cbn [encode_all] in Hr. cinv.
    split; [exact Hs|].
    intros free _ _. cbn. unfold cret. by rewrite Z.sub_0_r.
  - destruct (Hl x) as (Hx & Hp & Hrt); [apply list_elem_of_here|].
    destruct IH as [He Hr]; [intros y Hy; apply Hl; by apply list_elem_of_further|].
    cbn [encode_all length repeat_n zsum foldr]. split.
    + apply (extends_le (0 + 0)); [by apply extends_bind|lia].
    + apply rt_seq with (a := x); try done.
      * apply zsum_nonneg. intros y Hy. apply Hl. by apply list_elem_of_further.
      * by apply rt_ret with (g := cons x).
Qed.

Lemma question_pool_nonneg q : 0 <= question_pool q.
Proof. apply str_pool_nonneg. Qed.
Lemma answer_pool_nonneg a : answer_ok a -> 0 <= answer_pool a.
Proof.
  intros [_ _ _ Hd]. apply Z.add_nonneg_nonneg; [apply str_pool_nonneg|by eapply rdata_pool_nonneg].
Qed.
End Answers.

(** ** The header *)

Lemma header_opcode op qr aa tc rd : 0 <= op <= 5 ->
  let b := of_be [chr (Z.lor (Z.shiftl (Z.land op 15) 3)
        (Z.lor (flag (negb qr) 128) (Z.lor (flag aa 4) (Z.lor (flag tc 2) (flag rd 1)))))] in
  Z.land (Z.shiftr b 3) 15 = op /\ negb (Z.land b 128 =? 128) = qr /\
  (Z.land b 4 =? 4) = aa /\ (Z.land b 2 =? 2) = tc /\ (Z.land b 1 =? 1) = rd.
Proof.
  intros H. assert (Hop : op ∈ [0; 1; 2; 3; 4; 5]).
  { repeat (rewrite elem_of_cons). lia. }
  clear H. repeat (apply elem_of_cons in Hop as [->|Hop]); [..|inversion Hop];
    destruct qr, aa, tc, rd; vm_compute; auto.
Qed.

Lemma header_rcode rc ra z ad cd : 0 <= rc <= 15 ->
  let b := of_be [chr (Z.lor (Z.land rc 15)
        (Z.lor (flag ra 128) (Z.lor (flag z 64) (Z.lor (flag ad 32) (flag cd 16)))))] in
  Z.land b 15 = rc /\ (Z.land b 128 =? 128) = ra /\ (Z.land b 64 =? 64) = z /\
  (Z.land b 32 =? 32) = ad /\ (Z.land b 16 =? 16) = cd.
Proof.
  intros H.
  assert (Hrc : rc ∈ [0; 1; 2; 3; 4; 5; 6; 7; 8; 9; 10; 11; 12; 13; 14; 15]).
  { repeat (rewrite elem_of_cons). lia. }
  clear H. repeat (apply elem_of_cons in Hrc as [->|Hrc]); [..|inversion Hrc];
    destruct ra, z, ad, cd; vm_compute; auto 10.
Qed.

(** ** Return codes: an action that stops gives a code other than RCODE_OKAY *)

Class Coded {A} (e : E A) : Prop :=
  coded : forall s s' rc, e s = Ok (s', inl rc) -> rc <> RCODE_OKAY.

#[global] Instance coded_bind {A B} (e : E A) (f : A -> E B) :
  Coded e -> (forall a, Coded (f a)) -> Coded (e ≫= f).
Proof.
  intros He Hf s s' rc. unfold mbind, codec_bind.
  destruct (e s) as [[s1 [c|a]]|] eqn:E1; [|apply Hf|done].
  intros [= <- <-]. by eapply He.
Qed.

(** Steps that never stop, and those that stop with a given code. *)
Lemma coded_never {A} (e : E A) : (forall s s' rc, e s <> Ok (s', inl rc)) -> Coded e.
Proof. intros H s s' rc Hr. by apply H in Hr. Qed.
#[global] Instance coded_cret {A} (a : A) : Coded (cret a).
Proof. by apply coded_never. Qed.
#[global] Instance coded_cget {A} (f : edns_context -> A) : Coded (cget f).
Proof. by apply coded_never. Qed.
#[global] Instance coded_cmodify f : Coded (cmodify f).
Proof. by apply coded_never. Qed.
#[global] Instance coded_cfault {A} f : Coded (cfault f : E A).
Proof. by apply coded_never. Qed.
#[global] Instance coded_cassert b : Coded (cassert b).
Proof. apply coded_never. unfold cassert. by destruct b. Qed.
#[global] Instance coded_cassert_ptr {A} (p : option A) : Coded (cassert_ptr p).
Proof. apply coded_never. unfold cassert_ptr. by destruct p. Qed.
#[global] Instance coded_emit bs : Coded (emit bs).
Proof. apply coded_never. intros s s' rc. unfold emit. by destruct (zleb _ _). Qed.
Lemma coded_code {A} rc : rc <> RCODE_OKAY -> Coded (code_ rc : E A).
Proof. by intros H s s' rc' [= _ <-]. Qed.
Lemma coded_return_if b rc : rc <> RCODE_OKAY -> Coded (return_if b rc).
Proof. intros H s s' rc'. unfold return_if. destruct b; [by intros [= _ <-]|done]. Qed.

Ltac coded :=
  repeat first
    [ apply coded_bind; [|intros ?] | apply _
    | apply coded_code; discriminate | apply coded_return_if; discriminate
    | match goal with
      | |- Coded (if ?b then _ else _) => destruct b
      | |- Coded (match ?x with _ => _ end) => destruct x
      end ].

#[global] Instance coded_need n : Coded (need n).
Proof. unfold need. coded. Qed.
#[global] Instance coded_econtext_okay : Coded econtext_okay.
Proof. unfold econtext_okay. coded. Qed.
#[global] Instance coded_shrink n : Coded (shrink n).
Proof. unfold shrink. coded. Qed.
#[global] Instance coded_write_uint16 v : Coded (write_uint16 v).
Proof. unfold write_uint16. coded. Qed.
#[global] Instance coded_write_uint32 v : Coded (write_uint32 v).
Proof. unfold write_uint32. coded. Qed.
#[global] Instance coded_copy_bytes m n : Coded (copy_bytes m n).
Proof. unfold copy_bytes. coded. Qed.
#[global] Instance coded_encode_labels k : forall name, Coded (encode_labels k name).
Proof. induction k as [|k IH]; intros name; cbn [encode_labels]; unfold encode_segment; coded. Qed.
#[global] Instance coded_encode_domain name : Coded (encode_domain name).
Proof. unfold encode_domain. coded. Qed.
#[global] Instance coded_encode_string t n : Coded (encode_string t n).
Proof. unfold encode_string. coded. Qed.
#[global] Instance coded_encode_cstr s : Coded (encode_cstr s).
Proof. unfold encode_cstr. coded. Qed.
#[global] Instance coded_encode_chunks k : forall p n, Coded (encode_chunks k p n).
Proof. induction k as [|k IH]; intros p n; cbn [encode_chunks]; coded. Qed.
#[global] Instance coded_eloc_scale a b : Coded (eloc_scale a b).
Proof. unfold eloc_scale. coded. Qed.
#[global] Instance coded_encode_opts l : Coded (encode_opts l).
Proof.
  induction l as [|o l IH]; cbn [encode_opts];
    unfold encode_edns0rr_nsid, encode_edns0rr_raw; coded.
Qed.
#[global] Instance coded_encode_rdata `{FloatText} type class d : Coded (encode_rdata type class d).
Proof.
  unfold encode_rdata, encode_rr_a, encode_rr_soa, encode_rr_naptr, encode_rr_aaaa, encode_rr_srv,
    encode_rr_wks, encode_rr_gpos, encode_double, encode_rr_loc, encode_rr_opt, encode_rr_minfo,
    encode_rr_mx, encode_rr_hinfo, encode_rr_txt, encode_rr_x. coded.
Qed.
#[global] Instance coded_encode_sections `{FloatText} q : Coded (encode_sections q).
Proof.
  assert (Hall : forall A (e : A -> E unit) l, (forall x, Coded (e x)) -> Coded (encode_all e l)).
  { intros A e l He. induction l as [|x l IH]; cbn [encode_all]; coded. }
  assert (forall a, Coded (encode_answer a)).
  { intros a. unfold encode_answer, opt_header, patch. coded. }
  assert (forall x, Coded (encode_question x)) by (intros x; unfold encode_question; coded).
  unfold encode_sections, encode_questions, encode_answers. coded; by apply Hall.
Qed.

(** What is known after a successful [dns_encode]. *)
Lemma dns_encode_inv `{FloatText} plen q m n : dns_encode plen q = Ok (RCODE_OKAY, m, n) ->
  exists s', encode_sections q (mkE (header_bytes q) (plen - HEADER) plen [] false (dq_rcode q)) =
      Ok (s', inr tt) /\
    m = e_out s' ++ replicate (Z.to_nat (plen - zlen (e_out s'))) nul /\ n = zlen (e_out s') /\
    0 <= dq_id q <= UINT16_MAX /\ dq_opcode q <= 5 /\ dq_rcode q <= 15 /\
    qdcount q <= UINT16_MAX /\ ancount q <= UINT16_MAX /\ nscount q <= UINT16_MAX /\
    arcount q <= UINT16_MAX.
Proof.
  unfold dns_encode. destruct (zleb HEADER plen); [|done]. cbn [negb].
  set (s := mkE _ _ _ _ _ _). intros Hr.
  destruct (query_okay q s) as [[s1 [c|u]]|] eqn:Eq; cbn in Hr; [exfalso| |done].
  { unfold query_okay, mbind, codec_bind, cassert in Eq. repeat case_match; simplify_eq. }
  unfold query_okay in Eq. cinv.
  repeat match goal with E : zleb _ _ = true |- _ => apply bool_decide_eq_true in E end.
  destruct (encode_sections q s) as [[s' [c|[]]]|] eqn:Es; cbn in Hr; [|..|done].
  - injection Hr as -> _ _. by apply coded in Es.
  - injection Hr as <- <-. exists s'. by split_and!.
Qed.

(** ** The pool *)

(** Masking with MEM_MASK rounds down to a multiple of 8. *)
Lemma mask_mem x : 0 <= x < 2 ^ 64 -> Z.land x (2 ^ 64 - 8) = 8 * (x / 8).
Proof.
  intros H. change (2 ^ 64 - 8) with (Z.shiftl (Z.ones 61) 3).
  transitivity (Z.shiftl (Z.land (Z.shiftr x 3) (Z.ones 61)) 3).
  - apply Z.bits_inj'. intros n Hn. rewrite Z.land_spec. destruct (Z_lt_dec n 3).
    + by rewrite !Z.shiftl_spec_low, andb_false_r by lia.
    + rewrite !Z.shiftl_spec, Z.land_spec, Z.shiftr_spec by lia. by replace (n - 3 + 3) with n by lia.
  - rewrite Z.land_ones, Z.shiftl_mul_pow2, Z.shiftr_div_pow2 by lia. change (2 ^ 3) with 8.
    rewrite Z.mod_small; [lia|]. split; [apply Z.div_pos; lia|apply Z.div_lt_upper_bound; lia].
Qed.

Section Pool.
Context (m : mem) (L cap : Z) (edns : bool) (rc : Z).
Local Abbreviation rdr := (rdr m L cap edns rc).

Lemma align_aligned off free : 8 <= free < 2 ^ 64 -> free mod 8 = 0 ->
  align_memory (rdr off free) = Ok (rdr off free, inr true).
Proof.
  intros H H8. unfold align_memory. erewrite codec_bind_ok by done.
  erewrite codec_bind_ok by (apply cassert_ok, bool_decide_eq_true_2; cbn; lia).
  unfold zltb, MEM_ALIGN. cbn [d_free DnsNames.rdr]. rewrite bool_decide_false by lia.
  rewrite mask_mem by lia. pose proof (Z.div_mod free 8).
  by replace (8 * (free / 8) =? free) with true by (symmetry; apply Z.eqb_eq; lia).
Qed.

(** A structure is carved off the front of an aligned pool. *)
Lemma alloc_aligned off free size : 8 <= free < 2 ^ 64 -> free mod 8 = 0 -> 0 <= size <= free ->
  alloc_struct size (rdr off free) = Ok (rdr off (free - size), inr (Some (cap - free))).
Proof.
  intros H H8 Hs. unfold alloc_struct. erewrite codec_bind_ok by done.
  erewrite codec_bind_ok by (apply cassert_ok, bool_decide_eq_true_2; cbn; lia).
  erewrite codec_bind_ok by by apply align_aligned. erewrite codec_bind_ok by done.
  unfold zltb. cbn [d_free DnsNames.rdr negb orb]. rewrite bool_decide_false by lia.
  erewrite codec_bind_ok by done. erewrite codec_bind_ok by done.
  unfold cret, set_dest, DnsNames.rdr. cbn. do 3 f_equal. lia.
Qed.

(** The four arrays, when there is room for them and a byte more. *)
Lemma alloc_sections_at off free qd an ns ar :
  0 <= qd -> 0 <= an -> 0 <= ns -> 0 <= ar ->
  sizeof_question * qd + sizeof_answer * (an + ns + ar) < free -> free < 2 ^ 64 ->
  (exists k, free = 8 * k) ->
  alloc_sections qd an ns ar (rdr off free) =
  Ok (rdr off (free - (sizeof_question * qd + sizeof_answer * (an + ns + ar))), inr tt).
Proof.
  intros Hq Ha Hn Hr Hf Hf64 [k ->]. unfold alloc_sections, sizeof_question, sizeof_answer in *.
  assert (H8 : forall j, (8 * j) mod 8 = 0) by (intros j; rewrite Z.mul_comm; by apply Z.mod_mul).
  erewrite codec_bind_ok by (apply alloc_aligned; [lia|apply H8|lia]).
  replace (8 * k - qd * 16) with (8 * (k - 2 * qd)) by lia.
  erewrite codec_bind_ok by (apply alloc_aligned; [lia|apply H8|lia]).
  replace (8 * (k - 2 * qd) - an * 96) with (8 * (k - 2 * qd - 12 * an)) by lia.
  erewrite codec_bind_ok by (apply alloc_aligned; [lia|apply H8|lia]).
  replace (8 * (k - 2 * qd - 12 * an) - ns * 96) with (8 * (k - 2 * qd - 12 * an - 12 * ns)) by lia.
  erewrite codec_bind_ok by (apply alloc_aligned; [lia|apply H8|lia]).
  unfold no_room. rewrite !bool_decide_false by done. rewrite !andb_false_r.
  unfold return_if. cbn [orb]. do 3 f_equal. lia.
Qed.
End Pool.

(** ** Whole queries *)

Section Queries.
Context `{FloatText}.

(** The sections as [dns_decode] reads them, the counts taken from the query. *)
Definition read_sections (q : dns_query_t) : D dns_query_t :=
  qs ← repeat_n (length (questions q)) decode_question;
  an ← repeat_n (length (answers q)) decode_answer;
  ns ← repeat_n (length (nameservers q)) decode_answer;
  edns ← cget d_edns;
  return_if edns RCODE_FORMAT_ERROR;;
  ar ← repeat_n (length (additional q)) decode_answer;
  rc ← cget d_rcode;
  cret (mkQuery (dq_id q) (dq_query q) (dq_opcode q) (dq_aa q) (dq_tc q) (dq_rd q)
          (dq_ra q) (dq_z q) (dq_ad q) (dq_cd q) rc qs an ns ar).

Lemma rt_sections m L cap q : L <= zlen m -> L < 2 ^ 14 -> query_ok q ->
  Extends 0 (encode_sections q) /\
  rt m L cap false (dq_rcode q) None (encode_sections q) (fun _ => read_sections q) q
     (zsum question_pool (questions q) + (zsum answer_pool (answers q) +
      (zsum answer_pool (nameservers q) + zsum answer_pool (additional q)))).
Proof.
  intros HL HL14 [_ _ Hqs Han Hns Har].
  assert (Hans : forall l, Forall answer_ok l ->
    Extends 0 (encode_answers l) /\ 0 <= zsum answer_pool l /\
    rt m L cap false (dq_rcode q) None (encode_answers l)
      (fun _ => repeat_n (length l) decode_answer) l (zsum answer_pool l)).
  { intros l Hl. rewrite Forall_forall in Hl.
    destruct (rt_all m L cap false (dq_rcode q) encode_answer decode_answer answer_pool l)
      as [He Hr].
    - intros x Hx%Hl. split; [by apply answer_extends|].
      split; [by apply answer_pool_nonneg|by apply rt_answer].
    - split; [done|]. split; [|done]. apply zsum_nonneg. intros x Hx%Hl.
      by apply answer_pool_nonneg. }
  destruct (Hans _ Han) as (Ean & Pan & Ran), (Hans _ Hns) as (Ens & Pns & Rns),
    (Hans _ Har) as (Ear & Par & Rar).
  destruct (rt_all m L cap false (dq_rcode q) encode_question decode_question
    question_pool (questions q)) as [Eqs Rqs].
  { intros x Hx. rewrite Forall_forall in Hqs. split; [|split].
    - unfold encode_question. extends.
    - apply question_pool_nonneg.
    - by apply rt_question, Hqs. }
  assert (Pqs : 0 <= zsum question_pool (questions q)).
  { apply zsum_nonneg. intros x _. apply question_pool_nonneg. }
  unfold encode_sections, encode_questions. split; [extends|].
  apply rt_seq with (a := questions q); [done|extends|done|lia|done|].
  apply rt_seq with (a := answers q); [done|extends|done|lia|done|].
  apply rt_seq with (a := nameservers q); [done|extends|done|lia|done|].
  intros s s' Hr Ha Hh Hl Hs. cinv. destruct (Rar _ _ Hr Ha Hh Hl Hs) as [? Hd].
  split; [done|]. intros free Hf Hf64.
  erewrite codec_bind_ok by done. erewrite codec_bind_ok by done.
  erewrite codec_bind_ok by by apply Hd. erewrite codec_bind_ok by done.
  by destruct q.
Qed.

Lemma query_strings q : query_ok q ->
  0 <= zsum question_pool (questions q) + (zsum answer_pool (answers q) +
       (zsum answer_pool (nameservers q) + zsum answer_pool (additional q))).
Proof.
  intros [_ _ _ Han Hns Har]. rewrite Forall_forall in Han, Hns, Har.
  repeat apply Z.add_nonneg_nonneg; apply zsum_nonneg; auto using answer_pool_nonneg.
  intros x _. apply question_pool_nonneg.
Qed.

Lemma sections_decoded q m rsize n : query_ok q ->
  0 <= dq_id q <= UINT16_MAX -> dq_opcode q <= 5 -> dq_rcode q <= 15 ->
  qdcount q <= UINT16_MAX -> ancount q <= UINT16_MAX -> nscount q <= UINT16_MAX ->
  arcount q <= UINT16_MAX -> rsize mod 8 = 0 -> rsize < 2 ^ 64 -> query_pool q < rsize ->
  decode_sections (header_bytes q ++ m) (mkD (header_bytes q ++ m) n HEADER (n - HEADER) 0 rsize rsize false 0) =
  read_sections q (rdr (header_bytes q ++ m) n rsize false (dq_rcode q) HEADER
    (rsize - (sizeof_query + sizeof_question * qdcount q +
              sizeof_answer * (ancount q + nscount q + arcount q)))).
Proof.
  intros Hq Hid Hop Hrc Hqd Han Hns Har H8 H64 Hpool.
  pose proof (query_strings q Hq) as Hstr. unfold query_pool in Hpool.
  set (strings := zsum question_pool _ + _) in *.
  assert (Hcount : 0 <= qdcount q /\ 0 <= ancount q /\ 0 <= nscount q /\ 0 <= arcount q)
    by (repeat split; apply zlen_nonneg).
  destruct Hcount as (Hq0 & Ha0 & Hn0 & Hr0).
  assert (Hk : exists k, rsize = 8 * k).
  { exists (rsize / 8). pose proof (Z.div_mod rsize 8). lia. }
  destruct Hk as [k ->]. clear H8.
  unfold sizeof_query, sizeof_question, sizeof_answer, UINT16_MAX in *.
  set (X := header_bytes q ++ m).
  assert (Hdq : of_be (take 2 (drop 4 X)) = qdcount q) by (apply of_be16; lia).
  assert (Hda : of_be (take 2 (drop 6 X)) = ancount q) by (apply of_be16; lia).
  assert (Hdn : of_be (take 2 (drop 8 X)) = nscount q) by (apply of_be16; lia).
  assert (Hdr : of_be (take 2 (drop 10 X)) = arcount q) by (apply of_be16; lia).
  assert (Hdi : of_be (take 2 (drop 0 X)) = dq_id q) by (apply of_be16; lia).
  destruct (header_opcode (dq_opcode q) (dq_query q) (dq_aa q) (dq_tc q) (dq_rd q))
    as (O1 & O2 & O3 & O4 & O5); [split; [apply Hq|done]|].
  destruct (header_rcode (dq_rcode q) (dq_ra q) (dq_z q) (dq_ad q) (dq_cd q))
    as (R1 & R2 & R3 & R4 & R5); [split; [apply Hq|done]|].
  unfold decode_sections, sizeof_query, sizeof_question, sizeof_answer.
  change (take 1 (drop 2 X)) with (take 1 (drop 2 (header_bytes q))).
  change (take 1 (drop 3 X)) with (take 1 (drop 3 (header_bytes q))).
  cbn [header_bytes be16 app take drop]. rewrite Hdq, Hda, Hdn, Hdr, Hdi.
  rewrite O1, O2, O3, O4, O5, R1, R2, R3, R4, R5. clear O1 O2 O3 O4 O5 R1 R2 R3 R4 R5.
  replace (mkD X n HEADER (n - HEADER) 0 (8 * k) (8 * k) false 0)
    with (rdr X n (8 * k) false 0 HEADER (8 * k)) by (unfold rdr; f_equal; lia).
  erewrite codec_bind_ok by (apply alloc_aligned; [lia| |lia]; rewrite Z.mul_comm; by apply Z.mod_mul).
  rewrite Z.sub_diag.
  erewrite codec_bind_ok by done. erewrite codec_bind_ok by done.
  change (set_d_rcode (dq_rcode q) (rdr X n (8 * k) false 0 HEADER (8 * k - 88)))
    with (rdr X n (8 * k) false (dq_rcode q) HEADER (8 * k - 88)).
  erewrite codec_bind_ok by (apply alloc_sections_at;
    [done..|unfold sizeof_question, sizeof_answer; lia|lia|exists (k - 11); lia]).
  unfold sizeof_question, sizeof_answer, read_sections, qdcount, ancount, nscount, arcount, zlen. rewrite !Nat2Z.id.
  match goal with |- _ (rdr _ _ _ _ _ _ ?x) = _ (rdr _ _ _ _ _ _ ?y) =>
    replace x with y by lia end.
  done.
Qed.

Lemma cond_true a b : a <= b -> zleb a b = true.
Proof. apply bool_decide_eq_true_2. Qed.
Lemma cond_false a b : b <= a -> zltb a b = false.
Proof. intros ?. apply bool_decide_eq_false_2. lia. Qed.

(** Decoding what was encoded. *)
Lemma dns_decode_encode plen q rsize m n rest :
  query_ok q -> rsize mod 8 = 0 -> rsize < 2 ^ 64 -> query_pool q < rsize ->
  dns_encode plen q = Ok (RCODE_OKAY, m, n) -> n < 2 ^ 14 ->
  dns_decode rsize (take (Z.to_nat n) m ++ rest) n = Ok (inr q).
Proof.
  intros Hq H8 H64 Hpool Henc Hn.
  apply dns_encode_inv in Henc
    as (s' & Hr & -> & -> & Hid & Hop & Hrc & Hqd & Han & Hns & Har).
  unfold zlen at 1. rewrite Nat2Z.id, take_app_length.
  set (M := e_out s' ++ rest). pose proof (zlen_nonneg rest).
  assert (HL : zlen (e_out s') <= zlen M) by (unfold M; rewrite zlen_app; lia).
  destruct (rt_sections M (zlen (e_out s')) rsize q HL Hn Hq) as [He Hrt].
  destruct (He _ _ _ Hr) as (bs & Hbs & Hbs0). cbn [e_out] in Hbs.
  destruct (Hrt _ _ Hr) as [_ Hd]; [| |lia| |].
  { intros i c Hi _. by apply lookup_app_l_Some. }
  { done. }
  { split; [cbn; lia|]. by intros i name off. }
  assert (HM : M = header_bytes q ++ (bs ++ rest)) by (unfold M; by rewrite Hbs, <- app_assoc).
  unfold dns_decode. pose proof (query_strings q Hq) as Hstr. unfold query_pool in Hpool.
  assert (Hst : sizeof_query <= sizeof_query + sizeof_question * qdcount q +
    sizeof_answer * (ancount q + nscount q + arcount q)).
  { pose proof (zlen_nonneg (questions q)). pose proof (zlen_nonneg (answers q)).
    pose proof (zlen_nonneg (nameservers q)). pose proof (zlen_nonneg (additional q)).
    unfold sizeof_question, sizeof_answer, qdcount, ancount, nscount, arcount. lia. }
  rewrite (cond_true sizeof_query rsize), (cond_false (zlen (e_out s')) HEADER).
  2:{ rewrite Hbs, zlen_app. change (zlen (header_bytes q)) with 12. unfold HEADER. lia. }
  2:{ lia. }
  cbn [negb].
  rewrite HM at 1 2. rewrite sections_decoded by done. rewrite <- HM.
  cbn [e_out] in Hd. change (zlen (header_bytes q)) with HEADER in Hd.
  change sizeof_query with 88 in *. rewrite Hd by lia. done.
Qed.

(** C10: What [dns_encode] writes, [dns_decode] reads back: if encoding a query
    with well-formed names, questions and records (A, AAAA, SOA, SRV, NAPTR,
    HINFO, TXT and the types made of names) gives RCODE_OKAY, then decoding
    the [n] bytes it produced, in a buffer that may hold more behind them and
    into a pool the query fits in, gives the same query: header flags,
    questions and all three record sections, with every compressed name
    expanded. *)
Theorem dns_round_trip plen q rsize m n rest :
  query_ok q -> rsize mod 8 = 0 -> rsize < 2 ^ 64 -> query_pool q < rsize ->
  dns_encode plen q = Ok (RCODE_OKAY, m, n) -> n < 2 ^ 14 ->
  dns_decode rsize (take (Z.to_nat n) m ++ rest) n = Ok (inr q).
Proof. apply dns_decode_encode. Qed.
End Queries.

(** A packet with an A record, an SRV record whose target repeats a name, and a
    TXT record. *)
Definition demo_float : FloatText := {| printf_f := fun _ => []; strtod := fun _ => None |}.
Definition demo_query : dns_query_t :=
  mkQuery 7 false OP_QUERY true false true true false false false RCODE_OKAY
    [mkQuestion (Some $"a.hn.local.") RR_ANY CLASS_IN]
    [mkAnswer (Some $"a.hn.local.") RR_A CLASS_IN 60 (R_A [nul; nul; dot; dot]);
     mkAnswer (Some $"b.hn.local.") RR_SRV CLASS_IN 60 (R_SRV 1 2 80 (Some $"a.hn.local."))]
    [] [mkAnswer (Some $".") RR_TXT CLASS_IN 0 (R_TXT 3 (Some (cmem $"x=1")))].
Lemma demo_query_ok : query_ok demo_query.
Proof.
  assert (H1 : domain_ok $"a.hn.local.") by by apply (domain_ok_text [ $"a"; $"hn"; $"local"]).
  assert (H2 : domain_ok $"b.hn.local.") by by apply (domain_ok_text [ $"b"; $"hn"; $"local"]).
  assert (H3 : domain_ok $".") by by apply (domain_ok_text []).
  split; [done|done|..]; cbn; repeat apply Forall_cons_2; try apply Forall_nil_2.
  all: split; cbn; try (by eexists); try done.
  - by constructor.
  - by constructor.
  - by apply (ok_txt _ $"x=1").
Qed.
Lemma dns_round_trip_witness : exists m n,
  @dns_encode demo_float 512 demo_query = Ok (RCODE_OKAY, m, n) /\ n = 81 /\
  @dns_decode demo_float 4096 (take (Z.to_nat n) m ++ [dot]) n = Ok (inr demo_query).
Proof.
  do 2 eexists. split; [vm_compute; reflexivity|]. split; [reflexivity|].
  apply (@dns_round_trip demo_float 512); [apply demo_query_ok|done|lia|by vm_compute|by vm_compute|lia].
Defined.
