(* ===== verification/DnsFacts.v ===== *)
(** * The decoder on any input

    [dns_decode] comes to an end on every packet; what it does with packets
    that are cut short. *)
From Stdlib Require Import SpecFloat.
From S2P Require Import Prelude CString Dns DnsEncode DnsDecode DnsNames DnsRoundTrip.

(** ** Termination *)

Definition pool_ok (s : ddns_context) : Prop := 0 <= d_free s < 2 ^ 64.

(** [e] keeps the pool's size in range and never runs out of rounds; a result
    satisfies [P]. *)
Class Total {A} (P : A -> Prop) (e : D A) : Prop :=
  total : forall s, pool_ok s ->
    match e s with
    | Ok (s', r) => pool_ok s' /\ match r with inr a => P a | inl _ => True end
    | Fail f => f <> NoFuel
    end.
Abbreviation any := (fun _ => True).

Lemma total_bind {A B} (P : A -> Prop) (Q : B -> Prop) e f :
  Total P e -> (forall a, P a -> Total Q (f a)) -> Total Q (e ≫= f).
Proof.
  intros He Hf s Hs. specialize (He s Hs). unfold mbind, codec_bind.
  destruct (e s) as [[s1 [c|a]]|]; [done| |done]. destruct He as [H1 Ha].
  by apply Hf.
Qed.

Lemma total_weaken {A} (P Q : A -> Prop) e : Total P e -> (forall a, P a -> Q a) -> Total Q e.
Proof.
  intros He Hw s Hs. specialize (He s Hs). destruct (e s) as [[s1 [c|a]]|]; [done| |done].
  destruct He. auto.
Qed.

Lemma total_ok {A} (P : A -> Prop) e s : Total P e -> pool_ok s ->
  match e s with Ok (s', _) => pool_ok s' | Fail f => f <> NoFuel end.
Proof. intros He Hs. specialize (He s Hs). destruct (e s) as [[? ?]|]; [apply He|done]. Qed.

(** Steps that leave the state alone. *)
Lemma total_pure {A} (P : A -> Prop) (e : D A) :
  (forall s, match e s with
             | Ok (s', r) => s' = s /\ match r with inr a => P a | inl _ => True end
             | Fail f => f <> NoFuel end) -> Total P e.
Proof. intros H s Hs. specialize (H s). destruct (e s) as [[s1 r]|]; [|done]. destruct H as [-> ?]. done. Qed.

#[global] Instance total_cret {A} (a : A) : Total any (cret a).
Proof. by apply total_pure. Qed.
#[global] Instance total_code {A} rc : Total any (code_ rc : D A).
Proof. by apply total_pure. Qed.
#[global] Instance total_cget {A} (f : ddns_context -> A) : Total any (cget f).
Proof. by apply total_pure. Qed.
#[global] Instance total_get_free : Total (fun n => 0 <= n) (cget d_free).
Proof. intros s Hs. split; [done|]. apply Hs. Qed.
#[global] Instance total_cassert b : Total any (cassert b).
Proof. apply total_pure. intros s. unfold cassert. by destruct b. Qed.
#[global] Instance total_return_if b rc : Total any (return_if b rc).
Proof. apply total_pure. intros s. unfold return_if. by destruct b. Qed.
#[global] Instance total_peek p : Total (fun b => 0 <= b) (peek p).
Proof.
  apply total_pure. intros s. unfold peek, mbind, codec_bind, cget, clift, cret, id, rd.
  case_decide; [|done]. destruct (_ !! _) as [c|]; [|done]. split; [done|]. apply code_bound.
Qed.
#[global] Instance total_peekn p n : Total any (peekn p n).
Proof.
  apply total_pure. intros s. unfold peekn, mbind, codec_bind, cget, clift, id, rdn.
  by destruct (_ && _).
Qed.
Lemma wrap64_range z : 0 <= wrap64 z < 2 ^ 64.
Proof. apply Z.mod_pos_bound. lia. Qed.
#[global] Instance total_put n : Total any (put n).
Proof. intros s Hs. unfold put. destruct (zleb _ _); [|done]. split; [apply wrap64_range|done]. Qed.
Lemma total_cmodify (f : ddns_context -> ddns_context) :
  (forall s, d_free (f s) = d_free s) -> Total any (cmodify f).
Proof. intros H s Hs. split; [|done]. unfold pool_ok. by rewrite H. Qed.
#[global] Instance total_advance n : Total any (advance n).
Proof. by apply total_cmodify. Qed.

Lemma total_ret {A} (P : A -> Prop) a : P a -> Total P (cret a).
Proof. intros. by apply total_pure. Qed.

(** Go through a computation step by step. *)
Ltac total_step :=
  first
    [ apply _
    | assumption
    | eapply total_weaken; [apply _ | solve [auto]]
    | by apply total_cmodify
    | apply total_ret; solve [auto using of_be_nonneg]
    | eapply total_bind; [solve [repeat total_step] | intros ? ?]
    | match goal with
      | |- Total _ (if ?b then _ else _) => destruct b eqn:?
      | |- Total _ (match ?x with _ => _ end) => destruct x eqn:?
      end ].
Ltac total := repeat total_step.

#[global] Instance total_dcontext_okay : Total any dcontext_okay.
Proof. unfold dcontext_okay. total. Qed.
#[global] Instance total_read_uint16 : Total (fun v => 0 <= v) read_uint16.
Proof. unfold read_uint16. total. Qed.
#[global] Instance total_read_uint32 : Total (fun v => 0 <= v) read_uint32.
Proof. unfold read_uint32. total. Qed.

#[global] Instance total_align_memory : Total any align_memory.
Proof.
  intros s Hs. unfold align_memory, mbind, codec_bind, cget, cassert, cret, cmodify, zltb, MEM_ALIGN.
  repeat (first [case_bool_decide | destruct (_ =? _)]); try done.
  split; [|done]. unfold pool_ok in *. cbn. pose proof (mask_mem (d_free s) Hs) as Hm.
  pose proof (Z.div_mod (d_free s) 8). pose proof (Z.mod_pos_bound (d_free s) 8).
  change (2 ^ 64 - 8) with 18446744073709551608 in *. lia.
Qed.

#[global] Instance total_alloc_struct n : 0 <= n -> Total any (alloc_struct n).
Proof.
  intros Hn. unfold alloc_struct.
  eapply total_bind; [apply _|intros free _]. eapply total_bind; [apply _|intros _ _].
  eapply total_bind; [apply _|intros ok _].
  intros s Hs. unfold mbind, codec_bind, cget, cret, cmodify.
  destruct (negb ok || _) eqn:E; [done|]. split; [|done].
  apply orb_false_iff in E as [_ E]. apply bool_decide_eq_false in E.
  unfold pool_ok in *. cbn. lia.
Qed.

#[global] Instance total_read_raw len : Total any (read_raw len).
Proof. unfold read_raw. total. Qed.
#[global] Instance total_read_string : Total any read_string.
Proof. unfold read_string. total. Qed.

(** Each round of [read_domain] takes room in the pool or follows one of the
    at most 255 pointers. *)
Lemma read_labels_total k : forall p size main loop acc s,
  pool_ok s -> 0 <= loop <= 255 -> d_free s + (256 - loop) < Z.of_nat k ->
  match read_labels k p size main loop acc s with
  | Ok (s', r) => pool_ok s'
  | Fail f => f <> NoFuel
  end.
Proof.
  induction k as [|k IH]; intros p size main loop acc s Hs Hl Hk; [unfold pool_ok in Hs; lia|].
  (* the test that closes the loop *)
  assert (Hend : forall p size main loop acc s, pool_ok s -> 0 <= loop <= 255 ->
    d_free s + (256 - loop) < Z.of_nat k ->
    match (b ← peek p;
           if b =? 0 then
             (if main : bool then cmodify (set_parse (p + 1) (wrap64 (size - 1))) else cret tt);;
             put 1;; cret acc
           else read_labels k p size main loop acc) s with
    | Ok (s', r) => pool_ok s' | Fail f => f <> NoFuel end).
  { clear - IH. intros p size main loop acc s Hs Hl Hk. pose proof (total_peek p s Hs) as Hp.
    unfold mbind at 1, codec_bind at 1.
    destruct (peek p s) as [[s1 [c|b]]|] eqn:E; [apply Hp| |done].
    assert (s1 = s) as ->.
    { unfold peek, mbind, codec_bind, cget, clift, cret, id in E. destruct (rd _ _); by simplify_eq. }
    destruct (b =? 0); [|by apply IH]. clear E Hp.
    apply (total_ok any); [|done]. total. }
  cbn [read_labels]. pose proof (total_peek p s Hs) as Hp.
  unfold mbind at 1, codec_bind at 1.
  destruct (peek p s) as [[s1 [c|b]]|] eqn:E; [apply Hp| |done]. destruct Hp as [_ Hb].
  assert (s1 = s) as ->.
  { unfold peek, mbind, codec_bind, cget, clift, cret, id in E. destruct (rd _ _); by simplify_eq. }
  unfold zltb at 1. case_bool_decide as Hb64.
  - unfold mbind at 1, codec_bind at 1, return_if at 1. destruct (zltb size (b + 1)); [done|].
    unfold mbind at 1, codec_bind at 1, cget at 1.
    unfold mbind at 1, codec_bind at 1, return_if at 1. unfold zltb at 1.
    case_bool_decide as Hf; [done|].
    unfold mbind at 1, codec_bind at 1. pose proof (total_peekn (p + 1) b s Hs) as Hn.
    destruct (peekn (p + 1) b s) as [[s2 [c|l]]|] eqn:E2; [apply Hn| |done].
    assert (s2 = s) as ->.
    { unfold peekn, mbind, codec_bind, cget, clift, id in E2. destruct (rdn _ _ _); by simplify_eq. }
    unfold mbind at 1, codec_bind at 1, put at 1. destruct (zleb _ _); [|done].
    unfold pool_ok in Hs. apply Hend; [|done|]; cbn.
    + apply wrap64_range.
    + rewrite wrap64_id by lia. lia.
  - destruct (zleb 192 b); [|done].
    unfold mbind at 1, codec_bind at 1, return_if at 1.
    destruct (Z.eqb_spec (loop + 1) 256); [done|].
    unfold mbind at 1, codec_bind at 1, return_if at 1. destruct (zltb size 2); [done|].
    unfold mbind at 1, codec_bind at 1. pose proof (total_peekn p 2 s Hs) as Hn.
    destruct (peekn p 2 s) as [[s2 [c|l]]|] eqn:E2; [apply Hn| |done].
    assert (s2 = s) as ->.
    { unfold peekn, mbind, codec_bind, cget, clift, id in E2. destruct (rdn _ _ _); by simplify_eq. }
    rewrite (codec_bind_ok _ _ s (if main then set_parse (p + 2) (size - 2) s else s) tt)
      by by destruct main.
    erewrite codec_bind_ok by done.
    destruct (zleb _ _); [erewrite codec_bind_code by done; by destruct main|]. erewrite codec_bind_ok by done.
    apply (Hend _ _ false); try done; destruct main; cbn; try done; lia.
Qed.

#[global] Instance total_read_domain : Total any read_domain.
Proof.
  unfold read_domain. eapply total_bind; [apply _|intros _ _].
  intros s Hs. unfold mbind at 1, codec_bind at 1, cget at 1, id at 1.
  unfold mbind at 1, codec_bind at 1.
  pose proof (read_labels_total (Z.to_nat (d_free s) + 258) (d_ptr s) (d_size s) true 0 [] s Hs) as H.
  unfold pool_ok in Hs.
  destruct (read_labels _ _ _ _ _ _ _) as [[s' [c|acc]]|]; [split; [apply H; lia|done]..|apply H; lia].
Qed.

Lemma txt_strings_total k : forall len acc, 0 <= len <= Z.of_nat k -> Total any (txt_strings k len acc).
Proof.
  induction k as [|k IH]; intros len acc Hk; cbn [txt_strings];
    (destruct (Z.eqb_spec len 0); [apply _|]); [lia|].
  eapply total_bind; [apply _|intros size _]. eapply total_bind; [apply _|intros _ _].
  eapply total_bind; [apply _|intros p _]. eapply total_bind; [apply _|intros slen Hs].
  eapply total_bind; [apply _|intros _ _].
  destruct (zltb (len - 1) slen) eqn:E.
  { apply (total_bind (fun _ => False)); [by apply total_pure|by intros ? []]. }
  apply bool_decide_eq_false in E.
  repeat (eapply total_bind; [apply _|intros ? _]). apply IH. cbn in Hs. lia.
Qed.
Lemma total_decode_rr_txt len : 0 <= len -> Total any (decode_rr_txt len).
Proof.
  intros Hl. unfold decode_rr_txt. eapply total_bind; [apply _|intros _ _].
  eapply total_bind; [apply txt_strings_total; lia|intros ? _]. total.
Qed.

Lemma count_opts_total k : forall scan length n, 0 <= length <= Z.of_nat k -> 0 <= n ->
  Total (fun n => 0 <= n) (count_opts k scan length n).
Proof.
  induction k as [|k IH]; intros scan length n Hk Hn; cbn [count_opts];
    (destruct (Z.eqb_spec length 0); [by apply total_ret|]); [lia|].
  eapply total_bind; [apply _|intros m _]. pose proof (of_be_nonneg m).
  destruct (zltb length (of_be m + 4)) eqn:E.
  { apply (total_bind (fun _ => False)); [by apply total_pure|by intros ? []]. }
  apply bool_decide_eq_false in E.
  eapply total_bind; [apply _|intros ? _]. apply IH; lia.
Qed.
#[global] Instance total_nsid_bytes k : forall p acc, Total any (nsid_bytes k p acc).
Proof. induction k as [|k IH]; intros p acc; cbn [nsid_bytes]; total. Qed.
#[global] Instance total_decode_opts n : Total any (decode_opts n).
Proof.
  induction n as [|n IH]; cbn [decode_opts]; unfold decode_edns0rr_nsid, decode_edns0rr_raw; total.
Qed.
Lemma total_decode_rr_opt u f b len : 0 <= len -> Total any (decode_rr_opt u f b len).
Proof.
  intros Hl. unfold decode_rr_opt, sizeof_opt. total.
  eapply total_bind; [apply count_opts_total; lia|intros n Hn].
  eapply total_bind; [apply total_alloc_struct; cbn in Hn; lia|intros ? _]. total.
Qed.

Section Totality.
Context `{FloatText}.

Lemma total_clift {A} (o : outcome A) : o <> Fail NoFuel -> Total any (clift o).
Proof. intros Ho. apply total_pure. intros s. unfold clift. destruct o; [done|congruence]. Qed.

Lemma dgpos_angle_total b v : dgpos_angle b v <> Fail NoFuel.
Proof.
  assert (Ht : forall v, to_int v <> Fail NoFuel).
  { intros x. unfold to_int. destruct (d_trunc x); [|done]. by destruct (_ && _). }
  unfold dgpos_angle, mbind, outcome_bind. repeat case_match; try done; intros [= ->];
    match goal with E : to_int _ = Fail NoFuel |- _ => by apply Ht in E end.
Qed.
Instance total_dloc_double : Total any dloc_double.
Proof. unfold dloc_double. total. Qed.
Instance total_dloc_scale z : Total any (dloc_scale z).
Proof. unfold dloc_scale. total. Qed.
Lemma total_decode_rr_gpos : Total any decode_rr_gpos.
Proof.
  unfold decode_rr_gpos. do 3 (eapply total_bind; [apply _|intros ? _]).
  do 2 (eapply total_bind; [apply total_clift, dgpos_angle_total|intros ? _]). total.
Qed.

Lemma total_decode_rdata type len u f b : 0 <= len -> Total any (decode_rdata type len u f b).
Proof.
  intros Hl. unfold decode_rdata.
  repeat match goal with |- Total _ (if ?b then _ else _) => destruct b end;
    first [ by apply total_decode_rr_txt | by apply total_decode_rr_opt
          | apply total_decode_rr_gpos
          | unfold decode_rr_a, decode_rr_soa, decode_rr_naptr, decode_rr_aaaa, decode_rr_srv,
              decode_rr_wks, decode_rr_loc, decode_rr_minfo, decode_rr_mx, decode_rr_hinfo; total ].
Qed.
Instance total_decode_question : Total any decode_question.
Proof. unfold decode_question. total. Qed.
Instance total_decode_header type : Total any (decode_header type).
Proof. unfold decode_header. total. Qed.
Instance total_decode_answer : Total any decode_answer.
Proof.
  unfold decode_answer. do 5 (eapply total_bind; [apply _|intros ? _]).
  eapply total_bind; [apply _|intros [[[[class ttl] u] f] b] _].
  eapply total_bind; [apply _|intros len Hlen]. cbn in Hlen.
  do 2 (eapply total_bind; [apply _|intros ? _]).
  eapply total_bind; [by apply total_decode_rdata|intros ? _]. apply _.
Qed.
Instance total_repeat_n {A} n (d : D A) : Total any d -> Total any (repeat_n n d).
Proof. intros Hd. induction n as [|n IH]; cbn [repeat_n]; total. Qed.

Lemma total_decode_sections m : Total any (decode_sections m).
Proof.
  unfold decode_sections, sizeof_query, sizeof_question, sizeof_answer.
  pose proof (fun i => of_be_nonneg (take 2 (drop i m))) as Hf.
  eapply total_bind; [apply total_alloc_struct; lia|intros ? _].
  do 2 (eapply total_bind; [first [apply _|by apply total_cmodify]|intros ? _]).
  eapply total_bind; [|intros ? _; total].
  unfold alloc_sections, sizeof_question, sizeof_answer.
  do 4 (eapply total_bind;
    [apply total_alloc_struct; apply Z.mul_nonneg_nonneg; [apply Hf|lia]|intros ? _]).
  total.
Qed.

(** C28: The decoder terminates on every packet: whatever bytes a buffer holds
    and however long the packet is said to be, the bounds of the model are
    never exhausted. In particular the loop of read_domain ends, although
    compression pointers may form a cycle: at most 255 are followed, and each
    label takes room in the pool. *)
Theorem dns_decode_terminates rsize m len :
  rsize < 2 ^ 64 -> dns_decode rsize m len <> Fail NoFuel.
Proof.
  intros H64. unfold dns_decode. destruct (zleb sizeof_query rsize) eqn:E; [|done]. cbn [negb].
  apply bool_decide_eq_true in E. unfold sizeof_query in E.
  destruct (zltb len HEADER); [done|].
  pose proof (total_decode_sections m (mkD m len HEADER (len - HEADER) 0 rsize rsize false 0)) as H0.
  unfold mbind, outcome_bind.
  destruct (decode_sections _ _) as [[s' r]|f]; [done|]. intros [= ->]. apply H0; [|done].
  split; cbn; lia.
Qed.
End Totality.

(** A name that is a pointer to itself. *)
Lemma dns_decode_terminates_witness :
  let m := [nul; nul; nul; nul; nul; u8 1; nul; nul; nul; nul; nul; nul;
            u8 192; u8 12; nul; u8 16; nul; u8 1] in
  @dns_decode demo_float 4096 m 18 <> Fail NoFuel /\
  @dns_decode demo_float 4096 m 18 = Ok (inl RCODE_FORMAT_ERROR).
Proof. split; [apply (@dns_decode_terminates demo_float); lia|by vm_compute]. Defined.
