(* ===== verification/DnsFits.v ===== *)
(** * When encoding succeeds

    [fits n k e]: with [n] bytes of room and [k] free entries in the table of
    suffixes the encoder action [e] succeeds, and takes no more than that. The
    records are those the program sends: questions and TXT answers; dotest's
    option record is in DnsTool. *)
From S2P Require Import Prelude CString Dns DnsEncode DnsDecode DnsNames DnsRoundTrip.

(** The size the encoder believes is left is the one that is left. *)
Record in_step (s : edns_context) : Prop := {
  step_size : e_size s = e_cap s - zlen (e_out s);
  step_cap : e_cap s < 2 ^ 64;
  step_edns : e_edns s = false }.

Definition fits (n : Z) (k : nat) (e : E unit) : Prop := forall s,
  in_step s -> n <= e_size s -> (length (e_segs s) + k <= 100)%nat ->
  exists s', e s = Ok (s', inr tt) /\ in_step s' /\ e_cap s' = e_cap s /\ e_edns s' = e_edns s /\
    e_size s - n <= e_size s' <= e_size s /\ (length (e_segs s') <= length (e_segs s) + k)%nat.

Lemma fits_seq n1 k1 n2 k2 e1 e2 : 0 <= n2 ->
  fits n1 k1 e1 -> fits n2 k2 e2 -> fits (n1 + n2) (k1 + k2) (e1;; e2).
Proof.
  intros Hn H1 H2 s Hs Hsz Hk.
  destruct (H1 s) as (s1 & E1 & Hs1 & C1 & D1 & S1 & K1); [done|lia|lia|].
  destruct (H2 s1) as (s2 & E2 & Hs2 & C2 & D2 & S2 & K2); [done|lia|lia|].
  exists s2. rewrite (codec_bind_ok _ _ _ _ _ E1). split_and!; [done|done|congruence|congruence|lia..].
Qed.

Lemma fits_econtext n k e : 1 <= n -> fits n k e -> fits n k (econtext_okay;; e).
Proof.
  intros Hn He s Hs Hsz Hk. destruct (He s Hs Hsz Hk) as (s' & E & ?). exists s'. split; [|done].
  erewrite codec_bind_ok; [done|]. unfold econtext_okay. erewrite codec_bind_ok by done.
  apply cassert_ok, bool_decide_eq_true_2. lia.
Qed.
Lemma fits_need m n k e : m <= n -> fits n k e -> fits n k (need m;; e).
Proof.
  intros Hn He s Hs Hsz Hk. destruct (He s Hs Hsz Hk) as (s' & E & ?). exists s'. split; [|done].
  erewrite codec_bind_ok; [done|]. unfold need. erewrite codec_bind_ok by done.
  apply return_if_not, bool_decide_eq_false_2. lia.
Qed.
Lemma fits_assert b n k e : b = true -> fits n k e -> fits n k (cassert b;; e).
Proof. by intros ->. Qed.
Lemma fits_return_if b rc n k e : b = false -> fits n k e -> fits n k (return_if b rc;; e).
Proof. by intros ->. Qed.
Lemma fits_ptr {A} (x : A) n k e : fits n k (e x) -> fits n k (x ← cassert_ptr (Some x); e x).
Proof. done. Qed.
Lemma fits_weaken n n' k k' e : fits n k e -> n <= n' -> (k <= k')%nat -> fits n' k' e.
Proof.
  intros He Hn Hk s Hs Hsz Hk'. destruct (He s) as (s' & ? & ? & ? & ? & ? & ?); [done|lia|lia|].
  exists s'. split_and!; try done; lia.
Qed.

(** Writing bytes and taking them off the size. *)
Lemma fits_write bs n : n = zlen bs -> fits n 0 (emit bs;; shrink n).
Proof.
  intros -> s [Hsz Hcap Hed] Hn Hk. pose proof (zlen_nonneg bs). pose proof (zlen_nonneg (e_out s)).
  assert (E1 : emit bs s = Ok (set_out (e_out s ++ bs) s, inr tt)).
  { unfold emit. rewrite (cond_true _ (e_cap s)) by lia. done. }
  eexists. erewrite codec_bind_ok by done. split; [done|]. cbn. rewrite wrap64_id by lia.
  split_and!; try done; try lia. split; cbn; [|done..]. rewrite zlen_app. lia.
Qed.

Lemma fits_uint16 v : fits 2 0 (write_uint16 v).
Proof.
  intros s Hs Hn Hk. unfold write_uint16. rewrite (codec_bind_ok _ _ s s (e_size s)) by done.
  rewrite !(codec_bind_ok _ _ s s tt) by (apply cassert_ok, bool_decide_eq_true_2; lia).
  by apply fits_write.
Qed.
Lemma fits_uint32 v : fits 4 0 (write_uint32 v).
Proof.
  intros s Hs Hn Hk. unfold write_uint32. rewrite (codec_bind_ok _ _ s s (e_size s)) by done.
  rewrite !(codec_bind_ok _ _ s s tt) by (apply cassert_ok, bool_decide_eq_true_2; lia).
  by apply fits_write.
Qed.

Lemma fits_labels ls : Forall label_ok ls -> forall k, (length ls < k)%nat ->
  fits (zlen (dotted ls) + 1) (length ls) (encode_labels k (dotted ls)).
Proof.
  induction 1 as [|l ls Hl Hls IH]; intros [|k] Hk; [lia| |lia|]; cbn [encode_labels].
  { apply fits_need, fits_write; done. }
  pose proof (label_length l Hl) as Hll. pose proof (zlen_nonneg (dotted ls)).
  intros s Hs Hsz Hsegs. rewrite dotted_cons, zlen_app, zlen_cons in Hsz |- *.
  destruct l as [|c l]; [by destruct Hl|].
  assert (Hc : c <> "."%char) by (intros ->; apply (label_no_dot _ Hl), list_elem_of_here).
  cbn [app]. rewrite bool_decide_false by done.
  change (c :: l ++ dot :: dotted ls) with ((c :: l) ++ dot :: dotted ls).
  set (lab := c :: l) in *. clearbody lab.
  rewrite (codec_bind_ok _ _ s s (e_segs s)) by done.
  destruct (segment_find _ _) as [off|].
  - destruct (fits_need 2 2 0 _ ltac:(lia) (fits_write (ptr_bytes off) 2 eq_refl) s)
      as (s' & E & ? & ? & ? & ? & ?); [done|lia|lia|].
    exists s'. split; [exact E|]. split_and!; try done; try lia.
  - cbn [length] in Hsegs.
    rewrite (codec_bind_ok _ _ s s tt).
    2:{ apply return_if_not, bool_decide_eq_false_2. unfold zlen, MAXSEG. lia. }
    unfold encode_segment. rewrite strchr_app by apply Hl.
    rewrite take_app_length.
    change (Z.of_nat (length lab)) with (zlen lab).
    destruct (fits_write (u8 (zlen lab) :: lab) (zlen lab + 1)) with (s := s)
      as (s1 & E1 & Hs1 & C1 & D1 & S1 & K1); [rewrite zlen_cons; lia|done|lia|lia|].
    apply codec_bind_inv in E1 as (u & s0 & E0 & E1).
    rewrite (codec_bind_ok _ _ s s1 (zlen (e_out s), dotted ls)).
    2:{ rewrite (codec_bind_ok _ _ s s tt).
        2:{ apply return_if_not, bool_decide_eq_false_2. unfold MAX_DOMAIN_LABEL. lia. }
        rewrite (codec_bind_ok _ _ s s tt).
        2:{ unfold need. erewrite codec_bind_ok by done.
            apply return_if_not, bool_decide_eq_false_2. lia. }
        erewrite codec_bind_ok by done. erewrite codec_bind_ok by exact E0.
        erewrite codec_bind_ok by exact E1. unfold cret.
        change (dot :: dotted ls) with ([dot] ++ dotted ls). rewrite app_assoc.
        by rewrite drop_app_length' by (rewrite length_app; cbn; lia). }
    cbn beta iota. erewrite codec_bind_ok by done.
    destruct (IH k ltac:(cbn in Hk; lia) (add_seg (lab ++ dot :: dotted ls) (zlen (e_out s)) s1))
      as (s' & E & H1 & H2 & H3 & H4 & H5).
    + destruct Hs1. by split.
    + cbn. lia.
    + cbn. rewrite length_app. cbn. lia.
    + exists s'. split; [done|]. cbn in *. rewrite length_app in H5. cbn in H5.
      split_and!; try done; try congruence; lia.
Qed.

Lemma fits_domain ls : Forall label_ok ls ->
  fits (zlen (name_text ls) + 1) (length ls) (encode_domain (Some (name_text ls))).
Proof.
  intros Hls. apply fits_econtext; [pose proof (zlen_nonneg (name_text ls)); lia|].
  apply (fits_ptr (name_text ls) _ _ (fun name => encode_labels (S (length name)) name)).
  destruct ls as [|l ls].
  - apply (fits_weaken 1 _ 0 0); [|change (zlen (name_text [])) with 1; lia|lia]. cbn [name_text length encode_labels].
    rewrite bool_decide_true by done. by apply fits_need, fits_write.
  - apply fits_labels; [done|]. cbn [name_text].
    pose proof (length_dotted (l :: ls)). unfold zlen in *. lia.
Qed.

Lemma fits_question name ls type class : Forall label_ok ls -> name = name_text ls ->
  (type =? RR_OPT) = false -> 1 <= class <= 4 ->
  fits (zlen name + 1 + 4) (length ls) (encode_question (mkQuestion (Some name) type class)).
Proof.
  intros Hls -> Ht Hc. pose proof (zlen_nonneg (name_text ls)). unfold encode_question.
  apply fits_econtext; [lia|]. cbn [q_name q_type q_class].
  apply (fits_ptr (name_text ls) _ _ (fun _ => _)).
  apply fits_assert; [by rewrite Ht|].
  apply fits_assert; [apply bool_decide_eq_true_2; lia|].
  apply fits_assert; [apply bool_decide_eq_true_2; lia|].
  apply (fits_weaken (zlen (name_text ls) + 1 + (2 + 2)) _ (length ls + (0 + 0)));
    [|lia|lia].
  apply fits_seq; [lia|by apply fits_domain|].
  apply fits_need; [lia|]. apply fits_seq; [lia|apply fits_uint16..].
Qed.

(** A TXT record of one string. *)
Lemma fits_txt text : 0 < zlen text <= 255 ->
  fits (zlen text + 1) 0 (encode_rr_txt (zlen text) (Some (cmem text))).
Proof.
  intros Hl. unfold encode_rr_txt. apply fits_econtext; [lia|].
  apply fits_assert; [apply bool_decide_eq_true_2; lia|].
  apply (fits_ptr (cmem text) _ _ (fun t => encode_chunks (Z.to_nat (zlen text)) t (zlen text))).
  destruct (Z.to_nat (zlen text)) as [|k] eqn:Ek; [lia|]. cbn [encode_chunks].
  unfold zleb at 1. rewrite bool_decide_false by lia. rewrite Z.min_l by lia.
  apply (fits_weaken (zlen text + 1 + 0) _ (0 + 0)); [|lia|lia]. apply fits_seq; [done| |].
  - unfold encode_string. apply fits_econtext; [lia|].
    apply (fits_ptr (cmem text) _ _ (fun t => _)). apply fits_return_if.
    { apply bool_decide_eq_false_2. lia. }
    apply fits_need; [lia|].
    unfold cmem. rewrite (cond_true (zlen text)) by (rewrite zlen_app; pose proof (zlen_nonneg [nul]); lia).
    replace (take (Z.to_nat (zlen text)) (text ++ [nul])) with text
      by (unfold zlen; by rewrite Nat2Z.id, take_app_length).
    change (fits (zlen text + 1) 0 (emit (u8 (zlen text) :: text);; shrink (zlen text + 1))).
    apply (fits_write (u8 (zlen text) :: text)). rewrite zlen_cons. lia.
  - rewrite Z.sub_diag.
    assert (E : forall m, encode_chunks k m 0 = cret tt) by (by destruct k).
    rewrite E. intros s Hs _ Hk. exists s. split_and!; try done; lia.
Qed.

(** A record is its name, ten bytes and its data, the length of which is filled
    in afterwards. *)
Lemma answer_encodes `{FloatText} ls type class cls t d n P s :
  let ans := mkAnswer (Some (name_text ls)) type cls t d in
  Forall label_ok ls -> in_step s -> zlen (name_text ls) + 11 + n <= e_size s -> 0 <= n ->
  (length (e_segs s) + length ls <= 100)%nat ->
  (forall s', exists ttl, opt_header (e_rcode s') ans s' = Ok (s', inr (class, ttl))) ->
  (forall s', in_step s' -> n <= e_size s' -> (length (e_segs s') <= 100)%nat -> exists s6 bs,
     encode_rdata type class d s' = Ok (s6, inr tt) /\ e_out s6 = e_out s' ++ bs /\ P s' s6) ->
  exists s5 s6 out, in_step s5 /\ e_cap s5 = e_cap s /\
    e_size s - (zlen (name_text ls) + 11) <= e_size s5 <= e_size s /\
    (length (e_segs s5) <= length (e_segs s) + length ls)%nat /\
    P s5 s6 /\ encode_answer ans s = Ok (set_out out s6, inr tt) /\ zlen out = zlen (e_out s6).
Proof.
  intros ans Hls Hs Hsz Hn Hk Hhead Hdata. pose proof (zlen_nonneg (name_text ls)).
  unfold encode_answer. cbn [a_name a_type a_class a_ttl a_data ans].
  rewrite (codec_bind_ok _ _ s s tt).
  2:{ unfold econtext_okay. erewrite codec_bind_ok by done.
      apply cassert_ok, bool_decide_eq_true_2. lia. }
  destruct (fits_domain ls Hls s) as (s1 & E1 & Hs1 & C1 & D1 & S1 & K1); [done|lia|lia|].
  rewrite (codec_bind_ok _ _ _ _ _ E1).
  rewrite (codec_bind_ok _ _ s1 s1 tt).
  2:{ unfold need. erewrite codec_bind_ok by done. apply return_if_not, bool_decide_eq_false_2. lia. }
  rewrite (codec_bind_ok _ _ s1 s1 (e_rcode s1)) by done.
  destruct (Hhead s1) as [ttl Ettl]. rewrite (codec_bind_ok _ _ _ _ _ Ettl). cbn beta iota.
  destruct (fits_uint16 type s1) as (s2 & E2 & Hs2 & C2 & D2 & S2 & K2); [done|lia|lia|].
  rewrite (codec_bind_ok _ _ _ _ _ E2).
  destruct (fits_uint16 class s2) as (s3 & E3 & Hs3 & C3 & D3 & S3 & K3); [done|lia|lia|].
  rewrite (codec_bind_ok _ _ _ _ _ E3).
  destruct (fits_uint32 ttl s3) as (s4 & E4 & Hs4 & C4 & D4 & S4 & K4); [done|lia|lia|].
  rewrite (codec_bind_ok _ _ _ _ _ E4). rewrite (codec_bind_ok _ _ s4 s4 (e_out s4)) by done.
  destruct (fits_write [nul; nul] 2 eq_refl s4) as (s5 & E5 & Hs5 & C5 & D5 & S5 & K5); [done|lia|lia|].
  apply codec_bind_inv in E5 as (u & s5' & E5 & E5'). apply emit_inv in E5 as E5o.
  rewrite (codec_bind_ok _ _ _ _ _ E5), (codec_bind_ok _ _ _ _ _ E5').
  apply cmodify_inv in E5'.
  destruct (Hdata s5 Hs5) as (s6 & bs & E6 & Eout & HP); [lia..|].
  rewrite (codec_bind_ok _ _ _ _ _ E6). rewrite (codec_bind_ok _ _ s6 s6 (e_out s6)) by done.
  exists s5, s6. eexists. split_and!; [done|congruence|lia|lia|lia|done|done|].
  rewrite Eout, E5', E5o. cbn [e_out set_size set_out]. rewrite <- app_assoc.
  change (nul :: ?x) with ([nul] ++ x) in *. rewrite (patched _ _ _ _ eq_refl), !zlen_app. done.
Qed.

Lemma fits_txt_answer `{FloatText} ls class ttl text : Forall label_ok ls -> 0 < zlen text <= 255 ->
  fits (zlen (name_text ls) + 1 + 10 + (zlen text + 1)) (length ls)
    (encode_answer (mkAnswer (Some (name_text ls)) RR_TXT class ttl
       (R_TXT (zlen text) (Some (cmem text))))).
Proof.
  intros Hls Hl s Hs Hsz Hk. pose proof (zlen_nonneg (name_text ls)).
  destruct (answer_encodes ls RR_TXT class class ttl (R_TXT (zlen text) (Some (cmem text)))
    (zlen text + 1) (fun s5 s6 => in_step s6 /\ e_cap s6 = e_cap s5 /\
      e_size s5 - (zlen text + 1) <= e_size s6 <= e_size s5 /\ (length (e_segs s6) <= length (e_segs s5) + 0)%nat) s)
    as (s5 & s6 & out & H5 & C5 & S5 & K5 & (Hs6 & C6 & S6 & K6) & E & Hout); try done; try lia.
  { intros s'. by exists ttl. }
  { intros s' Hs' Hr Hk'. change (encode_rdata RR_TXT class (R_TXT (zlen text) (Some (cmem text))))
      with (encode_rr_txt (zlen text) (Some (cmem text))).
    destruct (fits_txt text Hl s') as (s6 & E6 & Hs6 & C6 & _ & S6 & K6); [done|lia|lia|].
    exists s6. eexists. apply encode_rr_txt_inv in E6 as E6'. by destruct E6' as (E6' & _). }
  exists (set_out out s6). split; [exact E|]. destruct Hs, Hs6. cbn.
  split_and!; try congruence; try lia. split; cbn; congruence.
Qed.


(** Writing where there is room. *)
Lemma emit_shrink bs n out size cap segs e rc : n = zlen bs -> zlen out + n <= cap -> n <= size < 2 ^ 64 ->
  (emit bs;; shrink n) (mkE out size cap segs e rc) = Ok (mkE (out ++ bs) (size - n) cap segs e rc, inr tt).
Proof.
  intros -> Ho Hs. pose proof (zlen_nonneg bs). unfold emit, shrink, cmodify, mbind, codec_bind. cbn [e_out e_cap].
  rewrite cond_true by done. unfold set_size, set_out. cbn. by rewrite wrap64_id by lia.
Qed.
Lemma write_uint16_ok v out size cap segs e rc : zlen out + 2 <= cap -> 2 <= size < 2 ^ 64 ->
  write_uint16 v (mkE out size cap segs e rc) = Ok (mkE (out ++ be16 v) (size - 2) cap segs e rc, inr tt).
Proof.
  intros Ho Hs. unfold write_uint16. erewrite codec_bind_ok by done. cbn [e_size].
  rewrite !(codec_bind_ok _ _ (mkE out size cap segs e rc) (mkE out size cap segs e rc) tt)
    by (apply cassert_ok, bool_decide_eq_true_2; lia).
  by apply emit_shrink.
Qed.

Lemma has_room out size cap segs e rc n (s := mkE out size cap segs e rc) : 0 < size -> n <= size ->
  econtext_okay s = Ok (s, inr tt) /\ need n s = Ok (s, inr tt).
Proof.
  intros H1 Hn. unfold econtext_okay, need. do 2 erewrite codec_bind_ok by done. split.
  - apply cassert_ok, bool_decide_eq_true_2. done.
  - apply return_if_not, bool_decide_eq_false_2. cbn. lia.
Qed.

(** ** Packets of one question and at most one answer *)

Section Packets.
Context `{FloatText}.

Lemma fits_edns rc n k e : fits n k e -> fits n k (edns ← cget e_edns; return_if edns rc;; e).
Proof.
  intros He s Hs Hn Hk. rewrite (codec_bind_ok _ _ s s (e_edns s)) by done.
  destruct (He s Hs Hn Hk) as (s' & E & Hr). exists s'. split; [|done]. by rewrite (step_edns s Hs).
Qed.

(** [dns_encode] succeeds when the sections fit behind the header. *)
Lemma dns_encode_fits plen q n k :
  0 <= dq_id q <= UINT16_MAX -> dq_opcode q <= 5 -> dq_rcode q <= 15 ->
  qdcount q <= UINT16_MAX -> ancount q <= UINT16_MAX -> nscount q <= UINT16_MAX ->
  arcount q <= UINT16_MAX -> fits n k (encode_sections q) -> 0 <= n -> (k <= 100)%nat ->
  HEADER + n <= plen -> plen < 2 ^ 64 ->
  exists m len, dns_encode plen q = Ok (RCODE_OKAY, m, len) /\ HEADER <= len <= HEADER + n /\ len <= zlen m.
Proof.
  intros Hid Hop Hrc Hqd Han Hns Har Hf Hn0 Hk Hn H64. unfold dns_encode, HEADER in *.
  rewrite cond_true by lia. cbn [negb]. set (s := mkE _ _ _ _ _ _).
  assert (Hq : query_okay q s = Ok (s, inr tt)).
  { unfold query_okay.
    rewrite !(codec_bind_ok _ _ s s tt) by (apply cassert_ok, bool_decide_eq_true_2; lia).
    apply cassert_ok, bool_decide_eq_true_2. lia. }
  destruct (Hf s) as (s' & Es & Hs & C & D & S & _).
  - by split; [|cbn; lia|].
  - cbn. lia.
  - done.
  - rewrite Hq, Es. cbn [mbind outcome_bind]. do 2 eexists. split; [done|].
    destruct Hs as [Hs1 _ _]. change (e_cap s) with plen in C. change (e_size s) with (plen - 12) in S.
    rewrite zlen_app.
    match goal with |- context [zlen (replicate ?k nul)] => pose proof (zlen_nonneg (replicate k nul)) end.
    lia.
Qed.

(** A question, alone or with a TXT answer. *)
Lemma fits_one_question q name ls type class : questions q = [mkQuestion (Some name) type class] ->
  answers q = [] -> nameservers q = [] -> additional q = [] ->
  Forall label_ok ls -> name = name_text ls -> (type =? RR_OPT) = false -> 1 <= class <= 4 ->
  fits (zlen name + 5) (length ls) (encode_sections q).
Proof.
  intros Hq Ha Hn Hr Hls Hname Ht Hc. unfold encode_sections, encode_questions, encode_answers.
  rewrite Hq, Ha, Hn, Hr. cbn [encode_all].
  apply (fits_weaken (zlen name + 1 + 4 + 0 + (0 + (0 + 0))) _ (length ls + 0 + (0 + (0 + 0)))); [|lia|lia].
  assert (Hret : fits 0 0 (cret tt)).
  { intros s Hs _ Hk. exists s. split_and!; try done; lia. }
  repeat (apply fits_seq; [lia| |]); try done; [by apply fits_question|by apply fits_edns].
Qed.

Lemma fits_one_answer q name ls type class a als ttl c text :
  questions q = [mkQuestion (Some name) type class] ->
  answers q = [mkAnswer (Some a) RR_TXT c ttl (R_TXT (zlen text) (Some (cmem text)))] ->
  nameservers q = [] -> additional q = [] ->
  Forall label_ok ls -> name = name_text ls -> (type =? RR_OPT) = false -> 1 <= class <= 4 ->
  Forall label_ok als -> a = name_text als -> 0 < zlen text <= 255 ->
  fits (zlen name + zlen a + zlen text + 17) (length ls + length als) (encode_sections q).
Proof.
  intros Hq Ha Hn Hr Hls Hname Ht Hc Hals -> Htx. unfold encode_sections, encode_questions, encode_answers.
  rewrite Hq, Ha, Hn, Hr. cbn [encode_all]. pose proof (zlen_nonneg (name_text als)).
  apply (fits_weaken (zlen name + 1 + 4 + 0 + (zlen (name_text als) + 1 + 10 + (zlen text + 1) + 0 + (0 + 0)))
    _ (length ls + 0 + (length als + 0 + (0 + 0)))); [|lia|lia].
  assert (Hret : fits 0 0 (cret tt)).
  { intros s Hs _ Hk. exists s. split_and!; try done; lia. }
  repeat (apply fits_seq; [lia| |]); try done;
    [by apply fits_question|by apply fits_txt_answer|by apply fits_edns].
Qed.
End Packets.
