(* ===== verification/DnsTypes.v ===== *)
(** * What decoded packets hold

    A typing of the codec's data: numbers have the width of their fields, a
    length agrees with the bytes it counts, a name is a string, and the member
    of the union [dns_answer_t] is the one the type of the record selects. The
    decoder yields typed data only, whatever the packet. *)
From Stdlib Require Import SpecFloat.
From S2P Require Import Prelude CString Dns DnsEncode DnsDecode DnsNames DnsRoundTrip.

(** ** Types *)

Definition u16 (z : Z) : Prop := 0 <= z < 2 ^ 16.
Definition u32 (z : Z) : Prop := 0 <= z < 2 ^ 32.
Definition int32 (z : Z) : Prop := - 2 ^ 31 <= z < 2 ^ 31.
Definition str_typed (p : option cstr) : Prop := exists s, p = Some s /\ no_nul s.
Definition raw_typed (n : Z) (p : option mem) : Prop :=
  match p with Some m => 0 < n /\ zlen m = n | None => n <= 0 end.
Definition angle_typed (a : dnsgpos_angle) : Prop :=
  int32 (deg a) /\ int32 (Dns.min a) /\ int32 (sec a) /\ int32 (frac a).
Definition loc_typed (limit : Z) (a : dnsgpos_angle) : Prop :=
  0 <= deg a <= limit /\ 0 <= Dns.min a < 60 /\ 0 <= sec a < 60 /\ 0 <= frac a < 1000.
Definition opt_typed (o : edns0_opt_t) : Prop :=
  u16 (o_code o) /\ u16 (o_len o) /\ zlen (o_data o) = o_len o.

(** The types of records that have a member of their own. *)
Definition own_types : list Z :=
  [RR_A; RR_SOA; RR_NAPTR; RR_AAAA; RR_SRV; RR_WKS; RR_GPOS; RR_LOC; RR_OPT].
Definition raw_type (t : Z) : bool :=
  negb (bool_decide (t ∈ own_types) || is_minfo t || is_mx t || is_hinfo t || is_txt t || is_domain t).

Definition rdata_typed (t : Z) (d : dns_rdata) : Prop :=
  match d with
  | R_A m => t = RR_A /\ zlen m = 4
  | R_AAAA m => t = RR_AAAA /\ zlen m = 16
  | R_SOA mname rname a b c d e =>
      t = RR_SOA /\ str_typed mname /\ str_typed rname /\ Forall u32 [a; b; c; d; e]
  | R_NAPTR o p f s r rep =>
      t = RR_NAPTR /\ u16 o /\ u16 p /\ Forall str_typed [f; s; r; rep]
  | R_SRV p w port target => t = RR_SRV /\ Forall u16 [p; w; port] /\ str_typed target
  | R_WKS m protocol n bits => t = RR_WKS /\ zlen m = 4 /\ u16 protocol /\ raw_typed n bits
  | R_GPOS lng lat _ => t = RR_GPOS /\ angle_typed lng /\ angle_typed lat
  | R_LOC v size h ve lat lng alt =>
      t = RR_LOC /\ v = 0 /\ Forall (fun z => 0 <= z <= 9 * 10 ^ 9) [size; h; ve] /\
      loc_typed 90 lat /\ loc_typed 180 lng /\ u32 (alt + LOC_ALT_BIAS)
  | R_OPT u v _ fug z opts =>
      t = RR_OPT /\ u16 u /\ v = 0 /\ 0 <= fug < 2 ^ 15 /\ z = 0 /\ Forall opt_typed opts
  | R_MINFO r e => is_minfo t = true /\ str_typed r /\ str_typed e
  | R_MX p e => is_mx t = true /\ u16 p /\ str_typed e
  | R_HINFO c o => is_hinfo t = true /\ str_typed c /\ str_typed o
  | R_TXT len text => is_txt t = true /\ exists m, text = Some (m ++ [nul]) /\ zlen m = len
  | R_CNAME c => is_domain t = true /\ str_typed c
  | R_X n r => raw_type t = true /\ u16 n /\ raw_typed n r
  end.

Record question_typed (q : dns_question_t) : Prop := {
  qt_name : str_typed (q_name q);
  qt_type : u16 (q_type q);
  qt_not_opt : q_type q <> RR_OPT;
  qt_class : u16 (q_class q) }.
Record answer_typed (a : dns_answer_t) : Prop := {
  at_name : str_typed (a_name a);
  at_type : u16 (a_type a);
  at_class : u16 (a_class a);
  at_ttl : u32 (a_ttl a);
  at_data : rdata_typed (a_type a) (a_data a) }.
Record query_typed (q : dns_query_t) : Prop := {
  dt_id : u16 (dq_id q);
  dt_opcode : 0 <= dq_opcode q < 16;
  dt_rcode : 0 <= dq_rcode q < 2 ^ 12;
  dt_questions : Forall question_typed (questions q);
  dt_answers : Forall answer_typed (answers q);
  dt_nameservers : Forall answer_typed (nameservers q);
  dt_additional : Forall answer_typed (additional q) }.

(** ** Rules

    [Yields Q d]: what the decoder [d] returns is in [Q]; the return code kept
    in the state stays within its 12 bits. *)

Definition rcode_ok (s : ddns_context) : Prop := 0 <= d_rcode s < 2 ^ 12.
Class Yields {A} (Q : A -> Prop) (d : D A) : Prop := yields s s' a :
  d s = Ok (s', inr a) -> rcode_ok s -> rcode_ok s' /\ Q a.
Abbreviation anything := (fun _ => True).

Lemma yields_bind {A B} (Q : A -> Prop) (P : B -> Prop) d f :
  Yields Q d -> (forall a, Q a -> Yields P (f a)) -> Yields P (d ≫= f).
Proof.
  intros Hd Hf s s' b (a & s1 & E1 & E2)%codec_bind_inv Hs.
  destruct (Hd _ _ _ E1 Hs) as [Hs1 Ha]. by eapply Hf.
Qed.
Lemma yields_weaken {A} (P Q : A -> Prop) d : Yields P d -> (forall a, P a -> Q a) -> Yields Q d.
Proof. intros Hd Hw s s' a E Hs. destruct (Hd _ _ _ E Hs). auto. Qed.
Lemma yields_ret {A} (Q : A -> Prop) a : Q a -> Yields Q (cret a).
Proof. by intros Ha s s' b [= <- <-]. Qed.
Lemma yields_modify f : (forall s, rcode_ok s -> rcode_ok (f s)) -> Yields anything (cmodify f).
Proof. intros Hf s s' b [= <- <-] Hs. auto. Qed.

(** Steps that leave the state alone. *)
Lemma yields_pure {A} (Q : A -> Prop) (d : D A) :
  (forall s s' a, d s = Ok (s', inr a) -> s' = s /\ Q a) -> Yields Q d.
Proof. intros H s s' a E Hs. by destruct (H _ _ _ E) as [-> ?]. Qed.

#[global] Instance yields_code {A} (Q : A -> Prop) rc : Yields Q (code_ rc).
Proof. by intros s s' a. Qed.
#[global] Instance yields_fault {A} (Q : A -> Prop) f : Yields Q (cfault f).
Proof. by intros s s' a. Qed.
#[global] Instance yields_get {A} (f : ddns_context -> A) : Yields anything (cget f).
Proof. apply yields_pure. by intros s s' a [= <- _]. Qed.
#[global] Instance yields_get_rcode : Yields (fun rc => 0 <= rc < 2 ^ 12) (cget d_rcode) | 0.
Proof. by intros s s' a [= <- <-]. Qed.
#[global] Instance yields_assert b : Yields (fun _ => b = true) (cassert b).
Proof. apply yields_pure. intros s s' a. unfold cassert. destruct b; [|done]. by intros [= <-]. Qed.
#[global] Instance yields_return_if b rc : Yields (fun _ => b = false) (return_if b rc).
Proof. apply yields_pure. intros s s' a. unfold return_if. destruct b; [done|]. by intros [= <-]. Qed.
#[global] Instance yields_clift {A} (o : outcome A) : Yields (fun a => o = Ok a) (clift o).
Proof. apply yields_pure. intros s s' a. unfold clift. destruct o; [|done]. by intros [= <- <-]. Qed.
#[global] Instance yields_advance n : Yields anything (advance n).
Proof. by apply yields_modify. Qed.
#[global] Instance yields_put n : Yields anything (put n).
Proof. intros s s' a. unfold put. destruct (zleb _ _); [|done]. by intros [= <-]. Qed.

#[global] Instance yields_peek p : Yields (fun b => 0 <= b < 256) (peek p).
Proof.
  apply (yields_bind anything); [apply _|intros s _].
  eapply yields_bind; [apply _|intros c _]. apply yields_ret, code_bound.
Qed.
Lemma rdn_length m off n l : rdn m off n = Ok l -> 0 <= n /\ zlen l = n.
Proof.
  unfold rdn, zleb, zlen. repeat case_bool_decide; try done. cbn [andb]. intros [= <-].
  rewrite length_take, length_drop. lia.
Qed.
#[global] Instance yields_peekn p n : Yields (fun m => 0 <= n /\ zlen m = n) (peekn p n).
Proof.
  apply (yields_bind anything); [apply _|intros s _].
  eapply yields_weaken; [apply _|]. intros l. apply rdn_length.
Qed.

(** Go through a decoder step by step. *)
Ltac yields_step :=
  match goal with
  | |- Yields _ (_ ≫= _) => eapply yields_bind; [solve [apply _ | by apply yields_modify]|intros ? ?; cbn beta in *]
  | |- Yields _ (cret _) => apply yields_ret; try done
  | |- Yields _ (code_ _) => apply _
  | |- Yields _ (cfault _) => apply _
  | |- Yields _ (cmodify _) => by apply yields_modify
  | |- Yields _ (if ?b then _ else _) => destruct b eqn:?
  | |- Yields _ (match ?x with _ => _ end) => destruct x eqn:?
  | |- Yields _ (let _ := _ in _) => cbv zeta
  | |- Yields _ _ => eapply yields_weaken; [apply _|by auto]
  end.
Ltac yields := repeat yields_step.

(** ** Numbers and strings *)

Lemma of_be_bound m : of_be m < 256 ^ zlen m.
Proof.
  induction m as [|c m IH] using rev_ind; [done|].
  rewrite of_be_snoc by apply of_be_nonneg. pose proof (code_bound c). pose proof (of_be_nonneg m).
  unfold zlen in *. rewrite length_app. cbn [length].
  rewrite Nat2Z.inj_add, Z.pow_add_r by lia. lia.
Qed.
Lemma no_nul_cstr_of m : no_nul (cstr_of m).
Proof.
  unfold cstr_of, no_nul. induction m as [|c m IH]; [constructor|]. cbn [take_while].
  destruct (is_nul c) eqn:E; [constructor|]. constructor; [|done]. intros ->. done.
Qed.
Lemma str_typed_cstr_of m : str_typed (Some (cstr_of m)).
Proof. exists (cstr_of m). split; [done|apply no_nul_cstr_of]. Qed.

Lemma of_be_range n m : zlen m = n -> 0 <= of_be m < 256 ^ n.
Proof. intros <-. split; [apply of_be_nonneg|apply of_be_bound]. Qed.

#[global] Instance yields_dcontext_okay : Yields anything dcontext_okay.
Proof. unfold dcontext_okay. yields. Qed.
#[global] Instance yields_align_memory : Yields anything align_memory.
Proof. unfold align_memory. yields. Qed.
#[global] Instance yields_alloc_struct n : Yields anything (alloc_struct n).
Proof. unfold alloc_struct. yields. Qed.
#[global] Instance yields_read_uint16 : Yields u16 read_uint16.
Proof. unfold read_uint16. yields. apply (of_be_range 2). tauto. Qed.
#[global] Instance yields_read_uint32 : Yields u32 read_uint32.
Proof. unfold read_uint32. yields. apply (of_be_range 4). tauto. Qed.

#[global] Instance yields_read_raw n : Yields (raw_typed n) (read_raw n).
Proof.
  unfold read_raw, zltb. yields; cbn.
  - match goal with E : bool_decide _ = true |- _ => apply bool_decide_eq_true in E end. tauto.
  - match goal with E : bool_decide _ = false |- _ => apply bool_decide_eq_false in E end. lia.
Qed.
#[global] Instance yields_read_string : Yields str_typed read_string.
Proof. unfold read_string. yields. apply str_typed_cstr_of. Qed.
#[global] Instance yields_read_labels k p size main loop acc :
  Yields anything (read_labels k p size main loop acc).
Proof.
  revert p size main loop acc. induction k as [|k IH]; intros p size main loop acc; cbn [read_labels].
  - apply _.
  - yields; destruct main; yields.
Qed.
#[global] Instance yields_read_domain : Yields str_typed read_domain.
Proof. unfold read_domain. yields. apply str_typed_cstr_of. Qed.

(** ** Resource records *)

Create HintDb typed.
#[export] Hint Resolve str_typed_cstr_of : typed.

Ltac typed :=
  yields; cbn [rdata_typed];
  repeat match goal with
  | |- _ /\ _ => split
  | |- Forall _ _ => constructor
  end; try tauto; auto with typed.

Lemma yields_soa len : Yields (rdata_typed RR_SOA) (decode_rr_soa len).
Proof. unfold decode_rr_soa. typed. Qed.
Lemma yields_a len : Yields (rdata_typed RR_A) (decode_rr_a len).
Proof. unfold decode_rr_a. typed. Qed.
Lemma yields_aaaa len : Yields (rdata_typed RR_AAAA) (decode_rr_aaaa len).
Proof. unfold decode_rr_aaaa. typed. Qed.
Lemma yields_wks len : Yields (rdata_typed RR_WKS) (decode_rr_wks len).
Proof. unfold decode_rr_wks. typed. Qed.
Lemma yields_srv len : Yields (rdata_typed RR_SRV) (decode_rr_srv len).
Proof. unfold decode_rr_srv. typed. Qed.
Lemma yields_naptr len : Yields (rdata_typed RR_NAPTR) (decode_rr_naptr len).
Proof. unfold decode_rr_naptr. typed. Qed.
Lemma yields_mx t len : is_mx t = true -> Yields (rdata_typed t) (decode_rr_mx len).
Proof. intros Ht. unfold decode_rr_mx. typed. Qed.
Lemma yields_hinfo t : is_hinfo t = true -> Yields (rdata_typed t) decode_rr_hinfo.
Proof. intros Ht. unfold decode_rr_hinfo. typed. Qed.
Lemma yields_minfo t : is_minfo t = true -> Yields (rdata_typed t) decode_rr_minfo.
Proof. intros Ht. unfold decode_rr_minfo. typed. Qed.
#[global] Instance yields_txt_strings k len acc : Yields anything (txt_strings k len acc).
Proof. revert len acc. induction k as [|k IH]; intros len acc; cbn [txt_strings]; yields. Qed.
Lemma yields_txt t len : is_txt t = true -> Yields (rdata_typed t) (decode_rr_txt len).
Proof. intros Ht. unfold decode_rr_txt. yields. split; [done|]. by eexists. Qed.

(** Angles. *)
Lemma to_int_int32 v z : to_int v = Ok z -> int32 z.
Proof.
  unfold to_int, zleb, zltb, int32. destruct (d_trunc v); [|done].
  repeat case_bool_decide; try done. intros [= <-]. lia.
Qed.
Lemma dgpos_angle_typed half v a : dgpos_angle half v = Ok a -> angle_typed a.
Proof.
  unfold dgpos_angle. intros E. repeat apply bind_ok in E as (? & ?%to_int_int32 & E).
  injection E as <-. unfold angle_typed. cbn. tauto.
Qed.

Section Records.
Context `{FloatText}.

#[local] Instance yields_dloc_double : Yields anything dloc_double.
Proof. unfold dloc_double. yields. Qed.
Lemma yields_gpos : Yields (rdata_typed RR_GPOS) decode_rr_gpos.
Proof.
  unfold decode_rr_gpos. yields.
  repeat match goal with E : dgpos_angle _ _ = Ok _ |- _ => apply dgpos_angle_typed in E end.
  done.
Qed.

#[local] Instance yields_dloc_scale z :
  Yields (fun v => 0 <= z -> 0 <= v <= 9 * 10 ^ 9) (dloc_scale z).
Proof.
  unfold dloc_scale, zltb. yields. intros Hz.
  match goal with E : orb _ _ = false |- _ => apply orb_false_iff in E as [E1 E2] end.
  apply bool_decide_eq_false in E1, E2.
  assert (0 <= Z.shiftr z 4) by by apply Z.shiftr_nonneg.
  assert (0 <= Z.land z 15) by (apply Z.land_nonneg; lia).
  pose proof (Z.pow_le_mono_r 10 (Z.land z 15) 9). pose proof (Z.pow_pos_nonneg 10 (Z.land z 15)). nia.
Qed.

(** An angle in thousandths of a second. *)
Lemma dloc_angle_typed half v limit : 0 <= v <= limit * 3600000 -> loc_typed limit (dloc_angle half v).
Proof.
  intros Hv. unfold loc_typed, dloc_angle. cbn. rewrite !Z.div_div by lia. repeat split.
  - apply Z.div_pos; lia.
  - apply Z.div_le_upper_bound; lia.
  - apply Z.mod_pos_bound. lia.
  - apply Z.mod_pos_bound. lia.
  - apply Z.mod_pos_bound. lia.
  - apply Z.mod_pos_bound. lia.
  - apply Z.mod_pos_bound. lia.
  - apply Z.mod_pos_bound. lia.
Qed.
(** The distance from the equator or the prime meridian. *)
Lemma loc_offset z limit :
  zltb limit (if zleb LOC_BIAS z then z - LOC_BIAS else LOC_BIAS - z) = false ->
  0 <= (if zleb LOC_BIAS z then z - LOC_BIAS else LOC_BIAS - z) <= limit.
Proof. unfold zleb. intros E%bool_decide_eq_false. case_bool_decide; lia. Qed.

#[local] Instance yields_scale p :
  Yields (fun v => 0 <= v <= 9 * 10 ^ 9) (b ← peek p; dloc_scale b).
Proof.
  eapply yields_bind; [apply _|intros b Hb; cbn beta in Hb].
  eapply yields_weaken; [apply _|]. intros v Hv. apply Hv. lia.
Qed.

Lemma yields_loc len : Yields (rdata_typed RR_LOC) (decode_rr_loc len).
Proof.
  unfold decode_rr_loc. yields.
  match goal with E : negb (_ =? 0) = false |- _ => apply negb_false_iff, Z.eqb_eq in E end.
  repeat match goal with E : zltb _ _ = false |- _ =>
    first [apply (loc_offset _ (90 * 3600000)) in E|apply (loc_offset _ (180 * 3600000)) in E|clear E] end.
  cbn [rdata_typed]. split_and!; try done; [by do 3 (apply Forall_cons_2; [done|]); apply Forall_nil_2|by apply dloc_angle_typed..|].
  by rewrite Z.sub_add.
Qed.

Lemma lor_bound n a b : 0 <= n -> 0 <= a < 2 ^ n -> 0 <= b < 2 ^ n -> 0 <= Z.lor a b < 2 ^ n.
Proof.
  intros Hn Ha Hb. assert (E : Z.lor a b = Z.lor a b mod 2 ^ n).
  { rewrite <- Z.land_ones, Z.land_lor_distr_l, !Z.land_ones by done. by rewrite !Z.mod_small. }
  rewrite E. apply Z.mod_pos_bound. lia.
Qed.

(** EDNS0 options. *)
#[local] Instance yields_count_opts k scan len n : Yields anything (count_opts k scan len n).
Proof. revert scan len n. induction k as [|k IH]; intros scan len n; cbn [count_opts]; yields. Qed.
#[local] Instance yields_nsid_bytes k p acc :
  Yields (fun m => zlen m = Z.of_nat k + zlen acc) (nsid_bytes k p acc).
Proof.
  revert p acc. induction k as [|k IH]; intros p acc; cbn [nsid_bytes]; [by apply yields_ret|].
  yields. eapply yields_weaken; [apply IH|]. intros m ->. unfold zlen. rewrite length_app. cbn. lia.
Qed.
Lemma yields_opt_data code len : u16 code -> u16 len ->
  Yields opt_typed (if code =? EDNS0RR_NSID then decode_edns0rr_nsid code len else decode_edns0rr_raw code len).
Proof.
  intros Hc Hl. unfold decode_edns0rr_nsid, decode_edns0rr_raw. yields; unfold opt_typed; cbn; [|tauto].
  assert (0 <= len / 2 < 2 ^ 16).
  { unfold u16 in Hl. split; [apply Z.div_pos; lia|apply Z.div_lt_upper_bound; lia]. }
  split; [done|]. split; [done|]. match goal with E : zlen _ = _ |- _ => rewrite E end.
  change (zlen []) with 0. lia.
Qed.
#[local] Instance yields_decode_opts n : Yields (Forall opt_typed) (decode_opts n).
Proof.
  induction n as [|n IH]; cbn [decode_opts]; [by apply yields_ret|]. 
  eapply yields_bind; [apply _|intros code Hc]. eapply yields_bind; [apply _|intros len Hl].
  yields_step. yields_step. eapply yields_bind; [by apply yields_opt_data|intros o Ho].
  yields. by constructor.
Qed.
Lemma yields_opt u fug fdo len : u16 u -> 0 <= fug < 2 ^ 15 ->
  Yields (rdata_typed RR_OPT) (decode_rr_opt u fug fdo len).
Proof.
  intros Hu Hf. unfold decode_rr_opt. yields_step. yields_step. yields_step.
  eapply yields_bind; [apply yields_modify; intros s Hs; apply lor_bound; [done|done|by vm_compute]|intros _ _].
  typed.
Qed.

Lemma yields_cname t : is_domain t = true -> Yields (rdata_typed t) (c ← read_domain; cret (R_CNAME c)).
Proof. intros Ht. typed. Qed.

(** The switch on the type selects the member of the union. *)
Lemma yields_rdata t len u fug fdo : u16 len -> u16 u -> 0 <= fug < 2 ^ 15 ->
  Yields (rdata_typed t) (decode_rdata t len u fug fdo).
Proof.
  intros Hl Hu Hf. unfold decode_rdata.
  repeat match goal with |- Yields _ (if Z.eqb t ?c then _ else _) => destruct (Z.eqb_spec t c) as [->|?];
    [first [apply yields_a|apply yields_soa|apply yields_naptr|apply yields_aaaa|apply yields_srv
           |apply yields_wks|apply yields_gpos|apply yields_loc|by apply yields_opt]|] end.
  destruct (is_minfo t) eqn:E1; [by apply yields_minfo|].
  destruct (is_mx t) eqn:E2; [by apply yields_mx|].
  destruct (is_hinfo t) eqn:E3; [by apply yields_hinfo|].
  destruct (is_txt t) eqn:E4; [by apply yields_txt|].
  destruct (is_domain t) eqn:E5; [by apply yields_cname|].
  yields. cbn [rdata_typed]. split; [|done]. unfold raw_type. rewrite E1, E2, E3, E4, E5, bool_decide_false; [done|].
  unfold own_types. rewrite !elem_of_cons, elem_of_nil. tauto.
Qed.

(** ** Questions, answers and packets *)

#[local] Instance yields_question : Yields question_typed decode_question.
Proof.
  unfold decode_question. yields. match goal with E : (_ =? _) = false |- _ => apply Z.eqb_neq in E end.
  by split.
Qed.

Definition header_typed (h : Z * Z * Z * Z * bool) : Prop :=
  let '(class, ttl, udp_payload, fug, _) := h in
  u16 class /\ u32 ttl /\ u16 udp_payload /\ 0 <= fug < 2 ^ 15.
Lemma shiftl4_rcode b : 0 <= b < 256 -> 0 <= Z.shiftl b 4 < 2 ^ 12.
Proof. intros Hb. rewrite Z.shiftl_mul_pow2 by lia. lia. Qed.
#[local] Instance yields_header t : Yields header_typed (decode_header t).
Proof.
  unfold decode_header. destruct (t =? RR_OPT).
  - do 3 (eapply yields_bind; [apply _|intros ? ?]). cbn beta in *.
    eapply yields_bind; [apply yields_modify; intros s Hs; apply lor_bound;
      [done|by apply shiftl4_rcode|done]|intros _ _].
    yields. unfold header_typed. split_and!; try done.
    all: change 32767 with (Z.ones 15); rewrite Z.land_ones by lia; apply Z.mod_pos_bound; lia.
  - yields.
Qed.
#[local] Instance yields_answer : Yields answer_typed decode_answer.
Proof.
  unfold decode_answer. do 5 (eapply yields_bind; [apply _|intros ? ?]).
  eapply yields_bind; [apply _|intros [[[[class ttl] u] fug] fdo] (Hc & Ht & Hu & Hf)].
  do 3 (eapply yields_bind; [apply _|intros ? ?]). cbn beta in *.
  eapply yields_bind; [by apply yields_rdata|intros d Hd]. apply yields_ret. by split.
Qed.
Lemma yields_repeat_n {A} (Q : A -> Prop) n d : Yields Q d ->
  Yields (fun l => length l = n /\ Forall Q l) (repeat_n n d).
Proof.
  intros Hd. induction n as [|n IH]; cbn [repeat_n]; [by apply yields_ret|].
  eapply yields_bind; [apply _|intros a Ha]. eapply yields_bind; [apply _|intros l [Hn Hl]].
  apply yields_ret. cbn. split; [congruence|by constructor].
Qed.
#[local] Instance yields_alloc_sections a b c d : Yields anything (alloc_sections a b c d).
Proof. unfold alloc_sections. yields. Qed.

(** The number of entries of a section that the header announces. *)
Definition section_count (m : mem) (i : nat) : Z := of_be (take 2 (drop i m)).
Lemma field_u16 m i : u16 (section_count m i).
Proof.
  split; [apply of_be_nonneg|]. eapply Z.lt_le_trans; [apply of_be_bound|].
  change (2 ^ 16) with (256 ^ 2). apply Z.pow_le_mono_r; [done|].
  unfold zlen. rewrite length_take. lia.
Qed.
Definition sections_as_announced (m : mem) (q : dns_query_t) : Prop :=
  qdcount q = section_count m 4 /\ ancount q = section_count m 6 /\
  nscount q = section_count m 8 /\ arcount q = section_count m 10.

Lemma yields_sections m :
  Yields (fun q => query_typed q /\ sections_as_announced m q) (decode_sections m).
Proof.
  unfold decode_sections. yields_step. yields_step.
  eapply yields_bind; [apply yields_modify; intros s Hs; cbn|intros _ _].
  { change 15 with (Z.ones 4). rewrite Z.land_ones by lia.
    pose proof (Z.mod_pos_bound (of_be (take 1 (drop 3 m))) (2 ^ 4)). unfold rcode_ok. cbn. lia. }
  cbv zeta. yields_step.
  eapply yields_bind; [apply yields_repeat_n, _|intros qs [Nq Hq]].
  eapply yields_bind; [apply yields_repeat_n, _|intros an [Na Ha]].
  eapply yields_bind; [apply yields_repeat_n, _|intros ns [Ns Hs]].
  do 2 yields_step.
  eapply yields_bind; [apply yields_repeat_n, _|intros ar [Nr Hr]].
  eapply yields_bind; [apply yields_get_rcode|intros rc Hrc].
  apply yields_ret. split.
  - split; try done; cbn; [apply (field_u16 m 0)|].
    change 15 with (Z.ones 4). rewrite Z.land_ones by lia. by apply Z.mod_pos_bound.
  - unfold sections_as_announced, qdcount, ancount, nscount, arcount, zlen, section_count. cbn.
    rewrite Nq, Na, Ns, Nr. rewrite !Z2Nat.id by apply of_be_nonneg. done.
Qed.

Lemma decoded_typed rsize m len q :
  dns_decode rsize m len = Ok (inr q) -> query_typed q /\ sections_as_announced m q.
Proof.
  unfold dns_decode. destruct (negb _); [done|]. destruct (zltb len HEADER); [done|].
  intros ([s r] & E & [= ->])%bind_ok. apply (yields_sections m _ _ _ E). by split.
Qed.

(** C11: The decoder yields typed data whatever the packet holds: the numbers of
    a decoded packet have the width of their fields, every section has as many
    entries as the header announces, the names are strings, and the type of
    each record selects the member of the union that was filled in: lengths
    agree with the bytes they count, a text ends in NUL, angles are on the
    globe, the return code has 12 bits. *)
Theorem dns_decode_typed rsize m len q :
  dns_decode rsize m len = Ok (inr q) -> query_typed q /\ sections_as_announced m q.
Proof. apply decoded_typed. Qed.
End Records.

Definition demo_packet : mem :=
  match @dns_encode demo_float 512 demo_query with Ok (_, m, _) => m | Fail _ => [] end.
Lemma dns_decode_typed_witness :
  @dns_decode demo_float 4096 demo_packet 81 = Ok (inr demo_query) /\
  query_typed demo_query /\ sections_as_announced demo_packet demo_query.
Proof.
  assert (E : @dns_decode demo_float 4096 demo_packet 81 = Ok (inr demo_query)) by by vm_compute.
  split; [exact E|]. by apply (@dns_decode_typed demo_float 4096 demo_packet 81 demo_query).
Defined.
