(* ===== verification/DnsBounds.v ===== *)
(** * Encoding stays within the buffer

    An encoder is [Safe]: it keeps the size the code believes is left equal to
    what is left of the buffer, it stops with a return code or a failed assert,
    and it never writes past the buffer, reads past an object or through the
    wrong member of a union. *)
From Stdlib Require Import SpecFloat.
From S2P Require Import Prelude CString Dns DnsEncode DnsDecode DnsNames DnsRoundTrip DnsTypes.

(** The size left is that of the buffer less the bytes written. *)
Definition box (s : edns_context) : Prop :=
  zlen (e_out s) + e_size s = e_cap s /\ 0 <= e_size s < 2 ^ 64.
(** What a step leaves behind. *)
Definition grows (s s' : edns_context) : Prop :=
  box s' /\ e_cap s' = e_cap s /\ zlen (e_out s) <= zlen (e_out s').

(** [n] bytes of room before, [m] bytes after. *)
Class Safe {A} (n m : Z) (Q : A -> Prop) (e : E A) : Prop := safe s :
  box s -> n <= e_size s ->
  match e s with
  | Ok (s', inr a) => grows s s' /\ m <= e_size s' /\ Q a
  | Ok (s', inl _) => grows s s'
  | Fail f => f = AssertFailed
  end.

Lemma grows_refl s : box s -> grows s s.
Proof. by split. Qed.
Lemma grows_trans s1 s2 s3 : grows s1 s2 -> grows s2 s3 -> grows s1 s3.
Proof. intros (? & ? & ?) (? & ? & ?). split; [done|]. split; [congruence|lia]. Qed.

Lemma safe_bind {A B} n m k (P : A -> Prop) (Q : B -> Prop) e f :
  Safe n m P e -> (forall a, P a -> Safe m k Q (f a)) -> Safe n k Q (e ≫= f).
Proof.
  intros He Hf s Hs Hn. specialize (He s Hs Hn). unfold mbind, codec_bind.
  destruct (e s) as [[s1 [rc|a]]|]; [done| |done]. destruct He as (Hg & Hm & Ha).
  specialize (Hf a Ha s1 (proj1 Hg) Hm).
  destruct (f a s1) as [[s2 [rc|b]]|]; [by eapply grows_trans| |done].
  destruct Hf as (? & ? & ?). split; [by eapply grows_trans|done].
Qed.
Lemma safe_weaken {A} n n' m m' (P Q : A -> Prop) e :
  Safe n m P e -> n <= n' -> m' <= m -> (forall a, P a -> Q a) -> Safe n' m' Q e.
Proof.
  intros He Hn Hm HQ s Hs Hr. specialize (He s Hs ltac:(lia)).
  destruct (e s) as [[s1 [rc|a]]|]; [done| |done]. destruct He as (? & ? & ?).
  split; [done|]. split; [lia|auto].
Qed.

Lemma safe_post {A} n m (P Q : A -> Prop) e : Safe n m P e -> (forall a, P a -> Q a) -> Safe n m Q e.
Proof. intros He HQ. by eapply safe_weaken; [exact He|lia|lia|]. Qed.

(** Steps that leave the state alone. *)
Lemma safe_pure {A} n (Q : A -> Prop) (e : E A) :
  (forall s, match e s with
             | Ok (s', r) => s' = s /\ match r with inr a => Q a | inl _ => True end
             | Fail f => f = AssertFailed end) -> Safe n n Q e.
Proof.
  intros H s Hs Hn. specialize (H s). destruct (e s) as [[s1 [rc|a]]|]; [|..]; try done.
  - destruct H as [-> _]. by apply grows_refl.
  - destruct H as [-> ?]. split; [by apply grows_refl|done].
Qed.
Lemma safe_ret {A} n (Q : A -> Prop) a : Q a -> Safe n n Q (cret a).
Proof. intros. by apply safe_pure. Qed.
#[global] Instance safe_code {A} n (Q : A -> Prop) rc : Safe n n Q (code_ rc).
Proof. by apply safe_pure. Qed.
#[global] Instance safe_get {A} n (f : edns_context -> A) : Safe n n anything (cget f).
Proof. by apply safe_pure. Qed.
#[global] Instance safe_assert n b : Safe n n (fun _ => b = true) (cassert b).
Proof. apply safe_pure. intros s. unfold cassert. by destruct b. Qed.
#[global] Instance safe_return_if n b rc : Safe n n (fun _ => b = false) (return_if b rc).
Proof. apply safe_pure. intros s. unfold return_if. by destruct b. Qed.
#[global] Instance safe_ptr {A} n (p : option A) : Safe n n (fun a => p = Some a) (cassert_ptr p).
Proof. apply safe_pure. intros s. unfold cassert_ptr. by destruct p. Qed.
Lemma safe_modify n f : (forall s, e_out (f s) = e_out s /\ e_size (f s) = e_size s /\ e_cap (f s) = e_cap s) ->
  Safe n n anything (cmodify f).
Proof.
  intros Hf s Hs Hn. unfold cmodify, grows, box in *. destruct (Hf s) as (-> & -> & ->). split; [|done].
  split; [done|]. by split.
Qed.

(** After [need k] there is room for [k] bytes. *)
#[global] Instance safe_need n k : Safe n k anything (need k).
Proof.
  intros s Hs Hn. unfold need, mbind, codec_bind, cget, return_if, zltb.
  case_bool_decide; [by apply grows_refl|]. split; [by apply grows_refl|]. split; [lia|done].
Qed.
Lemma safe_write n m k bs : k = zlen bs -> n = k + m -> 0 <= m -> Safe n m anything (emit bs;; shrink k).
Proof.
  intros -> -> Hm s [Hs Hb] Hn. pose proof (zlen_nonneg bs).
  unfold emit, shrink, cmodify, mbind, codec_bind, zleb. rewrite bool_decide_eq_true_2 by lia.
  cbn. rewrite wrap64_id by lia. unfold grows, box. cbn. rewrite zlen_app. repeat split; lia.
Qed.
Lemma safe_write_bind {A} n m k j bs (Q : A -> Prop) f :
  k = zlen bs -> n = k + m -> 0 <= m -> Safe m j Q f -> Safe n j Q (emit bs;; shrink k;; f).
Proof.
  intros Hk Hn Hm Hf. pose proof (safe_bind _ _ _ _ Q _ (fun _ => f) (safe_write n m k bs Hk Hn Hm) (fun _ _ => Hf)) as H.
  intros s Hs Hr. specialize (H s Hs Hr). revert H. unfold mbind, codec_bind.
  destruct (emit bs s) as [[s1 [rc|[]]]|]; [done| |done]. by destruct (shrink k s1) as [[s2 [rc|[]]]|].
Qed.

Lemma safe_uint16 n v : 2 <= n -> Safe n (n - 2) anything (write_uint16 v).
Proof.
  intros Hn. unfold write_uint16. eapply safe_bind; [apply _|intros sz _].
  do 2 (eapply safe_bind; [apply _|intros _ _]). apply safe_write; [done|lia|lia].
Qed.
Lemma safe_uint32 n v : 4 <= n -> Safe n (n - 4) anything (write_uint32 v).
Proof.
  intros Hn. unfold write_uint32. eapply safe_bind; [apply _|intros sz _].
  do 2 (eapply safe_bind; [apply _|intros _ _]). apply safe_write; [done|lia|lia].
Qed.
Lemma safe_copy n m k : 0 <= k <= n -> k <= zlen m -> Safe n (n - k) anything (copy_bytes m k).
Proof.
  intros Hn Hk. unfold copy_bytes, zleb. rewrite bool_decide_eq_true_2 by done.
  eapply (safe_bind _ n); [by apply (safe_ret _ anything)|intros _ _].
  apply safe_write; [|lia|lia]. unfold zlen in *. rewrite length_take. lia.
Qed.
#[global] Instance safe_okay n : Safe n n anything econtext_okay.
Proof. unfold econtext_okay. eapply safe_bind; [apply _|intros ? _]. by eapply safe_post; [apply _|]. Qed.

(** Go through an encoder step by step. *)
Ltac safe_known := first
  [ solve [apply _]
  | solve [apply safe_uint16; lia | apply safe_uint32; lia | apply safe_copy; lia]
  | solve [apply safe_modify; done]
  | solve [eapply safe_weaken; [apply _|lia|reflexivity|done]] ].
Ltac safe_step :=
  match goal with
  | |- Safe _ _ _ (_ ≫= _) => eapply safe_bind; [safe_known|intros ? ?; cbn beta in *; try lia]
  | |- Safe _ _ _ (cret _) => eapply safe_weaken; [by apply (safe_ret 0 anything)|lia|lia|done]
  | |- Safe _ _ _ (code_ _) => eapply safe_weaken; [apply (safe_code 0)|lia|lia|intros ? HF; exact HF]
  | |- Safe _ _ _ (let _ := _ in _) => cbv zeta
  | |- Safe _ _ _ (match ?x with _ => _ end) => destruct x eqn:?
  | |- Safe _ _ _ _ => by eapply safe_post; [solve [apply _]|]
  | |- Safe ?n _ _ _ => eapply (safe_weaken n); [safe_known|lia|lia|done]
  end.
Ltac safes := repeat safe_step.

(** ** Names and strings *)

Lemma strchr_lt s c i : strchr s c = Some i -> (i < length s)%nat.
Proof.
  revert i. induction s as [|x s IH]; intros i; cbn; [done|]. case_bool_decide.
  - intros [= <-]. lia.
  - intros (j & Hj & ->)%fmap_Some. apply IH in Hj. lia.
Qed.
#[global] Instance safe_segment src :
  Safe 0 0 (fun p => (length p.2 < length src)%nat) (encode_segment src).
Proof.
  unfold encode_segment. destruct (strchr src "."%char) as [len|] eqn:E; [|safes].
  apply strchr_lt in E. safe_step. safe_step. eapply safe_bind; [apply _|intros out _].
  eapply safe_write_bind; [|rewrite Z.add_0_r; done|done|].
  - unfold zlen. cbn [length]. rewrite length_take. lia.
  - apply safe_ret. cbn. rewrite length_drop. lia.
Qed.
Lemma safe_labels k name : (length name < k)%nat -> Safe 0 0 anything (encode_labels k name).
Proof.
  revert name. induction k as [|k IH]; intros name Hk; [lia|]. cbn [encode_labels].
  assert (Hf : Safe 0 0 anything (need 1;; emit [nul];; shrink 1)).
  { eapply safe_bind; [apply _|intros _ _]. by apply safe_write. }
  destruct name as [|c name]; [done|]. case_bool_decide; [done|].
  safe_step. destruct (segment_find _ _).
  - eapply safe_bind; [apply _|intros _ _]. by apply safe_write.
  - safe_step. eapply safe_bind; [apply _|intros [off rest] Hr]. cbn in Hr.
    safe_step. apply IH. cbn in Hk. lia.
Qed.
#[global] Instance safe_domain name : Safe 0 0 anything (encode_domain name).
Proof. unfold encode_domain. safe_step. safe_step. apply safe_labels. lia. Qed.

Lemma safe_string m size : 0 <= size <= zlen m -> Safe 0 0 anything (encode_string (Some m) size).
Proof.
  intros Hs. unfold encode_string, zleb.
  safe_step. eapply safe_bind; [apply _|intros ? [= <-]]. safe_step. safe_step.
  rewrite (bool_decide_eq_true_2 (size <= _)) by lia.
  eapply (safe_bind _ (size + 1)); [by apply (safe_ret _ anything)|intros _ _].
  apply safe_write; [|lia|lia]. unfold zlen in *. cbn [length]. rewrite length_take. lia.
Qed.
#[global] Instance safe_cstr s : Safe 0 0 anything (encode_cstr s).
Proof. apply safe_string. unfold cmem. rewrite zlen_app. pose proof (zlen_nonneg s). unfold zlen. cbn. lia. Qed.

(** ** Records *)

#[global] Instance safe_soa m r a b c d e : Safe 0 0 anything (encode_rr_soa m r a b c d e).
Proof. unfold encode_rr_soa. safes. Qed.
#[global] Instance safe_srv p w po t : Safe 0 0 anything (encode_rr_srv p w po t).
Proof. unfold encode_rr_srv. safes. Qed.
#[global] Instance safe_naptr ty c o p f s r rp : Safe 0 0 anything (encode_rr_naptr ty c o p f s r rp).
Proof. unfold encode_rr_naptr. safes. Qed.
#[global] Instance safe_minfo r e : Safe 0 0 anything (encode_rr_minfo r e).
Proof. unfold encode_rr_minfo. safes. Qed.
#[global] Instance safe_mx p e : Safe 0 0 anything (encode_rr_mx p e).
Proof. unfold encode_rr_mx. safes. Qed.
#[global] Instance safe_hinfo c o : Safe 0 0 anything (encode_rr_hinfo c o).
Proof. unfold encode_rr_hinfo. safes. Qed.
Lemma safe_a m : zlen m = 4 -> Safe 0 0 anything (encode_rr_a m).
Proof. intros Hm. unfold encode_rr_a. safes. Qed.
Lemma safe_aaaa m : zlen m = 16 -> Safe 0 0 anything (encode_rr_aaaa m).
Proof. intros Hm. unfold encode_rr_aaaa. safes. Qed.
Lemma safe_wks m p n bits : zlen m = 4 -> raw_typed n bits -> Safe 0 0 anything (encode_rr_wks m p n bits).
Proof.
  intros Hm Hb. unfold encode_rr_wks. do 3 safe_step. eapply safe_bind; [apply _|intros b ->].
  destruct Hb as [Hn Hb]. safes.
Qed.
Lemma safe_raw n r : 0 <= n -> raw_typed n r -> Safe 0 0 anything (encode_rr_x n r).
Proof.
  intros Hn Hb. unfold encode_rr_x. safe_step. eapply safe_bind; [apply _|intros b ->].
  destruct Hb as [_ Hb]. safes.
Qed.

Lemma safe_chunks k p max : max <= zlen p -> max <= Z.of_nat k -> Safe 0 0 anything (encode_chunks k p max).
Proof.
  revert p max. induction k as [|k IH]; intros p max Hp Hk; cbn [encode_chunks]; unfold zleb;
    (case_bool_decide; [by apply (safe_ret _ anything)|]); [lia|].
  eapply safe_bind; [apply safe_string; lia|intros _ _]. apply IH; [|lia].
  unfold zlen in *. rewrite length_drop. lia.
Qed.
Lemma safe_txt len m : zlen m = len -> Safe 0 0 anything (encode_rr_txt len (Some (m ++ [nul]))).
Proof.
  intros Hm. unfold encode_rr_txt. safe_step. safe_step. eapply safe_bind; [apply _|intros ? [= <-]].
  pose proof (zlen_nonneg m). apply safe_chunks; [|lia]. rewrite zlen_app. change (zlen [nul]) with 1. lia.
Qed.

Lemma length_hex m : length (m ≫= hex_byte) = (2 * length m)%nat.
Proof. induction m as [|c m IH]; [done|]. rewrite bind_cons, length_app, IH. cbn [length hex_byte]. lia. Qed.
Lemma safe_opt_data o : opt_typed o ->
  Safe 0 0 anything (if o_code o =? EDNS0RR_NSID then encode_edns0rr_nsid o else encode_edns0rr_raw o).
Proof.
  intros (Hc & Hl & Hd). unfold u16 in *. destruct (_ =? _).
  - unfold encode_edns0rr_nsid, zleb. cbv zeta. rewrite Hd, (bool_decide_eq_true_2 (o_len o <= o_len o)) by lia.
    do 4 safe_step. eapply (safe_bind _ (o_len o * 2 + 2 + 2)); [by apply (safe_ret _ anything)|intros _ _].
    assert (zlen (take (Z.to_nat (o_len o)) (o_data o) ≫= hex_byte) = o_len o * 2).
    { unfold zlen in *. rewrite length_hex, length_take. lia. }
    safes.
  - unfold encode_edns0rr_raw. safes.
Qed.
Lemma safe_opts opts : Forall opt_typed opts -> Safe 0 0 anything (encode_opts opts).
Proof.
  induction 1 as [|o opts Ho _ IH]; cbn [encode_opts]; [by apply (safe_ret _ anything)|].
  eapply safe_bind; [by apply safe_opt_data|by intros _ _].
Qed.
Lemma safe_opt c u v opts : Forall opt_typed opts -> Safe 0 0 anything (encode_rr_opt c u v opts).
Proof.
  intros Ho. unfold encode_rr_opt. do 8 safe_step.
  eapply safe_weaken; [by apply safe_opts|lia|lia|done].
Qed.

(** ** Answers and packets

    LOC records are written four bytes longer than the size accounts for, and
    the text of the angles of a GPOS record may be longer than its buffer. *)
Definition no_geo (a : dns_answer_t) : Prop := a_type a <> RR_LOC /\ a_type a <> RR_GPOS.

Section Packets.
Context `{FloatText}.

(** The cases of a type of record that the member at hand does not belong to. *)
Ltac other_member := match goal with
  | Hd : rdata_typed _ ?d |- Safe _ _ _ (match ?d with _ => _ end) =>
      destruct d; cbn [rdata_typed] in Hd; destruct Hd as [Ht Hd];
      try solve [exfalso; congruence | exfalso; vm_compute in Ht; discriminate Ht]
  end.
Ltac open_type E :=
  apply bool_decide_eq_true in E; repeat (apply elem_of_cons in E as [->|E]); [..|by apply elem_of_nil in E].

Lemma safe_rdata t c d : rdata_typed t d -> t <> RR_LOC -> t <> RR_GPOS ->
  Safe 0 0 anything (encode_rdata t c d).
Proof.
  intros Hd Hl Hg. unfold encode_rdata.
  repeat match goal with |- Safe _ _ _ (if Z.eqb t ?x then _ else _) => destruct (Z.eqb_spec t x) as [->|?] end;
    try done; try other_member; try (by apply _).
  - by apply safe_a.
  - by apply safe_aaaa.
  - destruct Hd as (Hm & _ & Hb). by apply safe_wks.
  - destruct Hd as (_ & _ & _ & _ & Ho). by apply safe_opt.
  - destruct (is_minfo t) eqn:E1; [open_type E1; other_member; apply _|].
    destruct (is_mx t) eqn:E2; [open_type E2; other_member; apply _|].
    destruct (is_hinfo t) eqn:E3; [open_type E3; other_member; apply _|].
    destruct (is_txt t) eqn:E4.
    { open_type E4; other_member; destruct Hd as (m & -> & Hm); by apply safe_txt. }
    destruct (is_domain t) eqn:E5; [open_type E5; other_member; apply _|].
    destruct (Z.eqb_spec t RR_NULL) as [->|?]; [|apply _].
    other_member. destruct Hd as [[Hn _] Hd]. by apply safe_raw.
Qed.

Lemma safe_opt_header n rc a : answer_typed a -> Safe n n anything (opt_header rc a).
Proof.
  intros [_ _ _ _ Hd]. unfold opt_header. destruct (Z.eqb_spec (a_type a) RR_OPT) as [E|_]; [|by apply safe_ret].
  rewrite E in Hd. destruct (a_data a); cbn [rdata_typed] in Hd; destruct Hd as [Ht _];
    try solve [exfalso; vm_compute in Ht; discriminate Ht]; by apply safe_ret.
Qed.

(** The length of the data is written when the data is there. *)
Lemma safe_patched (e : E unit) : Safe 0 0 anything e ->
  Safe 2 0 anything (prdlen ← cget e_out; emit [nul; nul];; shrink 2;; e;;
    out ← cget e_out; patch (length prdlen) (zlen out - (zlen prdlen + 2))).
Proof.
  intros He s [Hs Hb] Hn. set (s1 := set_size (e_size s - 2) (set_out (e_out s ++ [nul; nul]) s)).
  assert (Hl : zlen (e_out s1) = zlen (e_out s) + 2) by (cbn; by rewrite zlen_app).
  assert (H1 : box s1) by (split; [rewrite Hl|]; cbn; lia).
  assert (E1 : emit [nul; nul] s = Ok (set_out (e_out s ++ [nul; nul]) s, inr tt)).
  { unfold emit, zleb. rewrite bool_decide_eq_true_2; [done|]. change (zlen [nul; nul]) with 2. lia. }
  assert (E2 : shrink 2 (set_out (e_out s ++ [nul; nul]) s) = Ok (s1, inr tt)).
  { unfold shrink, cmodify. cbn [e_size set_out]. by rewrite wrap64_id by lia. }
  erewrite codec_bind_ok by done. erewrite codec_bind_ok by exact E1. erewrite codec_bind_ok by exact E2.
  specialize (He s1 H1 ltac:(cbn; lia)). unfold mbind, codec_bind, cget, patch, cmodify. cbn [id].
  destruct (e s1) as [[s2 [rc|[]]]|]; [|destruct He as [He _]|done]; destruct He as ([Hs2 Hb2] & Hc & Hg).
  - split; [done|]. split; [done|lia].
  - assert (Hp : zlen (take (length (e_out s)) (e_out s2) ++ be16 (zlen (e_out s2) - (zlen (e_out s) + 2)) ++
      drop (length (e_out s) + 2) (e_out s2)) = zlen (e_out s2)).
    { unfold zlen in *. rewrite !length_app, length_take, length_drop. cbn [length be16]. lia. }
    unfold grows, box. cbn [e_out e_size e_cap set_out]. rewrite Hp. repeat split; try lia. by cbn in Hc.
Qed.

Lemma safe_answer a : answer_typed a -> no_geo a -> Safe 0 0 anything (encode_answer a).
Proof.
  intros Ha [Hl Hg]. unfold encode_answer. do 2 safe_step.
  eapply safe_bind; [apply _|intros _ _]. eapply safe_bind; [apply _|intros rc _].
  eapply safe_bind; [by apply safe_opt_header|intros [class ttl] _]. do 3 safe_step.
  eapply (safe_weaken 2); [apply safe_patched|lia|lia|done]. apply safe_rdata; [apply Ha|done..].
Qed.
Lemma safe_question q : question_typed q -> Safe 0 0 anything (encode_question q).
Proof. intros _. unfold encode_question. safes. Qed.
Lemma safe_all {A} (P : A -> Prop) (encode : A -> E unit) l :
  (forall a, P a -> Safe 0 0 anything (encode a)) -> Forall P l -> Safe 0 0 anything (encode_all encode l).
Proof.
  intros He. induction 1 as [|a l Ha _ IH]; cbn [encode_all]; [by apply (safe_ret _ anything)|].
  eapply safe_bind; [by apply He|by intros _ _].
Qed.

(** The records of a packet, of every section. *)
Definition records (q : dns_query_t) : list dns_answer_t := answers q ++ nameservers q ++ additional q.

Lemma safe_sections q : query_typed q -> Forall no_geo (records q) -> Safe 0 0 anything (encode_sections q).
Proof.
  intros [_ _ _ Hq Ha Hn Hr] HG. apply Forall_app in HG as [Ga [Gn Gr]%Forall_app].
  assert (Hs : forall l, Forall answer_typed l -> Forall no_geo l -> Safe 0 0 anything (encode_answers l)).
  { intros l H1 H2. apply (safe_all (fun a => answer_typed a /\ no_geo a)).
    - intros a [? ?]. by apply safe_answer.
    - by apply Forall_and. }
  unfold encode_sections. eapply safe_bind; [by apply (safe_all _ _ _ safe_question)|intros _ _].
  do 2 (eapply safe_bind; [by apply Hs|intros _ _]). do 2 safe_step. by apply Hs.
Qed.
#[local] Instance safe_query_okay q : Safe 0 0 anything (query_okay q).
Proof. unfold query_okay. safes. Qed.

(** What encoding does with a decoded packet and a buffer of any size. *)
Lemma dns_encode_safe rsize m len q plen :
  dns_decode rsize m len = Ok (inr q) -> Forall no_geo (records q) -> plen < 2 ^ 64 ->
  match dns_encode plen q with
  | Ok (rc, buffer, n) => zlen buffer = plen /\ HEADER <= n <= plen
  | Fail f => f = AssertFailed
  end.
Proof.
  intros E Hg Hp. assert (Hq : query_typed q).
  { by eapply decoded_typed. }
  unfold dns_encode, zleb. case_bool_decide as Hl; [|done]. cbn [negb].
  set (s := mkE _ _ _ _ _ _). assert (Hh : zlen (header_bytes q) = 12) by done.
  assert (Hs : box s) by (unfold box, s, HEADER in *; cbn [e_out e_size e_cap]; lia).
  pose proof (safe_query_okay q s Hs ltac:(apply Hs)) as Ho. unfold mbind, outcome_bind.
  destruct (query_okay q s) as [[s0 r0]|]; [|done].
  pose proof (safe_sections q Hq Hg s Hs ltac:(apply Hs)) as He.
  assert (Hlen : forall s', grows s s' ->
    zlen (e_out s' ++ replicate (Z.to_nat (plen - zlen (e_out s'))) nul) = plen /\
    HEADER <= zlen (e_out s') <= plen).
  { intros s' ([H1 H2] & Hc & Hgr). change (e_cap s) with plen in Hc. rewrite zlen_app.
    unfold zlen in *. rewrite length_replicate. unfold s in Hgr. cbn [e_out] in Hgr. unfold HEADER. lia. }
  destruct (encode_sections q s) as [[s' [rc|u]]|]; [| |done].
  - destruct (Hlen s' He) as [Hn _]. split; [done|lia].
  - by apply Hlen, He.
Qed.
End Packets.
