(* ===== verification/DnsAsserts.v ===== *)
(** * Encoding without a failed assertion

    What the assertions of the encoder ask of a packet ([encodable]) and of the
    room there is ([size_bound]). An encoder that is [Clean] for [n] bytes of
    room does not fail when it has them, and leaves [m] of them. *)
From Stdlib Require Import SpecFloat.
From S2P Require Import Prelude CString Dns DnsEncode DnsDecode DnsRoundTrip DnsTypes DnsBounds.

Class Clean {A} (n m : Z) (Q : A -> Prop) (e : E A) : Prop := clean s :
  box s -> n <= e_size s ->
  match e s with
  | Ok (s', inr a) => box s' /\ m <= e_size s' /\ Q a
  | Ok (_, inl _) => True
  | Fail _ => False
  end.

Lemma clean_bind {A B} n m k (P : A -> Prop) (Q : B -> Prop) e f :
  Clean n m P e -> (forall a, P a -> Clean m k Q (f a)) -> Clean n k Q (e ≫= f).
Proof.
  intros He Hf s Hs Hn. specialize (He s Hs Hn). unfold mbind, codec_bind.
  destruct (e s) as [[s1 [rc|a]]|]; [done| |done]. destruct He as (Hs1 & Hm & Ha).
  by apply (Hf a Ha).
Qed.
Lemma clean_weaken {A} n n' m m' (P Q : A -> Prop) e :
  Clean n m P e -> n <= n' -> m' <= m -> (forall a, P a -> Q a) -> Clean n' m' Q e.
Proof.
  intros He Hn Hm HQ s Hs Hr. specialize (He s Hs ltac:(lia)).
  destruct (e s) as [[s1 [rc|a]]|]; [done| |done]. destruct He as (? & ? & ?).
  split; [done|]. split; [lia|auto].
Qed.

(** A step of which it is known that it is safe does not fail if its assertions
    hold. *)
Lemma clean_safe {A} n m (Q : A -> Prop) e : Safe n m Q e ->
  (forall s, n <= e_size s -> e s <> Fail AssertFailed) -> Clean n m Q e.
Proof.
  intros He Hf s Hs Hn. specialize (He s Hs Hn). specialize (Hf s Hn).
  destruct (e s) as [[s1 [rc|a]]|f]; [done| |by rewrite He in Hf].
  destruct He as ([? _] & ? & ?). done.
Qed.
Lemma clean_ret {A} n (Q : A -> Prop) a : Q a -> Clean n n Q (cret a).
Proof. intros Ha. apply clean_safe; [by apply safe_ret|done]. Qed.
Lemma clean_return_code {A} n (Q : A -> Prop) rc : Clean n n Q (code_ rc).
Proof. apply clean_safe; [apply _|done]. Qed.
Lemma clean_get {A} n (f : edns_context -> A) : Clean n n anything (cget f).
Proof. apply clean_safe; [apply _|done]. Qed.
Lemma clean_assert n b : b = true -> Clean n n anything (cassert b).
Proof. intros ->. apply clean_safe; [|done]. by eapply safe_post; [apply _|]. Qed.
Lemma clean_return_if n b rc : Clean n n anything (return_if b rc).
Proof. apply clean_safe; [by eapply safe_post; [apply _|]|]. intros s _. unfold return_if. by destruct b. Qed.
Lemma clean_ptr {A} n (a : A) : Clean n n (fun a' => a' = a) (cassert_ptr (Some a)).
Proof. apply clean_safe; [|done]. by eapply safe_post; [apply _|intros a' [= ->]]. Qed.
Lemma clean_ptr_typed n p : str_typed p -> Clean n n anything (cassert_ptr p).
Proof. intros (a & -> & _). eapply clean_weaken; [apply clean_ptr|reflexivity|reflexivity|done]. Qed.
Lemma clean_modify n f : (forall s, e_out (f s) = e_out s /\ e_size (f s) = e_size s /\ e_cap (f s) = e_cap s) ->
  Clean n n anything (cmodify f).
Proof. intros Hf. apply clean_safe; [by apply safe_modify|done]. Qed.
Lemma clean_okay n : 1 <= n -> Clean n n anything econtext_okay.
Proof.
  intros Hn. apply clean_safe; [apply _|]. intros s Hs. unfold econtext_okay, mbind, codec_bind, cget, cassert, zltb.
  by rewrite bool_decide_true by lia.
Qed.
Lemma clean_need n k : Clean n n anything (need k).
Proof.
  intros s Hs Hn. unfold need, mbind, codec_bind, cget, return_if, zltb. by case_bool_decide.
Qed.
Lemma clean_write n m k bs : k = zlen bs -> n = k + m -> 0 <= m -> Clean n m anything (emit bs;; shrink k).
Proof.
  intros -> -> Hm. apply clean_safe; [by apply safe_write|].
  intros s _. unfold emit, shrink, cmodify, mbind, codec_bind. by destruct (zleb _ _).
Qed.
Lemma clean_uint16 n v : 2 <= n -> Clean n (n - 2) anything (write_uint16 v).
Proof.
  intros Hn. apply clean_safe; [by apply safe_uint16|]. intros s Hs.
  unfold write_uint16, emit, shrink, cmodify, mbind, codec_bind, cget, cassert, zltb, zleb.
  rewrite !(bool_decide_true (_ < _)), (bool_decide_true (2 <= _)) by lia. by case_bool_decide.
Qed.
Lemma clean_uint32 n v : 4 <= n -> Clean n (n - 4) anything (write_uint32 v).
Proof.
  intros Hn. apply clean_safe; [by apply safe_uint32|]. intros s Hs.
  unfold write_uint32, emit, shrink, cmodify, mbind, codec_bind, cget, cassert, zltb, zleb.
  rewrite !(bool_decide_true (_ < _)), (bool_decide_true (4 <= _)) by lia. by case_bool_decide.
Qed.
Lemma clean_copy n m k : 0 <= k <= n -> k <= zlen m -> Clean n (n - k) anything (copy_bytes m k).
Proof.
  intros Hn Hk. apply clean_safe; [by apply safe_copy|]. intros s _.
  unfold copy_bytes, emit, shrink, cmodify, mbind, codec_bind, zleb, cret.
  rewrite bool_decide_true by done. by case_bool_decide.
Qed.

(** Go through an encoder step by step; the goals left are about room. *)
Ltac clean_known := first
  [ apply clean_ptr | apply clean_ptr_typed; assumption | apply clean_get | apply clean_return_if | apply clean_need
  | apply clean_assert; assumption | apply clean_modify; done
  | apply clean_okay; lia | apply clean_uint16; lia | apply clean_uint32; lia | apply clean_copy; lia ].
Ltac clean_step := lazymatch goal with
  | |- Clean _ _ _ (_ ≫= _) => eapply clean_bind; [solve [clean_known]|intros ? ?; cbn beta in *; subst]
  end.
(** The last step leaves at least the room asked for. *)
Ltac clean_last := match goal with
  | |- Clean ?n _ _ _ => eapply (clean_weaken n); [solve [clean_known]|lia|lia|done]
  end.

(** ** Names and strings *)

Definition text_size (p : option cstr) : Z := match p with Some s => zlen s + 1 | None => 1 end.
Lemma text_size_pos p : 1 <= text_size p.
Proof. destruct p as [s|]; cbn; [pose proof (zlen_nonneg s)|]; lia. Qed.

Lemma clean_segment src len k : strchr src "."%char = Some len -> 0 <= k ->
  Clean (zlen src + k) (zlen (drop (S len) src) + k) (fun p => p.2 = drop (S len) src) (encode_segment src).
Proof.
  intros E Hk. unfold encode_segment. rewrite E. apply strchr_lt in E.
  clean_step. clean_step. eapply clean_bind; [apply clean_get|intros out _].
  assert (Hd : zlen (drop (S len) src) = zlen src - (Z.of_nat len + 1)) by (unfold zlen; rewrite length_drop; lia).
  pose proof (zlen_nonneg (drop (S len) src)).
  pose proof (clean_write (zlen src + k) (zlen (drop (S len) src) + k) (Z.of_nat len + 1)
    (u8 (Z.of_nat len) :: take len src)) as Hw.
  specialize (Hw ltac:(unfold zlen; cbn [length]; rewrite length_take; lia) ltac:(lia) ltac:(lia)).
  intros s Hs Hn. specialize (Hw s Hs Hn). revert Hw. unfold mbind, codec_bind, cret.
  destruct (emit _ s) as [[s1 [rc|[]]]|]; [done| |done].
  by destruct (shrink _ s1) as [[s2 [rc|[]]]|]; [done|intros (? & ? & _)|].
Qed.
Lemma clean_finish k : 0 <= k -> Clean (1 + k) k anything (need 1;; emit [nul];; shrink 1).
Proof. intros Hk. clean_step. by apply clean_write. Qed.
Lemma clean_labels f name k : (length name < f)%nat -> 0 <= k ->
  Clean (zlen name + 1 + k) k anything (encode_labels f name).
Proof.
  intros Hf Hk. revert name Hf. induction f as [|f IH]; intros name Hf; [lia|]. cbn [encode_labels].
  pose proof (zlen_nonneg name). pose proof (clean_finish k Hk) as Hfin.
  assert (Hfin' : Clean (zlen name + 1 + k) k anything (need 1;; emit [nul];; shrink 1)).
  { eapply clean_weaken; [exact Hfin|lia|lia|done]. }
  destruct name as [|c name]; [done|]. case_bool_decide; [done|].
  set (src := c :: name) in *. assert (Hz : 1 <= zlen src) by (unfold src; rewrite zlen_cons; pose proof (zlen_nonneg name); lia).
  clean_step. destruct (segment_find _ _).
  - clean_step. eapply clean_weaken; [apply (clean_write (2 + k) k); done|lia|lia|done].
  - clean_step. destruct (strchr src "."%char) as [len|] eqn:E.
    + pose proof (strchr_lt _ _ _ E) as Hlen.
      eapply (clean_bind _ _ _ (fun p : Z * cstr => p.2 = drop (S len) src)); [|intros [off rest] Hr; cbn [snd] in Hr; subst rest].
      { eapply clean_weaken; [apply (clean_segment src len (1 + k) E); lia|lia|reflexivity|intros p Hp; exact Hp]. }
      eapply clean_bind; [apply clean_modify; done|intros _ _].
      eapply clean_weaken; [apply IH|lia|lia|done]. rewrite length_drop. unfold src in *. cbn [length] in *. lia.
    + unfold encode_segment. rewrite E. intros s Hs Hn. done.
Qed.
Lemma clean_domain p k : str_typed p -> 0 <= k -> Clean (text_size p + k) k anything (encode_domain p).
Proof.
  intros (name & -> & _) Hk. cbn [text_size]. pose proof (zlen_nonneg name). unfold encode_domain.
  clean_step. clean_step. apply clean_labels; [lia|done].
Qed.
Lemma clean_string m size k : 0 <= size <= zlen m -> 0 <= k ->
  Clean (size + 1 + k) k anything (encode_string (Some m) size).
Proof.
  intros Hs Hk. unfold encode_string, zleb.
  clean_step. clean_step. clean_step. clean_step.
  rewrite (bool_decide_eq_true_2 (size <= _)) by lia.
  eapply clean_bind; [by apply (clean_ret _ anything)|intros _ _].
  apply clean_write; [|lia|lia]. unfold zlen in *. cbn [length]. rewrite length_take. lia.
Qed.
Lemma clean_cstr s k : 0 <= k -> Clean (text_size (Some s) + k) k anything (encode_cstr s).
Proof.
  intros Hk. apply clean_string; [|done]. unfold cmem. rewrite zlen_app. pose proof (zlen_nonneg s).
  change (zlen [nul]) with 1. lia.
Qed.

(** ** Records *)

Definition opts_size (opts : list edns0_opt_t) : Z := zsum (fun o => 4 + 2 * o_len o) opts.
Definition rdata_size (d : dns_rdata) : Z :=
  match d with
  | R_A _ => 4
  | R_AAAA _ => 16
  | R_SOA m r _ _ _ _ _ => text_size m + text_size r + 20
  | R_NAPTR _ _ f s r rp => 4 + text_size f + text_size s + text_size r + text_size rp
  | R_SRV _ _ _ t => 6 + text_size t
  | R_WKS _ _ n _ => 6 + n
  | R_OPT _ _ _ _ _ opts => 1 + opts_size opts
  | R_MINFO r e => text_size r + text_size e
  | R_MX _ e => 2 + text_size e
  | R_HINFO c o => text_size c + text_size o
  | R_TXT len _ => 2 * len
  | R_CNAME c => text_size c
  | R_X n _ => 1 + n
  | R_GPOS _ _ _ | R_LOC _ _ _ _ _ _ _ => 0
  end.
Definition answer_size (a : dns_answer_t) : Z := text_size (a_name a) + 10 + rdata_size (a_data a).
Definition question_size (q : dns_question_t) : Z := text_size (q_name q) + 4.
(** The most an encoded packet takes, without the compression of names. *)
Definition size_bound (q : dns_query_t) : Z :=
  HEADER + zsum question_size (questions q) + zsum answer_size (records q).

(** What the assertions ask for and the decoder does not promise. *)
Definition question_encodable (q : dns_question_t) : Prop := 1 <= q_class q <= 4.
Definition answer_encodable (a : dns_answer_t) : Prop :=
  match a_data a with
  | R_NAPTR _ _ _ _ _ _ => a_class a = CLASS_IN
  | R_WKS _ _ n _ => 0 < n <= 8192
  | R_TXT len _ => 0 < len
  | R_X n _ => 0 < n
  | _ => True
  end.
Record encodable (q : dns_query_t) : Prop := {
  en_opcode : dq_opcode q <= 5;
  en_rcode : dq_rcode q <= 15;
  en_counts : Forall (fun n => n <= UINT16_MAX) [qdcount q; ancount q; nscount q; arcount q];
  en_questions : Forall question_encodable (questions q);
  en_answers : Forall answer_encodable (records q) }.

Ltac texts := repeat match goal with
  | H : str_typed ?p |- _ => lazymatch goal with _ : 1 <= text_size p |- _ => fail
                             | _ => pose proof (text_size_pos p) end
  end.
(** An assertion about a 16-bit number, or that a string is there. *)
Ltac clean_checks := repeat first
  [ clean_step
  | lazymatch goal with |- Clean _ _ _ (cassert _ ≫= _) =>
      eapply clean_bind; [apply clean_assert; unfold zleb, u16, UINT16_MAX in *; apply bool_decide_eq_true_2; lia|intros _ _] end ].
(** A part that needs room of its own, with [r] bytes behind it. *)
Ltac part lem r := eapply (clean_bind _ r);
  [eapply clean_weaken; [apply (lem r); (assumption || lia)|lia|reflexivity|done]|intros _ _].
Ltac last_part lem r := eapply clean_weaken; [apply (lem r); (assumption || lia)|lia|reflexivity|done].

Section Records.
Variable k : Z.
Hypothesis Hk : 0 <= k.

Lemma clean_soa m r a b c d e : str_typed m -> str_typed r ->
  Clean (text_size m + text_size r + 20 + k) k anything (encode_rr_soa m r a b c d e).
Proof.
  intros Hm Hr. texts. unfold encode_rr_soa. clean_checks.
  part (clean_domain m) (text_size r + 20 + k). part (clean_domain r) (20 + k).
  clean_checks. clean_last.
Qed.
Lemma clean_srv p w po t : Forall u16 [p; w; po] -> str_typed t ->
  Clean (6 + text_size t + k) k anything (encode_rr_srv p w po t).
Proof.
  rewrite !Forall_cons. intros (? & ? & ? & _) Ht. texts. unfold encode_rr_srv. clean_checks.
  last_part (clean_domain t) k.
Qed.
Lemma clean_naptr o p f s r rp : u16 o -> u16 p -> Forall str_typed [f; s; r; rp] ->
  Clean (4 + text_size f + text_size s + text_size r + text_size rp + k) k anything
    (encode_rr_naptr RR_NAPTR CLASS_IN o p f s r rp).
Proof.
  rewrite !Forall_cons. intros Ho Hp ((x1 & -> & _) & (x2 & -> & _) & (x3 & -> & _) & Hrp & _). texts.
  pose proof (text_size_pos (Some x1)). pose proof (text_size_pos (Some x2)). pose proof (text_size_pos (Some x3)).
  unfold encode_rr_naptr. clean_checks.
  part (clean_cstr x1) (text_size (Some x2) + text_size (Some x3) + text_size rp + k).
  part (clean_cstr x2) (text_size (Some x3) + text_size rp + k).
  part (clean_cstr x3) (text_size rp + k). last_part (clean_domain rp) k.
Qed.
Lemma clean_minfo r e : str_typed r -> str_typed e ->
  Clean (text_size r + text_size e + k) k anything (encode_rr_minfo r e).
Proof.
  intros Hr He. texts. unfold encode_rr_minfo. clean_checks.
  part (clean_domain r) (text_size e + k). last_part (clean_domain e) k.
Qed.
Lemma clean_mx p e : u16 p -> str_typed e -> Clean (2 + text_size e + k) k anything (encode_rr_mx p e).
Proof. intros Hp He. texts. unfold encode_rr_mx. clean_checks. last_part (clean_domain e) k. Qed.
Lemma clean_hinfo c o : str_typed c -> str_typed o ->
  Clean (text_size c + text_size o + k) k anything (encode_rr_hinfo c o).
Proof.
  intros (x & -> & _) (y & -> & _). pose proof (text_size_pos (Some x)). pose proof (text_size_pos (Some y)).
  unfold encode_rr_hinfo. clean_checks. part (clean_cstr x) (text_size (Some y) + k). last_part (clean_cstr y) k.
Qed.
Lemma clean_a m : zlen m = 4 -> Clean (4 + k) k anything (encode_rr_a m).
Proof. intros Hm. unfold encode_rr_a. clean_checks. clean_last. Qed.
Lemma clean_aaaa m : zlen m = 16 -> Clean (16 + k) k anything (encode_rr_aaaa m).
Proof. intros Hm. unfold encode_rr_aaaa. clean_checks. clean_last. Qed.
Lemma clean_wks m p n bits : zlen m = 4 -> u16 p -> 0 < n <= 8192 -> raw_typed n bits ->
  Clean (6 + n + k) k anything (encode_rr_wks m p n bits).
Proof.
  intros Hm Hp Hn Hb. destruct bits as [b|]; [|cbn in Hb; lia]. destruct Hb as [_ Hb].
  unfold encode_rr_wks. clean_step.
  eapply clean_bind; [apply clean_assert; unfold zleb, u16, UINT16_MAX in *; apply bool_decide_eq_true_2; lia|intros _ _].
  eapply clean_bind; [apply clean_assert; unfold zleb; apply bool_decide_eq_true_2; lia|intros _ _].
  clean_checks. clean_last.
Qed.
Lemma clean_raw n r : 0 < n -> raw_typed n r -> Clean (1 + n + k) k anything (encode_rr_x n r).
Proof.
  intros Hn Hb. destruct r as [b|]; [|cbn in Hb; lia]. destruct Hb as [_ Hb].
  unfold encode_rr_x. clean_checks. clean_last.
Qed.
End Records.

Lemma clean_chunks f p max k : max <= zlen p -> max <= Z.of_nat f -> 0 <= k ->
  Clean (2 * Z.max 0 max + k) k anything (encode_chunks f p max).
Proof.
  intros Hp Hf Hk. revert p max Hp Hf. induction f as [|f IH]; intros p max Hp Hf; cbn [encode_chunks];
    unfold zleb; (case_bool_decide; [eapply clean_weaken; [by apply (clean_ret k anything)|lia|lia|done]|]); [lia|].
  assert (Hm : 1 <= Z.min max 255 <= max) by lia.
  eapply (clean_bind _ (2 * Z.max 0 (max - Z.min max 255) + k)).
  { eapply clean_weaken; [apply (clean_string p (Z.min max 255)
      (2 * Z.max 0 (max - Z.min max 255) + k)); lia|lia|reflexivity|done]. }
  intros _ _. apply IH; [|lia]. unfold zlen in *. rewrite length_drop. lia.
Qed.
Lemma clean_txt len m k : zlen m = len -> 0 < len -> 0 <= k ->
  Clean (2 * len + k) k anything (encode_rr_txt len (Some (m ++ [nul]))).
Proof.
  intros Hm Hl Hk. unfold encode_rr_txt. clean_step.
  eapply clean_bind; [apply clean_assert; unfold zltb; by apply bool_decide_eq_true_2|intros _ _]. clean_step.
  eapply clean_weaken; [apply (clean_chunks _ _ _ k)|lia|reflexivity|done]; [|lia|done].
  rewrite zlen_app. change (zlen [nul]) with 1. lia.
Qed.

Lemma opts_size_cons o opts : opts_size (o :: opts) = 4 + 2 * o_len o + opts_size opts.
Proof. done. Qed.
Lemma opts_size_nonneg opts : Forall opt_typed opts -> 0 <= opts_size opts.
Proof.
  induction 1 as [|o opts (_ & Hl & _) _ IH]; [done|]. rewrite opts_size_cons. unfold u16 in Hl. lia.
Qed.
Lemma clean_opt_data o k : opt_typed o -> 0 <= k -> Clean (4 + 2 * o_len o + k) k anything
  (if o_code o =? EDNS0RR_NSID then encode_edns0rr_nsid o else encode_edns0rr_raw o).
Proof.
  intros (Hc & Hl & Hd) Hk. unfold u16 in *. destruct (o_code o =? EDNS0RR_NSID) eqn:E.
  - unfold encode_edns0rr_nsid. cbv zeta. clean_step. clean_step.
    eapply clean_bind; [apply clean_assert; unfold zleb, UINT16_MAX; apply bool_decide_eq_true_2; lia|intros _ _].
    clean_step. unfold zleb. rewrite Hd, (bool_decide_eq_true_2 (o_len o <= o_len o)) by lia.
    eapply clean_bind; [by apply (clean_ret _ anything)|intros _ _].
    assert (zlen (take (Z.to_nat (o_len o)) (o_data o) ≫= hex_byte) = o_len o * 2).
    { unfold zlen in *. rewrite length_hex, length_take. lia. }
    clean_step. clean_step. clean_last.
  - unfold encode_edns0rr_raw. clean_step.
    do 2 (eapply clean_bind; [apply clean_assert; unfold zleb, UINT16_MAX; apply bool_decide_eq_true_2; lia|intros _ _]).
    clean_step. clean_step. clean_step. clean_last.
Qed.
Lemma clean_opts opts k : Forall opt_typed opts -> 0 <= k -> Clean (opts_size opts + k) k anything (encode_opts opts).
Proof.
  intros Ho Hk. induction Ho as [|o opts Ho Hopts IH]; cbn [encode_opts]; [by apply (clean_ret _ anything)|].
  rewrite opts_size_cons. pose proof (opts_size_nonneg opts Hopts).
  eapply (clean_bind _ (opts_size opts + k)); [eapply clean_weaken; [apply (clean_opt_data o (opts_size opts + k)); [done|lia]|lia|reflexivity|done]|].
  by intros _ _.
Qed.
Lemma clean_opt u opts k : u16 u -> Forall opt_typed opts -> 0 <= k ->
  Clean (1 + opts_size opts + k) k anything (encode_rr_opt u u 0 opts).
Proof.
  intros Hu Ho Hk. pose proof (opts_size_nonneg opts Ho). unfold encode_rr_opt. clean_step.
  eapply clean_bind; [apply clean_assert, Z.eqb_refl|intros _ _]. eapply clean_bind; [by apply clean_assert|intros _ _].
  clean_checks. eapply clean_weaken; [apply (clean_opts opts k); done|lia|reflexivity|done].
Qed.

(** ** Packets *)

Section Packets.
Context `{FloatText}.

Ltac other_member := match goal with
  | Hd : rdata_typed _ ?d |- Clean _ _ _ (match ?d with _ => _ end) =>
      destruct d; cbn [rdata_typed] in Hd; destruct Hd as [Ht Hd];
      try solve [exfalso; congruence | exfalso; vm_compute in Ht; discriminate Ht]
  end.
Ltac open_type E :=
  apply bool_decide_eq_true in E; repeat (apply elem_of_cons in E as [->|E]); [..|by apply elem_of_nil in E].
Lemma zsum_cons {A} (f : A -> Z) a l : zsum f (a :: l) = f a + zsum f l.
Proof. done. Qed.
Lemma zsum_app {A} (f : A -> Z) l l' : zsum f (l ++ l') = zsum f l + zsum f l'.
Proof. induction l as [|a l IH]; [done|]. cbn [app]. rewrite !zsum_cons, IH. lia. Qed.

Lemma rdata_size_nonneg a : answer_typed a -> answer_encodable a -> 0 <= rdata_size (a_data a).
Proof.
  intros [_ _ _ _ Hd] He. unfold answer_encodable in He.
  destruct (a_data a); cbn [rdata_typed rdata_size] in *;
    repeat match goal with |- context [text_size ?p] => lazymatch goal with _ : 1 <= text_size p |- _ => fail
      | _ => pose proof (text_size_pos p) end end; try lia.
  destruct Hd as (_ & _ & _ & _ & _ & Ho). pose proof (opts_size_nonneg _ Ho). lia.
Qed.

(** The class in the header of an OPT record is its payload size. *)
Definition header_class (a : dns_answer_t) : Z :=
  match a_data a with R_OPT u _ _ _ _ _ => u | _ => a_class a end.

Lemma clean_rdata a k : answer_typed a -> no_geo a -> answer_encodable a -> 0 <= k ->
  Clean (rdata_size (a_data a) + k) k anything (encode_rdata (a_type a) (header_class a) (a_data a)).
Proof.
  intros [_ _ _ _ Hd] [Hl Hg] He Hk. destruct a as [name t class ttl d]. unfold answer_encodable, header_class in *.
  cbn [a_name a_type a_class a_ttl a_data] in *. unfold encode_rdata.
  repeat match goal with |- Clean _ _ _ (if Z.eqb t ?x then _ else _) => destruct (Z.eqb_spec t x) as [->|?] end;
    try done; try (other_member; cbn [rdata_size] in *).
  - by apply clean_a.
  - destruct Hd as (? & ? & _). by apply clean_soa.
  - destruct Hd as (? & ? & ?). subst class. by apply clean_naptr.
  - by apply clean_aaaa.
  - destruct Hd as (? & ?). by apply clean_srv.
  - destruct Hd as (? & ? & ?). by apply clean_wks.
  - destruct Hd as (? & -> & _ & _ & ?). by apply clean_opt.
  - destruct (is_minfo t) eqn:E1; [open_type E1; other_member; cbn [rdata_size]; destruct Hd; by apply clean_minfo|].
    destruct (is_mx t) eqn:E2; [open_type E2; other_member; cbn [rdata_size]; destruct Hd; by apply clean_mx|].
    destruct (is_hinfo t) eqn:E3; [open_type E3; other_member; cbn [rdata_size]; destruct Hd; by apply clean_hinfo|].
    destruct (is_txt t) eqn:E4.
    { open_type E4; other_member; destruct Hd as (m & -> & Hm); cbn [rdata_size]; by apply clean_txt. }
    destruct (is_domain t) eqn:E5; [open_type E5; other_member; cbn [rdata_size]; by apply clean_domain|].
    destruct (Z.eqb_spec t RR_NULL) as [->|?]; [|intros s Hs Hn; done].
    other_member. destruct Hd as [_ Hd]. cbn [rdata_size].  by apply clean_raw.
Qed.

(** The length of the data is written when the data is there. *)
Lemma clean_patched n m (e : E unit) : Safe 0 0 anything e -> Clean n m anything e -> 0 <= n ->
  Clean (2 + n) m anything (prdlen ← cget e_out; emit [nul; nul];; shrink 2;; e;;
    out ← cget e_out; patch (length prdlen) (zlen out - (zlen prdlen + 2))).
Proof.
  intros Hsafe He Hn s Hs Hr. pose proof (safe_patched e Hsafe s Hs ltac:(lia)) as Hp. revert Hp.
  pose proof (clean_write (2 + n) n 2 [nul; nul] eq_refl eq_refl Hn s Hs Hr) as Hw. revert Hw.
  unfold mbind, codec_bind, cget, patch, cmodify. cbn [id].
  destruct (emit [nul; nul] s) as [[s0 [rc|[]]]|]; [done| |done].
  destruct (shrink 2 s0) as [[s1 [rc|[]]]|]; [done| |done]. intros (Hs1 & Hr1 & _).
  specialize (He s1 Hs1 Hr1). destruct (e s1) as [[s2 [rc|[]]]|]; [done| |done].
  destruct He as (Hs2 & Hr2 & _). by intros ([? _] & _ & _).
Qed.

Lemma clean_answer a k : answer_typed a -> no_geo a -> answer_encodable a -> 0 <= k ->
  Clean (answer_size a + k) k anything (encode_answer a).
Proof.
  intros Ha Hg He Hk. pose proof (rdata_size_nonneg a Ha He). pose proof (text_size_pos (a_name a)).
  unfold encode_answer, answer_size. clean_step.
  eapply (clean_bind _ (10 + rdata_size (a_data a) + k)).
  { eapply clean_weaken; [apply (clean_domain (a_name a) (10 + rdata_size (a_data a) + k)); [apply Ha|lia]|lia|reflexivity|done]. }
  intros _ _. clean_step. eapply clean_bind; [apply clean_get|intros rc _].
  eapply (clean_bind _ (10 + rdata_size (a_data a) + k) _ (fun p => p.1 = header_class a)).
  { unfold opt_header, header_class. pose proof (at_data a Ha) as Hd. destruct (Z.eqb_spec (a_type a) RR_OPT) as [E|E].
    - rewrite E in Hd. destruct (a_data a); cbn [rdata_typed] in Hd; destruct Hd as [Ht _];
        try solve [exfalso; vm_compute in Ht; discriminate Ht]; by apply clean_ret.
    - apply clean_ret. cbn. destruct (a_data a); try done. cbn [rdata_typed] in Hd. by destruct Hd. }
  intros [class ttl] Hclass. cbn [fst] in Hclass. subst class. do 3 clean_step.
  eapply clean_weaken; [apply (clean_patched (rdata_size (a_data a) + k) k)|lia|reflexivity|done]; [|by apply clean_rdata|lia].
  apply safe_rdata; [apply Ha|apply Hg..].
Qed.
Lemma clean_question q k : question_typed q -> question_encodable q -> 0 <= k ->
  Clean (question_size q + k) k anything (encode_question q).
Proof.
  intros [Hn Ht Ho Hc] He Hk. unfold question_encodable in He. pose proof (text_size_pos (q_name q)).
  unfold encode_question, question_size. clean_step. clean_step.
  eapply clean_bind; [apply clean_assert; by apply negb_true_iff, Z.eqb_neq|intros _ _].
  do 2 (eapply clean_bind; [apply clean_assert; unfold zleb; apply bool_decide_eq_true_2; lia|intros _ _]).
  part (clean_domain (q_name q)) (4 + k). clean_checks. clean_last.
Qed.
Lemma clean_all {A} (P : A -> Prop) (size : A -> Z) (encode : A -> E unit) l k :
  (forall a j, P a -> 0 <= j -> Clean (size a + j) j anything (encode a)) ->
  (forall a, P a -> 0 <= size a) -> Forall P l -> 0 <= k ->
  0 <= zsum size l /\ Clean (zsum size l + k) k anything (encode_all encode l).
Proof.
  intros He Hp Hl Hk. induction Hl as [|a l Ha Hl [Hz IH]]; cbn [encode_all].
  - split; [done|]. by apply (clean_ret _ anything).
  - rewrite zsum_cons. specialize (Hp a Ha). split; [lia|].
    eapply (clean_bind _ (zsum size l + k)); [|by intros _ _].
    eapply clean_weaken; [apply (He a (zsum size l + k)); [done|lia]|lia|reflexivity|done].
Qed.
Lemma clean_answers l k : Forall answer_typed l -> Forall no_geo l -> Forall answer_encodable l -> 0 <= k ->
  0 <= zsum answer_size l /\ Clean (zsum answer_size l + k) k anything (encode_answers l).
Proof.
  intros H1 H2 H3. apply (clean_all (fun a => answer_typed a /\ no_geo a /\ answer_encodable a)).
  - intros a j (? & ? & ?). by apply clean_answer.
  - intros a (? & _ & ?). pose proof (rdata_size_nonneg a). pose proof (text_size_pos (a_name a)).
    unfold answer_size. intuition lia.
  - apply Forall_and. split; [done|]. by apply Forall_and.
Qed.

Lemma clean_sections q : query_typed q -> Forall no_geo (records q) -> encodable q ->
  Clean (size_bound q - HEADER) 0 anything (encode_sections q).
Proof.
  intros [_ _ _ Hq Ha Hn Hr] HG [_ _ _ Eq Ea]. unfold records in *.
  apply Forall_app in HG as [Ga [Gn Gr]%Forall_app]. apply Forall_app in Ea as [Ea [En Er]%Forall_app].
  unfold encode_sections, size_bound, records. rewrite !zsum_app.
  destruct (clean_answers (additional q) 0) as [Zr Cr]; [done..|].
  destruct (clean_answers (nameservers q) (zsum answer_size (additional q))) as [Zn Cn]; [done..|].
  destruct (clean_answers (answers q) (zsum answer_size (nameservers q) + zsum answer_size (additional q))) as [Za Ca];
    [done..|lia|].
  destruct (clean_all (fun x => question_typed x /\ question_encodable x) question_size encode_question (questions q)
    (zsum answer_size (answers q) + (zsum answer_size (nameservers q) + zsum answer_size (additional q)))) as [Zq Cq].
  { intros x j [? ?]. by apply clean_question. }
  { intros x _. unfold question_size. pose proof (text_size_pos (q_name x)). lia. }
  { by apply Forall_and. }
  { lia. }
  eapply clean_bind; [eapply clean_weaken; [exact Cq|lia|reflexivity|done]|intros _ _].
  eapply clean_bind; [eapply clean_weaken; [exact Ca|lia|reflexivity|done]|intros _ _].
  eapply clean_bind; [eapply clean_weaken; [exact Cn|lia|reflexivity|done]|intros _ _].
  eapply clean_bind; [apply clean_get|intros b _]. eapply clean_bind; [apply clean_return_if|intros _ _].
  eapply clean_weaken; [exact Cr|lia|reflexivity|done].
Qed.
Lemma clean_query_okay q n : query_typed q -> encodable q -> Clean n n anything (query_okay q).
Proof.
  intros [Hid Hop Hrc _ _ _ _] [Eop Erc Ec _ _]. rewrite !Forall_cons in Ec. destruct Ec as (? & ? & ? & ? & _).
  unfold query_okay, u16, UINT16_MAX in *.
  do 7 (eapply clean_bind; [apply clean_assert; unfold zleb; apply bool_decide_eq_true_2; lia|intros _ _]).
  apply clean_assert. unfold zleb. apply bool_decide_eq_true_2. lia.
Qed.

(** C12: A decoded packet without GPOS and LOC records can be handed to the
    encoder with a buffer of any size. It always ends, and within the buffer: it
    never writes past it, never reads past the bytes of a record or through the
    wrong member of a union, and the bytes it reports lie within the buffer. All
    that can stop the program is an assertion of the encoder, and none fails
    when the packet meets what they ask for (opcode and return code in range,
    questions of class 1 to 4, NAPTR records of class IN, data where TXT, WKS
    and NULL records need it) and the buffer has room for the packet without
    compression: then dns_encode returns. *)
Theorem dns_reencode_in_bounds rsize m len q plen :
  dns_decode rsize m len = Ok (inr q) -> Forall no_geo (records q) -> plen < 2 ^ 64 ->
  match dns_encode plen q with
  | Ok (rc, buffer, n) => zlen buffer = plen /\ HEADER <= n <= plen
  | Fail f => f = AssertFailed /\ ~ (encodable q /\ size_bound q <= plen)
  end.
Proof.
  intros E Hg Hp. pose proof (dns_encode_safe rsize m len q plen E Hg Hp) as Hs.
  destruct (dns_encode plen q) as [[[rc buffer] n]|f] eqn:Ee; [done|]. split; [done|]. intros [He Hb].
  assert (Hq : query_typed q) by by eapply decoded_typed. revert Ee.
  assert (Hz : HEADER <= size_bound q).
  { unfold size_bound. pose proof Hq as [_ _ _ _ Ha Hn Hr]. destruct He as [_ _ _ _ Ea].
    destruct (clean_answers (records q) 0) as [Hz _]; [|done..|].
    - apply Forall_app. split; [done|]. by apply Forall_app.
    - assert (0 <= zsum question_size (questions q)); [|lia]. clear. induction (questions q) as [|x l IH]; [done|].
      rewrite zsum_cons. unfold question_size at 1. pose proof (text_size_pos (q_name x)). lia. }
  unfold dns_encode, zleb. rewrite bool_decide_true by lia. cbn [negb].
  set (s := mkE _ _ _ _ _ _). assert (Hh : zlen (header_bytes q) = 12) by done.
  assert (Hbox : box s).
  { unfold box, s, HEADER in *. cbn [e_out e_size e_cap]. lia. }
  pose proof (clean_query_okay q 0 Hq He s Hbox ltac:(apply Hbox)) as Ho. unfold mbind, outcome_bind.
  destruct (query_okay q s) as [[s0 r0]|]; [|done].
  pose proof (clean_sections q Hq Hg He s Hbox ltac:(unfold s; cbn; lia)) as Hc.
  destruct (encode_sections q s) as [[s' [rc|u]]|]; done.
Qed.
End Packets.

(** The demo packet, into a buffer that is too small and one with room. *)
Lemma dns_reencode_in_bounds_witness :
  match @dns_encode demo_float 40 demo_query with
  | Ok (rc, buffer, n) => zlen buffer = 40 /\ HEADER <= n <= 40
  | Fail f => f = AssertFailed /\ ~ (encodable demo_query /\ size_bound demo_query <= 40)
  end /\
  exists rc buffer n, @dns_encode demo_float 512 demo_query = Ok (rc, buffer, n) /\
    zlen buffer = 512 /\ HEADER <= n <= 512.
Proof.
  assert (E : @dns_decode demo_float 4096 demo_packet 81 = Ok (inr demo_query)) by by vm_compute.
  assert (G : Forall no_geo (records demo_query)).
  { unfold records, demo_query. cbn [answers nameservers additional app].
    do 3 (apply Forall_cons_2; [by split|]). apply Forall_nil_2. }
  split; [exact (@dns_reencode_in_bounds demo_float 4096 demo_packet 81 demo_query 40 E G eq_refl)|].
  pose proof (@dns_reencode_in_bounds demo_float 4096 demo_packet 81 demo_query 512 E G eq_refl) as H. revert H.
  generalize (@dns_encode demo_float 512 demo_query). intros [[[rc buffer] n]|f] H.
  { exists rc, buffer, n. split; [reflexivity|exact H]. }
  destruct H as [_ []]. split; [|by vm_compute].
  split; [by vm_compute|by vm_compute|by repeat constructor; vm_compute|by repeat constructor|].
  unfold records, demo_query. cbn [answers nameservers additional app]. by repeat constructor.
Defined.
