(* ===== verification/DnsPrint.v ===== *)
(** * Printing DNS packets (lib/dns/output.c)

    What the dns_print_* functions write to the standard output, as text. The
    mDNS store prints every query it answers, so a fault here is a fault of the
    event loop. The sections are lists: their pointers are not null, as
    [alloc_struct_aligned] shows for the pool of the program. *)
From S2P Require Import Prelude CString Dns DnsEncode DnsDecode DnsNames DnsRoundTrip DnsTypes Mappings IpAddr.

(** ** Formatted output *)

Definition TAB : char := chr 9.
Definition dquote : char := chr 34.
Definition blanks (n : Z) : cstr := replicate (Z.to_nat n) " "%char.
(** [%5s] and [%-5s]. *)
Definition rjust (n : Z) (s : cstr) : cstr := blanks (n - zlen s) ++ s.
Definition ljust (n : Z) (s : cstr) : cstr := s ++ blanks (n - zlen s).
Definition quoted (s : cstr) : cstr := dquote :: s ++ [dquote].
(** A number as the next item of a format with a width. *)
Definition num (n z : Z) : cstr := rjust n (printf_d z).

(** [%x]. *)
Definition xdigit (z : Z) : char := chr (if zltb z 10 then 48 + z else 87 + z).
Fixpoint hex_digits (k : nat) (n : Z) (acc : cstr) : cstr :=
  match k with
  | O => acc
  | S k' => if zltb n 16 then xdigit n :: acc
            else hex_digits k' (n / 16) (xdigit (n mod 16) :: acc)
  end.

(** [%.*s]: at most [n] bytes of the string at an offset of an object. *)
Definition str_n (m : mem) (off n : Z) : outcome cstr :=
  let s := take (Z.to_nat n) (drop (Z.to_nat off) m) in
  if bool_decide (nul ∈ s) || zleb n (zlen s) then Ok (cstr_of s) else Fail OutOfBounds.

(** [inet_ntop] of the C library. *)
Definition ntop4 (m : mem) : outcome cstr :=
  match code <$> m with
  | [a; b; c; d] => Ok (inet_ntop4 (a, b, c, d))
  | _ => Fail OutOfBounds
  end.

Definition word_at (m : mem) (i : nat) : Z := of_be (take 2 (drop (2 * i) m)).
(** The first of the longest runs of zeros, when it has two words or more. *)
Definition zero_run (ws : list Z) (i : nat) : nat :=
  length (take_while (fun w => w =? 0) (drop i ws)).
Definition longest_run (ws : list Z) : nat * nat :=
  fold_left (fun best i => if bool_decide (best.2 < zero_run ws i)%nat then (i, zero_run ws i) else best)
    (seq 0 8) (0%nat, 1%nat).

Definition word_text (ws : list Z) (base len : nat) (i : nat) : cstr :=
  if bool_decide (2 <= len /\ base <= i < base + len)%nat
  then (if bool_decide (i = base) then $":" else [])
  else (if bool_decide (i = 0)%nat then [] else $":") ++ hex_digits 4 (nth i ws 0) [].
(** An IPv4 address embedded in the last two words. *)
Definition embeds4 (ws : list Z) (base len : nat) : bool :=
  (base =? 0)%nat && ((len =? 6)%nat || (len =? 5)%nat && (nth 5 ws 0 =? 65535)).
Definition ntop6 (m : mem) : outcome cstr :=
  if bool_decide (zlen m = 16) then
    let ws := map (word_at m) (seq 0 8) in
    let '(base, len) := longest_run ws in
    if embeds4 ws base len then
      v4 ← ntop4 (drop 12 m);
      Ok (concat (map (word_text ws base len) (seq 0 6)) ++ $":" ++ v4)
    else
      Ok (concat (map (word_text ws base len) (seq 0 8)) ++
          (if bool_decide (2 <= len /\ base + len = 8)%nat then $":" else []))
  else Fail OutOfBounds.

(** ** The functions *)

Definition truth (b : bool) : cstr := if b then $"true" else $"false".
Definition line (s : cstr) : cstr := s ++ [LF].

Definition dns_print_header (q : dns_query_t) : outcome cstr :=
  rcode ← dns_rcode_text (dq_rcode q);
  Ok (concat (line <$> [
    $"; Questions            = " ++ dec_nat (qdcount q);
    $"; Answers              = " ++ dec_nat (ancount q);
    $"; Name Servers         = " ++ dec_nat (nscount q);
    $"; Additional Records   = " ++ dec_nat (arcount q);
    $"; Authoritative Result = " ++ truth (dq_aa q);
    $"; Truncated Result     = " ++ truth (dq_tc q);
    $"; Recursion Desired    = " ++ truth (dq_rd q);
    $"; Recursion Available  = " ++ truth (dq_ra q);
    $"; Authentic Data       = " ++ truth (dq_ad q);
    $"; Checking disabled    = " ++ truth (dq_cd q);
    $"; Result               = " ++ rcode ])).

(** One line for each entry of a section. *)
Fixpoint print_all {A} (f : A -> outcome cstr) (l : list A) : outcome cstr :=
  match l with
  | [] => Ok []
  | x :: r => s ← f x; t ← print_all f r; Ok (s ++ t)
  end.
Definition section_head (tag : cstr) : cstr := LF :: $";;; " ++ tag ++ [LF; LF].

Definition print_question (q : dns_question_t) : outcome cstr :=
  name ← deref (q_name q);
  class ← dns_class_text (q_class q);
  type ← dns_type_text (q_type q);
  Ok (line ($";" ++ name ++ $" " ++ class ++ $" " ++ type)).
Definition dns_print_question (tag : cstr) (qs : list dns_question_t) : outcome cstr :=
  s ← print_all print_question qs;
  Ok (section_head tag ++ s).

(** The text of a TXT record: short ones whole, long ones 64 bytes to a line. *)
Fixpoint text_lines (k : nat) (m : mem) (len off : Z) : outcome cstr :=
  if len =? 0 then Ok []
  else
    match k with
    | O => Fail NoFuel
    | S k' =>
        let max := if zltb 64 len then 64 else len in
        s ← str_n m off max;
        r ← text_lines k' m (len - max) (off + max);
        Ok (LF :: TAB :: quoted (rjust max s) ++ r)
    end.
Definition print_text (len : Z) (text : option mem) : outcome cstr :=
  m ← deref text;
  if zltb len 30 then
    match cview m with Some s => Ok (quoted s) | None => Fail OutOfBounds end
  else
    s ← text_lines (Z.to_nat len) m len 0;
    Ok ($"(" ++ s ++ LF :: TAB :: TAB :: line $")").

(** Lines of a record in parentheses. *)
Definition indent (s : cstr) : cstr := TAB :: TAB :: s.
Definition print_angle (a : dnsgpos_angle) (pos neg what : cstr) : cstr :=
  line (indent (num 3 (deg a) ++ $" " ++ num 2 (Dns.min a) ++ $" " ++ num 2 (sec a) ++ $" " ++
    (if nw a then pos else neg) ++ $" ; " ++ what)).
Definition print_field (n z : Z) (what : cstr) : cstr := line (indent (num n z ++ what)).

(** The switch on the type of a record; the member of the union it reads has
    to be the one that was written. *)
Definition print_rdata (t : Z) (d : dns_rdata) : outcome cstr :=
  if bool_decide (t ∈ [RR_NS; RR_CNAME; RR_PTR]) then
    match d with R_CNAME cname => deref cname | _ => Fail WrongMember end
  else if t =? RR_A then match d with R_A a => ntop4 a | _ => Fail WrongMember end
  else if t =? RR_AAAA then match d with R_AAAA a => ntop6 a | _ => Fail WrongMember end
  else if t =? RR_MX then
    match d with
    | R_MX preference exchange => e ← deref exchange; Ok (num 5 preference ++ $" " ++ e)
    | _ => Fail WrongMember
    end
  else if t =? RR_HINFO then
    match d with
    | R_HINFO cpu os => c ← deref cpu; o ← deref os; Ok (quoted c ++ $" " ++ quoted o)
    | _ => Fail WrongMember
    end
  else if t =? RR_MINFO then
    match d with
    | R_MINFO rmailbx emailbx =>
        r ← deref rmailbx; e ← deref emailbx;
        Ok (line $"(" ++ line (indent (quoted r)) ++ indent (quoted e) ++ $" )")
    | _ => Fail WrongMember
    end
  else if bool_decide (t ∈ [RR_SPF; RR_TXT]) then
    match d with R_TXT len text => print_text len text | _ => Fail WrongMember end
  else if t =? RR_SOA then
    match d with
    | R_SOA mname rname serial refresh retry expire minimum =>
        m ← deref mname; r ← deref rname;
        Ok (line (m ++ $" " ++ r ++ $" (") ++ print_field 10 serial $"   ; Serial" ++
            print_field 10 refresh $"   ; Refresh" ++ print_field 10 retry $"   ; Retry" ++
            print_field 10 expire $"   ; Expire" ++ print_field 10 minimum $" ) ; Miminum")
    | _ => Fail WrongMember
    end
  else if t =? RR_NAPTR then
    match d with
    | R_NAPTR order preference flags services regexp replacement =>
        f ← deref flags; s ← deref services; e ← deref regexp; r ← deref replacement;
        Ok (line (num 5 order ++ $" " ++ num 5 preference ++ $" (") ++
            line (indent (quoted f)) ++ line (indent (quoted s)) ++ line (indent (quoted e)) ++
            line (indent (r ++ $" )")))
    | _ => Fail WrongMember
    end
  else if t =? RR_LOC then
    match d with
    | R_LOC _ size horiz_pre vert_pre latitude longitude altitude =>
        Ok (line $"(" ++ print_angle latitude $"N" $"S" $"Latitude" ++
            print_angle longitude $"W" $"E" $"Longitude" ++
            print_field 11 altitude $" ; Altitude" ++ print_field 11 size $" ; Size" ++
            print_field 11 horiz_pre $" ; Horizontal Precision" ++
            print_field 11 vert_pre $" ; Vertical Precision" ++ line (indent $")"))
    | _ => Fail WrongMember
    end
  else if t =? RR_SRV then
    match d with
    | R_SRV priority weight port target =>
        r ← deref target;
        Ok (num 5 priority ++ $" " ++ num 5 weight ++ $" " ++ num 5 port ++ $" " ++ r)
    | _ => Fail WrongMember
    end
  else if t =? RR_OPT then
    match d with
    | R_OPT udp_payload _ fdo _ _ opts =>
        Ok (LF :: line ($";" ++ TAB :: $"payload = " ++ dec_nat udp_payload) ++
            line ($";" ++ TAB :: $"DO      = " ++ truth fdo) ++
            line ($";" ++ TAB :: $"#opts   = " ++ dec_nat (zlen opts)))
    | _ => Fail WrongMember
    end
  else Ok [].

Definition print_generic (a : dns_answer_t) : outcome cstr :=
  if negb (a_type a =? RR_OPT) then
    name ← deref (a_name a);
    class ← dns_class_text (a_class a);
    type ← dns_type_text (a_type a);
    Ok (ljust 16 name ++ TAB :: rjust 5 (dec_nat (a_ttl a)) ++ TAB :: class ++ TAB :: type ++ [TAB])
  else Ok $"; OPT RR".
Definition print_answer (a : dns_answer_t) : outcome cstr :=
  g ← print_generic a;
  d ← print_rdata (a_type a) (a_data a);
  Ok (line (g ++ d)).
Definition dns_print_answer (tag : cstr) (ans : list dns_answer_t) : outcome cstr :=
  s ← print_all print_answer ans;
  Ok (section_head tag ++ s).

Definition dns_print_result (q : dns_query_t) : outcome cstr :=
  h ← dns_print_header q;
  qs ← dns_print_question $"QUESTIONS" (questions q);
  an ← dns_print_answer $"ANSWERS" (answers q);
  ns ← dns_print_answer $"NAMESERVERS" (nameservers q);
  ar ← dns_print_answer $"ADDITIONAL" (additional q);
  Ok (h ++ qs ++ an ++ ns ++ ar).

(** ** Printing succeeds

    [Prints o]: the function writes some text. *)
Class Prints {A} (o : outcome A) : Prop := prints : exists s, o = Ok s.

#[global] Instance prints_ok {A} (s : A) : Prints (Ok s).
Proof. by exists s. Qed.
Lemma prints_bind {A B} (o : outcome A) (f : A -> outcome B) :
  Prints o -> (forall s, Prints (f s)) -> Prints (o ≫= f).
Proof. intros [s ->] Hf. apply Hf. Qed.
Lemma prints_str p : str_typed p -> Prints (deref p).
Proof. intros (s & -> & _). apply _. Qed.
Lemma prints_itos v tab def : by_value tab = true -> 0 <= v -> Prints (itosdef v tab def).
Proof. intros Ht Hv. destruct (itosdef_spec v tab def Ht Hv) as (t & -> & _). apply _. Qed.
Lemma prints_class c : u16 c -> Prints (dns_class_text c).
Proof. intros []. by apply prints_itos. Qed.
Lemma prints_type t : u16 t -> Prints (dns_type_text t).
Proof. intros []. by apply prints_itos. Qed.
Lemma prints_all {A} (f : A -> outcome cstr) (Q : A -> Prop) l :
  (forall x, Q x -> Prints (f x)) -> Forall Q l -> Prints (print_all f l).
Proof.
  intros Hf. induction 1 as [|x l Hx _ IH]; cbn [print_all]; [apply _|].
  apply prints_bind; [by apply Hf|intros s]. apply prints_bind; [done|apply _].
Qed.

Create HintDb prints.
#[export] Hint Resolve prints_str prints_class prints_type : prints.
Ltac prints_go :=
  repeat first
    [ apply prints_ok
    | apply prints_bind; [solve [auto with prints]|intros ?]
    | match goal with |- Prints (if ?b then _ else _) => destruct b end ].

Lemma str_n_in m off n : 0 <= off -> 0 <= n -> off + n <= zlen m -> Prints (str_n m off n).
Proof.
  intros H0 Hn H. unfold str_n, zleb. rewrite (bool_decide_true (n <= _)), orb_true_r by
    (unfold zlen in *; rewrite length_take, length_drop; lia). apply _.
Qed.
Lemma prints_text_lines k m len off : 0 <= len <= Z.of_nat k -> 0 <= off -> off + len <= zlen m ->
  Prints (text_lines k m len off).
Proof.
  revert len off. induction k as [|k IH]; intros len off Hk Ho Hm; cbn [text_lines].
  - rewrite (proj2 (Z.eqb_eq len 0)) by lia. apply _.
  - destruct (Z.eqb_spec len 0); [apply _|]. set (max := if zltb 64 len then 64 else len).
    assert (0 < max <= len) by (unfold max, zltb; case_bool_decide; lia).
    apply prints_bind; [by apply str_n_in; lia|intros s].
    apply prints_bind; [apply IH; lia|apply _].
Qed.
Lemma prints_text len m : zlen m = len -> Prints (print_text len (Some (m ++ [nul]))).
Proof.
  intros Hm. unfold print_text. cbn [deref]. rewrite ok_bind. pose proof (zlen_nonneg m).
  destruct (zltb len 30).
  - unfold cview. rewrite bool_decide_true by (apply elem_of_app; right; by left). apply _.
  - apply prints_bind; [|apply _]. apply prints_text_lines; try lia. rewrite zlen_app. unfold zlen at 2. cbn. lia.
Qed.
Lemma length_codes {A} (f : A -> Z) m n : zlen m = Z.of_nat n -> length (map f m) = n.
Proof. unfold zlen. rewrite length_map. lia. Qed.
Lemma prints_ntop4 m : zlen m = 4 -> Prints (ntop4 m).
Proof.
  intros Hm%(length_codes code m 4). unfold ntop4. change (code <$> m) with (map code m).
  destruct (map code m) as [|a [|b [|c [|d [|]]]]]; try discriminate Hm. apply _.
Qed.
Lemma prints_ntop6 m : zlen m = 16 -> Prints (ntop6 m).
Proof.
  intros Hm. unfold ntop6. rewrite bool_decide_true by done. destruct (longest_run _) as [base len].
  destruct (embeds4 _ _ _); [|apply _]. apply prints_bind; [|apply _].
  apply prints_ntop4. unfold zlen in *. rewrite length_drop. lia.
Qed.
#[export] Hint Resolve prints_text prints_ntop4 prints_ntop6 : prints.

(** The member that was written is the one the switch reads. *)
Ltac member Hd :=
  match type of Hd with
  | rdata_typed _ ?d =>
      destruct d; cbn [rdata_typed] in Hd;
      try (exfalso; destruct Hd as [Hd _]; by vm_compute in Hd); destruct Hd as [_ Hd]
  end;
  repeat match goal with
  | H : _ /\ _ |- _ => destruct H
  | H : exists _, _ |- _ => destruct H
  | H : Forall _ (_ :: _) |- _ => apply list.Forall_cons in H
  end; subst; prints_go; auto with prints.
Lemma prints_rdata t d : rdata_typed t d -> Prints (print_rdata t d).
Proof.
  intros Hd. unfold print_rdata.
  repeat match goal with
  | |- Prints (if bool_decide (t ∈ ?l) then _ else _) =>
      let H := fresh in case_bool_decide as H;
      [rewrite !elem_of_cons, elem_of_nil in H; decompose [or] H; try done; subst t; member Hd|clear H]
  | |- Prints (if t =? ?c then _ else _) =>
      destruct (Z.eqb_spec t c) as [->|_]; [member Hd|]
  end.
  apply _.
Qed.

Lemma prints_question q : question_typed q -> Prints (print_question q).
Proof. intros []. unfold print_question. prints_go. Qed.
Lemma prints_answer a : answer_typed a -> Prints (print_answer a).
Proof.
  intros []. unfold print_answer, print_generic. apply prints_bind; [prints_go|intros g].
  apply prints_bind; [by apply prints_rdata|apply _].
Qed.
Lemma prints_answers tag l : Forall answer_typed l -> Prints (dns_print_answer tag l).
Proof.
  intros Hl. apply prints_bind; [|apply _]. by apply (prints_all _ answer_typed), Hl; apply prints_answer.
Qed.
Lemma prints_result q : query_typed q -> Prints (dns_print_result q).
Proof.
  intros Hq. unfold dns_print_result. apply prints_bind; [|intros h].
  { apply prints_bind; [|apply _]. apply prints_itos; [by vm_compute|apply Hq]. }
  apply prints_bind; [|intros qs].
  { apply prints_bind; [|apply _]. apply (prints_all _ question_typed); [apply prints_question|apply Hq]. }
  do 3 (apply prints_bind; [apply prints_answers, Hq|intros ?]). apply _.
Qed.

(** ** What a TXT record shows *)

Lemma cstr_of_no_nul m : no_nul m -> cstr_of m = m.
Proof. intros Hm. apply take_while_id. eapply Forall_impl; [exact Hm|]. intros c Hc. by rewrite is_nul_false. Qed.
Lemma str_n_whole l s r : no_nul s -> str_n (l ++ s ++ r) (zlen l) (zlen s) = Ok s.
Proof.
  intros Hs. unfold str_n, zleb, zlen. rewrite !Nat2Z.id, drop_app_length, take_app_length.
  by rewrite (bool_decide_true (_ <= _)), orb_true_r, cstr_of_no_nul by done.
Qed.
Lemma rjust_full s : rjust (zlen s) s = s.
Proof. unfold rjust, blanks. by rewrite Z.sub_diag. Qed.

Definition text_line (c : cstr) : cstr := LF :: TAB :: quoted c.
Lemma text_lines_shows k l s r : no_nul s -> (length s <= k)%nat ->
  exists cs, concat cs = s /\ Forall (fun c => 0 < zlen c <= 64) cs /\
    text_lines k (l ++ s ++ r) (zlen s) (zlen l) = Ok (concat (text_line <$> cs)).
Proof.
  revert l s. induction k as [|k IH]; intros l s Hs Hk.
  { destruct s; [|cbn in Hk; lia]. by exists []. }
  destruct s as [|c s']; [by exists []|]. remember (c :: s') as s eqn:Es.
  assert (Hz : 0 < zlen s) by (subst; rewrite zlen_cons; pose proof (zlen_nonneg s'); lia).
  cbn [text_lines]. rewrite (proj2 (Z.eqb_neq (zlen s) 0)) by lia.
  set (max := if zltb 64 (zlen s) then 64 else zlen s).
  assert (Hmax : 0 < max <= 64 /\ max <= zlen s) by (unfold max, zltb; case_bool_decide; lia).
  set (t := take (Z.to_nat max) s) in *. set (d := drop (Z.to_nat max) s) in *.
  assert (Es' : s = t ++ d) by by unfold t, d; rewrite take_drop.
  assert (Hs' := Hs). rewrite Es' in Hs'. apply no_nul_app in Hs' as [Ht Hd].
  replace (l ++ s ++ r) with (l ++ t ++ d ++ r) by by rewrite Es', <- app_assoc.
  assert (Hlt : zlen t = max) by (unfold t, zlen in *; rewrite length_take; lia).
  assert (Hld : zlen d = zlen s - max) by (unfold d, zlen in *; rewrite length_drop; lia).
  destruct (IH (l ++ t) d Hd) as (cs & Ec & Hcs & E).
  { unfold zlen in *. lia. }
  replace (str_n (l ++ t ++ d ++ r) (zlen l) max) with (Ok t) by (rewrite <- Hlt; by rewrite str_n_whole).
  rewrite ok_bind, <- Hld, <- Hlt, <- zlen_app, app_assoc.
  rewrite E, ok_bind, rjust_full.
  exists (t :: cs). split_and!; [|by apply Forall_cons_2; [lia|]|done].
  by cbn [concat]; rewrite Ec.
Qed.

(** The lines of a long text are the text, in pieces of at most 64 bytes. *)
Lemma print_text_shows s : no_nul s -> 30 <= zlen s ->
  exists cs, concat cs = s /\ Forall (fun c => 0 < zlen c <= 64) cs /\
    print_text (zlen s) (Some (cmem s)) =
    Ok ($"(" ++ concat (text_line <$> cs) ++ LF :: TAB :: TAB :: line $")").
Proof.
  intros Hs Hl. destruct (text_lines_shows (length s) [] s [nul] Hs) as (cs & Ec & Hcs & E); [done|].
  exists cs. split; [done|]. split; [done|]. unfold print_text. cbn [deref]. rewrite ok_bind.
  unfold zltb. rewrite bool_decide_false by lia.
  change (text_lines (Z.to_nat (zlen s)) (cmem s) (zlen s) 0 ≫=
    (fun t => Ok ($"(" ++ t ++ LF :: TAB :: TAB :: line $")")) =
    Ok ($"(" ++ concat (text_line <$> cs) ++ LF :: TAB :: TAB :: line $")")).
  unfold zlen at 1. rewrite Nat2Z.id.
  change (text_lines (length s) (cmem s) (zlen s) 0) with
    (text_lines (length s) ([] ++ s ++ [nul]) (zlen s) (zlen (@nil char))).
  by rewrite E, ok_bind.
Qed.
Lemma print_text_short s : no_nul s -> zlen s < 30 -> print_text (zlen s) (Some (cmem s)) = Ok (quoted s).
Proof.
  intros Hs Hl. unfold print_text, zltb. cbn [deref]. rewrite ok_bind, bool_decide_true by done.
  by rewrite cview_cmem.
Qed.

(** ** The pointers of the sections *)

(** In the pool of the program the room after the query structure is 8 more
    than a multiple of 16, and stays so: a section that fits has a pointer, even
    one without entries. *)
Lemma section_pointer m L cap edns rc off free size :
  0 < free < 2 ^ 64 -> free mod 16 = 8 -> size mod 16 = 0 -> 0 <= size <= free ->
  alloc_struct size (rdr m L cap edns rc off free) =
    Ok (rdr m L cap edns rc off (free - size), inr (Some (cap - free))) /\
  0 < free - size < 2 ^ 64 /\ (free - size) mod 16 = 8.
Proof.
  intros Hf Hm Hs Hr. pose proof (Z.div_mod free 16). pose proof (Z.div_mod size 16).
  assert (E : free - size = 8 + (free / 16 - size / 16) * 16) by lia.
  split; [|rewrite E, Z.mod_add by done; split; [lia|done]].
  apply alloc_aligned; try lia. replace free with ((2 * (free / 16) + 1) * 8) by lia. by apply Z.mod_mul.
Qed.

(** ** Decoded packets can be printed *)

(** C13: Whatever a packet holds, when [dns_decode] accepts it then
    [dns_print_result] prints it: no null string is formatted, every record is
    read through the member of the union that was filled in, the texts are read
    within their objects and the tables of names are searched with numbers they
    take. *)
Theorem dns_print_decoded `{FloatText} rsize m len q
    (Hd : dns_decode rsize m len = Ok (inr q)) :
  exists text, dns_print_result q = Ok text.
Proof. apply prints_result. by eapply decoded_typed. Qed.

Lemma dns_print_decoded_witness :
  @dns_decode demo_float 4096 demo_packet 81 = Ok (inr demo_query) /\
  exists text, dns_print_result demo_query = Ok text.
Proof.
  assert (E : @dns_decode demo_float 4096 demo_packet 81 = Ok (inr demo_query)) by by vm_compute.
  split; [exact E|]. by apply (@dns_print_decoded demo_float 4096 demo_packet 81 demo_query).
Defined.
