(* ===== verification/DnsDump.v ===== *)
(** * Dumping memory (lib/dns/output.c, dns_dump_memory)

    The hexadecimal dump of a packet, row by row, and a reader that shows that
    it loses nothing. *)
From S2P Require Import Prelude CString Dns DnsPrint.

Definition LINESIZE : Z := 16.

Definition isprint (c : char) : bool := bool_decide (32 <= code c <= 126).
(** [%0nx]. *)
Definition zero_padded (n : Z) (s : cstr) : cstr := replicate (Z.to_nat (n - zlen s)) "0"%char ++ s.
Definition cell (c : char) : cstr := zero_padded 2 (hex_digits 2 (code c) []) ++ $" ".
Definition address (offset : Z) : cstr :=
  zero_padded 8 (toupper <$> hex_digits 16 offset []) ++ $": ".
Definition shown (c : char) : char := if isprint c then c else "."%char.

(** The columns before the first byte of a row, from column [j] on. *)
Fixpoint skip_loop (skip : nat) (ascii : mem) (j : Z) : outcome (cstr * mem * Z) :=
  match skip with
  | O => Ok ([], ascii, j)
  | S skip' =>
      ascii ← wr ascii j " "%char;
      '(out, ascii, j) ← skip_loop skip' ascii (j + 1);
      Ok ($"   " ++ out, ascii, j)
  end.

(** The bytes of a row; gives what is left of the block. *)
Fixpoint row_loop (block ascii : mem) (j : Z) : outcome (cstr * mem * mem * Z) :=
  match block with
  | [] => Fail OutOfBounds
  | c :: rest =>
      ascii ← wr ascii j (shown c);
      let j := j + 1 in
      if zltb j LINESIZE && negb (bool_decide (rest = [])) then
        '(out, rest, ascii, j) ← row_loop rest ascii j;
        Ok (cell c ++ out, rest, ascii, j)
      else Ok (cell c, rest, ascii, j)
  end.

(** One turn of the outer loop: its output and what is left. *)
Definition dump_row (block ascii : mem) (offset : Z) : outcome (cstr * mem * mem) :=
  '(skipped, ascii, j) ← skip_loop (Z.to_nat (offset mod LINESIZE)) ascii 0;
  '(hex, rest, ascii, j) ← row_loop block ascii j;
  ascii ← wr ascii j nul;
  match cview ascii with
  | Some s => Ok (address offset ++ skipped ++ hex ++ blanks (3 * (LINESIZE - j)) ++ line s, rest, ascii)
  | None => Fail OutOfBounds
  end.
Fixpoint dump_loop (k : nat) (block ascii : mem) (offset : Z) : outcome cstr :=
  if bool_decide (block = []) then Ok []
  else
    match k with
    | O => Fail NoFuel
    | S k' =>
        '(row, rest, ascii) ← dump_row block ascii offset;
        out ← dump_loop k' rest ascii (wrap64 (offset + (zlen block - zlen rest)));
        Ok (row ++ out)
    end.

(** [data] are the [size] bytes at the pointer. *)
Definition dns_dump_memory (data : mem) (offset : Z) : outcome cstr :=
  if bool_decide (0 < zlen data)
  then dump_loop (length data) data (replicate (Z.to_nat (LINESIZE + 1)) nul) offset
  else Fail AssertFailed.

(** ** A reader of dumps *)

Definition xval (c : char) : Z := if zltb (code c) 58 then code c - 48 else code c - 87.
Fixpoint read_cells (k : nat) (s : cstr) : mem :=
  match k, s with
  | S k', a :: b :: _ :: r =>
      (if bool_decide (a = " "%char) then [] else [chr (16 * xval a + xval b)]) ++ read_cells k' r
  | _, _ => []
  end.
Definition past_line (s : cstr) : cstr := List.tl (drop_while (fun c => negb (bool_decide (c = LF))) s).
Fixpoint undump (k : nat) (s : cstr) : mem :=
  match k, s with
  | S k', _ :: _ =>
      let row := drop 10 s in
      read_cells 16 row ++ undump k' (past_line (drop 48 row))
  | _, _ => []
  end.

(** ** Rows *)

(** A row: the address, the bytes from column [j] on, and as characters. *)
Definition row_cells (j : nat) (row : mem) : cstr :=
  blanks (3 * Z.of_nat j) ++ concat (cell <$> row) ++ blanks (3 * (LINESIZE - (Z.of_nat j + zlen row))).
Definition row_shown (j : nat) (row : mem) : cstr := blanks (Z.of_nat j) ++ (shown <$> row).
Definition row_text (offset : Z) (j : nat) (row : mem) : cstr :=
  address offset ++ row_cells j row ++ line (row_shown j row).

Lemma blanks_S n : blanks (Z.of_nat (S n)) = " "%char :: blanks (Z.of_nat n).
Proof. unfold blanks. rewrite !Nat2Z.id. done. Qed.
Lemma blanks_3S n : blanks (3 * Z.of_nat (S n)) = $"   " ++ blanks (3 * Z.of_nat n).
Proof.
  unfold blanks. replace (Z.to_nat (3 * Z.of_nat (S n))) with (3 + Z.to_nat (3 * Z.of_nat n))%nat by lia. done.
Qed.
Lemma zlen_blanks n : 0 <= n -> zlen (blanks n) = n.
Proof. intros Hn. unfold zlen, blanks. rewrite length_replicate. lia. Qed.

Lemma skip_loop_run n pre suf : (n <= length suf)%nat ->
  skip_loop n (pre ++ suf) (zlen pre) =
    Ok (blanks (3 * Z.of_nat n), pre ++ blanks (Z.of_nat n) ++ drop n suf, zlen pre + Z.of_nat n).
Proof.
  revert pre suf. induction n as [|n IH]; intros pre suf Hn; cbn [skip_loop].
  { change (Z.of_nat 0) with 0. by rewrite Z.add_0_r. }
  destruct suf as [|c suf]; cbn in Hn; [lia|].
  rewrite wr_app_mid, ok_bind, cons_middle, app_assoc.
  replace (zlen pre + 1) with (zlen (pre ++ [" "%char])) by by rewrite zlen_app.
  rewrite IH, ok_bind, blanks_3S, blanks_S, <- app_assoc by lia.
  rewrite zlen_app. cbn [app drop]. change (zlen [" "%char]) with 1. do 2 f_equal. lia.
Qed.

Lemma row_loop_run row rest pre suf :
  row <> [] -> (length row <= length suf)%nat -> zlen pre + zlen row <= LINESIZE ->
  rest = [] \/ zlen pre + zlen row = LINESIZE ->
  row_loop (row ++ rest) (pre ++ suf) (zlen pre) =
    Ok (concat (cell <$> row), rest, pre ++ (shown <$> row) ++ drop (length row) suf, zlen pre + zlen row).
Proof.
  revert pre suf. induction row as [|c row IH]; intros pre suf Hne Hl Hj Hr; [done|].
  destruct suf as [|x suf]; cbn in Hl; [lia|]. cbn [app row_loop].
  rewrite zlen_cons in *. rewrite wr_app_mid, ok_bind. destruct row as [|d row].
  - cbn [app fmap list_fmap concat drop length] in *. change (zlen (@nil char)) with 0 in *.
    unfold zltb. replace (bool_decide (zlen pre + 1 < LINESIZE) && negb (bool_decide (rest = []))) with false.
    + by rewrite app_nil_r, Z.add_0_r.
    + symmetry. apply andb_false_iff. destruct Hr as [->|Hr]; [by right|left]. apply bool_decide_eq_false. lia.
  - unfold zltb. rewrite bool_decide_true by (rewrite zlen_cons in Hj; pose proof (zlen_nonneg row); lia).
    cbn [andb app]. rewrite bool_decide_false by done. cbn [negb].
    rewrite cons_middle, app_assoc.
    assert (Hp : zlen pre + 1 = zlen (pre ++ [shown c])) by by rewrite zlen_app.
    rewrite Hp. change (d :: row ++ rest) with ((d :: row) ++ rest).
    rewrite IH; [|done|cbn in Hl |- *; lia|lia|].
    + rewrite ok_bind, <- app_assoc. cbn [app fmap list_fmap concat drop length]. do 2 f_equal. lia.
    + destruct Hr as [->|Hr]; [by left|right; lia].
Qed.

Lemma shown_no_nul row : no_nul (shown <$> row).
Proof.
  apply Forall_fmap, Forall_true. intros c. cbn. unfold shown, isprint.
  case_bool_decide; [|done]. intros ->. unfold code in H. cbn in H. lia.
Qed.
Lemma blanks_no_nul n : no_nul (blanks n).
Proof. by apply Forall_replicate. Qed.
Lemma row_shown_no_nul j row : no_nul (row_shown j row).
Proof. apply no_nul_app. split; [apply blanks_no_nul|apply shown_no_nul]. Qed.

Lemma dump_row_run row rest ascii offset j :
  j = Z.to_nat (offset mod LINESIZE) -> length ascii = 17%nat -> row <> [] ->
  Z.of_nat j + zlen row <= LINESIZE -> rest = [] \/ Z.of_nat j + zlen row = LINESIZE ->
  exists ascii', dump_row (row ++ rest) ascii offset = Ok (row_text offset j row, rest, ascii') /\
    length ascii' = 17%nat.
Proof.
  intros Ej Ha Hne Hj Hr. unfold dump_row. rewrite <- Ej. unfold LINESIZE in *.
  pose proof (skip_loop_run j [] ascii) as E. cbn [app] in E. change (zlen []) with 0 in E.
  rewrite E, ok_bind, Z.add_0_l by (unfold zlen in Hj; lia). clear E.
  assert (Hz : Z.of_nat j = zlen (blanks (Z.of_nat j))) by (rewrite zlen_blanks; lia).
  set (suf := drop j ascii). assert (Hs : length suf = (17 - j)%nat) by (unfold suf; rewrite length_drop; lia).
  pose proof (row_loop_run row rest (blanks (Z.of_nat j)) suf Hne) as E. rewrite <- Hz in E.
  rewrite E, ok_bind by (unfold zlen, LINESIZE in *; (done || lia)). clear E.
  destruct (drop (length row) suf) as [|x r] eqn:Ed.
  { apply (f_equal length) in Ed. rewrite length_drop in Ed. unfold zlen in Hj. cbn in Ed. lia. }
  rewrite app_assoc. fold (row_shown j row).
  assert (Hz' : Z.of_nat j + zlen row = zlen (row_shown j row)).
  { unfold row_shown. rewrite zlen_app, <- Hz. unfold zlen. by rewrite length_fmap. }
  rewrite Hz', wr_app_mid, ok_bind, cview_app by apply row_shown_no_nul.
  eexists. split; [unfold row_text, row_cells, LINESIZE; rewrite Hz'; do 3 f_equal; by rewrite <- !app_assoc|].
  rewrite length_app. apply (f_equal length) in Ed. rewrite length_drop in Ed. cbn in Ed |- *.
  unfold zlen in Hz', Hj. lia.
Qed.

(** ** Reading a row *)

Lemma cell_read c : exists a b, cell c = [a; b; " "%char] /\ a <> " "%char /\ chr (16 * xval a + xval b) = c.
Proof.
  enough (H : match cell c with
    | [a; b; d] => bool_decide (d = " "%char) && negb (bool_decide (a = " "%char)) &&
                   bool_decide (chr (16 * xval a + xval b) = c)
    | _ => false end = true).
  { destruct (cell c) as [|a [|b [|d [|]]]]; try done. apply andb_true_iff in H as [H H3].
    apply andb_true_iff in H as [H1 H2]. apply bool_decide_eq_true in H1 as ->, H3.
    apply negb_true_iff, bool_decide_eq_false in H2. by exists a, b. }
  destruct c as [[] [] [] [] [] [] [] []]; by vm_compute.
Qed.
Lemma read_cells_blanks n k s :
  (n <= k)%nat -> read_cells k (blanks (3 * Z.of_nat n) ++ s) = read_cells (k - n) s.
Proof.
  revert k. induction n as [|n IH]; intros k Hk; [by rewrite Nat.sub_0_r|].
  destruct k as [|k]; [lia|]. rewrite blanks_3S. change ($"   " ++ ?x) with (" "%char :: " "%char :: " "%char :: x).
  cbn [app read_cells]. rewrite bool_decide_true by done. apply IH. lia.
Qed.
Lemma read_cells_row row k s :
  read_cells (length row + k) (concat (cell <$> row) ++ s) = row ++ read_cells k s.
Proof.
  induction row as [|c row IH]; [done|]. cbn [length Nat.add fmap list_fmap concat].
  destruct (cell_read c) as (a & b & -> & Ha & Hc). cbn [app read_cells].
  rewrite bool_decide_false, Hc by done. cbn [app]. by rewrite IH.
Qed.
Lemma read_row_cells j row s : Z.of_nat j + zlen row <= LINESIZE -> read_cells 16 (row_cells j row ++ s) = row.
Proof.
  unfold LINESIZE, zlen. intros Hj. unfold row_cells. rewrite <- app_assoc, read_cells_blanks by lia.
  replace (16 - j)%nat with (length row + (16 - j - length row))%nat by lia.
  rewrite <- app_assoc, read_cells_row.
  replace (LINESIZE - (Z.of_nat j + zlen row)) with (Z.of_nat (16 - j - length row)) by (unfold zlen, LINESIZE in *; lia).
  rewrite read_cells_blanks, Nat.sub_diag by lia. by rewrite app_nil_r.
Qed.

Lemma zlen_cells row : zlen (concat (cell <$> row)) = 3 * zlen row.
Proof.
  induction row as [|c row IH]; [done|]. cbn [fmap list_fmap concat].
  destruct (cell_read c) as (a & b & -> & _). rewrite zlen_app, (zlen_cons c).
  change (list_fmap char cstr cell row) with (cell <$> row). rewrite IH. change (zlen [a; b; " "%char]) with 3. lia.
Qed.
Lemma zlen_row_cells j row : Z.of_nat j + zlen row <= LINESIZE -> zlen (row_cells j row) = 48.
Proof.
  unfold LINESIZE. intros Hj. pose proof (zlen_nonneg row). unfold row_cells, LINESIZE.
  rewrite !zlen_app, zlen_cells, !zlen_blanks by lia. lia.
Qed.

Lemma zlen_hex_digits k m n acc : 0 <= n < 16 ^ Z.of_nat m -> (1 <= m)%nat ->
  zlen (hex_digits k n acc) <= Z.of_nat m + zlen acc.
Proof.
  revert m n acc. induction k as [|k IH]; intros m n acc Hn Hm; cbn [hex_digits]; [lia|].
  unfold zltb. case_bool_decide; [rewrite zlen_cons; lia|].
  destruct m as [|[|m]]; [lia|cbn in Hn; lia|].
  etransitivity; [apply (IH (S m))|rewrite zlen_cons; lia]; [|lia].
  split; [apply Z.div_pos; lia|]. apply Z.div_lt_upper_bound; [lia|].
  rewrite (Nat2Z.inj_succ (S m)), Z.pow_succ_r in Hn by lia. lia.
Qed.
Lemma zlen_address offset : 0 <= offset < 2 ^ 32 -> zlen (address offset) = 10.
Proof.
  intros Ho. unfold address, zero_padded. set (s := toupper <$> _).
  assert (zlen s <= 8).
  { unfold s, zlen. rewrite length_fmap. by apply (zlen_hex_digits 16 8 offset []); [|lia]. }
  rewrite !zlen_app. change (zlen $": ") with 2. unfold zlen in *. rewrite length_replicate. lia.
Qed.
Lemma drop_zlen {A} n (l r : list A) : zlen l = Z.of_nat n -> drop n (l ++ r) = r.
Proof. intros H. apply drop_app_length'. unfold zlen in H. lia. Qed.

Lemma past_row j row s : past_line (line (row_shown j row) ++ s) = s.
Proof.
  unfold past_line, line. rewrite <- app_assoc. cbn [app]. rewrite drop_while_app_stop; [done| |done].
  assert (Hn : Forall (fun c => c <> LF) (row_shown j row)).
  { apply Forall_app. split; [by apply Forall_replicate|]. apply Forall_fmap, Forall_true. intros c. cbn.
    unfold shown, isprint. case_bool_decide as Hc; [|done]. intros ->. vm_compute in Hc. by destruct Hc. }
  eapply Forall_impl; [exact Hn|]. intros c Hc. cbn. by rewrite bool_decide_false.
Qed.
Lemma undump_row k offset j row s : 0 <= offset < 2 ^ 32 -> Z.of_nat j + zlen row <= LINESIZE ->
  undump (S k) (row_text offset j row ++ s) = row ++ undump k s.
Proof.
  intros Ho Hj. unfold row_text. pose proof (zlen_address offset Ho) as Ha. rewrite <- !app_assoc.
  destruct (address offset) as [|x a] eqn:E; [done|]. rewrite <- E in *. cbn [undump].
  rewrite E. cbn [app]. change (x :: a ++ ?y) with ((x :: a) ++ y). rewrite <- E.
  rewrite (drop_zlen 10) by done. by rewrite read_row_cells, (drop_zlen 48), past_row by (try apply zlen_row_cells; done).
Qed.

(** ** The dump of a packet *)

Lemma dump_loop_run k k' block ascii offset :
  (length block <= k)%nat -> (length block <= k')%nat -> length ascii = 17%nat ->
  0 <= offset -> offset + zlen block <= 2 ^ 32 ->
  exists text, dump_loop k block ascii offset = Ok text /\ undump k' text = block.
Proof.
  revert k' block ascii offset.
  induction k as [|k IH]; intros k' block ascii offset Hk Hk' Ha Ho Hs; cbn [dump_loop].
  { destruct block; [|cbn in Hk; lia]. exists []. by destruct k'. }
  destruct block as [|c b]; [exists []; by destruct k'|]. rewrite bool_decide_false by done.
  remember (c :: b) as block eqn:Eb. assert (Hz : 0 < zlen block) by (subst; rewrite zlen_cons; pose proof (zlen_nonneg b); lia).
  pose proof (Z.mod_pos_bound offset LINESIZE eq_refl) as Hm. set (j := Z.to_nat (offset mod LINESIZE)).
  set (row := take (16 - j) block). set (rest := drop (16 - j) block).
  assert (Er : block = row ++ rest) by (symmetry; apply take_drop).
  unfold LINESIZE in Hm.
  assert (Hj : (j < 16)%nat) by (unfold j, LINESIZE; lia).
  assert (Hrow : zlen row = Z.min (16 - Z.of_nat j) (zlen block)) by (unfold row, zlen in *; rewrite length_take; lia).
  assert (Hrest : zlen rest = zlen block - zlen row) by (rewrite Er, zlen_app; lia).
  destruct (dump_row_run row rest ascii offset j eq_refl Ha) as (ascii' & E & Ha').
  - intros E. rewrite E in Hrow. change (zlen []) with 0 in Hrow. lia.
  - unfold LINESIZE. lia.
  - unfold LINESIZE. destruct (decide (zlen rest = 0)) as [E|]; [left; apply zlen_nil_inv; lia|right; lia].
  - rewrite <- Er in E. rewrite E, ok_bind, Hrest.
    replace (wrap64 _) with (offset + zlen row) by (unfold wrap64; rewrite Z.mod_small; lia).
    destruct k' as [|k']; [unfold zlen in Hz; lia|].
    destruct (IH k' rest ascii' (offset + zlen row)) as (text & -> & Hu); try (unfold zlen in *; lia).
    rewrite ok_bind. eexists. split; [done|]. by rewrite undump_row, Hu by (unfold LINESIZE; lia).
Qed.

(** A dump can be read back. For a packet of at least one byte whose
    addresses fit the eight digits they are printed with, [dns_dump_memory]
    writes a text, never past the array that collects the characters of a row,
    and the hexadecimal columns of that text are the bytes of the packet, at
    whatever column the first row starts. *)
Theorem dns_dump_round_trip data offset
    (Hd : 0 < zlen data) (Ho : 0 <= offset) (Hs : offset + zlen data <= 2 ^ 32) :
  exists text, dns_dump_memory data offset = Ok text /\ undump (length data) text = data.
Proof. unfold dns_dump_memory. rewrite bool_decide_true by done. by apply dump_loop_run. Qed.

Lemma dns_dump_round_trip_witness : let data := $"homenet, a bridge" ++ [nul; LF] in
  (0 < zlen data /\ 0 <= 21 /\ 21 + zlen data <= 2 ^ 32) /\
  exists text, dns_dump_memory data 21 = Ok text /\ undump (length data) text = data.
Proof. intros data. split; [done|]. by apply (dns_dump_round_trip data 21). Defined.
