(* ===== verification/DnsTool.v ===== *)
(** * The DNS query tool (lib/dns/netsimple.c and lib/dns/dotest.c)

    dotest sends one question to a server over UDP and prints the reply: the
    encoder, the sockets, the decoder and the printer of the library in a row.
    getopt_long, strerror, inet_pton for IPv6 and the system calls are
    parameters. *)
From S2P Require Import Prelude CString Dns DnsEncode DnsDecode DnsNames DnsRoundTrip DnsTypes DnsFits Mappings DnsPrint DnsDump IpAddr.

(** ** System calls and output *)

(** [union sockaddr_all]: the IPv6 address lies behind the IPv4 one. *)
Record sockaddr_all := mkAll {
  all_family : Z; all_port : Z; all_addr : in_addr; all_addr6 : mem }.

(** A call gives an error number or its result. *)
Inductive call :=
| CSocket (family : Z) (r : Z + Z)
| CSendto (sock : Z) (data : mem) (to : sockaddr_all) (r : Z + Z)
| CPoll (sock timeout : Z) (r : Z + Z)
| CRecvfrom (sock : Z) (r : Z + mem)
| CClose (sock : Z).

(** The result of each call, given the calls before it (newest first). *)
Class Net := {
  net_socket : list call -> Z -> Z + Z;
  net_sendto : list call -> Z -> mem -> sockaddr_all -> Z + Z;
  net_poll : list call -> Z -> Z -> Z + Z;
  net_recvfrom : list call -> Z -> Z -> Z + mem }.

(** What the manual pages promise. *)
Class NetLaws `{Net} := {
  socket_errno : forall l f e, net_socket l f = inl e -> 0 < e;
  sendto_errno : forall l s d a e, net_sendto l s d a = inl e -> 0 < e;
  poll_errno : forall l s t e, net_poll l s t = inl e -> 0 < e;
  recvfrom_errno : forall l s n e, net_recvfrom l s n = inl e -> 0 < e;
  recvfrom_bound : forall l s n d, 0 <= n -> net_recvfrom l s n = inr d -> zlen d <= n }.

Class Errors := strerror : Z -> cstr.
Class Pton6 := pton6 : cstr -> option mem.
(** The results of getopt_long in turn, each with [optarg] and [optopt], and
    the operands it leaves behind the options. *)
Class Getopt := getopt_long : list cstr -> list (Z * option cstr * Z) * list cstr.

Record tool := mkTool { t_calls : list call; t_out : cstr; t_err : cstr }.
Definition T (A : Type) : Type := tool -> outcome (A * tool).
#[global] Instance T_ret : MRet T := fun A a t => Ok (a, t).
#[global] Instance T_bind : MBind T := fun A B f m t =>
  match m t with Ok (a, t') => f a t' | Fail e => Fail e end.
Definition tret {A} (a : A) : T A := fun t => Ok (a, t).
Definition tlift {A} (o : outcome A) : T A := fun t =>
  match o with Ok a => Ok (a, t) | Fail f => Fail f end.
(** A call, made and taken down. *)
Definition syscall {A} (f : list call -> A) (c : A -> call) : T A := fun t =>
  let r := f (t_calls t) in Ok (r, mkTool (c r :: t_calls t) (t_out t) (t_err t)).
Definition close (sock : Z) : T unit := syscall (fun _ => tt) (fun _ => CClose sock).
Definition printf (s : cstr) : T unit := fun t =>
  Ok (tt, mkTool (t_calls t) (t_out t ++ s) (t_err t)).
Definition eprintf (s : cstr) : T unit := fun t =>
  Ok (tt, mkTool (t_calls t) (t_out t) (t_err t ++ s)).

Definition ETIMEDOUT : Z := 110.
Definition EAFNOSUPPORT : Z := 97.

(** ** The network interface *)

Section Netsimple.
Context `{Net} `{Pton6}.

(** inet_pton: 1 when it stored an address, 0 when the text is not one, and -1
    for an unknown family only. *)
Definition inet_pton (family : Z) (host : cstr) (a : sockaddr_all) : Z * sockaddr_all :=
  if family =? AF_INET then
    match inet_pton4 host with
    | Some x => (1, mkAll (all_family a) (all_port a) x (all_addr6 a))
    | None => (0, a)
    end
  else if family =? AF_INET6 then
    match pton6 host with
    | Some x => (1, mkAll (all_family a) (all_port a) (all_addr a) x)
    | None => (0, a)
    end
  else (-1, a).

Definition set_family (family port : Z) (a : sockaddr_all) : sockaddr_all :=
  mkAll family port (all_addr a) (all_addr6 a).

Definition net_server (host : option cstr) : outcome (Z * sockaddr_all) :=
  match host with
  | None => Fail AssertFailed
  | Some host =>
      let addr := mkAll 0 0 (0, 0, 0, 0) (replicate 16 nul) in
      let '(r, addr) := inet_pton AF_INET host addr in
      Ok (if zltb r 0 then
            let '(r, addr) := inet_pton AF_INET6 host addr in
            if zltb r 0 then (EAFNOSUPPORT, addr)
            else (0, set_family AF_INET6 (htons 53) addr)
          else (0, set_family AF_INET (htons 53) addr))
  end.

(** The error number or 0, the buffer for the reply and its size. *)
Definition net_request (srvaddr : sockaddr_all) (dest : mem) (dsize : Z) (src : mem)
  : T (Z * mem * Z) :=
  if negb (bool_decide (all_family srvaddr = AF_INET \/ all_family srvaddr = AF_INET6))
  then tlift (Fail AssertFailed)
  else
    sock ← syscall (fun l => net_socket l (all_family srvaddr)) (CSocket (all_family srvaddr));
    match sock with
    | inl err => tret (err, dest, dsize)
    | inr sock =>
        let quit_with (err : Z) : T (Z * mem * Z) := close sock;; tret (err, dest, dsize) in
        bytes ← syscall (fun l => net_sendto l sock src srvaddr) (CSendto sock src srvaddr);
        match bytes with
        | inl err => quit_with err
        | inr _ =>
            rc ← syscall (fun l => net_poll l sock 15000) (CPoll sock 15000);
            match rc with
            | inl err => quit_with err
            | inr rc =>
                if rc =? 0 then quit_with ETIMEDOUT
                else
                  bytes ← syscall (fun l => net_recvfrom l sock dsize) (CRecvfrom sock);
                  match bytes with
                  | inl err => quit_with err
                  | inr d => close sock;; tret (0, d ++ drop (length d) dest, zlen d)
                  end
            end
        end
    end.
End Netsimple.

(** ** The tool *)

Definition OPT_NONE : Z := 0.
Definition OPT_HELP : Z := 104.
Definition OPT_EDNS : Z := 101.
Definition OPT_SERVER : Z := 115.
Definition OPT_DUMP : Z := 100.
Definition EXIT_SUCCESS : Z := 0.
Definition EXIT_FAILURE : Z := 1.

Record options := mkOptions { serverhost : option cstr; fdump : bool; fedns : bool }.
Definition default_options : options := mkOptions (Some $"127.0.0.1") false false.

(** The options, or what is printed before the usage message. *)
Fixpoint options_loop (rs : list (Z * option cstr * Z)) (o : options) : cstr + options :=
  match rs with
  | [] => inr o
  | (rc, optarg, optopt) :: rest =>
      if rc =? OPT_HELP then inl []
      else if rc =? OPT_SERVER then options_loop rest (mkOptions optarg (fdump o) (fedns o))
      else if rc =? OPT_EDNS then options_loop rest (mkOptions (serverhost o) (fdump o) true)
      else if rc =? OPT_DUMP then options_loop rest (mkOptions (serverhost o) true (fedns o))
      else if rc =? OPT_NONE then options_loop rest o
      else inl ($"unknown option '" ++ chr (optopt mod 256) :: line $"'")
  end.

Definition usage (prog : option cstr) : T unit :=
  match prog with
  | None => tlift (Fail AssertFailed)
  | Some prog =>
      eprintf (line ($"usage: " ++ prog ++ $" [-h] [-d] [-e] [-s server] host [type]") ++
        line (TAB :: $"-h" ++ TAB :: TAB :: $"usage text (this text)") ++
        line (TAB :: $"-d" ++ TAB :: TAB :: $"dump raw DNS queries") ++
        line (TAB :: $"-e" ++ TAB :: TAB :: $"Include EDNS0 RR with query") ++
        line (TAB :: $"-s server" ++ TAB :: $"IP address of server") ++
        LF :: line (TAB :: $"type" ++ TAB :: TAB :: $"RR DNS type"))
  end.

(** The NSID option record; [fug] is not set by the code, nor read again. *)
Definition edns_record : dns_answer_t :=
  mkAnswer (Some $".") RR_OPT CLASS_UNKNOWN 0
    (R_OPT 1464 0 false 0 0 [mkOpt EDNS0RR_NSID (zlen $"MY-DNS-SERVER-ID") (cmem $"MY-DNS-SERVER-ID")]).
Definition dotest_query (host type : cstr) (edns : bool) : dns_query_t :=
  mkQuery 1234 true OP_QUERY false false true false false false false RCODE_OKAY
    [mkQuestion (Some host) (dns_type_value type) CLASS_IN] [] []
    (if edns then [edns_record] else []).

(** The sizes of [request], [reply] and [bufresult] in bytes. *)
Definition sizeof_packet : Z := 512.
Definition sizeof_result : Z := 8192.

Section Dotest.
Context `{Net} `{Pton6} `{Getopt} `{Errors} `{FloatText}.

Definition complain (what : cstr) (rc : Z) : T Z :=
  text ← tlift (dns_rcode_text rc);
  eprintf (line (what ++ $"() = (" ++ printf_d rc ++ $") " ++ text));;
  tret EXIT_FAILURE.
Definition dump (head : cstr) (packet : mem) : T unit :=
  printf head;;
  text ← tlift (dns_dump_memory packet 0);
  printf text.

(** [*prsize] after a successful dns_decode: how much of the pool is used. *)
Definition bytes_used (rsize : Z) (m : mem) (len : Z) : outcome Z :=
  '(s, _) ← decode_sections m (mkD m len HEADER (len - HEADER) 0 rsize rsize false 0);
  Ok (d_dest s).

(** Decoding and printing the [replysize] bytes of the reply. *)
Definition show_reply (o : options) (reply : mem) (replysize : Z) : T Z :=
  r ← tlift (dns_decode sizeof_result reply replysize);
  match r with
  | inl rc => complain $"dns_decode" rc
  | inr response =>
      (if fdump o then
         used ← tlift (bytes_used sizeof_result reply replysize);
         printf (LF :: $"Bytes used: " ++ line (line (dec_nat used)))
       else tret tt);;
      text ← tlift (dns_print_result response);
      printf text;;
      tret EXIT_SUCCESS
  end.

(** [stack] is what the array for the reply holds before. *)
Definition run_query (o : options) (host type : cstr) (stack : mem) : T Z :=
  '(rc, request, reqsize) ← tlift (dns_encode sizeof_packet (dotest_query host type (fedns o)));
  if negb (rc =? RCODE_OKAY) then complain $"dns_encode" rc
  else
    let request := take (Z.to_nat reqsize) request in
    (if fdump o then dump ($"OUTGOING:" ++ [LF; LF]) request else tret tt);;
    '(rc, server) ← tlift (net_server (serverhost o));
    if negb (rc =? 0) then
      eprintf ($"net_server() = " ++ strerror rc);; tret EXIT_FAILURE
    else
      '(rc, reply, replysize) ← net_request server stack sizeof_packet request;
      if negb (rc =? 0) then
        eprintf (line ($"net_request() = " ++ strerror rc));; tret EXIT_FAILURE
      else
        (if fdump o then dump (LF :: $"INCOMING:" ++ [LF; LF]) (take (Z.to_nat replysize) reply)
         else tret tt);;
        show_reply o reply replysize.

Definition dotest_main (argv : list cstr) (stack : mem) : T Z :=
  let '(rs, operands) := getopt_long argv in
  match options_loop rs default_options with
  | inl msg => eprintf msg;; usage (argv !! 0%nat);; tret EXIT_FAILURE
  | inr o =>
      match operands with
      | [] => usage (argv !! 0%nat);; tret EXIT_FAILURE
      | host :: rest => run_query o host (default $"A" (hd_error rest)) stack
      end
  end.
End Dotest.

(** ** Running the tool *)

Lemma T_bind_ok {A B} (m : T A) (f : A -> T B) t a t' :
  m t = Ok (a, t') -> (m ≫= f) t = f a t'.
Proof. intros E. unfold mbind, T_bind. by rewrite E. Qed.

(** The descriptors that are open after the calls. *)
Fixpoint remove_fd (f : Z) (l : list Z) : list Z :=
  match l with
  | [] => []
  | x :: r => if x =? f then r else x :: remove_fd f r
  end.
Fixpoint open_fds (l : list call) : list Z :=
  match l with
  | [] => []
  | CSocket _ (inr f) :: r => f :: open_fds r
  | CClose f :: r => remove_fd f (open_fds r)
  | _ :: r => open_fds r
  end.

Section Requests.
Context `{Net} `{!NetLaws}.

Lemma remove_fd_head f l : remove_fd f (f :: l) = l.
Proof. cbn. by rewrite Z.eqb_refl. Qed.

(** C27: net_request leaves no socket behind: whichever call fails, and when no
    reply comes in time, the descriptors that are open afterwards are those
    that were open before. It always returns; 0 means that the request went to
    the server and the reply, cut to the room there is, is at the start of the
    buffer with its length in [*dsize]; any other result leaves both alone. *)
Theorem net_request_closes srvaddr dest dsize src t
    (Hf : all_family srvaddr = AF_INET \/ all_family srvaddr = AF_INET6) (Hd : 0 <= dsize) :
  exists rc dest' dsize' t', net_request srvaddr dest dsize src t = Ok ((rc, dest', dsize'), t') /\
    open_fds (t_calls t') = open_fds (t_calls t) /\
    t_out t' = t_out t /\ t_err t' = t_err t /\
    if rc =? 0 then
      exists sock k d, CSendto sock src srvaddr (inr k) ∈ t_calls t' /\
        CRecvfrom sock (inr d) ∈ t_calls t' /\ dest' = d ++ drop (length d) dest /\
        dsize' = zlen d /\ zlen d <= dsize
    else dest' = dest /\ dsize' = dsize.
Proof.
  unfold net_request. rewrite bool_decide_true by done. cbn [negb].
  unfold mbind, T_bind, syscall, close, tret, syscall. cbn [t_calls t_out t_err].
  destruct (net_socket _ _) as [e|sock] eqn:Es.
  { pose proof (socket_errno _ _ _ Es). do 4 eexists. split; [done|]. cbn.
    rewrite (proj2 (Z.eqb_neq e 0)) by lia. done. }
  destruct (net_sendto _ _ _ _) as [e|k] eqn:E1; cbn [t_calls t_out t_err].
  { pose proof (sendto_errno _ _ _ _ _ E1). do 4 eexists. split; [done|]. cbn.
    rewrite (proj2 (Z.eqb_neq e 0)), Z.eqb_refl by lia. done. }
  destruct (net_poll _ _ _) as [e|rc] eqn:E2; cbn [t_calls t_out t_err].
  { pose proof (poll_errno _ _ _ _ E2). do 4 eexists. split; [done|]. cbn.
    rewrite (proj2 (Z.eqb_neq e 0)), Z.eqb_refl by lia. done. }
  destruct (rc =? 0).
  { do 4 eexists. split; [done|]. cbn. by rewrite Z.eqb_refl. }
  destruct (net_recvfrom _ _ _) as [e|d] eqn:E3; cbn [t_calls t_out t_err].
  { pose proof (recvfrom_errno _ _ _ _ E3). do 4 eexists. split; [done|]. cbn.
    rewrite (proj2 (Z.eqb_neq e 0)), Z.eqb_refl by lia. done. }
  do 4 eexists. split; [done|]. cbn [t_calls t_out t_err open_fds]. rewrite remove_fd_head, Z.eqb_refl.
  split_and!; try done. exists sock, k, d. split_and!; try done; [..|by eapply recvfrom_bound];
    repeat first [apply list_elem_of_here|apply list_elem_of_further].
Qed.
End Requests.

(** ** A question and its answer *)

Lemma in_table_u16 tag : no_nul tag -> u16_ok (dns_type_value tag).
Proof.
  intros Ht. unfold dns_type_value.
  assert (Hall : Forall (fun row => u16_ok row.1) cm_dns_type_is).
  { apply Forall_forall. intros row Hrow.
    assert (Hb : forallb (fun row => zleb 0 row.1 && zltb row.1 (2 ^ 16)) cm_dns_type_is = true) by by vm_compute.
    rewrite forallb_forall in Hb. apply list_elem_of_In, Hb in Hrow.
    apply andb_true_iff in Hrow as [H1%bool_decide_eq_true H2%bool_decide_eq_true]. by split. }
  destruct (stoidef_spec tag cm_dns_type_is RR_UNKNOWN) as [Hin|[_ ->]]; [by vm_compute|done| |done].
  rewrite Forall_forall in Hall. apply (Hall _ Hin).
Qed.

Section Answered.
Context `{Net} `{Pton6} `{Getopt} `{Errors} `{FloatText}.

(** A name dotest can ask for: labels and dots, the last one too. *)
Definition askable (host : cstr) : Prop :=
  exists ls, Forall label_ok ls /\ host = name_text ls /\ (length ls <= 100)%nat /\ zlen host <= 255.

(** The bytes [p] hold the packet [q] as far as dotest can tell. *)
Definition holds_query (p : mem) (q : dns_query_t) : Prop :=
  forall rest, dns_decode sizeof_result (p ++ rest) (zlen p) = Ok (inr q).

(** The option takes 36 bytes, in a state where there is room for it. *)
Definition nsid_option : edns0_opt_t := mkOpt EDNS0RR_NSID 16 (cmem $"MY-DNS-SERVER-ID").
Lemma nsid_encodes out size cap segs e rc : size = cap - zlen out -> 36 <= size < 2 ^ 64 ->
  exists s' bs, encode_edns0rr_nsid nsid_option (mkE out size cap segs e rc) = Ok (s', inr tt) /\
    e_out s' = out ++ bs /\ zlen bs = 36.
Proof.
  intros Hz Hsz. pose proof (zlen_nonneg out). set (hex := take 16 (cmem $"MY-DNS-SERVER-ID") ≫= hex_byte).
  eexists (mkE _ _ cap segs e rc), (be16 _ ++ be16 _ ++ hex). cbn [e_out]. rewrite !app_assoc. split; [|done].
  destruct (has_room out size cap segs e rc (16 * 2 + 2 + 2)) as [Hok Hneed]; [lia..|].
  unfold encode_edns0rr_nsid. cbn [o_code o_len o_data nsid_option]. set (s := mkE out size cap segs e rc) in *.
  rewrite !(codec_bind_ok _ _ s s tt) by done.
  subst s.
  erewrite codec_bind_ok by (apply write_uint16_ok; lia).
  assert (Hb : forall o v, zlen (o ++ be16 v) = zlen o + 2) by (intros; by rewrite zlen_app).
  erewrite codec_bind_ok by (apply write_uint16_ok; rewrite ?Hb; lia).
  unfold copy_bytes. change (take (Z.to_nat 16) (cmem $"MY-DNS-SERVER-ID") ≫= hex_byte) with hex.
  change (zleb (16 * 2) (zlen hex)) with true. erewrite codec_bind_ok by done.
  change (take (Z.to_nat (16 * 2)) hex) with hex. apply emit_shrink; rewrite ?Hb; [done|lia..].
Qed.

Lemma edns_data_encodes s : in_step s -> 36 <= e_size s -> exists s6 bs,
  encode_rdata RR_OPT 1464 (a_data edns_record) s = Ok (s6, inr tt) /\ e_out s6 = e_out s ++ bs /\
  zlen (e_out s) <= zlen (e_out s6) <= e_cap s.
Proof.
  intros [Hz Hc He] Hsz. destruct s as [out size cap segs e rc]. cbn in Hz, Hc, He, Hsz. subst e.
  pose proof (zlen_nonneg out).
  destruct (nsid_encodes out size cap segs true rc Hz ltac:(lia)) as (s6 & bs & E6 & Eout & Hbs).
  destruct (has_room out size cap segs false rc 11) as [Hok Hneed]; [lia..|].
  exists s6, bs. split; [|split; [done|rewrite Eout, zlen_app; cbn; lia]]. change (encode_rdata RR_OPT 1464 (a_data edns_record))
    with (encode_rr_opt 1464 1464 0 [nsid_option]).
  unfold encode_rr_opt. set (s := mkE _ _ _ _ false _) in *.
  rewrite !(codec_bind_ok _ _ s s tt) by done.
  rewrite (codec_bind_ok _ _ s s false) by done.
  rewrite (codec_bind_ok _ _ s s tt) by done. rewrite (codec_bind_ok _ _ _ _ _ Hneed).
  erewrite codec_bind_ok by done. cbn [encode_opts]. by rewrite (codec_bind_ok _ _ _ _ _ E6).
Qed.

(** The sections of a request: the question, and the NSID record with -e. *)
Lemma request_sections host ls type e s : Forall label_ok ls -> host = name_text ls ->
  (dns_type_value type =? RR_OPT) = false -> in_step s -> zlen host + 53 <= e_size s ->
  (length (e_segs s) + length ls <= 100)%nat ->
  exists s', encode_sections (dotest_query host type e) s = Ok (s', inr tt) /\
    zlen (e_out s) <= zlen (e_out s') <= e_cap s.
Proof.
  intros Hls Hname Ht Hs Hsz Hk. pose proof (zlen_nonneg host).
  destruct (fits_question host ls (dns_type_value type) CLASS_IN Hls Hname Ht ltac:(done) s)
    as (s1 & E1 & Hs1 & C1 & D1 & S1 & K1); [done|lia|lia|].
  unfold encode_sections, encode_questions, encode_answers. cbn [questions answers nameservers additional dotest_query encode_all].
  erewrite codec_bind_ok by (erewrite codec_bind_ok by exact E1; done).
  rewrite !(codec_bind_ok _ _ s1 s1 tt) by done.
  rewrite (codec_bind_ok _ _ s1 s1 false) by (unfold cget; by rewrite (step_edns s1 Hs1)).
  pose proof Hs as [Hz _ _]. pose proof Hs1 as [Hz1 Hc1 He1].
  rewrite (codec_bind_ok _ _ s1 s1 tt) by done. destruct e; [|exists s1; split; [done|lia]]. cbn [encode_all].
  destruct (answer_encodes [] RR_OPT 1464 CLASS_UNKNOWN 0 (a_data edns_record) 36 
      (fun s5 s6 => zlen (e_out s5) <= zlen (e_out s6) <= e_cap s5) s1)
    as (s5 & s6 & out & [Hz5 _ _] & C5 & S5 & _ & HP & E & Hout); try done.
  - change (zlen (name_text [])) with 1. lia.
  - cbn [length]. lia.
  - intros s'. by eexists.
  - intros s' Hs' Hsz' _. by apply edns_data_encodes.
  - eexists. split; [unfold edns_record in *; by rewrite (codec_bind_ok _ _ _ _ _ E)|]. cbn. lia.
Qed.

(** What is known of the packet that is sent: it is the encoding of the question,
    and without -e it decodes to the question. *)
Definition asks (host type : cstr) (e : bool) (request : mem) : Prop :=
  (exists m n, dns_encode sizeof_packet (dotest_query host type e) = Ok (RCODE_OKAY, m, n) /\
     request = take (Z.to_nat n) m /\ zlen request = n /\ 0 < n <= sizeof_packet) /\
  (e = false -> holds_query request (dotest_query host type false)).
Lemma request_encoded host type e : askable host -> no_nul type -> dns_type_value type <> RR_OPT ->
  exists m n, dns_encode sizeof_packet (dotest_query host type e) = Ok (RCODE_OKAY, m, n) /\
    asks host type e (take (Z.to_nat n) m).
Proof.
  intros (ls & Hls & Hname & Hlen & Hz) Ht Hopt. set (q := dotest_query host type e).
  assert (Ho : (dns_type_value type =? RR_OPT) = false) by by apply Z.eqb_neq.
  pose proof (zlen_nonneg host).
  destruct (request_sections host ls type e (mkE (header_bytes q) (sizeof_packet - HEADER) sizeof_packet [] false (dq_rcode q)))
    as (s' & Es & Hs'); try done.

  { cbn. unfold sizeof_packet, HEADER. lia. }
  fold q in Es.
  change (zlen (e_out (mkE (header_bytes q) (sizeof_packet - HEADER) sizeof_packet [] false (dq_rcode q)))) with 12 in Hs'.
  change (e_cap _) with 512 in Hs'.
  assert (Eq : exists m, dns_encode sizeof_packet q = Ok (RCODE_OKAY, m, zlen (e_out s'))).
  { eexists. unfold dns_encode. replace (query_okay q _) with (Ok (mkE (header_bytes q) (sizeof_packet - HEADER) sizeof_packet [] false (dq_rcode q), @inr Z () tt)) by by destruct e.
    cbn [mbind outcome_bind]. by rewrite Es. }
  destruct Eq as [m Em]. exists m, (zlen (e_out s')). split; [done|].
  pose proof (dns_encode_inv _ _ _ _ Em) as (s2 & Es2 & Hm & _).
  rewrite Es in Es2. injection Es2 as <-.
  assert (Hr : take (Z.to_nat (zlen (e_out s'))) m = e_out s').
  { rewrite Hm. unfold zlen. by rewrite Nat2Z.id, take_app_length. }
  split; [exists m, (zlen (e_out s')); rewrite Hr; split_and!; [done|done|done|lia|unfold sizeof_packet; lia]|].
  intros -> rest. rewrite Hr at 2. apply (dns_decode_encode sizeof_packet); [|done|done| |done|lia].
  - split; try done; try apply Forall_nil_2. apply Forall_singleton. split; [|by apply in_table_u16].
    exists host. split; [done|by exists ls].
  - change (query_pool (dotest_query host type false)) with (88 + 16 * 1 + 96 * (0 + 0 + 0) + (zlen host + 1 + 0 + (0 + (0 + 0)))).
    unfold sizeof_result. lia.
Qed.

(** The encoding of a packet of the kinds that are read back as they were, and
    that the result pool has room for. *)
Lemma encoding_holds plen q m n : query_ok q -> query_pool q < sizeof_result -> n <= sizeof_packet ->
  dns_encode plen q = Ok (RCODE_OKAY, m, n) -> zlen (take (Z.to_nat n) m) = n /\ holds_query (take (Z.to_nat n) m) q.
Proof.
  intros Hq Hpool Hn Henc. pose proof (dns_encode_inv _ _ _ _ Henc) as (s' & _ & Hm & Hsn & _).
  assert (Hz : zlen (take (Z.to_nat n) m) = n).
  { rewrite Hm, Hsn. unfold zlen. rewrite Nat2Z.id, length_take, length_app. lia. }
  split; [done|]. intros rest. rewrite Hz. apply (dns_decode_encode plen); [done|done|done|done|done|].
  unfold sizeof_packet in Hn. lia.
Qed.

(** The calls of one exchange: [l'] are those of [l] and a request that went to
    [to] and was answered by [reply]. *)
Definition exchanged (l : list call) (to : sockaddr_all) (request reply : mem) (l' : list call) : Prop :=
  exists sock k rc,
    let l1 := CSocket (all_family to) (inr sock) :: l in
    let l2 := CSendto sock request to (inr k) :: l1 in
    let l3 := CPoll sock 15000 (inr rc) :: l2 in
    net_socket l (all_family to) = inr sock /\ net_sendto l1 sock request to = inr k /\
    net_poll l2 sock 15000 = inr rc /\ rc <> 0 /\ net_recvfrom l3 sock sizeof_packet = inr reply /\
    l' = CClose sock :: CRecvfrom sock (inr reply) :: l3.

Lemma net_request_exchanged to stack request reply l' t :
  all_family to = AF_INET \/ all_family to = AF_INET6 ->
  exchanged (t_calls t) to request reply l' ->
  net_request to stack sizeof_packet request t =
    Ok ((0, reply ++ drop (length reply) stack, zlen reply), mkTool l' (t_out t) (t_err t)).
Proof.
  intros Hf (sock & k & rc & E1 & E2 & E3 & Hrc & E4 & ->). unfold net_request.
  rewrite bool_decide_true by done. cbn [negb]. unfold mbind, T_bind, syscall, close, tret, syscall.
  cbn [t_calls t_out t_err]. rewrite E1. cbn [t_calls t_out t_err]. rewrite E2. cbn [t_calls t_out t_err].
  rewrite E3. cbn [t_calls t_out t_err]. rewrite (proj2 (Z.eqb_neq rc 0)) by done. cbn [t_calls t_out t_err]. by rewrite E4.
Qed.

Lemma bytes_used_ok rsize m len q :
  dns_decode rsize m len = Ok (inr q) -> exists used, bytes_used rsize m len = Ok used.
Proof.
  unfold dns_decode, bytes_used. destruct (negb _); [done|]. destruct (zltb len HEADER); [done|].
  intros ([s r] & -> & _)%bind_ok. by exists (d_dest s).
Qed.

(** The reply is shown whole. *)
Lemma show_reply_text o reply len q t : dns_decode sizeof_result reply len = Ok (inr q) ->
  exists shown text, show_reply o reply len t =
      Ok (EXIT_SUCCESS, mkTool (t_calls t) (t_out t ++ shown ++ text) (t_err t)) /\
    dns_print_result q = Ok text /\ (fdump o = false -> shown = []).
Proof.
  intros E. unfold show_reply. destruct (prints_result q) as [text Ht]; [by eapply decoded_typed|].
  rewrite (T_bind_ok _ _ t (inr q) t) by (unfold tlift; by rewrite E).
  destruct (bytes_used_ok _ _ _ _ E) as [used Hu]. destruct (fdump o).
  - set (s := LF :: $"Bytes used: " ++ line (line (dec_nat used))). exists s, text. rewrite Ht.
    split; [|done]. unfold mbind, T_bind, tlift, printf, tret. rewrite Hu. fold s. cbn [t_calls t_out t_err].
    by rewrite app_assoc.
  - exists [], text. rewrite Ht. done.
Qed.

Lemma dump_text head packet t : 0 < zlen packet <= 2 ^ 32 -> exists text,
  dump head packet t = Ok (tt, mkTool (t_calls t) (t_out t ++ text) (t_err t)).
Proof.
  intros Hp. destruct (dns_dump_round_trip packet 0) as (text & E & _); [lia..|].
  exists (head ++ text). unfold dump. rewrite E. unfold mbind, T_bind, tlift, printf. cbn [t_calls t_out t_err].
  by rewrite <- app_assoc.
Qed.
Lemma dump_if (b : bool) head packet t : 0 < zlen packet <= 2 ^ 32 -> exists text,
  (if b then dump head packet else tret tt) t = Ok (tt, mkTool (t_calls t) (t_out t ++ text) (t_err t)) /\
  (b = false -> text = []).
Proof.
  intros Hp. destruct b.
  - destruct (dump_text head packet t Hp) as [text E]. by exists text.
  - exists []. rewrite app_nil_r. by destruct t.
Qed.

(** Where net_server sends every question: the address, or 0.0.0.0 for a text
    that is not an IPv4 address. *)
Definition ipv4_server (server : cstr) : sockaddr_all :=
  mkAll AF_INET (htons 53) (default (0, 0, 0, 0) (inet_pton4 server)) (replicate 16 nul).

(** net_server never fails and never gives an IPv6 address: it looks for a
    negative result of inet_pton, which an invalid text does not give. *)
Theorem net_server_ipv4_only server : net_server (Some server) = Ok (0, ipv4_server server).
Proof.
  unfold net_server, inet_pton, ipv4_server. change (AF_INET =? AF_INET) with true. cbv iota.
  by destruct (inet_pton4 server).
Qed.

(** C26: dotest asks the question and shows the answer. When the options are
    accepted (with or without -d and -e) and name an IPv4 server, the host is a
    name of labels ending in a dot and the type is not OPT, main sends the
    server one packet, the encoding of the question for that name and type,
    with the NSID record if -e was given (without -e the packet decodes to the
    question); if the server answers it with at most 512 bytes that decode into
    the result pool as a packet [q], whatever its records are and whatever lies
    behind them in the buffer, main prints [q], in full and with its names
    expanded, after the dumps that -d asks for, writes nothing to the standard
    error, closes its socket and returns EXIT_SUCCESS. *)
Theorem dotest_prints_reply argv stack rs host rest o server t reply q
    (type := default $"A" (hd_error rest))
    (Hargs : getopt_long argv = (rs, host :: rest)) (Ho : options_loop rs default_options = inr o)
    (Hs : serverhost o = Some server)
    (Hhost : askable host) (Htype : no_nul type) (Hopt : dns_type_value type <> RR_OPT)
    (Hreply : holds_query reply q) (Hn : zlen reply <= sizeof_packet)
    (Hnet : forall request, asks host type (fedns o) request ->
       exists l', exchanged (t_calls t) (ipv4_server server) request reply l') :
  exists shown text t' request, dotest_main argv stack t = Ok (EXIT_SUCCESS, t') /\
    dns_print_result q = Ok text /\ t_out t' = t_out t ++ shown ++ text /\ t_err t' = t_err t /\
    (fdump o = false -> shown = []) /\ asks host type (fedns o) request /\
    exchanged (t_calls t) (ipv4_server server) request reply (t_calls t').
Proof.
  destruct (request_encoded host type (fedns o) Hhost Htype Hopt) as (m0 & n0 & E0 & Hq0).
  set (request := take (Z.to_nat n0) m0) in *. destruct (Hnet request Hq0) as [l' Hl'].
  pose proof Hq0 as [(m1 & n1 & E1 & Hr1 & Hz1 & Hn1) _].
  assert (Hlen : HEADER <= zlen reply).
  { specialize (Hreply []). unfold dns_decode in Hreply. destruct (negb _); [done|].
    destruct (zltb (zlen reply) HEADER) eqn:E; [done|]. apply bool_decide_eq_false in E. lia. }
  change sizeof_packet with 512 in Hn, Hn1. change HEADER with 12 in Hlen.
  destruct (dump_if (fdump o) ($"OUTGOING:" ++ [LF; LF]) request t) as (d1 & D1 & F1); [lia|].
  destruct (dump_if (fdump o) (LF :: $"INCOMING:" ++ [LF; LF]) reply
    (mkTool l' (t_out t ++ d1) (t_err t))) as (d2 & D2 & F2); [lia|].
  destruct (show_reply_text o (reply ++ drop (length reply) stack) (zlen reply) q
    (mkTool l' ((t_out t ++ d1) ++ d2) (t_err t))) as (d3 & text & D3 & Ht & F3); [apply Hreply|].
  exists (d1 ++ d2 ++ d3), text, (mkTool l' ((((t_out t ++ d1) ++ d2) ++ d3 ++ text)) (t_err t)), request.
  split.
  - unfold dotest_main. rewrite Hargs, Ho. fold type. unfold run_query.
    rewrite (T_bind_ok _ _ t (RCODE_OKAY, m0, n0) t) by (unfold tlift; by rewrite E0).
    cbn beta iota. change (negb (RCODE_OKAY =? RCODE_OKAY)) with false. cbn beta iota zeta. fold request.
    rewrite (T_bind_ok _ _ _ _ _ D1), Hs.
    rewrite (T_bind_ok _ _ _ (0, ipv4_server server) (mkTool (t_calls t) (t_out t ++ d1) (t_err t)))
      by (unfold tlift; by rewrite net_server_ipv4_only).
    cbn beta iota. change (negb (0 =? 0)) with false. cbn beta iota.
    rewrite (T_bind_ok _ _ _ _ _ (net_request_exchanged (ipv4_server server) stack request reply l'
      (mkTool (t_calls t) (t_out t ++ d1) (t_err t)) (or_introl eq_refl) Hl')).
    cbn beta iota. change (negb (0 =? 0)) with false. cbn beta iota.
    rewrite take_app_length' by (unfold zlen; lia).
    rewrite (T_bind_ok _ _ _ _ _ D2). exact D3.
  - split_and!; try done; cbn; [by rewrite <- !app_assoc|].
    intros Hf. by rewrite F1, F2, F3.
Qed.
End Answered.

(** ** A concrete network *)

(** Every call succeeds, and every request is answered by the packet. *)
Definition demo_net (p : mem) : Net := {|
  net_socket := fun _ _ => inr 5;
  net_sendto := fun _ _ d _ => inr (zlen d);
  net_poll := fun _ _ _ => inr 1;
  net_recvfrom := fun _ _ n => inr (take (Z.to_nat n) p) |}.
Lemma demo_net_laws p : @NetLaws (demo_net p).
Proof.
  split; try done. intros l s n d Hn [= <-]. unfold zlen. rewrite length_take. lia.
Qed.
Definition demo_getopt (rs : list (Z * option cstr * Z)) (operands : list cstr) : Getopt :=
  fun _ => (rs, operands).
Definition no_pton6 : Pton6 := fun _ => None.
Definition demo_errors : Errors := fun _ => $"error".
Definition idle : tool := mkTool [] [] [].
Definition demo_reply : mem := take 81 demo_packet.

Lemma net_request_closes_witness :
  let to := ipv4_server $"10.0.0.1" in
  (all_family to = AF_INET \/ all_family to = AF_INET6) /\
  exists rc dest' dsize' t', @net_request (demo_net demo_reply) to (replicate 512 nul) 512 $"?" idle =
      Ok ((rc, dest', dsize'), t') /\
    open_fds (t_calls t') = open_fds (t_calls idle) /\
    t_out t' = t_out idle /\ t_err t' = t_err idle /\
    if rc =? 0 then
      exists sock k d, CSendto sock $"?" to (inr k) ∈ t_calls t' /\
        CRecvfrom sock (inr d) ∈ t_calls t' /\ dest' = d ++ drop (length d) (replicate 512 nul) /\
        dsize' = zlen d /\ zlen d <= 512
    else dest' = replicate 512 nul /\ dsize' = 512.
Proof.
  intros to. split; [by left|].
  apply (@net_request_closes (demo_net demo_reply) (demo_net_laws _) to (replicate 512 nul) 512 $"?" idle);
    [by left|done].
Defined.

(** dotest -s 10.0.0.1 -d -e a.hn.local. ANY *)
Lemma dotest_prints_reply_witness :
  let net := demo_net demo_reply in
  let opts := demo_getopt [(OPT_SERVER, Some $"10.0.0.1", 0); (OPT_DUMP, None, 0); (OPT_EDNS, None, 0)]
    [ $"a.hn.local."; $"ANY"] in
  exists shown text t' request,
    @dotest_main net no_pton6 opts demo_errors demo_float [ $"dotest"] (replicate 512 nul) idle =
      Ok (EXIT_SUCCESS, t') /\
    dns_print_result demo_query = Ok text /\ t_out t' = shown ++ text /\ t_err t' = [] /\
    (true = false -> shown = []) /\ @asks demo_float $"a.hn.local." $"ANY" true request /\
    @exchanged net [] (ipv4_server $"10.0.0.1") request demo_reply (t_calls t').
Proof.
  intros net opts.
  destruct (@encoding_holds demo_float 512 demo_query demo_packet 81) as [_ Hreply];
    [apply demo_query_ok|by vm_compute..|].
  apply (@dotest_prints_reply net no_pton6 opts demo_errors demo_float [ $"dotest"] (replicate 512 nul)
    [(OPT_SERVER, Some $"10.0.0.1", 0); (OPT_DUMP, None, 0); (OPT_EDNS, None, 0)] $"a.hn.local." [ $"ANY"]
    (mkOptions (Some $"10.0.0.1") true true) $"10.0.0.1" idle demo_reply demo_query).
  - reflexivity.
  - reflexivity.
  - reflexivity.
  - exists [ $"a"; $"hn"; $"local"]. split; [by apply labels_ok|]. split_and!; [reflexivity|cbn; lia|by vm_compute].
  - cbn. no_nul.
  - by vm_compute.
  - exact Hreply.
  - by vm_compute.
  - intros request _. eexists. exists 5, (zlen request), 1. split_and!; [reflexivity|reflexivity|reflexivity|done|by vm_compute|reflexivity].
Defined.

(** ** Other command lines *)

Definition run_dotest (p : mem) (rs : list (Z * option cstr * Z)) (operands : list cstr) :=
  @dotest_main (demo_net p) no_pton6 (demo_getopt rs operands) demo_errors demo_float [ $"dotest"] [] idle.
Definition exit_of {A} (o : outcome (Z * A)) : outcome Z := fst <$> o.

(** With -e the NSID option goes along. *)
Example dotest_edns :
  exit_of (run_dotest demo_reply [(OPT_EDNS, None, 0)] [ $"a.hn.local."]) = Ok EXIT_SUCCESS.
Proof. by vm_compute. Qed.
(** A name that does not end in a dot is refused, and nothing is sent. *)
Example dotest_relative_name :
  run_dotest demo_reply [] [ $"example.net"] =
  Ok (EXIT_FAILURE, mkTool [] [] (line $"dns_encode() = (3) Non-existant domain")).
Proof. by vm_compute. Qed.
(** Asking for OPT records fails an assert of encode_question. *)
Example dotest_opt_aborts : run_dotest demo_reply [] [ $"example.net."; $"OPT"] = Fail AssertFailed.
Proof. by vm_compute. Qed.
(** So does dumping an empty reply. *)
Example dotest_empty_dump_aborts : run_dotest [] [(OPT_DUMP, None, 0)] [ $"example.net."] = Fail AssertFailed.
Proof. by vm_compute. Qed.
(** A host that is no IPv4 address means 0.0.0.0. *)
Example dotest_ipv6_server :
  match run_dotest demo_reply [(OPT_SERVER, Some $"::1", 0)] [ $"example.net."] with
  | Ok (_, t) => open_fds (t_calls t) = [] /\
      exists d r, CSendto 5 d (mkAll AF_INET (htons 53) (0, 0, 0, 0) (replicate 16 nul)) r ∈ t_calls t
  | Fail _ => False
  end.
Proof.
  destruct (run_dotest _ _ _) as [[z t]|] eqn:E; vm_compute in E; [|done]. injection E as <- <-.
  split; [done|]. eexists _, _. do 3 apply list_elem_of_further. apply list_elem_of_here.
Qed.
