(* ===== verification/Printing.v ===== *)
(** * Printing helpers (src/utils.c, src/netUtils.c)

    What the functions that print a map, a buffer, bytes or an address write to
    the standard output. [print_hex] is given chars, which are signed. *)
From S2P Require Import Prelude CString Str Containers Buffer IpAddr Dns DnsPrint DnsDump.

Definition map_print (map : Map cstr) : outcome cstr :=
  items ← map_items map;
  Ok (concat ((fun item => line ($"[ " ++ key item ++ $" = " ++ value item ++ $" ]")) <$> items)).

(** The data is formatted by %s: it has to hold a NUL. *)
Definition buffer_print (buffer : Buffer) : outcome cstr :=
  match cview (data buffer) with
  | Some s =>
      Ok (line ($"<Buffer[" ++ printf_d (size buffer) ++ $"]>") ++
          line ($" Free space: " ++ printf_d (buffer_getFreeSpace buffer) ++ $", Capacity: " ++
                printf_d (capacity buffer) ++ $", Current start: " ++ printf_d (startIndex buffer) ++ $" ") ++
          $" [" ++ s ++ $"]")
  | None => Fail OutOfBounds
  end.

(** [printf("%02x ", c)]: a char from 128 on is a negative int, printed as 32
    bits. *)
Definition hex_char (c : char) : cstr :=
  let v := if zltb (code c) 128 then code c else code c - 256 + 2 ^ 32 in
  zero_padded 2 (hex_digits 8 v []) ++ $" ".

(** The loops over [len] bytes of an object. *)
Fixpoint print_bytes (f : char -> cstr) (n : nat) (str : mem) (i : Z) : outcome cstr :=
  match n with
  | O => Ok []
  | S n' => c ← rd str i; s ← print_bytes f n' str (i + 1); Ok (f c ++ s)
  end.
Definition print_hex (str : mem) (len : Z) : outcome cstr :=
  line <$> print_bytes hex_char (Z.to_nat len) str 0.
Definition print_buff (str : mem) (len : Z) : outcome cstr :=
  line <$> print_bytes (fun c => [c]) (Z.to_nat len) str 0.

Definition ipAddr_print (ip : sockaddr) : outcome cstr :=
  line <$> ipAddr_toString (IPADDR_SIZE + 10) ip.

(** ** Facts *)

Lemma print_bytes_all f pre s r :
  print_bytes f (length s) (pre ++ s ++ r) (zlen pre) = Ok (concat (f <$> s)).
Proof.
  revert pre. induction s as [|c s IH]; intros pre; [done|]. cbn [length print_bytes app].
  rewrite rd_app_mid, ok_bind. specialize (IH (pre ++ [c])). rewrite <- app_assoc in IH. cbn [app] in IH.
  rewrite zlen_app in IH. change (zlen [c]) with 1 in IH. by rewrite IH.
Qed.
Lemma print_all_bytes f s r : print_bytes f (Z.to_nat (zlen s)) (s ++ r) 0 = Ok (concat (f <$> s)).
Proof. unfold zlen. rewrite Nat2Z.id. apply (print_bytes_all f [] s r). Qed.

(** [print_buff] writes the bytes of an object as they are. *)
Theorem print_buff_bytes s r : print_buff (s ++ r) (zlen s) = Ok (line s).
Proof.
  unfold print_buff. rewrite print_all_bytes. cbn. f_equal. f_equal.
  induction s as [|c s IH]; [done|]. cbn. by rewrite IH.
Qed.

Lemma hex_char_cell c : code c < 128 -> hex_char c = cell c.
Proof.
  intros Hc. unfold hex_char, cell. unfold zltb. rewrite bool_decide_true by done. f_equal. f_equal.
  assert (H0 : 0 <= code c) by (unfold code; lia).
  cbn [hex_digits]. destruct (zltb (code c) 16); [done|].
  assert (Hd : zltb (code c / 16) 16 = true).
  { apply bool_decide_eq_true_2. apply Z.div_lt_upper_bound; lia. }
  by rewrite Hd.
Qed.

Lemma read_cells_cells s : read_cells (length s) (concat (cell <$> s)) = s.
Proof.
  pose proof (read_cells_row s 0 []) as E. by rewrite Nat.add_0_r, !app_nil_r in E.
Qed.

(** On 7-bit text [print_hex] writes two digits for each byte, from which the
    bytes can be read back. *)
Theorem print_hex_reads_back s r (Hs : Forall (fun c => code c < 128) s) :
  exists out, print_hex (s ++ r) (zlen s) = Ok (line out) /\ read_cells (length s) out = s.
Proof.
  exists (concat (hex_char <$> s)). unfold print_hex. rewrite print_all_bytes. split; [done|].
  replace (hex_char <$> s) with (cell <$> s); [apply read_cells_cells|].
  induction Hs as [|c s Hc _ IH]; [done|]. cbn. by rewrite IH, hex_char_cell.
Qed.
(** Other bytes come out as eight digits. *)
Example print_hex_negative : print_hex [chr 200] 1 = Ok (line $"ffffffc8 ").
Proof. by vm_compute. Qed.

Lemma print_hex_reads_back_witness :
  exists out, print_hex (cmem $"homenet") 7 = Ok (line out) /\ read_cells 7 out = $"homenet".
Proof. apply (print_hex_reads_back $"homenet" [nul]). by repeat constructor. Defined.
