(* ===== verification/Tests.v ===== *)
(** * The test programs (src/test/utils.test.c, hash.c, conf.c, netUtils.test.c)

    What they print, computed on the models of the functions they call: the
    checks the authors wrote down hold of the model. *)
From S2P Require Import Prelude CString Str Containers Buffer ConfigFile IpAddr Sha2 Sha2Fips Sha512 Sha512Correct Auth Printing.

(** [printf("%d")] of a truth value. *)
Definition flag_d (b : bool) : cstr := printf_d (if b then 1 else 0).
Definition newline (s : cstr) : cstr := s ++ [LF].

(** ** utils.test.c *)

Definition test_str_len : cstr :=
  newline ($"str_len: (" ++ flag_d (bool_decide (str_len $"Hello" = 5)) ++ $") ").

Definition test_str_compare : outcome cstr :=
  let s1 := cmem $"He-meow-12" in let s2 := cmem $"Mefjsmeow-33" in
  res1 ← str_compare 4 s1 3 s2 5;
  res2 ← str_compare 6 s1 3 s2 5;
  Ok (newline ($"str_compare: (test1: " ++ flag_d res1 ++ $", test2: " ++ flag_d (negb res2) ++ $") ")).

Definition test_str_contains : outcome cstr :=
  let s1 := $"meow" in let s2 := $"Mefjsmeow-33" in
  res1 ← str_contains s2 $"meow";
  res2 ← str_contains s2 s1;
  Ok (newline ($"str_contains: (test1: " ++ flag_d res1 ++ $", test2: " ++ flag_d res2 ++ $") ")).

Definition test_str_findIndex : cstr :=
  let res1 := str_findIndex $"Mefjsmeow-33" "j" in
  newline ($"str_findIndex: (test1: " ++ flag_d (bool_decide (res1 = 3)) ++ $") ").

Definition test_str_substring : outcome cstr :=
  let s1 := $"Mefjsmeow-33" in
  res1 ← str_substring 20 s1 5 8;
  res2 ← str_substring 20 s1 4 (-1);
  Ok (newline ($"str_substring: (test1: " ++ flag_d (str_isEqual res1 $"meow") ++
    $", test2: " ++ flag_d (str_isEqual res2 $"smeow-33") ++ $") ")).

(** [s1] has four bytes. *)
Definition test_str_set : outcome cstr :=
  let s1 := $"cat" in
  res1 ← str_set 20 $"meow";
  res2 ← str_set 20 s1;
  s1 ← str_set 4 $"mat";
  Ok (newline ($"str_set: (test1: " ++ flag_d (str_isEqual res1 $"meow") ++
    $", test2: " ++ flag_d (str_isEqual res2 $"cat") ++
    $", test3: " ++ flag_d (str_isEqual s1 $"mat") ++ $") ")).

Definition test_str_isEqual : cstr :=
  newline ($"str_isEqual: (test1: " ++ flag_d (str_isEqual $"cat" $"cat") ++
    $", test2: " ++ flag_d (negb (str_isEqual $"meow" $"not meow")) ++ $") ").

Definition test_str_copy : outcome cstr :=
  let s1 := $"cat" in
  res1 ← str_copy 20 $"meow";
  res2 ← str_copy 20 s1;
  Ok (newline ($"str_copy: (test1: " ++ flag_d (str_isEqual res1 $"meow") ++
    $", test2: " ++ flag_d (str_isEqual res2 $"cat") ++ $") ")).

Definition test_str_toLower : outcome cstr :=
  s1 ← via str_toLower $"CAT";
  s2 ← via str_toLower $"MeOw";
  Ok (newline ($"str_toLower: (test1: " ++ flag_d (str_isEqual s2 $"meow") ++
    $", test2: " ++ flag_d (str_isEqual s1 $"cat") ++ $") ")).

Definition test_str_toUpper : outcome cstr :=
  s1 ← via str_toUpper $"ca T";
  s2 ← via str_toUpper $"meOw";
  Ok (newline ($"str_toUpper: (test1: " ++ flag_d (str_isEqual s2 $"MEOW") ++
    $", test2: " ++ flag_d (str_isEqual s1 $"CA T") ++ $") ")).

Definition test_str_strip : outcome cstr :=
  s1 ← via str_strip $" Mello Cat ";
  s2 ← via str_strip $"  Chonkey katt";
  Ok (newline ($"str_strip: (test1: " ++ flag_d (str_isEqual s2 $"Chonkey katt") ++
    $", test2: " ++ flag_d (str_isEqual s1 $"Mello Cat") ++ $") ")).

Definition test_str_concat : outcome cstr :=
  let s1 := $"Habibi Cat is " in let s2 := $"Chonky" in
  s1 ← str_concat 30 s1 s2;
  s2 ← str_concat 30 s2 $" kat";
  Ok (newline ($"str_concat: (test1: " ++ flag_d (str_isEqual s1 $"Habibi Cat is Chonky") ++
    $", test2: " ++ flag_d (str_isEqual s2 $"Chonky kat") ++ $") ")).

(** [n] elements of two arrays of strings. *)
Fixpoint isEqual_arr (n : nat) (s1 s2 : list cstr) : outcome bool :=
  match n, s1, s2 with
  | O, _, _ => Ok true
  | S n', a :: s1', b :: s2' => if str_isEqual a b then isEqual_arr n' s1' s2' else Ok false
  | S _, _, _ => Fail OutOfBounds
  end.

(** The while loop over the tokens, with a bound on their number. *)
Fixpoint split_loop (k : nat) (token : option (cstr * cstr)) : outcome cstr :=
  match token with
  | None => Ok []
  | Some (tok, rest) =>
      match k with
      | O => Fail NoFuel
      | S k' => s ← split_loop k' (str_split rest $" "); Ok ($" " ++ tok ++ $"," ++ s)
      end
  end.
Definition test_str_split : outcome cstr :=
  let s1 := $"Habibi Cat  Chonky" in
  s ← split_loop (length s1) (str_split s1 $" ");
  Ok ($"str_split: " ++ newline s).

Definition int_or (v : option Z) : cstr := printf_d (default (-1) v).
Definition test_map : outcome cstr :=
  '(map, _) ← map_set map_init $"m1" 3 false;
  '(map, _) ← map_set map $"m2" 5 false;
  '(map, freed) ← map_set map $"m1" 6 true;
  items ← map_items map;
  Ok (newline ($"m1 val: " ++ int_or (map_get map $"m1") ++ $" ") ++
      newline ($"m2 val: " ++ int_or (map_get map $"m2") ++ $" ") ++
      concat ((fun i => newline ($"key: " ++ key i ++ $", Val: " ++ printf_d (value i) ++ $" ")) <$> items)).

Definition utils_test_main : outcome cstr :=
  let t1 := test_str_len in
  t2 ← test_str_compare; t3 ← test_str_contains;
  let t4 := test_str_findIndex in
  t5 ← test_str_substring; t6 ← test_str_set;
  let t7 := test_str_isEqual in
  t8 ← test_str_copy; t9 ← test_str_toLower; t10 ← test_str_toUpper;
  t11 ← test_str_strip; t12 ← test_str_concat; t13 ← test_str_split; t14 ← test_map;
  Ok (concat [t1; t2; t3; t4; t5; t6; t7; t8; t9; t10; t11; t12; t13; t14]).

(** Every check of utils.test.c prints 1, and the loops print what they should. *)
Example utils_tests_pass : utils_test_main = Ok (concat (newline <$> [
  $"str_len: (1) ";
  $"str_compare: (test1: 1, test2: 1) ";
  $"str_contains: (test1: 1, test2: 1) ";
  $"str_findIndex: (test1: 1) ";
  $"str_substring: (test1: 1, test2: 1) ";
  $"str_set: (test1: 1, test2: 1, test3: 1) ";
  $"str_isEqual: (test1: 1, test2: 1) ";
  $"str_copy: (test1: 1, test2: 1) ";
  $"str_toLower: (test1: 1, test2: 1) ";
  $"str_toUpper: (test1: 1, test2: 1) ";
  $"str_strip: (test1: 1, test2: 1) ";
  $"str_concat: (test1: 1, test2: 1) ";
  $"str_split:  Habibi, Cat, Chonky,";
  $"m1 val: 6 ";
  $"m2 val: 5 ";
  $"key: m2, Val: 5 ";
  $"key: m1, Val: 6 "])).
Proof. by vm_compute. Qed.

(** ** hash.c *)

(** The test has a copy of generateAuthResp of its own, over larger arrays. *)
Definition hash_generateAuthResp (nonce key salt : cstr) : outcome cstr :=
  let key := if bool_decide (str_len key = 0) then None else Some key in
  buff ← match key with
         | Some k => b ← str_set 700 k; str_concat 700 b $" "
         | None => str_set 700 []
         end;
  raw ← str_set 513 nonce;
  raw ← str_concat 513 raw $"|";
  raw ← match key with Some k => str_concat 513 raw k | None => Ok raw end;
  raw ← str_concat 513 raw $"|";
  raw ← str_concat 513 raw salt;
  let ctx512 := SHA512_Update SHA512_Init (bytes_of raw) in
  str_concat 700 buff (SHA512_End ctx512).

Definition hash_main : outcome cstr :=
  let nonce := $"Hello world" in
  buff ← hash_generateAuthResp nonce $"key" $"salt";
  Ok (newline ($"Nonce: " ++ nonce) ++ newline buff).

Lemma strcpy_larger s r : strcpy BUFF_SIZE s = Ok r -> strcpy 700 s = Ok r.
Proof. rewrite !strcpy_ok. unfold BUFF_SIZE. intros [-> Hs]. split; [done|lia]. Qed.
Lemma str_set_larger s r : str_set BUFF_SIZE s = Ok r -> str_set 700 s = Ok r.
Proof. apply strcpy_larger. Qed.
Lemma str_concat_larger b s r : str_concat BUFF_SIZE b s = Ok r -> str_concat 700 b s = Ok r.
Proof. apply strcpy_larger. Qed.
#[local] Opaque SHA512_Update SHA512_End str_concat str_set.

(** Runs the goal along the binds of [H]. *)
Ltac peel := repeat match goal with
  | H : mbind _ ?m = Ok _ |- _ =>
      let E := fresh "E" in apply bind_ok in H as (? & E & H);
      match m with Ok _ => injection E as <- | _ => rewrite E, ?ok_bind; clear E end
  end.

(** The copy agrees with the program's: what generateAuthResp of homeNet.c
    answers, that of the test answers too. *)
Theorem hash_test_agrees nonce key salt r
    (H : generateAuthResp nonce (Some key) (Some salt) = Ok r) :
  hash_generateAuthResp nonce key salt = Ok r.
Proof.
  unfold generateAuthResp, deref in H. rewrite !ok_bind in H. unfold hash_generateAuthResp.
  pose proof str_concat_larger as L.
  destruct (bool_decide (str_len key = 0)).
  - change (str_set 700 []) with (Ok (@nil char)). rewrite !ok_bind in *. peel. by apply L.
  - apply bind_ok in H as (b & (b0 & Hb0 & Hb)%bind_ok & H).
    rewrite (str_set_larger _ _ Hb0), ok_bind, (L _ _ _ Hb), ok_bind. peel. by apply L.
Qed.

#[local] Transparent SHA512_Update SHA512_End str_concat str_set.

(** ** conf.c *)

(** The loop over the entries of a section. *)
Fixpoint conf_loop `{FileSystem} (k : nat) (st : cfg_static) (path sec : option cstr) : outcome cstr :=
  match k with
  | O => Fail NoFuel
  | S k' =>
      '(entry, st) ← readConfigFile k st path sec;
      match entry with
      | None => Ok []
      | Some (key, value) => rest ← conf_loop k' st None None; Ok (newline (key ++ $": " ++ value) ++ rest)
      end
  end.
Definition conf_main `{FileSystem} (k : nat) : outcome cstr :=
  conf_loop k cfg_closed (Some $"test/conf.ini") (Some $"bad").

(** src/test/conf.ini *)
Definition conf_ini : cstr := concat (newline <$> [
  $"meow = 69"; $"[good]"; $"dog = cat"; $"# comment"; $"hi = hello #inline comments not supported";
  $"[bad]"; $"go=jo"]).
Example conf_test : @conf_main (fun _ => Some conf_ini) 5 = Ok (newline $"go: jo").
Proof. by vm_compute. Qed.
(** The other section, with a comment in it. *)
Example conf_test_good : @conf_loop (fun _ => Some conf_ini) 5 cfg_closed (Some $"test/conf.ini") (Some $"good") =
  Ok (newline $"dog: cat" ++ newline $"hi: hello #inline comments not supported").
Proof. by vm_compute. Qed.

(** ** netUtils.test.c *)

Section NetTest.
Context `{Inet6}.

Fixpoint strToIp_loop (i : Z) (strs : list cstr) : outcome cstr :=
  match strs with
  | [] => Ok []
  | s :: rest =>
      '(ok, addr) ← str_toIpAddr s;
      text ← ipAddr_print addr;
      r ← strToIp_loop (i + 1) rest;
      Ok ($"[Test] IP ADDR[" ++ printf_d i ++ $"]: " ++ (if ok : bool then [] else $"[Failed] ") ++ text ++ r)
  end.
Definition testStrToIp : outcome cstr :=
  strToIp_loop 0 [ $"192.168.29.5"; $"192.168.29.90:80"; $"192.168.dfl;p.50"; $"[2001:db8::]:80";
    $"2001:db8:3333:4444:5555:6666:7777:8888"].
End NetTest.

(** The IPv4 strings. *)
Example strToIp_v4 : @strToIp_loop (fun _ => true) 0
    [ $"192.168.29.5"; $"192.168.29.90:80"; $"192.168.dfl;p.50"] =
  Ok (newline $"[Test] IP ADDR[0]: 192.168.29.5" ++ newline $"[Test] IP ADDR[1]: 192.168.29.90:80" ++
      newline $"[Test] IP ADDR[2]: [Failed] 48.48.48.48").
Proof. by vm_compute. Qed.
(** The program breaks on the IPv6 strings, as its comment says. *)
Example strToIp_v6 : @testStrToIp (fun _ => true) = Fail BufOverflow.
Proof. by vm_compute. Qed.
