(* ===== verification/Os.v ===== *)
(** * The operating system and the state of the program

    System calls are functions of the log of the calls made so far (class
    [Os]): the model does not choose what the network does. The state of the
    program ([world]) holds the heap of sockets, the configuration, the list of
    watched sockets, the static variables and the log. Operations are functions
    from a state to an outcome ([M]); an address that is not in the heap is
    that of a freed object. *)
From S2P Require Import Prelude CString Str Containers Buffer IpAddr Auth ConfigFile Config.

(** ** System calls *)

(** What recv() stores, or whether its error is EWOULDBLOCK. No bytes is the
    end of the stream. *)
Inductive recv_result :=
| RecvData (d : mem)
| RecvErr (wouldblock : bool).

Inductive event :=
| EvWrite (fd : Z) (data : mem) (n : Z)
| EvRecv (fd : Z) (r : recv_result)
| EvClose (fd : Z)
| EvAccept (fd : Z) (r : option Z)
| EvSocket (fd : Z)
| EvConnect (fd : Z) (ip : sockaddr) (ok : bool)
| EvNonBlocking (fd : Z) (on ok : bool)
| EvSetOpt (fd : Z)
| EvBind (fd : Z) (ip : sockaddr)
| EvSelect (n : Z)
| EvHost (name : cstr)
| EvSendTo (fd : Z) (to : sockaddr) (data : mem) (r : Z)
| EvRecvFrom (fd : Z) (d : mem)
| EvTime (t : Z).

Abbreviation log_t := (list event).

(** The result of each call, given the calls before it. *)
Class Os := {
  os_write : log_t -> Z -> mem -> Z;
  os_recv : log_t -> Z -> Z -> recv_result;
  os_accept : log_t -> Z -> option (Z * sockaddr);
  os_accept_wouldblock : log_t -> Z -> bool;
  os_socket : log_t -> Z;
  os_connect : log_t -> Z -> sockaddr -> bool;
  os_fcntl : log_t -> Z -> bool;
  os_getsockname : log_t -> Z -> sockaddr;
  os_setsockopt : log_t -> Z -> bool;
  os_bind : log_t -> Z -> bool;
  os_select : log_t -> list Z -> list Z -> Z * list Z * list Z;
  os_gethostbyname : cstr -> option in_addr;
  os_sendto : log_t -> Z -> sockaddr -> mem -> Z;
  os_recvfrom : log_t -> Z -> Z -> option (mem * sockaddr);
  os_time : log_t -> Z;
  (* the bytes that lie below a buffer on the stack *)
  os_below : log_t -> mem;
}.

(** The bound on the iterations of the loops the code does not bound itself. *)
Class Fuel := fuel : nat.

(** What the manual pages promise of the calls. *)
Class OsLaws `{Os} := {
  write_bound : forall l fd d, os_write l fd d <= zlen d;
  recv_bound : forall l fd n d, 0 <= n -> os_recv l fd n = RecvData d -> zlen d <= n;
  below_two : forall l, 2 <= zlen (os_below l);
}.

(** ** Sockets *)

Definition TCPSOCKET : Z := 1.
Definition UDPSOCKET : Z := 2.
Definition SOCKET_ALIVE : Z := 2.
Definition SOCKET_WILLDIE : Z := 1.
Definition SOCKET_DEAD : Z := 0.
Definition SOCK_EVENT_READ : Z := 1.
Definition SOCK_EVENT_NEW : Z := 2.
Definition SOCK_EVENT_CLOSE : Z := 3.
Definition SOCK_EVENT_TIMEOUT : Z := 0.
Definition SOCK_EVENT_ERROR : Z := -1.

Record Socket := mkSocket {
  fd : Z; type : Z; ipAddr : sockaddr; isServer : bool; isBlocking : bool;
  isAlive : Z; listenForWritable : bool; listenForReadable : bool;
  writeBuffer : Buffer; ptr : option addr }.

Definition SOCK_MODE_RELAY : Z := 1.
Definition SOCK_MODE_LISTEN : Z := 2.
Definition SOCK_MODE_MDNS : Z := 3.
Definition SOCK_MODE_LISTEN_OUT : Z := 4.
Definition SOCK_MODE_TEMP : Z := 5.

(** [struct relay] and [struct listenNotif]. *)
Record relay_t := mkRelay {
  next : option addr; isWaiting : bool; otp : cstr; relay_listenId : cstr }.
Record listenNotif := mkListenNotif {
  salt : cstr; listenId : cstr; waitingSocks : Map addr }.

Record hn_Socket := mkHnSocket {
  sock : addr; hn_mode : Z; isUpgraded : bool; host : cstr;
  relay : relay_t; listen_ : listenNotif }.

Definition set_fd (f : Z) (s : Socket) : Socket :=
  mkSocket f (type s) (ipAddr s) (isServer s) (isBlocking s) (isAlive s)
    (listenForWritable s) (listenForReadable s) (writeBuffer s) (ptr s).
Definition set_ipAddr (ip : sockaddr) (s : Socket) : Socket :=
  mkSocket (fd s) (type s) ip (isServer s) (isBlocking s) (isAlive s)
    (listenForWritable s) (listenForReadable s) (writeBuffer s) (ptr s).
Definition set_isServer (b : bool) (s : Socket) : Socket :=
  mkSocket (fd s) (type s) (ipAddr s) b (isBlocking s) (isAlive s)
    (listenForWritable s) (listenForReadable s) (writeBuffer s) (ptr s).
Definition set_isBlocking (b : bool) (s : Socket) : Socket :=
  mkSocket (fd s) (type s) (ipAddr s) (isServer s) b (isAlive s)
    (listenForWritable s) (listenForReadable s) (writeBuffer s) (ptr s).
Definition set_isAlive (a : Z) (s : Socket) : Socket :=
  mkSocket (fd s) (type s) (ipAddr s) (isServer s) (isBlocking s) a
    (listenForWritable s) (listenForReadable s) (writeBuffer s) (ptr s).
Definition set_listenForWritable (b : bool) (s : Socket) : Socket :=
  mkSocket (fd s) (type s) (ipAddr s) (isServer s) (isBlocking s) (isAlive s)
    b (listenForReadable s) (writeBuffer s) (ptr s).
Definition set_writeBuffer (b : Buffer) (s : Socket) : Socket :=
  mkSocket (fd s) (type s) (ipAddr s) (isServer s) (isBlocking s) (isAlive s)
    (listenForWritable s) (listenForReadable s) b (ptr s).
Definition set_ptr (p : option addr) (s : Socket) : Socket :=
  mkSocket (fd s) (type s) (ipAddr s) (isServer s) (isBlocking s) (isAlive s)
    (listenForWritable s) (listenForReadable s) (writeBuffer s) p.

Definition set_hn_mode (m : Z) (h : hn_Socket) : hn_Socket :=
  mkHnSocket (sock h) m (isUpgraded h) (host h) (relay h) (listen_ h).
Definition set_isUpgraded (b : bool) (h : hn_Socket) : hn_Socket :=
  mkHnSocket (sock h) (hn_mode h) b (host h) (relay h) (listen_ h).
Definition set_host (s : cstr) (h : hn_Socket) : hn_Socket :=
  mkHnSocket (sock h) (hn_mode h) (isUpgraded h) s (relay h) (listen_ h).
Definition set_relay (r : relay_t) (h : hn_Socket) : hn_Socket :=
  mkHnSocket (sock h) (hn_mode h) (isUpgraded h) (host h) r (listen_ h).
Definition set_listen (l : listenNotif) (h : hn_Socket) : hn_Socket :=
  mkHnSocket (sock h) (hn_mode h) (isUpgraded h) (host h) (relay h) l.
Definition set_next (n : option addr) (w : bool) (r : relay_t) : relay_t :=
  mkRelay n w (otp r) (relay_listenId r).

(** ** The state *)

(** The static variables of waitForEvent. *)
Record wait_static := mkWait {
  readSet : list Z; writeSet : list Z; fdsToProcess : Z; sockToRemove : option addr }.

Record world := mkWorld {
  w_socks : gmap addr Socket;
  w_hsocks : gmap addr hn_Socket;
  w_next : addr;                 (* the next fresh address *)
  w_conf : hn_Config;
  w_sockList : List_ addr;
  w_wait : wait_static;
  w_mySeed : Z;                  (* generateCode *)
  w_isRecall : bool;             (* handleNew *)
  w_mdnsFd : Z;                  (* mdns_send: its descriptor *)
  w_mdnsAddr : sockaddr;         (* mdns_send: where it sends to *)
  w_log : log_t }.               (* newest first *)

Definition set_socks (x : gmap addr Socket) (w : world) : world :=
  mkWorld x (w_hsocks w) (w_next w) (w_conf w) (w_sockList w) (w_wait w) (w_mySeed w)
    (w_isRecall w) (w_mdnsFd w) (w_mdnsAddr w) (w_log w).
Definition set_hsocks (x : gmap addr hn_Socket) (w : world) : world :=
  mkWorld (w_socks w) x (w_next w) (w_conf w) (w_sockList w) (w_wait w) (w_mySeed w)
    (w_isRecall w) (w_mdnsFd w) (w_mdnsAddr w) (w_log w).
Definition set_nextaddr (x : addr) (w : world) : world :=
  mkWorld (w_socks w) (w_hsocks w) x (w_conf w) (w_sockList w) (w_wait w) (w_mySeed w)
    (w_isRecall w) (w_mdnsFd w) (w_mdnsAddr w) (w_log w).
Definition set_conf (x : hn_Config) (w : world) : world :=
  mkWorld (w_socks w) (w_hsocks w) (w_next w) x (w_sockList w) (w_wait w) (w_mySeed w)
    (w_isRecall w) (w_mdnsFd w) (w_mdnsAddr w) (w_log w).
Definition set_sockList (x : List_ addr) (w : world) : world :=
  mkWorld (w_socks w) (w_hsocks w) (w_next w) (w_conf w) x (w_wait w) (w_mySeed w)
    (w_isRecall w) (w_mdnsFd w) (w_mdnsAddr w) (w_log w).
Definition set_wait (x : wait_static) (w : world) : world :=
  mkWorld (w_socks w) (w_hsocks w) (w_next w) (w_conf w) (w_sockList w) x (w_mySeed w)
    (w_isRecall w) (w_mdnsFd w) (w_mdnsAddr w) (w_log w).
Definition set_mySeed (x : Z) (w : world) : world :=
  mkWorld (w_socks w) (w_hsocks w) (w_next w) (w_conf w) (w_sockList w) (w_wait w) x
    (w_isRecall w) (w_mdnsFd w) (w_mdnsAddr w) (w_log w).
Definition set_isRecall (x : bool) (w : world) : world :=
  mkWorld (w_socks w) (w_hsocks w) (w_next w) (w_conf w) (w_sockList w) (w_wait w) (w_mySeed w)
    x (w_mdnsFd w) (w_mdnsAddr w) (w_log w).
Definition set_mdnsFd (x : Z) (w : world) : world :=
  mkWorld (w_socks w) (w_hsocks w) (w_next w) (w_conf w) (w_sockList w) (w_wait w) (w_mySeed w)
    (w_isRecall w) x (w_mdnsAddr w) (w_log w).
Definition set_mdnsAddr (x : sockaddr) (w : world) : world :=
  mkWorld (w_socks w) (w_hsocks w) (w_next w) (w_conf w) (w_sockList w) (w_wait w) (w_mySeed w)
    (w_isRecall w) (w_mdnsFd w) x (w_log w).
Definition set_log (x : log_t) (w : world) : world :=
  mkWorld (w_socks w) (w_hsocks w) (w_next w) (w_conf w) (w_sockList w) (w_wait w) (w_mySeed w)
    (w_isRecall w) (w_mdnsFd w) (w_mdnsAddr w) x.

(** ** The monad *)

Definition M (A : Type) : Type := world -> outcome (A * world).

#[global] Instance M_ret : MRet M := fun A a w => Ok (a, w).
#[global] Instance M_bind : MBind M := fun A B f m w =>
  match m w with Ok (a, w') => f a w' | Fail e => Fail e end.
#[global] Instance M_fmap : FMap M := fun A B f m w =>
  match m w with Ok (a, w') => Ok (f a, w') | Fail e => Fail e end.

Definition ret {A} (a : A) : M A := fun w => Ok (a, w).
Definition fail {A} (f : fault) : M A := fun w => Fail f.
Definition lift {A} (o : outcome A) : M A := fun w =>
  match o with Ok a => Ok (a, w) | Fail f => Fail f end.
Definition get {A} (f : world -> A) : M A := fun w => Ok (f w, w).
Definition modify (f : world -> world) : M unit := fun w => Ok (tt, f w).
Definition when (b : bool) (m : M unit) : M unit := if b then m else ret tt.
Definition logged (e : event) : M unit := modify (fun w => set_log (e :: w_log w) w).

(** Objects on the heap; a dangling address is used after free. *)
Definition get_sock (a : addr) : M Socket := fun w =>
  match w_socks w !! a with Some s => Ok (s, w) | None => Fail UseAfterFree end.
Definition upd_sock (a : addr) (f : Socket -> Socket) : M unit := fun w =>
  match w_socks w !! a with
  | Some s => Ok (tt, set_socks (<[a := f s]> (w_socks w)) w)
  | None => Fail UseAfterFree
  end.
Definition free_sock (a : addr) : M unit := fun w =>
  match w_socks w !! a with
  | Some _ => Ok (tt, set_socks (delete a (w_socks w)) w)
  | None => Fail UseAfterFree
  end.
Definition new_sock (s : Socket) : M addr := fun w =>
  Ok (w_next w, set_nextaddr (Pos.succ (w_next w)) (set_socks (<[w_next w := s]> (w_socks w)) w)).

Definition get_hn (a : addr) : M hn_Socket := fun w =>
  match w_hsocks w !! a with Some h => Ok (h, w) | None => Fail UseAfterFree end.
Definition upd_hn (a : addr) (f : hn_Socket -> hn_Socket) : M unit := fun w =>
  match w_hsocks w !! a with
  | Some h => Ok (tt, set_hsocks (<[a := f h]> (w_hsocks w)) w)
  | None => Fail UseAfterFree
  end.
Definition free_hn (a : addr) : M unit := fun w =>
  match w_hsocks w !! a with
  | Some _ => Ok (tt, set_hsocks (delete a (w_hsocks w)) w)
  | None => Fail UseAfterFree
  end.
Definition new_hn (h : hn_Socket) : M addr := fun w =>
  Ok (w_next w, set_nextaddr (Pos.succ (w_next w)) (set_hsocks (<[w_next w := h]> (w_hsocks w)) w)).

(** A pointer used without a test. *)
Definition deref_M {A} (p : option A) : M A := lift (deref p).

(** ** Raw system calls, logged *)

Section Calls.
Context `{Os}.

Definition sys_write (f : Z) (d : mem) : M Z :=
  l ← get w_log;
  let n := os_write l f d in
  logged (EvWrite f (take (Z.to_nat n) d) n);; ret n.
Definition sys_recv (f n : Z) : M recv_result :=
  l ← get w_log;
  let r := os_recv l f n in
  logged (EvRecv f r);; ret r.
Definition sys_close (f : Z) : M unit := logged (EvClose f).
Definition sys_fcntl (f : Z) (nonblock : bool) : M bool :=
  l ← get w_log;
  let ok := os_fcntl l f in
  logged (EvNonBlocking f nonblock ok);; ret ok.
Definition sys_socket : M Z :=
  l ← get w_log;
  let f := os_socket l in
  logged (EvSocket f);; ret f.
Definition sys_connect (f : Z) (ip : sockaddr) : M bool :=
  l ← get w_log;
  let ok := os_connect l f ip in
  logged (EvConnect f ip ok);; ret ok.
Definition sys_setsockopt (f : Z) : M bool :=
  l ← get w_log;
  let ok := os_setsockopt l f in
  logged (EvSetOpt f);; ret ok.
Definition sys_bind (f : Z) (ip : sockaddr) : M bool :=
  l ← get w_log;
  let ok := os_bind l f in
  logged (EvBind f ip);; ret ok.
Definition sys_time : M Z :=
  l ← get w_log;
  let t := os_time l in
  logged (EvTime t);; ret t.
End Calls.

(** ** What went over the wire *)

(** The bytes written to a descriptor, oldest first. *)
Fixpoint sent (f : Z) (l : log_t) : mem :=
  match l with
  | [] => []
  | EvWrite g d _ :: r => sent f r ++ (if bool_decide (g = f) then d else [])
  | _ :: r => sent f r
  end.

(** The bytes received from a descriptor, oldest first. *)
Fixpoint received (f : Z) (l : log_t) : mem :=
  match l with
  | [] => []
  | EvRecv g (RecvData d) :: r => received f r ++ (if bool_decide (g = f) then d else [])
  | _ :: r => received f r
  end.

(** ** Lemmas: the monad *)

Lemma M_bind_ok {A B} (m : M A) (f : A -> M B) w a w' :
  m w = Ok (a, w') -> (m ≫= f) w = f a w'.
Proof. intros E. unfold mbind, M_bind. by rewrite E. Qed.

Lemma M_bind_inv {A B} (m : M A) (f : A -> M B) w b w' :
  (m ≫= f) w = Ok (b, w') -> exists a w1, m w = Ok (a, w1) /\ f a w1 = Ok (b, w').
Proof. unfold mbind, M_bind. destruct (m w) as [[a w1]|]; [|done]. intros. by exists a, w1. Qed.

(** Run the binds of a computation as far as they are determined. *)
Ltac run :=
  cbv beta iota zeta delta [mbind M_bind lift ret get modify logged when deref deref_M fail].

(** Take a successful run apart. *)
Ltac inv_run :=
  repeat match goal with
  | H : (_ ≫= _) _ = Ok _ |- _ =>
      let a := fresh "a" in let w := fresh "w" in let E := fresh "E" in
      apply M_bind_inv in H as (a & w & E & H); cbn beta iota in H
  | H : ret _ _ = Ok _ |- _ => injection H as H; subst
  | H : get _ _ = Ok _ |- _ => injection H as H; subst
  | H : modify _ _ = Ok _ |- _ => injection H as H; subst
  | H : fail _ _ = Ok _ |- _ => discriminate H
  end.

(** ** A concrete system, for the witnesses *)

(** It writes at most [chunk] bytes per call and receives the given pieces. *)
Fixpoint recv_count (l : log_t) : nat :=
  match l with
  | [] => O
  | EvRecv _ _ :: r => S (recv_count r)
  | _ :: r => recv_count r
  end.

Definition demo_os (chunk : Z) (pieces : list mem) : Os := {|
  os_write := fun l f d => Z.min chunk (zlen d);
  os_recv := fun l f n =>
    match pieces !! recv_count l with
    | Some d => RecvData (take (Z.to_nat n) d)
    | None => RecvErr true
    end;
  os_accept := fun l f => Some (100 + Z.of_nat (length l), sockaddr_zero);
  os_accept_wouldblock := fun _ _ => true;
  os_socket := fun l => 200 + Z.of_nat (length l);
  os_connect := fun _ _ _ => true;
  os_fcntl := fun _ _ => true;
  os_getsockname := fun _ _ => sockaddr_zero;
  os_setsockopt := fun _ _ => true;
  os_bind := fun _ _ => true;
  os_select := fun _ r w => (Z.of_nat (length r), r, []);
  os_gethostbyname := fun _ => None;
  os_sendto := fun _ _ _ d => zlen d;
  os_recvfrom := fun _ _ _ => None;
  os_time := fun l => Z.of_nat (length l);
  os_below := fun _ => [nul; nul] |}.

Lemma demo_os_laws chunk pieces : @OsLaws (demo_os chunk pieces).
Proof.
  split.
  - intros l f d. cbn. lia.
  - intros l f n d Hn. cbn. destruct (pieces !! recv_count l); [|done]. intros [= <-].
    unfold zlen. rewrite length_take. lia.
  - by intros l.
Qed.

Definition demo_conf : hn_Config := mkConfig HN_MODE_CONNECT None None None None None.

Definition demo_world (socks : gmap addr Socket) (hs : gmap addr hn_Socket) (conf : hn_Config)
    (l : list addr) : world :=
  mkWorld socks hs 100 conf (mkList l 0) (mkWait [] [] 0 None) 25011984 false (-1) sockaddr_zero [].
