(* ===== verification/Socket.v ===== *)
(** * Sockets (src/netUtils.c, lines 182-424, 543-682)

    The operations on a [Socket], by its address on the heap. A blocking socket
    is written and read by system calls only; a non-blocking one keeps what it
    could not write in its ring buffer. *)
From S2P Require Import Prelude CString Str Containers Buffer IpAddr Auth ConfigFile Config Os.

(** [buffer_init] with the bytes malloc returns; they are not read before they
    are written. *)
Definition sock_init (type0 fd0 : Z) : Socket :=
  mkSocket fd0 type0 sockaddr_zero false true SOCKET_ALIVE false true
    (buffer_init (replicate (Z.to_nat DEFAULT_BUFFER_SIZE) nul) DEFAULT_BUFFER_SIZE) None.

Definition sock_cleanup (a : addr) : M unit :=
  upd_sock a (fun s => set_writeBuffer (buffer_cleanup (writeBuffer s)) s).

Definition sock_close (a : addr) : M bool :=
  s ← get_sock a;
  if bool_decide (isAlive s = SOCKET_DEAD) then ret false
  else
    sys_close (fd s);;
    upd_sock a (set_isAlive SOCKET_DEAD);;
    ret true.

(** The returned constant tells whether the socket is closed already. *)
Definition sock_done (a : addr) : M Z :=
  s ← get_sock a;
  if bool_decide (isAlive s <> SOCKET_DEAD) then
    upd_sock a (set_isAlive SOCKET_WILLDIE);;
    if buffer_isEmpty (writeBuffer s) then
      _ ← sock_close a; ret SOCKET_DEAD
    else
      upd_sock a (set_listenForWritable true);; ret SOCKET_WILLDIE
  else ret SOCKET_DEAD.

Section Sockets.
Context `{Os} `{Fuel}.

(** fcntl(F_GETFL) and fcntl(F_SETFL) *)
Definition set_flags (a : addr) (nonblock : bool) : M bool :=
  s ← get_sock a;
  ok1 ← sys_fcntl (fd s) nonblock;
  if negb ok1 then ret false
  else
    ok2 ← sys_fcntl (fd s) nonblock;
    if negb ok2 then ret false
    else upd_sock a (set_isBlocking (negb nonblock));; ret true.
Definition sock_setNonBlocking (a : addr) : M bool := set_flags a true.
Definition sock_setBlocking (a : addr) : M bool := set_flags a false.

(** ** Writing *)

(** [while (done < n)] of a blocking socket. *)
Fixpoint write_loop (k : nat) (f : Z) (data : mem) (done : Z) : M Z :=
  match k with
  | O => fail NoFuel
  | S k' =>
      if bool_decide (done < zlen data) then
        wrote ← sys_write f (drop (Z.to_nat done) data);
        if bool_decide (wrote <= 0) then ret done
        else write_loop k' f data (done + wrote)
      else ret done
  end.

(** The loop that pushes out what is in the buffer, a byte at a time:
    buffer_readChar is given the buffer in every round. *)
Fixpoint flush_loop (k : nat) (buf : Buffer) (f : Z) (c : option Z) (couldWrite doneCount : Z)
  : M (Z * Z) :=
  match k with
  | O => fail NoFuel
  | S k' =>
      match c with
      | Some i =>
          if bool_decide (couldWrite <> 0) then
            x ← lift (rd (Buffer.data buf) i);
            couldWrite ← sys_write f [x];
            flush_loop k' buf f (fst (buffer_readChar true buf 0)) couldWrite (doneCount + 1)
          else ret (couldWrite, doneCount)
      | None => ret (couldWrite, doneCount)
      end
  end.

(** What cannot be written directly goes to the buffer; the first component is
    the returned count when that happens. *)
Fixpoint store_loop (k : nat) (a : addr) (f : Z) (data : mem) (done : Z) : M (option Z * Z) :=
  match k with
  | O => fail NoFuel
  | S k' =>
      if bool_decide (done < zlen data) then
        wrote ← sys_write f (drop (Z.to_nat done) data);
        if bool_decide (wrote <= 0) then
          s ← get_sock a;
          '(stored, b) ← lift (buffer_write (writeBuffer s) (drop (Z.to_nat done) data)
                                 (zlen data - done));
          upd_sock a (fun s => set_listenForWritable true (set_writeBuffer b s));;
          ret (Some (stored + done), done)
        else store_loop k' a f data (done + wrote)
      else ret (None, done)
  end.

(** The part of sock_write that empties the buffer; the result is couldWrite. *)
Definition sock_flush (a : addr) : M Z :=
  s ← get_sock a;
  let b := writeBuffer s in
  if buffer_isEmpty b then
    upd_sock a (set_listenForWritable false);; ret 1
  else
    '(couldWrite, doneCount) ← flush_loop fuel b (fd s) (fst (buffer_readChar true b 0)) 1 0;
    let doneCount := if bool_decide (couldWrite = 0) then doneCount - 1 else doneCount in
    let b' := snd (buffer_clear b doneCount) in
    upd_sock a (fun s => set_listenForWritable (negb (buffer_isEmpty b')) (set_writeBuffer b' s));;
    ret couldWrite.

Definition sock_write (a : addr) (data : mem) : M Z :=
  s ← get_sock a;
  if bool_decide (isAlive s = SOCKET_DEAD) then ret 0
  else if isBlocking s then write_loop (S (length data)) (fd s) data 0
  else
    couldWrite ← sock_flush a;
    if bool_decide (couldWrite <> 0) then
      '(r, done) ← store_loop (S (length data)) a (fd s) data 0;
      match r with
      | Some n => ret n
      | None =>
          (if bool_decide (done = zlen data /\ isAlive s = SOCKET_WILLDIE)
           then _ ← sock_close a; ret tt else ret tt);;
          ret done
      end
    else ret 0.

(** ** Reading *)

(** [while (read < max)] of a non-blocking socket; the count is that of the
    bytes stored. *)
Fixpoint read_loop (k : nat) (a : addr) (f max : Z) (acc : mem) : M mem :=
  match k with
  | O => fail NoFuel
  | S k' =>
      if bool_decide (zlen acc < max) then
        r ← sys_recv f (max - zlen acc);
        match r with
        | RecvErr wouldblock =>
            (if wouldblock then ret tt else _ ← sock_close a; ret tt);; ret acc
        | RecvData [] => _ ← sock_close a; ret acc
        | RecvData d => read_loop k' a f max (acc ++ d)
        end
      else ret acc
  end.

(** The returned int and the bytes stored at [data]. *)
Definition sock_read (a : addr) (max : Z) : M (Z * mem) :=
  s ← get_sock a;
  if bool_decide (isAlive s = SOCKET_DEAD) then ret (0, [])
  else if isBlocking s then
    r ← sys_recv (fd s) max;
    match r with
    | RecvData d => ret (zlen d, d)
    | RecvErr _ => ret (-1, [])
    end
  else
    d ← read_loop (S (Z.to_nat max)) a (fd s) max [];
    ret (zlen d, d).

(** ** Connections *)

(** The socket accepted, not yet on the heap. *)
Definition sock_acceptNew (server : addr) : M (option Socket) :=
  s ← get_sock server;
  if negb (isServer s) || bool_decide (isAlive s = SOCKET_DEAD) then ret None
  else
    l ← get w_log;
    let r := os_accept l (fd s) in
    logged (EvAccept (fd s) (fst <$> r));;
    match r with
    | None =>
        (if os_accept_wouldblock l (fd s) then ret tt else _ ← sock_close server; ret tt);;
        ret None
    | Some (f, ip) => ret (Some (set_ipAddr ip (sock_init TCPSOCKET f)))
    end.

Definition createTcpConnection (a : addr) (ip : sockaddr) : M bool :=
  f ← sys_socket;
  if bool_decide (f < 0) then ret false
  else
    upd_sock a (fun s => set_ipAddr ip (set_isAlive SOCKET_ALIVE (set_fd f s)));;
    sys_connect f ip.

Definition sock_getMyIpAddr (a : addr) : M sockaddr :=
  s ← get_sock a;
  l ← get w_log;
  ret (os_getsockname l (fd s)).

(** malloc'd memory for the socket is given its content here. *)
Definition createTcpServer `{Inet6} (port : Z) : M (option Socket) :=
  listenfd ← sys_socket;
  if bool_decide (listenfd < 0) then ret None
  else
    '(_, ip) ← lift (ipAddr_init AF_INET (Some $"localhost") port);
    _ ← sys_bind listenfd ip;
    ret (Some (set_ipAddr ip (set_isServer true (sock_init TCPSOCKET listenfd)))).

Definition dns_getIpAddr `{Inet6} (str : cstr) : M (option sockaddr) :=
  logged (EvHost str);;
  match os_gethostbyname str with
  | None => ret None
  | Some h =>
      '(_, ip) ← lift (ipAddr_init AF_INET None 80);
      ret (Some (mkSockaddr (sa_family ip) (sin_port ip) h))
  end.

Definition sock_setTimeout (a : addr) : M bool :=
  s ← get_sock a;
  ok1 ← sys_setsockopt (fd s);
  if negb ok1 then ret false
  else sys_setsockopt (fd s).

(** ** Multicast *)

Definition MDNS_ADDR : cstr := $"224.0.0.251:5353".

(** The socket, when every call succeeds. *)
Definition mdns_start `{Inet6} : M (option Socket) :=
  f ← sys_socket;
  if bool_decide (f < 0) then ret None
  else
    '(ok, ip) ← lift (str_toIpAddr MDNS_ADDR);
    if negb ok then ret None
    else
      let s := set_isServer true (set_ipAddr ip (sock_init UDPSOCKET f)) in
      reuse ← sys_setsockopt f;
      reuse ← (if reuse : bool then ret true else sys_setsockopt f);
      if negb reuse then ret None
      else
        _ ← sys_setsockopt f;
        _ ← sys_setsockopt f;
        member ← sys_setsockopt f;
        if negb member then ret None
        else
          _ ← sys_setsockopt f;
          bound ← sys_bind f ip;
          if negb bound then ret None else ret (Some s).

Definition udp_read (a : addr) (max : Z) : M (mem * sockaddr) :=
  s ← get_sock a;
  l ← get w_log;
  match os_recvfrom l (fd s) max with
  | Some (d, from) => logged (EvRecvFrom (fd s) d);; ret (d, from)
  | None => logged (EvRecvFrom (fd s) []);; ret ([], sockaddr_zero)
  end.

(** The descriptor and the address are static. The descriptor is kept when the
    group cannot be joined, and then the address stays as it was: all zeros. *)
Definition mdns_send `{Inet6} (data : mem) : M Z :=
  f0 ← get w_mdnsFd;
  ok ← (if bool_decide (f0 < 0) then
          f ← sys_socket;
          modify (set_mdnsFd f);;
          member ← sys_setsockopt f;
          if negb member then ret false
          else
            '(_, ip) ← lift (str_toIpAddr MDNS_ADDR);
            modify (set_mdnsAddr ip);;
            ret (bool_decide (0 <= f))
        else ret true);
  if negb ok then ret (-1)
  else
    f ← get w_mdnsFd;
    to ← get w_mdnsAddr;
    l ← get w_log;
    let sent := os_sendto l f to data in
    logged (EvSendTo f to data sent);;
    _ ← lift (ipAddr_toString (IPADDR_SIZE + 10) to);
    ret (if bool_decide (sent < 0) then -1 else sent).
End Sockets.

(** What MDNS_ADDR stands for. *)
Definition mdns_group : sockaddr := ip4 (224, 0, 0, 251) 5353.

Lemma mdns_group_text : ipAddr_toString (IPADDR_SIZE + 10) mdns_group = Ok MDNS_ADDR.
Proof. by vm_compute. Qed.
Lemma mdns_group_parsed `{Inet6} : str_toIpAddr MDNS_ADDR = Ok (true, mdns_group).
Proof. by vm_compute. Qed.

(** ** Lemmas: writing *)

Section WriteLemmas.
Context `{Os} `{!OsLaws} `{Fuel}.

Lemma drop_take_step (d : mem) (a b : Z) :
  0 <= a -> 0 <= b -> take (Z.to_nat a) d ++ take (Z.to_nat b) (drop (Z.to_nat a) d)
  = take (Z.to_nat (a + b)) d.
Proof. intros Ha Hb. rewrite Z2Nat.inj_add by done. by rewrite take_take_drop. Qed.

Lemma zlen_drop (d : mem) (a : Z) : 0 <= a <= zlen d -> zlen (drop (Z.to_nat a) d) = zlen d - a.
Proof. intros Ha. unfold zlen in *. rewrite length_drop. lia. Qed.

Lemma write_loop_ok k f d done w :
  0 <= done <= zlen d -> zlen d - done < Z.of_nat k ->
  exists n l, write_loop k f d done w = Ok (n, set_log l w) /\ done <= n <= zlen d /\
    sent f l = sent f (w_log w) ++ take (Z.to_nat (n - done)) (drop (Z.to_nat done) d) /\
    (forall g, g <> f -> sent g l = sent g (w_log w)) /\
    (forall g, received g l = received g (w_log w)).
Proof.
  revert done w. induction k as [|k IH]; intros done w Hd Hk; [lia|]. cbn [write_loop].
  case_bool_decide as Hlt.
  2: { exists done, (w_log w). split_and!; [by destruct w|lia|lia| |done|done].
       by rewrite Z.sub_diag, app_nil_r. }
  unfold sys_write. run.
  set (n := os_write (w_log w) f (drop (Z.to_nat done) d)).
  pose proof (write_bound (w_log w) f (drop (Z.to_nat done) d)) as Hn. fold n in Hn.
  rewrite zlen_drop in Hn by lia.
  case_bool_decide as Hz.
  - exists done, (EvWrite f (take (Z.to_nat n) (drop (Z.to_nat done) d)) n :: w_log w).
    split_and!; [done|lia|lia| | |done].
    + cbn [sent]. rewrite bool_decide_true by done.
      replace (Z.to_nat n) with O by lia. by rewrite Z.sub_diag.
    + intros g Hg. cbn [sent]. by rewrite bool_decide_false, app_nil_r by congruence.
  - set (l1 := EvWrite f _ n :: w_log w).
    destruct (IH (done + n) (set_log l1 w) ltac:(lia) ltac:(lia)) as (m & l & E & Hm & Hs & Hg & Hr).
    exists m, l. split_and!; [exact E|lia|lia| | |exact Hr].
    + rewrite Hs. unfold l1. cbn [w_log set_log sent]. rewrite bool_decide_true by done.
      rewrite <- app_assoc. f_equal.
      replace (m - done) with (n + (m - (done + n))) by lia.
      rewrite <- (drop_take_step _ n) by lia. f_equal.
      by rewrite drop_drop, <- Z2Nat.inj_add by lia.
    + intros g Hg'. rewrite (Hg g Hg'). unfold l1. cbn [w_log set_log sent].
      by rewrite bool_decide_false, app_nil_r by congruence.
Qed.

(** Writing to a blocking socket touches the log only. *)
Lemma sock_write_blocking a s d w :
  w_socks w !! a = Some s -> isAlive s <> SOCKET_DEAD -> isBlocking s = true ->
  exists n l, sock_write a d w = Ok (n, set_log l w) /\ 0 <= n <= zlen d /\
    sent (fd s) l = sent (fd s) (w_log w) ++ take (Z.to_nat n) d /\
    (forall g, g <> fd s -> sent g l = sent g (w_log w)) /\
    (forall g, received g l = received g (w_log w)).
Proof.
  intros Ha Hal Hb. unfold sock_write, get_sock. run. rewrite Ha. run.
  rewrite bool_decide_false by done. rewrite Hb. pose proof (zlen_nonneg d).
  destruct (write_loop_ok (S (length d)) (fd s) d 0 w) as (n & l & E & Hn & Hs & Hg & Hr);
    [lia|unfold zlen; lia|].
  exists n, l. rewrite Z.sub_0_r in Hs. change (drop (Z.to_nat 0) d) with d in Hs. split_and!; (done || lia).
Qed.
End WriteLemmas.

(** ** Lemmas: non-blocking sockets *)

Section NonBlocking.
Context `{Os} `{!OsLaws} `{Fuel}.

Lemma store_loop_ok k a s d done w :
  w_socks w !! a = Some s -> buffer_wf (writeBuffer s) -> size (writeBuffer s) = 0 ->
  0 <= done <= zlen d -> zlen d - done < Z.of_nat k ->
  exists r m l, store_loop k a (fd s) d done w = Ok (r, set_log l
      (match r.1 with
       | Some _ => set_socks (<[a := set_listenForWritable true (set_writeBuffer m s)]> (w_socks w)) w
       | None => w end)) /\ done <= r.2 <= zlen d /\
    sent (fd s) l = sent (fd s) (w_log w) ++ take (Z.to_nat (r.2 - done)) (drop (Z.to_nat done) d) /\
    match r.1 with
    | Some n => buffer_wf m /\ r.2 < zlen d /\
        n = r.2 + Z.min (zlen d - r.2) (capacity (writeBuffer s)) /\
        contents m = take (Z.to_nat (n - r.2)) (drop (Z.to_nat r.2) d)
    | None => r.2 = zlen d
    end.
Proof.
  revert done w. induction k as [|k IH]; intros done w Ha Hb Hz Hd Hk; [lia|]. cbn [store_loop].
  case_bool_decide as Hlt.
  2: { exists (None, done), (writeBuffer s), (w_log w). cbn [fst snd].
       split_and!; [by destruct w|lia|lia| |lia]. by rewrite Z.sub_diag, app_nil_r. }
  unfold sys_write. run.
  set (n := os_write (w_log w) (fd s) (drop (Z.to_nat done) d)).
  pose proof (write_bound (w_log w) (fd s) (drop (Z.to_nat done) d)) as Hn. fold n in Hn.
  rewrite zlen_drop in Hn by lia.
  set (l1 := EvWrite (fd s) _ n :: w_log w).
  case_bool_decide as Hz0.
  - unfold get_sock. cbn [w_socks set_log]. rewrite Ha.
    set (rest := drop (Z.to_nat done) d).
    assert (Hrest : zlen rest = zlen d - done) by by apply zlen_drop.
    assert (Hn' : 0 <= zlen d - done <= zlen rest) by lia.
    pose proof (buffer_write_ok (writeBuffer s) rest (zlen d - done) Hb Hn') as E. cbn zeta in E.
    pose proof (buffer_write_wf _ _ _ _ _ Hb Hn' E) as W.
    destruct (buffer_write_empty _ _ _ _ _ Hb Hz Hn' E) as [Ek C].
    rewrite E. unfold upd_sock. cbn [w_socks set_log]. rewrite Ha.
    set (b := mkBuffer _ _ _ _) in *. set (k' := Z.min _ (buffer_getFreeSpace _)) in *.
    exists (Some (k' + done), done), b, l1. cbn [fst snd]. split_and!; [done|lia|lia| |done|done| |].
    + unfold l1. cbn [sent]. rewrite bool_decide_true by done.
      replace (Z.to_nat n) with O by lia. by rewrite Z.sub_diag.
    + rewrite Ek. lia.
    + rewrite C. f_equal. lia.
  - assert (Ha1 : w_socks (set_log l1 w) !! a = Some s) by done.
    destruct (IH (done + n) (set_log l1 w) Ha1 Hb Hz ltac:(lia) ltac:(lia))
      as (r & m & l & E & Hr & Hs & Hm).
    exists r, m, l. split_and!; [|lia|lia| |done].
    + rewrite E. by destruct r as [[?|] ?].
    + rewrite Hs. unfold l1. cbn [w_log set_log sent]. rewrite bool_decide_true by done.
      rewrite <- app_assoc. f_equal.
      replace (r.2 - done) with (n + (r.2 - (done + n))) by lia.
      rewrite <- (drop_take_step _ n) by lia. f_equal.
      by rewrite drop_drop, <- Z2Nat.inj_add by lia.
Qed.

Lemma sock_flush_empty a s w :
  w_socks w !! a = Some s -> size (writeBuffer s) = 0 ->
  sock_flush a w = Ok (1, set_socks (<[a := set_listenForWritable false s]> (w_socks w)) w).
Proof.
  intros Ha Hz. unfold sock_flush, get_sock, upd_sock. run. rewrite Ha.
  unfold buffer_isEmpty. rewrite bool_decide_true by done. run. by rewrite Ha.
Qed.

(** A system that takes everything at once. *)
Lemma sock_write_all a s d w :
  w_socks w !! a = Some s -> isAlive s = SOCKET_ALIVE -> isBlocking s = false ->
  size (writeBuffer s) = 0 -> (forall l f x, os_write l f x = zlen x) ->
  exists l, sock_write a d w
      = Ok (zlen d, set_log l (set_socks (<[a := set_listenForWritable false s]> (w_socks w)) w)) /\
    sent (fd s) l = sent (fd s) (w_log w) ++ d /\
    (forall g, received g l = received g (w_log w)).
Proof.
  intros Ha Hal Hb Hz Hw. set (w1 := set_socks _ w).
  unfold sock_write, get_sock. run. rewrite Ha, Hal, Hb. rewrite bool_decide_false by done.
  rewrite (sock_flush_empty a s) by done. fold w1. rewrite (bool_decide_true (1 <> 0)) by done.
  destruct d as [|c d].
  { exists (w_log w). cbn [store_loop length zlen]. rewrite !bool_decide_false by (done || lia || (intros [_ ?]; done)).
    cbn. rewrite app_nil_r. split_and!; try done. }
  set (e := c :: d). assert (He : 0 < zlen e) by (unfold e; rewrite zlen_cons; pose proof (zlen_nonneg d); lia).
  exists (EvWrite (fd s) (take (Z.to_nat (zlen e)) e) (zlen e) :: w_log w).
  change (length e) with (S (length d)). cbn [store_loop]. rewrite bool_decide_true by lia.
  change (drop (Z.to_nat 0) e) with e. unfold sys_write. run. rewrite Hw.
  rewrite (bool_decide_false (zlen e <= 0)) by lia. rewrite (bool_decide_false (0 + zlen e < zlen e)) by lia.
  rewrite bool_decide_false by (intros [_ ?]; done). split_and!; [done| |done].
  cbn [sent]. rewrite bool_decide_true by done. f_equal. apply take_ge. unfold zlen. lia.
Qed.

(** *** Emptying the buffer *)

(** The loop that pushes the buffer out only leaves when write() returns 0. *)
Lemma flush_loop_stuck k b f cw n w :
  buffer_wf b -> cw <> 0 -> (forall l d, os_write l f d <> 0) ->
  flush_loop k b f (Some (startIndex b)) cw n w = Fail NoFuel.
Proof.
  intros (Hc & Hd & Hs & Hi) Hcw Hw. revert cw n w Hcw.
  induction k as [|k IH]; intros cw n w Hcw; [done|]. cbn [flush_loop].
  rewrite bool_decide_true by done. destruct (rd_in_bounds (Buffer.data b) (startIndex b)) as [x Hx]; [lia|].
  rewrite Hx. unfold sys_write. run.
  unfold buffer_readChar. cbn [negb andb fst]. by apply IH.
Qed.
End NonBlocking.

(** ** Lemmas: reading *)

(** The state after the socket has been closed, with a new log. *)
Definition closed_world (a : addr) (s : Socket) (l : log_t) (w : world) : world :=
  set_log l (set_socks (<[a := set_isAlive SOCKET_DEAD s]> (w_socks w)) w).

Lemma sock_close_alive a s w :
  w_socks w !! a = Some s -> isAlive s <> SOCKET_DEAD ->
  sock_close a w = Ok (true, closed_world a s (EvClose (fd s) :: w_log w) w).
Proof.
  intros Ha Hal. unfold sock_close, get_sock. run. rewrite Ha. rewrite bool_decide_false by done.
  unfold sys_close, upd_sock. run. cbn [w_socks set_log w_log]. by rewrite Ha.
Qed.

Lemma sock_close_dead a s w :
  w_socks w !! a = Some s -> isAlive s = SOCKET_DEAD -> sock_close a w = Ok (false, w).
Proof.
  intros Ha Hal. unfold sock_close, get_sock. run. rewrite Ha. by rewrite bool_decide_true.
Qed.

Section ReadLemmas.
Context `{Os} `{!OsLaws}.

Lemma read_loop_ok k a s max acc w :
  w_socks w !! a = Some s -> isAlive s <> SOCKET_DEAD ->
  0 <= max -> zlen acc <= max -> max - zlen acc < Z.of_nat k ->
  exists d l (closed : bool), read_loop k a (fd s) max acc w
      = Ok (acc ++ d, if closed then closed_world a s l w else set_log l w) /\
    zlen (acc ++ d) <= max /\ received (fd s) l = received (fd s) (w_log w) ++ d /\
    (forall g, sent g l = sent g (w_log w)) /\ (zlen (acc ++ d) = max -> d <> [] -> closed = false).
Proof.
  intros Ha Hal Hm. revert acc w Ha. induction k as [|k IH]; intros acc w Ha Hacc Hk; [lia|].
  cbn [read_loop]. case_bool_decide as Hlt.
  2: { exists [], (w_log w), false. rewrite app_nil_r. split_and!; try done; [by destruct w|].
       by rewrite app_nil_r. }
  unfold sys_recv. run. set (r := os_recv (w_log w) (fd s) (max - zlen acc)).
  set (l1 := EvRecv (fd s) r :: w_log w).
  assert (Ha1 : w_socks (set_log l1 w) !! a = Some s) by done.
  assert (Hclose : sock_close a (set_log l1 w)
    = Ok (true, closed_world a s (EvClose (fd s) :: l1) w)) by by rewrite (sock_close_alive a s).
  destruct r as [[|c d]|wb] eqn:Er.
  - rewrite Hclose. exists [], (EvClose (fd s) :: l1), true. rewrite !app_nil_r.
    split_and!; [done|lia| |done|done]. unfold l1. cbn. case_bool_decide; by rewrite ?app_nil_r.
  - pose proof (recv_bound (w_log w) (fd s) (max - zlen acc) (c :: d) ltac:(lia) Er) as Hb.
    destruct (IH (acc ++ c :: d) (set_log l1 w) Ha1) as (d' & l & cl & E & Hl & Hr & Hs & Hc).
    { rewrite zlen_app. lia. }
    { rewrite zlen_app, zlen_cons. pose proof (zlen_nonneg d). lia. }
    exists ((c :: d) ++ d'), l, cl. rewrite app_assoc. split_and!; [| | | |].
    + rewrite E. by destruct cl.
    + exact Hl.
    + rewrite Hr. unfold l1. cbn [w_log set_log received]. by rewrite bool_decide_true, <- app_assoc.
    + intros g. rewrite Hs. done.
    + intros Hmax _. destruct d' as [|c' d'']; [|by apply Hc].
      rewrite app_nil_r in *. revert E. destruct k as [|k']; [done|]. cbn [read_loop].
      rewrite bool_decide_false by lia. intros [= E]. destruct cl; [|done].
      exfalso. apply (f_equal w_socks) in E. cbn in E.
      pose proof (f_equal (lookup a) E) as E'. rewrite Ha, lookup_insert_eq in E'.
      injection E' as E'. apply (f_equal isAlive) in E'. cbn in E'. done.
  - destruct wb.
    + exists [], l1, false. rewrite !app_nil_r. split_and!; [done|lia| |done|done].
      unfold l1. done.
    + rewrite Hclose. exists [], (EvClose (fd s) :: l1), true. rewrite !app_nil_r.
      split_and!; [done|lia|done|done|done].
Qed.

Lemma sock_read_nb a s max w :
  w_socks w !! a = Some s -> isAlive s <> SOCKET_DEAD -> isBlocking s = false -> 0 <= max ->
  exists d l (closed : bool), sock_read a max w
      = Ok ((zlen d, d), if closed then closed_world a s l w else set_log l w) /\
    zlen d <= max /\ received (fd s) l = received (fd s) (w_log w) ++ d /\
    (forall g, sent g l = sent g (w_log w)).
Proof.
  intros Ha Halive Hblock Hmax.
  destruct (read_loop_ok (S (Z.to_nat max)) a s max [] w Ha Halive Hmax) as (d & l & cl & E & Hl & Hr & Hs & _).
  - exact Hmax.
  - change (zlen (@nil char)) with 0. lia.
  - exists d, l, cl. unfold sock_read, get_sock. run. rewrite Ha, bool_decide_false by done.
    rewrite Hblock. run. by rewrite E.
Qed.
End ReadLemmas.

(** ** Properties *)

(** A socket for the witnesses. *)
Definition demo_sock (f : Z) (blocking : bool) (b : Buffer) : Socket :=
  set_writeBuffer b (set_isBlocking blocking (sock_init TCPSOCKET f)).

Definition demo_heap (s : Socket) : world := demo_world {[ 1%positive := s ]} ∅ demo_conf [1%positive].

(** C33: writing to a blocking socket sends a prefix of the data, whatever
    pieces the system takes at a time: the returned count is the length of the
    prefix, nothing goes to another descriptor and no state changes. *)
Theorem sock_write_blocking_prefix `{Os} `{!OsLaws} `{Fuel} (a : addr) (s : Socket) (d : mem)
    (w : world) (Ha : w_socks w !! a = Some s) (Halive : isAlive s <> SOCKET_DEAD)
    (Hblock : isBlocking s = true) :
  exists n l, sock_write a d w = Ok (n, set_log l w) /\ 0 <= n <= zlen d /\
    sent (fd s) l = sent (fd s) (w_log w) ++ take (Z.to_nat n) d /\
    (forall g, g <> fd s -> sent g l = sent g (w_log w)).
Proof.
  destruct (sock_write_blocking a s d w Ha Halive Hblock) as (n & l & E & Hn & Hs & Hg & _).
  by exists n, l.
Qed.

Lemma sock_write_blocking_prefix_witness :
  let s := demo_sock 7 true (buffer_init [] 0) in
  exists n l, @sock_write (demo_os 2 []) 1%nat 1%positive $"hello" (demo_heap s)
      = Ok (n, set_log l (demo_heap s)) /\ 0 <= n <= zlen $"hello" /\
    sent (fd s) l = sent (fd s) (w_log (demo_heap s)) ++ take (Z.to_nat n) $"hello" /\
    (forall g, g <> fd s -> sent g l = sent g (w_log (demo_heap s))).
Proof.
  intros s. apply (@sock_write_blocking_prefix (demo_os 2 []) (demo_os_laws 2 []));
    [reflexivity|discriminate|reflexivity].
Defined.

(** writing to an idle non-blocking socket accepts a prefix of the data and
    loses none of it: the bytes sent followed by the bytes kept in the buffer
    are that prefix, in order, and the socket waits for writability exactly
    when bytes were kept. *)
Theorem sock_write_nonblocking_prefix `{Os} `{!OsLaws} `{Fuel} (a : addr) (s : Socket) (d : mem)
    (w : world) (Ha : w_socks w !! a = Some s) (Halive : isAlive s = SOCKET_ALIVE)
    (Hblock : isBlocking s = false) (Hwf : buffer_wf (writeBuffer s))
    (Hempty : size (writeBuffer s) = 0) :
  exists n w' s', sock_write a d w = Ok (n, w') /\ 0 <= n <= zlen d /\
    w_socks w' = <[a := s']> (w_socks w) /\ buffer_wf (writeBuffer s') /\
    sent (fd s) (w_log w') ++ contents (writeBuffer s')
      = sent (fd s) (w_log w) ++ take (Z.to_nat n) d /\
    listenForWritable s' = negb (bool_decide (contents (writeBuffer s') = [])).
Proof.
  set (s1 := set_listenForWritable false s).
  set (w1 := set_socks (<[a := s1]> (w_socks w)) w).
  assert (E1 : sock_flush a w = Ok (1, w1)).
  { by apply sock_flush_empty. }
  assert (Ha1 : w_socks w1 !! a = Some s1) by apply lookup_insert_eq.
  pose proof (zlen_nonneg d).
  destruct (store_loop_ok (S (length d)) a s1 d 0 w1 Ha1 Hwf Hempty) as (r & m & l & E & Hr & Hs & Hm);
    [lia|unfold zlen; lia|].
  change (fd s1) with (fd s) in E, Hs. rewrite Z.sub_0_r in Hs.
  change (drop (Z.to_nat 0) d) with d in Hs.
  unfold sock_write, get_sock. run. rewrite Ha.
  rewrite bool_decide_false by (rewrite Halive; done). rewrite Hblock, E1.
  rewrite (bool_decide_true (1 <> 0)) by done. rewrite E. destruct r as [[n|] j]; cbn [fst snd] in *.
  - destruct Hm as (Hb & Hj & Hn & Hc). destruct Hwf as (Hcap & _).
    exists n, (set_log l (set_socks (<[a:=set_listenForWritable true (set_writeBuffer m s1)]> (w_socks w1)) w1)),
      (set_listenForWritable true (set_writeBuffer m s1)).
    change (capacity (writeBuffer s1)) with (capacity (writeBuffer s)) in Hn.
    split_and!; [done|lia|lia|by cbn; rewrite insert_insert_eq|done| |].
    + cbn [w_log set_log writeBuffer set_listenForWritable set_writeBuffer]. rewrite Hs, Hc, <- app_assoc.
      f_equal. rewrite drop_take_step by lia. do 2 f_equal. lia.
    + cbn [writeBuffer set_listenForWritable set_writeBuffer listenForWritable].
      rewrite bool_decide_false; [done|]. rewrite Hc. intros E0.
      apply (f_equal length) in E0. rewrite length_take, length_drop in E0. cbn in E0.
      unfold zlen in *. lia.
  - rewrite bool_decide_false by (rewrite Halive; intros [_ ?]; done). subst j.
    exists (zlen d), (set_log l w1), s1. run. split_and!; [done|lia|lia|done|done| |].
    + cbn [w_log set_log]. rewrite (contents_empty (writeBuffer s1)) by done. by rewrite app_nil_r.
    + change (writeBuffer s1) with (writeBuffer s).
      rewrite (contents_empty (writeBuffer s)) by done. by rewrite bool_decide_true.
Qed.

Lemma sock_write_nonblocking_prefix_witness :
  let s := demo_sock 7 false (mkBuffer $"----" 0 4 0) in
  exists n w' s', @sock_write (demo_os 0 []) 1%nat 1%positive $"hello" (demo_heap s) = Ok (n, w') /\
    0 <= n <= zlen $"hello" /\
    w_socks w' = <[1%positive := s']> (w_socks (demo_heap s)) /\ buffer_wf (writeBuffer s') /\
    sent (fd s) (w_log w') ++ contents (writeBuffer s')
      = sent (fd s) (w_log (demo_heap s)) ++ take (Z.to_nat n) $"hello" /\
    listenForWritable s' = negb (bool_decide (contents (writeBuffer s') = [])).
Proof.
  intros s. apply (@sock_write_nonblocking_prefix (demo_os 0 []) (demo_os_laws 0 []));
    [reflexivity|reflexivity|reflexivity| |reflexivity].
  unfold buffer_wf. cbn. change (zlen _) with 4. lia.
Defined.

(** once bytes wait in the buffer of a non-blocking socket, [sock_write]
    never returns, whatever the bound on its iterations, unless write() returns
    0: the loop is handed the first byte in every round, and -1 counts as
    success. *)
Theorem sock_write_pending_diverges `{Os} (k : Fuel) (a : addr) (s : Socket) (d : mem) (w : world)
    (Ha : w_socks w !! a = Some s) (Halive : isAlive s <> SOCKET_DEAD)
    (Hblock : isBlocking s = false) (Hwf : buffer_wf (writeBuffer s))
    (Hpending : size (writeBuffer s) <> 0) (Hnz : forall l f x, os_write l f x <> 0) :
  sock_write a d w = Fail NoFuel.
Proof.
  unfold sock_write, sock_flush, get_sock. run. rewrite Ha, bool_decide_false by done.
  rewrite Hblock. run. rewrite Ha. unfold buffer_isEmpty. rewrite bool_decide_false by done.
  change (fst (buffer_readChar true (writeBuffer s) 0)) with (Some (startIndex (writeBuffer s))).
  by rewrite flush_loop_stuck.
Qed.

Lemma sock_write_pending_diverges_witness :
  @sock_write (demo_os (-1) []) 1000%nat 1%positive $"x"
    (demo_heap (demo_sock 7 false (mkBuffer $"ab--" 2 4 0))) = Fail NoFuel.
Proof.
  apply (@sock_write_pending_diverges (demo_os (-1) []) 1000%nat 1%positive
    (demo_sock 7 false (mkBuffer $"ab--" 2 4 0))).
  - reflexivity.
  - discriminate.
  - reflexivity.
  - unfold buffer_wf. cbn. change (zlen _) with 4. lia.
  - discriminate.
  - intros l f x. cbn. pose proof (zlen_nonneg x). lia.
Defined.

(** C34: reading from a non-blocking socket ends, stores at most [max] bytes,
    exactly those the system delivered, in order, sends nothing, and changes no
    state but that the socket may have been closed. *)
Theorem sock_read_nonblocking `{Os} `{!OsLaws} (a : addr) (s : Socket) (max : Z) (w : world)
    (Ha : w_socks w !! a = Some s) (Halive : isAlive s <> SOCKET_DEAD)
    (Hblock : isBlocking s = false) (Hmax : 0 <= max) :
  exists d l (closed : bool), sock_read a max w
      = Ok ((zlen d, d), if closed then closed_world a s l w else set_log l w) /\
    zlen d <= max /\ received (fd s) l = received (fd s) (w_log w) ++ d /\
    (forall g, sent g l = sent g (w_log w)).
Proof. by apply sock_read_nb. Qed.

Lemma sock_read_nonblocking_witness :
  let s := demo_sock 7 false (mkBuffer [] 0 0 0) in
  exists d l (closed : bool), @sock_read (demo_os 1 [$"ab"; $"c"]) 1%positive 10 (demo_heap s)
      = Ok ((zlen d, d), if closed then closed_world 1%positive s l (demo_heap s)
                         else set_log l (demo_heap s)) /\
    zlen d <= 10 /\ received (fd s) l = received (fd s) (w_log (demo_heap s)) ++ d /\
    (forall g, sent g l = sent g (w_log (demo_heap s))).
Proof.
  intros s. apply (@sock_read_nonblocking (demo_os 1 [$"ab"; $"c"]) (demo_os_laws 1 [$"ab"; $"c"]));
    [reflexivity|discriminate|reflexivity|lia].
Defined.
