(* ===== verification/WaitLoop.v ===== *)
(** * The event loop (src/netUtils.c, waitForEvent, lines 426-541)

    [waitForEvent] remembers in static variables what select() reported, and
    hands out one event per call. The descriptor sets are lists of descriptors;
    select() sees the two sets (its first argument, the largest descriptor plus
    one, is left out). The recursion is bounded by fuel. *)
From S2P Require Import Prelude CString Str Containers Buffer IpAddr Auth ConfigFile Config Os Socket.

Definition fd_isset (f : Z) (set : list Z) : bool := bool_decide (f ∈ set).
Definition fd_clr (f : Z) (set : list Z) : list Z := List.filter (fun g => negb (bool_decide (g = f))) set.

(** FD_CLR on the read or the write set, and [fdsToProcess--]. *)
Definition done_read (f : Z) : M unit :=
  modify (fun w => let st := w_wait w in
    set_wait (mkWait (fd_clr f (readSet st)) (writeSet st) (fdsToProcess st - 1) (sockToRemove st)) w).
Definition done_write (f : Z) : M unit :=
  modify (fun w => let st := w_wait w in
    set_wait (mkWait (readSet st) (fd_clr f (writeSet st)) (fdsToProcess st - 1) (sockToRemove st)) w).

(** Why the loop that fills the descriptor sets stops. *)
Inductive collected :=
| CDead (a : addr)        (* a closed socket: SOCK_EVENT_CLOSE *)
| CAgain                  (* a dying socket was closed: start over *)
| CSets (r w : list Z).   (* the sets for select() *)

Section Wait.
Context `{Os} `{Fuel}.

(** The socket reported by the previous call as closed is freed. *)
Definition remove_closed : M unit :=
  st ← get w_wait;
  match sockToRemove st with
  | None => ret tt
  | Some a =>
      sock_cleanup a;;
      l ← get w_sockList;
      '(_, l') ← lift (list_remove l a);
      modify (set_sockList l');;
      free_sock a;;
      modify (fun w => let st := w_wait w in
        set_wait (mkWait (readSet st) (writeSet st) (fdsToProcess st) None) w)
  end.

(** The walk over the sockets with the results of select(); the event to
    return, if one comes up. *)
Fixpoint process_fds (socks : list addr) : M (option (Z * addr)) :=
  match socks with
  | [] => ret None
  | a :: rest =>
      st ← get w_wait;
      if bool_decide (fdsToProcess st > 0) then
        s ← get_sock a;
        let f := fd s in
        ev ← (if fd_isset f (readSet st) then
                if isServer s && bool_decide (type s = TCPSOCKET) then
                  new ← sock_acceptNew a;
                  match new with
                  | Some ns =>
                      na ← new_sock ns;
                      _ ← sock_setNonBlocking na;
                      ret (Some (SOCK_EVENT_NEW, na))
                  | None => done_read f;; ret None
                  end
                else done_read f;; ret (Some (SOCK_EVENT_READ, a))
              else ret None);
        match ev with
        | Some e => ret (Some e)
        | None =>
            st ← get w_wait;
            (if fd_isset f (writeSet st)
             then done_write f;; _ ← sock_write a []; ret tt else ret tt);;
            process_fds rest
        end
      else ret None
  end.

(** Filling the sets before select(). *)
Fixpoint collect_fds (socks : list addr) (r w : list Z) : M collected :=
  match socks with
  | [] => ret (CSets r w)
  | a :: rest =>
      s ← get_sock a;
      if bool_decide (isAlive s = SOCKET_DEAD) then ret (CDead a)
      else
        again ← (if bool_decide (isAlive s = SOCKET_WILLDIE) then
                   if bool_decide (type s = TCPSOCKET) && negb (buffer_isEmpty (writeBuffer s))
                   then upd_sock a (set_listenForWritable true);; ret false
                   else _ ← sock_close a; ret true
                 else ret false);
        if again : bool then ret CAgain
        else
          s ← get_sock a;
          let r := if listenForReadable s then fd s :: r else r in
          let w := if bool_decide (type s = TCPSOCKET) && listenForWritable s
                   then fd s :: w else w in
          collect_fds rest r w
  end.

(** The sockets of the list; list_forEach dereferences the first node. *)
Definition list_socks : M (list addr) :=
  l ← get w_sockList;
  '(_, nodes) ← lift (list_forEach (Some l) []);
  ret nodes.

Definition set_wait_sets (r w : list Z) (n : Z) : M unit :=
  modify (fun wd => set_wait (mkWait r w n (sockToRemove (w_wait wd))) wd).

(** [init] tells that the list is passed: the statics are reset. *)
Fixpoint waitForEvent (k : nat) (init : bool) : M (Z * option addr) :=
  match k with
  | O => fail NoFuel
  | S k' =>
      when init (modify (fun w => let st := w_wait w in
        set_wait (mkWait (readSet st) (writeSet st) 0 None) w));;
      remove_closed;;
      st ← get w_wait;
      if bool_decide (fdsToProcess st <> 0) then
        socks ← list_socks;
        ev ← process_fds socks;
        match ev with
        | Some (e, a) => ret (e, Some a)
        | None =>
            st ← get w_wait;
            if bool_decide (fdsToProcess st = 0) then waitForEvent k' false
            else ret (SOCK_EVENT_ERROR, None)
        end
      else
        socks ← list_socks;
        c ← collect_fds socks [] [];
        match c with
        | CDead a =>
            modify (fun w => let st := w_wait w in
              set_wait (mkWait [] [] (fdsToProcess st) (Some a)) w);;
            ret (SOCK_EVENT_CLOSE, Some a)
        | CAgain => waitForEvent k' false
        | CSets r w =>
            l ← get w_log;
            let '(n, r', w') := os_select l r w in
            logged (EvSelect n);;
            set_wait_sets r' w' n;;
            if bool_decide (n = 0) then ret (SOCK_EVENT_TIMEOUT, None)
            else if bool_decide (n < 0) then ret (SOCK_EVENT_ERROR, None)
            else waitForEvent k' false
        end
  end.
End Wait.
