(* ===== verification/Store.v ===== *)
(** * The bridge's store of sockets and keys (src/store.c, lines 20-112)

    The functions that look into the [BridgeContext] of the configuration:
    listeners by id, sockets waiting for a reverse connection by one-time code,
    and the salts of keys. *)
From S2P Require Import Prelude CString Str Containers Buffer IpAddr Auth ConfigFile Config Os Socket.

(** [&(conf->bridge->context)], dereferenced. *)
Definition get_context : M BridgeContext :=
  c ← get w_conf;
  bm ← deref_M (bridge c);
  ret (context bm).

Definition upd_context (f : BridgeContext -> BridgeContext) : M unit :=
  c ← get w_conf;
  bm ← deref_M (bridge c);
  let bm' := mkBridgeMode (bm_port bm) (bm_rlId bm) (bm_rlUrl bm) (bm_rlPass bm) (bm_useMdns bm)
               (connectAuthLevel bm) (requireQueryAuth bm) (requireRLAuth bm) (f (context bm)) in
  modify (set_conf (mkConfig (mode c) (Some bm') (rl c) (listen c) (connect c) (query c))).

Definition set_listeningSocks (m : Map addr) (cx : BridgeContext) : BridgeContext :=
  mkBridgeContext (masterKey cx) (cx_name cx) (queryKeys cx) (listenKeys cx) m (mdnsStore cx)
    (mdnsLastRefresh cx) (lastMdnsBroadcast cx) (rlSock cx) (rlRetries cx) (rlLastRetry cx)
    (rlLastPing cx).
Definition set_rl (s : option addr) (retries lastRetry : Z) (cx : BridgeContext) : BridgeContext :=
  mkBridgeContext (masterKey cx) (cx_name cx) (queryKeys cx) (listenKeys cx) (listeningSocks cx)
    (mdnsStore cx) (mdnsLastRefresh cx) (lastMdnsBroadcast cx) s retries lastRetry
    (rlLastPing cx).
Definition set_rlLastPing (t : Z) (cx : BridgeContext) : BridgeContext :=
  mkBridgeContext (masterKey cx) (cx_name cx) (queryKeys cx) (listenKeys cx) (listeningSocks cx)
    (mdnsStore cx) (mdnsLastRefresh cx) (lastMdnsBroadcast cx) (rlSock cx) (rlRetries cx)
    (rlLastRetry cx) t.
Definition set_mdnsLastRefresh (t : Z) (cx : BridgeContext) : BridgeContext :=
  mkBridgeContext (masterKey cx) (cx_name cx) (queryKeys cx) (listenKeys cx) (listeningSocks cx)
    (mdnsStore cx) t (lastMdnsBroadcast cx) (rlSock cx) (rlRetries cx) (rlLastRetry cx)
    (rlLastPing cx).

Definition getListeningSock (id : cstr) : M (option addr) :=
  cx ← get_context;
  ret (map_get (listeningSocks cx) id).

Definition getIpAddrForId (id : cstr) : M (option sockaddr) :=
  cx ← get_context;
  ret (mr_ip <$> map_get (mdnsStore cx) id).

(** The configured salt, or that of the environment variable L-id or Q-id. *)
Definition salt_for `{Environment} (prefix id : cstr) (keys : Map cstr) : outcome (option cstr) :=
  match map_get keys id with
  | Some s => Ok (Some s)
  | None =>
      tstr ← str_set (str_len id + 3) prefix;
      tstr ← str_concat (str_len id + 3) tstr id;
      Ok (getenv tstr)
  end.

Definition getSaltForListenId `{Environment} (id : cstr) : M (option cstr) :=
  cx ← get_context;
  lift (salt_for $"L-" id (listenKeys cx)).

Definition getQuerySalt `{Environment} (id : cstr) : M (option cstr) :=
  cx ← get_context;
  lift (salt_for $"Q-" id (queryKeys cx)).

Definition isMasterKey (key : cstr) : M bool :=
  cx ← get_context;
  ret (str_isEqual key (masterKey cx)).

(** ** Waiting sockets *)

Definition getWaitingSocket (id otp : cstr) : M (option addr) :=
  l ← getListeningSock id;
  match l with
  | None => ret None
  | Some la =>
      h ← get_hn la;
      if bool_decide (hn_mode h <> SOCK_MODE_LISTEN) then ret None
      else ret (map_get (waitingSocks (listen_ h)) otp)
  end.

Definition set_waiting (m : Map addr) (h : hn_Socket) : hn_Socket :=
  set_listen (mkListenNotif (salt (listen_ h)) (listenId (listen_ h)) m) h.

Definition removeWaitingSocket (id otp : cstr) : M bool :=
  l ← getListeningSock id;
  match l with
  | None => ret false
  | Some la =>
      h ← get_hn la;
      if bool_decide (hn_mode h <> SOCK_MODE_LISTEN) then ret false
      else
        let '(r, m, _) := map_del (waitingSocks (listen_ h)) otp false in
        upd_hn la (set_waiting m);; ret r
  end.

Definition addWaitingSock (id otp : cstr) (hs : addr) : M bool :=
  l ← getListeningSock id;
  match l with
  | None => ret false
  | Some la =>
      h ← get_hn la;
      if bool_decide (hn_mode h <> SOCK_MODE_LISTEN) then ret false
      else if bool_decide (map_get (waitingSocks (listen_ h)) otp <> None) then ret false
      else
        '(m, _) ← lift (map_set (waitingSocks (listen_ h)) otp hs false);
        upd_hn la (set_waiting m);; ret true
  end.
