(* ===== verification/StoreFacts.v ===== *)
(** * The store of waiting sockets

    [waiting] is the abstract store: a socket for each listener and one-time
    code. [addWaitingSock], [getWaitingSocket] and [removeWaitingSocket] are
    insertion, lookup and deletion there. *)
From S2P Require Import Prelude CString Str Containers Buffer IpAddr Auth ConfigFile.
From S2P Require Import Config Os Socket Store.

(** The listener registered under an id, when it is one. *)
Definition listener_of (w : world) (id : cstr) : option (addr * hn_Socket) :=
  bm ← bridge (w_conf w);
  la ← map_get (listeningSocks (context bm)) id;
  h ← w_hsocks w !! la;
  if bool_decide (hn_mode h = SOCK_MODE_LISTEN) then Some (la, h) else None.

Definition waiting (w : world) (id : cstr) : gmap cstr addr :=
  match listener_of w id with Some (_, h) => to_gmap (waitingSocks (listen_ h)) | None => ∅ end.

(** The bridge has a store, and the listeners it names exist. *)
Record store_ok (w : world) : Prop := {
  so_bridge : bridge (w_conf w) <> None;
  so_listeners : forall bm id la, bridge (w_conf w) = Some bm ->
    map_get (listeningSocks (context bm)) id = Some la -> exists h, w_hsocks w !! la = Some h;
  so_maps : forall la h, w_hsocks w !! la = Some h -> map_wf (waitingSocks (listen_ h)) }.

Section Lemmas.
Context (w : world).

Lemma get_context_ok bm : bridge (w_conf w) = Some bm -> get_context w = Ok (context bm, w).
Proof. intros E. unfold get_context. run. by rewrite E. Qed.

Lemma getListeningSock_ok bm id :
  bridge (w_conf w) = Some bm ->
  getListeningSock id w = Ok (map_get (listeningSocks (context bm)) id, w).
Proof. intros E. unfold getListeningSock. unfold mbind, M_bind. by rewrite (get_context_ok bm). Qed.

(** A listener, seen by the code. *)
Lemma listener_some id la h :
  listener_of w id = Some (la, h) ->
  getListeningSock id w = Ok (Some la, w) /\ get_hn la w = Ok (h, w) /\
  w_hsocks w !! la = Some h /\ hn_mode h = SOCK_MODE_LISTEN.
Proof.
  unfold listener_of. destruct (bridge (w_conf w)) as [bm|] eqn:Eb; [|done]. cbn.
  destruct (map_get _ id) as [la'|] eqn:El; [|done]. cbn.
  destruct (w_hsocks w !! la') as [h'|] eqn:Eh; [|done]. cbn. case_bool_decide; [|done].
  intros [= -> ->]. split_and!; try done.
  - by rewrite (getListeningSock_ok bm), El.
  - unfold get_hn. by rewrite Eh.
Qed.

(** No listener: nothing registered, or not a listening socket. *)
Lemma listener_none id :
  store_ok w -> listener_of w id = None ->
  getListeningSock id w = Ok (None, w) \/
  exists la h, getListeningSock id w = Ok (Some la, w) /\ get_hn la w = Ok (h, w) /\
    hn_mode h <> SOCK_MODE_LISTEN.
Proof.
  intros [Hb Hl _]. unfold listener_of. destruct (bridge (w_conf w)) as [bm|] eqn:Eb; [|done]. cbn.
  rewrite (getListeningSock_ok bm) by done.
  destruct (map_get _ id) as [la|] eqn:El; [|by left]. cbn.
  destruct (Hl bm id la eq_refl El) as [h Eh]. rewrite Eh. cbn. case_bool_decide; [done|]. intros _.
  right. exists la, h. unfold get_hn. by rewrite Eh.
Qed.
End Lemmas.

(** Replacing the waiting sockets of a listener. *)
Lemma waiting_update w id la h m :
  listener_of w id = Some (la, h) ->
  let w' := set_hsocks (<[la := set_waiting m h]> (w_hsocks w)) w in
  upd_hn la (set_waiting m) w = Ok (tt, w') /\ waiting w' id = to_gmap m /\
  (map_wf m -> store_ok w -> store_ok w') /\
  (forall id' la' h', listener_of w id' = Some (la', h') -> la' <> la -> waiting w' id' = waiting w id').
Proof.
  intros E w'. destruct (listener_some w id la h E) as (_ & _ & Eh & Em). split_and!.
  - unfold upd_hn. by rewrite Eh.
  - unfold waiting, listener_of in *. destruct (bridge (w_conf w)) as [bm|] eqn:Eb; [|done]. cbn in *.
    rewrite Eb. cbn. destruct (map_get _ id) as [la'|] eqn:El; [|done]. cbn in *.
    destruct (w_hsocks w !! la') as [h'|] eqn:Eh'; [|done]. cbn in E. case_bool_decide; [|done].
    injection E as -> ->. rewrite lookup_insert_eq. cbn. by rewrite bool_decide_true.
  - intros Hm [Hb Hl Hw]. split; [done| |].
    + intros bm id' la' Eb El. destruct (Hl bm id' la' Eb El) as [h' Eh']. cbn.
      destruct (decide (la' = la)) as [->|]; [rewrite lookup_insert_eq; eauto|].
      rewrite lookup_insert_ne by done. eauto.
    + intros la' h'. cbn. destruct (decide (la' = la)) as [->|].
      * rewrite lookup_insert_eq. by intros [= <-].
      * rewrite lookup_insert_ne by done. apply Hw.
  - intros id' la' h' E' Hne. unfold waiting. rewrite E'.
    unfold listener_of in *. destruct (bridge (w_conf w)) as [bm|] eqn:Eb; [|done]. cbn in *.
    rewrite Eb. cbn. destruct (map_get _ id') as [la''|] eqn:El; [|done]. cbn in *.
    destruct (w_hsocks w !! la'') as [h''|] eqn:Eh'; [|done]. cbn in E'.
    case_bool_decide; [|done]. injection E' as -> ->.
    rewrite lookup_insert_ne, Eh' by done. cbn. by rewrite bool_decide_true.
Qed.

Lemma getWaitingSocket_ok w id otp :
  store_ok w -> getWaitingSocket id otp w = Ok (waiting w id !! otp, w).
Proof.
  intros Hw. unfold getWaitingSocket, mbind, M_bind.
  destruct (listener_of w id) as [[la h]|] eqn:El.
  - destruct (listener_some w id la h El) as (E1 & E2 & Eh & Em).
    rewrite E1, E2, bool_decide_false by (rewrite Em; congruence).
    unfold waiting. by rewrite El, <- map_get_lookup.
  - unfold waiting. rewrite El, lookup_empty.
    destruct (listener_none w id Hw El) as [E1|(la & h & E1 & E2 & Em)]; rewrite E1, ?E2; [done|].
    by rewrite bool_decide_true.
Qed.

Lemma removeWaitingSocket_ok w id otp la h :
  store_ok w -> listener_of w id = Some (la, h) ->
  exists m, removeWaitingSocket id otp w
      = Ok (bool_decide (is_Some (waiting w id !! otp)),
            set_hsocks (<[la := set_waiting m h]> (w_hsocks w)) w) /\
    to_gmap m = delete otp (waiting w id) /\ map_wf m.
Proof.
  intros Hw El. destruct (listener_some w id la h El) as (E1 & E2 & Eh & Em).
  assert (Hm : map_wf (waitingSocks (listen_ h))) by by eapply so_maps.
  unfold removeWaitingSocket, mbind, M_bind. rewrite E1, E2, bool_decide_false by (rewrite Em; congruence).
  destruct (map_del_spec (waitingSocks (listen_ h)) otp false Hm) as (m & Es & Gs & Ws). rewrite Es.
  destruct (waiting_update w id la h m El) as (E3 & _). rewrite E3. exists m.
  unfold waiting. rewrite El, <- map_get_lookup. by split_and!.
Qed.

Lemma addWaitingSock_ok w id otp hs la h :
  store_ok w -> listener_of w id = Some (la, h) -> zlen otp < ITEM_KEY_SIZE ->
  exists w', addWaitingSock id otp hs w = Ok (bool_decide (waiting w id !! otp = None), w') /\ store_ok w' /\
    (waiting w id !! otp = None ->
     waiting w' id = <[otp := hs]> (waiting w id) /\
     exists m, w' = set_hsocks (<[la := set_waiting m h]> (w_hsocks w)) w) /\
    (waiting w id !! otp <> None -> w' = w).
Proof.
  intros Hw El Hotp. destruct (listener_some w id la h El) as (E1 & E2 & Eh & Em).
  assert (Hm : map_wf (waitingSocks (listen_ h))) by by eapply so_maps.
  unfold addWaitingSock, mbind, M_bind. rewrite E1, E2, bool_decide_false by (rewrite Em; congruence).
  assert (Ew : waiting w id = to_gmap (waitingSocks (listen_ h))) by (unfold waiting; by rewrite El).
  rewrite Ew, <- map_get_lookup. destruct (map_get (waitingSocks (listen_ h)) otp) as [x|].
  { rewrite bool_decide_true by done. by exists w. }
  rewrite bool_decide_false by (by intros []).
  destruct (map_set_ok (waitingSocks (listen_ h)) otp hs false (or_intror Hotp)) as (m2 & fr & Es & Gs & Ws).
  destruct (waiting_update w id la h m2 El) as (E6 & E7 & E8 & _). unfold lift. rewrite Es, E6.
  eexists. split_and!; [done|by apply E8; [apply Ws|]| |done].
  intros _. split; [by rewrite E7|by exists m2].
Qed.

(** ** Properties *)

Definition demo_listener (m : Map addr) : hn_Socket :=
  mkHnSocket 1 SOCK_MODE_LISTEN true [] (mkRelay None false [] []) (mkListenNotif [] $"id" m).
Definition demo_context (l : Map addr) : BridgeContext :=
  mkBridgeContext [] [] map_init map_init l map_init 0 0 None 0 0 0.
Definition demo_bridge (cx : BridgeContext) : hn_Config :=
  mkConfig HN_MODE_BRIDGE (Some (mkBridgeMode 80 [] [] [] 0 0 0 0 cx)) None None None None.
Definition demo_store : world :=
  demo_world ∅ {[ 2%positive := demo_listener map_init ]}
    (demo_bridge (demo_context (mkMap [mkItem $"id" 2%positive] 1))) [].

Lemma demo_store_ok : store_ok demo_store.
Proof.
  split; [done| |].
  - intros bm id la. cbn. intros [= <-]. unfold map_get, map_getItem. cbn.
    destruct (str_isEqual _ _); [|done]. intros [= <-]. eexists. apply lookup_insert_eq.
  - intros la h. cbn. intros [_ <-]%lookup_singleton_Some. apply map_init_wf.
Qed.

(** C19: the store of waiting sockets refines a finite map per listener: a code
    is inserted when it is free and the listener exists, lookup finds exactly
    the inserted socket, and a removed code is found no more; when a call
    returns 0 the state is unchanged. *)
Theorem waiting_store_refines (w : world) (id otp : cstr) (hs : addr) (Hw : store_ok w)
    (Hotp : zlen otp < ITEM_KEY_SIZE) :
  getWaitingSocket id otp w = Ok (waiting w id !! otp, w) /\
  (exists b w', addWaitingSock id otp hs w = Ok (b, w') /\ store_ok w' /\
     b = bool_decide (listener_of w id <> None /\ waiting w id !! otp = None) /\
     (b = true -> waiting w' id = <[otp := hs]> (waiting w id)) /\ (b = false -> w' = w)) /\
  (exists b w', removeWaitingSocket id otp w = Ok (b, w') /\ store_ok w' /\
     b = bool_decide (is_Some (waiting w id !! otp)) /\
     waiting w' id = delete otp (waiting w id) /\ (listener_of w id = None -> w' = w)).
Proof.
  split; [by apply getWaitingSocket_ok|].
  destruct (listener_of w id) as [[la h]|] eqn:El.
  - destruct (removeWaitingSocket_ok w id otp la h Hw El) as (m & -> & Gm & Wm).
    destruct (waiting_update w id la h m El) as (_ & E4 & E5 & _). split.
    2: { eexists _, _. split_and!; [done|by apply E5|done|by rewrite E4|done]. }
    destruct (addWaitingSock_ok w id otp hs la h Hw El Hotp) as (w' & E & Hw' & Hn & Hs).
    eexists _, w'. split_and!; [done|done|by apply bool_decide_ext; intuition|..].
    + intros Hb%bool_decide_eq_true. by apply Hn.
    + intros Hb%bool_decide_eq_false. by apply Hs.
  - assert (Ew : waiting w id = ∅) by (unfold waiting; by rewrite El). rewrite Ew, lookup_empty.
    rewrite delete_empty. unfold addWaitingSock, removeWaitingSocket, mbind, M_bind.
    destruct (listener_none w id Hw El) as [E1|(la & h & E1 & E2 & Em)]; rewrite E1, ?E2.
    + split; by exists false, w.
    + rewrite !(bool_decide_true (hn_mode h <> SOCK_MODE_LISTEN)) by done. split; by exists false, w.
Qed.

Lemma waiting_store_refines_witness :
  let w := demo_store in
  getWaitingSocket $"id" $"abcd1234" w = Ok (waiting w $"id" !! $"abcd1234", w) /\
  (exists b w', addWaitingSock $"id" $"abcd1234" 7%positive w = Ok (b, w') /\ store_ok w' /\
     b = bool_decide (listener_of w $"id" <> None /\ waiting w $"id" !! $"abcd1234" = None) /\
     (b = true -> waiting w' $"id" = <[$"abcd1234" := 7%positive]> (waiting w $"id")) /\
     (b = false -> w' = w)) /\
  (exists b w', removeWaitingSocket $"id" $"abcd1234" w = Ok (b, w') /\ store_ok w' /\
     b = bool_decide (is_Some (waiting w $"id" !! $"abcd1234")) /\
     waiting w' $"id" = delete $"abcd1234" (waiting w $"id") /\
     (listener_of w $"id" = None -> w' = w)).
Proof.
  apply (waiting_store_refines demo_store $"id" $"abcd1234" 7%positive); [exact demo_store_ok|by vm_compute].
Defined.
