(* ===== verification/Protocol.v ===== *)
(** * Protocol messages and authentication over a socket (src/homeNet.c, lines
    231-412; src/httpUtils.c, upgradeHttpClient)

    A message is a line ended by CR LF in a buffer of [BUFF_SIZE] bytes. The
    content of a buffer is the string it holds; receiving works on the bytes
    received, in a buffer that was zeroed before. *)
From S2P Require Import Prelude CString Str Containers Buffer IpAddr Auth ConfigFile.
From S2P Require Import Config Os Socket Store.

(** The C string in a zeroed buffer of [cap] bytes in which [d] was stored. *)
Definition buf_view (cap : Z) (d : mem) : outcome cstr :=
  if bool_decide (zlen d <= cap) then
    match cview (d ++ replicate (Z.to_nat (cap - zlen d)) nul) with
    | Some s => Ok s
    | None => Fail OutOfBounds
    end
  else Fail BufOverflow.

(** generateCode, with the clock and the static seed of the state. *)
Definition gen_code `{Os} `{Rand} (cap length : Z) : M cstr :=
  now ← sys_time;
  seed ← get w_mySeed;
  '(s, seed) ← lift (generateCode cap now seed length);
  modify (set_mySeed seed);;
  ret s.

Section Messages.
Context `{Os} `{Fuel}.

(** upgradeHttpClient: [char buff[DEFAULT_BUFFER_SIZE]]. *)
Definition upgrade_request (host : cstr) : cstr :=
  $"GET / HTTP/1.1" ++ [CR; LF] ++ $"Connection: Upgrade" ++ [CR; LF] ++
  $"Upgrade: websocket" ++ [CR; LF] ++ $"Upgrade-Insecure-Requests: 1" ++
  (if bool_decide (str_len host > 0) then [CR; LF] ++ $"Host: " ++ host else []) ++
  [CR; LF; CR; LF].

Definition upgradeHttpClient (a : addr) (host : cstr) : M bool :=
  buff ← lift (strcpy DEFAULT_BUFFER_SIZE (upgrade_request host));
  _ ← sock_write a buff;
  '(_, d) ← sock_read a DEFAULT_BUFFER_SIZE;
  buff ← lift (buf_view DEFAULT_BUFFER_SIZE d);
  lift (str_startswith buff $"HTTP/1.1 101").

(** The returned int and what [buff] holds afterwards. *)
Definition hn_sendMsg (a : addr) (buff : cstr) : M (Z * cstr) :=
  s ← get_sock a;
  ok ← match ptr s with
       | None => ret true
       | Some h =>
           hs ← get_hn h;
           if isUpgraded hs then ret true
           else
             upgraded ← upgradeHttpClient a (host hs);
             if upgraded : bool then upd_hn h (set_isUpgraded true);; ret true
             else ret false
       end;
  if negb ok then ret (0, buff)
  else
    buff ← lift (str_concat BUFF_SIZE buff HN_MSG_END);
    r ← sock_write a buff;
    ret (r, buff).

(** The bytes received until the buffer ends with CR LF, is full, or nothing
    more comes. *)
Fixpoint receive_loop (k : nat) (a : addr) (max : Z) (acc : mem) : M mem :=
  match k with
  | O => fail NoFuel
  | S k' =>
      buff ← lift (buf_view BUFF_SIZE acc);
      l ← get w_log;
      ends ← lift (str_endswith (os_below l) buff HN_MSG_END);
      if negb ends && bool_decide (zlen acc < max) then
        '(read, d) ← sock_read a (max - zlen acc);
        if bool_decide (read <= 0) then ret acc
        else receive_loop k' a max (acc ++ d)
      else ret acc
  end.

(** The returned int and what [buff] holds. *)
Definition hn_receiveMsg (a : addr) (max : Z) : M (Z * cstr) :=
  acc ← receive_loop (S (Z.to_nat max)) a max [];
  buff ← lift (buf_view BUFF_SIZE acc);
  l ← get w_log;
  ends ← lift (str_endswith (os_below l) buff HN_MSG_END);
  if negb ends then ret (0, buff)
  else if bool_decide (str_len buff < str_len HN_MSG_END) then fail BufOverflow
  else ret (zlen acc - str_len HN_MSG_END,
            take (Z.to_nat (str_len buff - str_len HN_MSG_END)) buff).
End Messages.

(** ** HNSocket utilities *)

(** malloc, bzero and the links of [hn_sockInit]. *)
Definition hn_sockInit (s : addr) (mode0 : Z) (upgraded : bool) : M addr :=
  h ← new_hn (mkHnSocket s mode0 upgraded [] (mkRelay None false [] [])
                (mkListenNotif [] [] map_init));
  upd_sock s (set_ptr (Some h));;
  ret h.

(** The loop over the waiting sockets of a listener. *)
Fixpoint done_waiting (items : list (Item addr)) : M unit :=
  match items with
  | [] => ret tt
  | i :: r =>
      waiting ← get_hn (value i);
      _ ← sock_done (sock waiting);
      done_waiting r
  end.

(** [ctx] tells whether a context was passed. *)
Definition hn_sockCleanup (h : addr) (ctx : bool) : M unit :=
  hs ← get_hn h;
  (if bool_decide (hn_mode hs = SOCK_MODE_RELAY) then
     match next (relay hs) with
     | Some n => _ ← sock_done n; ret tt
     | None => ret tt
     end;;
     if isWaiting (relay hs) && ctx
     then _ ← removeWaitingSocket (relay_listenId (relay hs)) (otp (relay hs)); ret tt
     else ret tt
   else if bool_decide (hn_mode hs = SOCK_MODE_LISTEN) then
     done_waiting (start (waitingSocks (listen_ hs)));;
     upd_hn h (set_waiting map_init);;
     when ctx (upd_context (fun cx =>
       set_listeningSocks (snd (fst (map_del (listeningSocks cx) (listenId (listen_ hs)) false))) cx))
   else if bool_decide (hn_mode hs = SOCK_MODE_LISTEN_OUT) then
     when ctx (upd_context (fun cx => set_rl None (rlRetries cx) (rlLastRetry cx) cx))
   else ret tt);;
  free_hn h.

Definition sock_destroy (a : addr) (ctx : bool) : M unit :=
  s ← get_sock a;
  match ptr s with Some h => hn_sockCleanup h ctx | None => ret tt end;;
  upd_sock a (set_ptr None);;
  _ ← sock_close a;
  sock_cleanup a;;
  free_sock a.

Definition createTcpSocket : M addr := new_sock (sock_init TCPSOCKET (-1)).

Section Auth.
Context `{Os} `{Fuel}.

Definition sock_readDump (a : addr) : M unit :=
  '(_, d) ← sock_read a BUFF_SIZE;
  _ ← lift (buf_view BUFF_SIZE d);
  ret tt.

(** The result, and what [buff] holds. *)
Definition authThrowChallenge `{Rand} (a : addr) (keyStore : Map cstr) : M (bool * cstr) :=
  now ← sys_time;
  seed ← get w_mySeed;
  '(buff, nonce, seed) ← lift (generateAuthChallenge now seed);
  modify (set_mySeed seed);;
  '(r, buff) ← hn_sendMsg a buff;
  if bool_decide (r <= 0) then ret (false, buff)
  else
    '(r, buff) ← hn_receiveMsg a BUFF_SIZE;
    if bool_decide (r <= 0) then ret (false, buff)
    else
      ok ← lift (verifyAuthRespFromMap buff nonce keyStore);
      ret (ok, buff).

(** [nonce[200]] *)
Definition authSolve (buff : cstr) (a : addr) (key salt password : option cstr)
  : M (bool * cstr) :=
  auth ← lift (str_startswith buff $"AUTH ");
  '(go, buff) ←
    (if auth : bool then ret (None, buff)
     else
       '(read, buff) ← hn_receiveMsg a BUFF_SIZE;
       if bool_decide (read <= 0) then ret (Some false, buff)
       else
         auth ← lift (str_startswith buff $"AUTH ");
         ret (if auth : bool then None else Some true, buff));
  match go with
  | Some r => ret (r, buff)
  | None =>
      nonce ← lift (str_substring 200 buff 5 (-1));
      resp ← lift match password with
                  | Some p => generateAuthRespFromPassword nonce p
                  | None => generateAuthResp nonce key salt
                  end;
      '(write, buff) ← hn_sendMsg a resp;
      if bool_decide (write <= 0) then ret (false, buff)
      else
        '(read, buff) ← hn_receiveMsg a BUFF_SIZE;
        ret (negb (bool_decide (read <= 0)), buff)
  end.
End Auth.
