(* ===== verification/Messages.v ===== *)
(** * Messages on a blocking socket

    The framing of the protocol: a message is what precedes CR LF, whatever
    pieces the system delivers it in, provided it is shorter than the buffer.
    [delivers] says what recv() returns; the theorems are about [hn_sendMsg]
    and [hn_receiveMsg]. *)
From S2P Require Import Prelude CString Str Containers Buffer IpAddr Auth ConfigFile.
From S2P Require Import Config Os Socket Store Protocol.

(** What lies below a buffer on the stack does not complete a terminator. *)
Class QuietStack `{Os} :=
  below_quiet : forall l s, zlen s < 2 -> suffixb HN_MSG_END (os_below l ++ s) = false.

(** The next calls of recv() on [f], with room for [room] bytes, return the
    pieces. *)
Fixpoint delivers `{Os} (l : log_t) (f room : Z) (chunks : list mem) : Prop :=
  match chunks with
  | [] => True
  | c :: r => c <> [] /\ os_recv l f room = RecvData c /\
              delivers (EvRecv f (RecvData c) :: l) f (room - zlen c) r
  end.

Definition log_recv (f : Z) (chunks : list mem) (l : log_t) : log_t :=
  foldl (fun l c => EvRecv f (RecvData c) :: l) l chunks.

(** No CR LF before the one at the end. *)
Definition one_line (msg : cstr) : Prop := forall u v, msg <> u ++ HN_MSG_END ++ v.

(** ** Lemmas: buffers and terminators *)

Lemma buf_view_ok cap d : no_nul d -> zlen d < cap -> buf_view cap d = Ok d.
Proof.
  intros Hn Hl. unfold buf_view. rewrite bool_decide_true by lia.
  destruct (Z.to_nat (cap - zlen d)) as [|k] eqn:E; [lia|]. cbn [replicate].
  by rewrite cview_app.
Qed.

(** A full buffer without a NUL is no string. *)
Lemma buf_view_full d : no_nul d -> buf_view (zlen d) d = Fail OutOfBounds.
Proof.
  intros Hn. unfold buf_view. rewrite bool_decide_true by lia.
  rewrite Z.sub_diag. cbn [Z.to_nat replicate]. rewrite app_nil_r. unfold cview.
  by rewrite bool_decide_false by by apply no_nul_not_elem.
Qed.

Lemma HN_MSG_END_no_nul : no_nul HN_MSG_END.
Proof. by repeat constructor. Qed.

Lemma zlen_HN_MSG_END : zlen HN_MSG_END = 2.
Proof. reflexivity. Qed.

Lemma ends_short s : zlen s < 2 -> suffixb HN_MSG_END s = false.
Proof.
  intros Hs. unfold suffixb. rewrite bool_decide_false; [done|].
  change (length HN_MSG_END) with 2%nat. unfold zlen in Hs. lia.
Qed.

(** A proper prefix of a terminated line is not terminated. *)
Lemma one_line_prefix msg p q :
  one_line msg -> msg ++ HN_MSG_END = p ++ q -> q <> [] -> suffixb HN_MSG_END p = false.
Proof.
  intros Hl E Hq. destruct (suffixb HN_MSG_END p) eqn:Ep; [|done]. exfalso.
  apply suffixb_spec in Ep as [u ->].
  destruct (exists_last Hq) as (q' & x & ->).
  rewrite app_assoc in E. change HN_MSG_END with ([CR] ++ [LF]) in E at 1.
  rewrite app_assoc in E. apply app_inj_tail in E as [E <-].
  destruct q' as [|y q' _] using rev_ind.
  - rewrite app_nil_r in E. change HN_MSG_END with ([CR] ++ [LF]) in E. rewrite app_assoc in E.
    by apply app_inj_tail in E as [_ ?].
  - rewrite app_assoc in E. apply app_inj_tail in E as [E _]. rewrite <- app_assoc in E. by apply (Hl u q').
Qed.

Section Receive.
Context `{Os} `{!OsLaws} `{!QuietStack} `{Fuel}.

(** With the hypothesis on the stack the test of the code is the suffix test. *)
Lemma ends_ok l s : str_endswith (os_below l) s HN_MSG_END = Ok (suffixb HN_MSG_END s).
Proof.
  destruct (decide (zlen s < 2)) as [Hs|Hs].
  - rewrite ends_short by done. pose proof (below_two l). pose proof (zlen_nonneg s).
    rewrite str_endswith_gen by (first [apply HN_MSG_END_no_nul | rewrite zlen_HN_MSG_END; lia]).
    f_equal. pose proof (below_quiet l s Hs) as Hq. unfold suffixb in Hq.
    rewrite bool_decide_true, length_app in Hq; [exact Hq|].
    rewrite length_app. change (length HN_MSG_END) with 2%nat. unfold zlen in *. lia.
  - apply str_endswith_spec; [apply HN_MSG_END_no_nul|rewrite zlen_HN_MSG_END; lia].
Qed.

(** The loop over the pieces, up to the point where it looks at the buffer
    with all of them. *)
Lemma receive_loop_chunks k a s max acc chunks w :
  w_socks w !! a = Some s -> isAlive s <> SOCKET_DEAD -> isBlocking s = true ->
  max <= BUFF_SIZE -> no_nul (acc ++ concat chunks) ->
  zlen (acc ++ concat chunks) <= max -> delivers (w_log w) (fd s) (max - zlen acc) chunks ->
  (forall p x r, concat chunks = p ++ x :: r -> suffixb HN_MSG_END (acc ++ p) = false) ->
  receive_loop (length chunks + k) a max acc w
  = receive_loop k a max (acc ++ concat chunks) (set_log (log_recv (fd s) chunks (w_log w)) w).
Proof.
  revert acc w. induction chunks as [|c chunks IH]; intros acc w Ha Hal Hb Hm Hn Hz Hd Hp.
  { cbn. rewrite app_nil_r. by destruct w. }
  cbn [delivers] in Hd. destruct Hd as (Hc & Hr & Hd). cbn [concat] in *.
  destruct c as [|x c]; [done|]. set (c0 := x :: c) in *.
  assert (Hc0 : 0 < zlen c0) by (unfold c0; rewrite zlen_cons; pose proof (zlen_nonneg c); lia).
  pose proof (zlen_nonneg (concat chunks)). rewrite !zlen_app in Hz.
  change (length (c0 :: chunks) + k)%nat with (S (length chunks + k)). cbn [receive_loop].
  rewrite buf_view_ok; [| |lia].
  2: { apply no_nul_app in Hn. by destruct Hn. }
  run. rewrite ends_ok.
  assert (suffixb HN_MSG_END acc = false) as ->.
  { pose proof (Hp [] x (c ++ concat chunks)) as E. rewrite app_nil_r in E. by apply E. }
  rewrite (bool_decide_true (zlen acc < max)) by lia. cbn [negb andb].
  unfold sock_read, get_sock. run. rewrite Ha, bool_decide_false, Hb by done.
  unfold sys_recv. run. rewrite Hr. rewrite bool_decide_false by lia.
  assert (E : forall y, acc ++ c0 ++ y = (acc ++ c0) ++ y) by (intros; by rewrite app_assoc).
  rewrite (IH (acc ++ c0)); [by rewrite E|done|done|done|done| | | |].
  - by rewrite <- E.
  - rewrite !zlen_app. lia.
  - rewrite zlen_app. cbn [w_log set_log].
    replace (max - (zlen acc + zlen c0)) with (max - zlen acc - zlen c0) by lia. done.
  - intros p y r E'. rewrite <- app_assoc. apply (Hp _ y r). by rewrite E', app_assoc.
Qed.

Lemma length_chunks l f room chunks : delivers l f room chunks -> (length chunks <= length (concat chunks))%nat.
Proof.
  revert l room. induction chunks as [|c r IH]; intros l room; [done|]. cbn [delivers].
  intros (Hc & _ & Hd). cbn [concat length]. rewrite length_app. apply IH in Hd.
  destruct c; [done|]. cbn. lia.
Qed.

(** A whole line is received as the message before its terminator. *)
Lemma hn_receiveMsg_line a s msg chunks w :
  w_socks w !! a = Some s -> isAlive s <> SOCKET_DEAD -> isBlocking s = true ->
  no_nul msg -> one_line msg -> zlen msg + 2 < BUFF_SIZE ->
  concat chunks = msg ++ HN_MSG_END -> delivers (w_log w) (fd s) BUFF_SIZE chunks ->
  hn_receiveMsg a BUFF_SIZE w
  = Ok ((zlen msg, msg), set_log (log_recv (fd s) chunks (w_log w)) w).
Proof.
  intros Ha Hal Hb Hn Hl Hz Hc Hd. pose proof (zlen_nonneg msg).
  assert (Hn' : no_nul (msg ++ HN_MSG_END)) by (apply no_nul_app; split; [done|apply HN_MSG_END_no_nul]).
  assert (Hz' : zlen (msg ++ HN_MSG_END) = zlen msg + 2) by by rewrite zlen_app, zlen_HN_MSG_END.
  assert (Hk : (length chunks < S (Z.to_nat BUFF_SIZE))%nat).
  { apply length_chunks in Hd. rewrite Hc in Hd. unfold zlen in *. lia. }
  assert (Hend : suffixb HN_MSG_END (msg ++ HN_MSG_END) = true) by (apply suffixb_spec; by exists msg).
  unfold hn_receiveMsg.
  replace (S (Z.to_nat BUFF_SIZE)) with (length chunks + S (Z.to_nat BUFF_SIZE - length chunks))%nat by lia.
  pose proof (receive_loop_chunks (S (Z.to_nat BUFF_SIZE - length chunks)) a s BUFF_SIZE [] chunks w) as E.
  cbn [app] in E. rewrite Hc in E. unfold mbind at 1, M_bind at 1. rewrite E; try done.
  - cbn [receive_loop]. rewrite buf_view_ok by (done || lia). run. rewrite ends_ok, Hend. cbn [negb andb].
    rewrite buf_view_ok by (done || lia). rewrite ends_ok, Hend. cbn [negb]. unfold str_len.
    rewrite Hz', zlen_HN_MSG_END, bool_decide_false by lia.
    replace (zlen msg + 2 - 2) with (zlen msg) by lia. unfold zlen. rewrite Nat2Z.id.
    by rewrite take_app_length.
  - lia.
  - intros p x r E'. eapply one_line_prefix; [done|exact E'|done].
Qed.

(** A buffer filled without a terminator is read past its end. *)
Lemma hn_receiveMsg_full a s chunks w :
  w_socks w !! a = Some s -> isAlive s <> SOCKET_DEAD -> isBlocking s = true ->
  no_nul (concat chunks) -> zlen (concat chunks) = BUFF_SIZE ->
  (forall p x r, concat chunks = p ++ x :: r -> suffixb HN_MSG_END p = false) ->
  delivers (w_log w) (fd s) BUFF_SIZE chunks ->
  hn_receiveMsg a BUFF_SIZE w = Fail OutOfBounds.
Proof.
  intros Ha Hal Hb Hn Hz Hp Hd. assert (Hk : (length chunks <= Z.to_nat BUFF_SIZE)%nat).
  { apply length_chunks in Hd. unfold zlen in *. lia. }
  unfold hn_receiveMsg.
  replace (S (Z.to_nat BUFF_SIZE)) with (length chunks + S (Z.to_nat BUFF_SIZE - length chunks))%nat by lia.
  unfold mbind at 1, M_bind at 1. rewrite (receive_loop_chunks _ a s); try done; [|by cbn [app]; lia].
  cbn [receive_loop app]. pose proof (buf_view_full _ Hn) as E. rewrite Hz in E. unfold mbind at 1, M_bind at 1, lift at 1. by rewrite E.
Qed.

(** ** Sending *)

(** A socket a message can be sent on without an upgrade first. *)
Definition upgraded (w : world) (s : Socket) : Prop :=
  forall h, ptr s = Some h -> exists hs, w_hsocks w !! h = Some hs /\ isUpgraded hs = true.

Lemma hn_sendMsg_blocking a s msg w :
  w_socks w !! a = Some s -> isAlive s <> SOCKET_DEAD -> isBlocking s = true ->
  upgraded w s -> zlen msg + 2 < BUFF_SIZE ->
  exists n l, hn_sendMsg a msg w = Ok ((n, msg ++ HN_MSG_END), set_log l w) /\
    0 <= n <= zlen msg + 2 /\
    sent (fd s) l = sent (fd s) (w_log w) ++ take (Z.to_nat n) (msg ++ HN_MSG_END) /\
    (forall g, g <> fd s -> sent g l = sent g (w_log w)) /\
    (forall g, received g l = received g (w_log w)).
Proof.
  intros Ha Hal Hb Hu Hz.
  destruct (sock_write_blocking a s (msg ++ HN_MSG_END) w Ha Hal Hb) as (n & l & E & Hn & Hs & Hg & Hr).
  rewrite zlen_app, zlen_HN_MSG_END in Hn. exists n, l. split_and!; try (done || lia).
  unfold hn_sendMsg, get_sock. run. rewrite Ha.
  assert (Hc : str_concat BUFF_SIZE msg HN_MSG_END = Ok (msg ++ HN_MSG_END)).
  { apply strcpy_ok. split; [done|]. rewrite zlen_app, zlen_HN_MSG_END. lia. }
  destruct (ptr s) as [h|] eqn:Ep.
  - destruct (Hu h Ep) as (hs & Eh & Eu). unfold get_hn. rewrite Eh, Eu. cbn [negb].
    rewrite Hc. by rewrite E.
  - cbn [negb]. rewrite Hc. by rewrite E.
Qed.
End Receive.

#[export] Instance demo_quiet chunk pieces : @QuietStack (demo_os chunk pieces).
Proof.
  intros l s Hs. cbn [os_below demo_os]. destruct s as [|x [|y s]].
  - reflexivity.
  - by destruct x as [[] [] [] [] [] [] [] []].
  - rewrite !zlen_cons in Hs. pose proof (zlen_nonneg s). lia.
Qed.

(** ** Properties *)

(** C16: a message sent over one blocking socket and delivered to another is
    received as it was sent, in whatever pieces: when [hn_sendMsg] reports that
    all of it went out, the bytes on the wire are the message and CR LF, and
    [hn_receiveMsg] returns exactly the message on every segmentation of these
    bytes. *)
Theorem hn_message_round_trip `{Os} `{!OsLaws} `{!QuietStack} `{Fuel}
    (a a2 : addr) (s s2 : Socket) (msg : cstr) (w w2 : world)
    (Ha : w_socks w !! a = Some s) (Hal : isAlive s <> SOCKET_DEAD) (Hb : isBlocking s = true)
    (Hup : upgraded w s)
    (Ha2 : w_socks w2 !! a2 = Some s2) (Hal2 : isAlive s2 <> SOCKET_DEAD)
    (Hb2 : isBlocking s2 = true)
    (Hnul : no_nul msg) (Hline : one_line msg) (Hlen : zlen msg + 2 < BUFF_SIZE) :
  exists n buff l wire, hn_sendMsg a msg w = Ok ((n, buff), set_log l w) /\
    sent (fd s) l = sent (fd s) (w_log w) ++ wire /\
    (n = zlen msg + 2 -> forall chunks, concat chunks = wire ->
       delivers (w_log w2) (fd s2) BUFF_SIZE chunks ->
       hn_receiveMsg a2 BUFF_SIZE w2
       = Ok ((zlen msg, msg), set_log (log_recv (fd s2) chunks (w_log w2)) w2)).
Proof.
  destruct (hn_sendMsg_blocking a s msg w Ha Hal Hb Hup Hlen) as (n & l & E & Hn & Hs & _).
  exists n, (msg ++ HN_MSG_END), l, (take (Z.to_nat n) (msg ++ HN_MSG_END)).
  split_and!; [done|done|]. intros -> chunks Hc Hd.
  apply (hn_receiveMsg_line a2 s2); try done. rewrite Hc. apply take_ge.
  rewrite length_app. change (length HN_MSG_END) with 2%nat. unfold zlen. lia.
Qed.

Lemma hn_message_round_trip_witness :
  let os := demo_os 100 [$"HN1.0/QU"; $"ERY tv" ++ [CR]; [LF]] in
  let s := demo_sock 7 true (buffer_init [] 0) in
  exists n buff l wire,
    @hn_sendMsg os 1%nat 1%positive $"HN1.0/QUERY tv" (demo_heap s) = Ok ((n, buff), set_log l (demo_heap s)) /\
    sent (fd s) l = sent (fd s) (w_log (demo_heap s)) ++ wire /\
    (n = zlen $"HN1.0/QUERY tv" + 2 -> forall chunks, concat chunks = wire ->
       @delivers os (w_log (demo_heap s)) (fd s) BUFF_SIZE chunks ->
       @hn_receiveMsg os 1%positive BUFF_SIZE (demo_heap s)
       = Ok ((zlen $"HN1.0/QUERY tv", $"HN1.0/QUERY tv"),
             set_log (log_recv (fd s) chunks (w_log (demo_heap s))) (demo_heap s))).
Proof.
  intros os s. apply (@hn_message_round_trip os (demo_os_laws _ _) (demo_quiet _ _) 1%nat);
    try reflexivity; try discriminate.
  - by repeat constructor.
  - intros u v E. apply (f_equal (fun x => bool_decide (CR ∈ x))) in E.
    rewrite (bool_decide_true (CR ∈ u ++ _)) in E; [discriminate E|].
    apply elem_of_app. right. apply list_elem_of_here.
Defined.

(** a peer that sends as many bytes as the buffer holds, without a
    terminator in them, makes [hn_receiveMsg] read past the end of the
    buffer. *)
Theorem hn_receiveMsg_overlong `{Os} `{!OsLaws} `{!QuietStack} (a : addr) (s : Socket)
    (chunks : list mem) (w : world)
    (Ha : w_socks w !! a = Some s) (Hal : isAlive s <> SOCKET_DEAD) (Hb : isBlocking s = true)
    (Hnul : no_nul (concat chunks)) (Hlen : zlen (concat chunks) = BUFF_SIZE)
    (Hline : one_line (concat chunks)) (Hd : delivers (w_log w) (fd s) BUFF_SIZE chunks) :
  hn_receiveMsg a BUFF_SIZE w = Fail OutOfBounds.
Proof.
  apply (hn_receiveMsg_full a s chunks); try done. intros p x r E.
  apply (one_line_prefix (concat chunks) p (x :: r ++ HN_MSG_END)); [done| |done].
  by rewrite E, <- app_assoc.
Qed.

Lemma hn_receiveMsg_overlong_witness :
  let s := demo_sock 7 true (buffer_init [] 0) in
  @hn_receiveMsg (demo_os 1 [replicate 600 "x"%char]) 1%positive BUFF_SIZE (demo_heap s)
  = Fail OutOfBounds.
Proof.
  intros s. apply (@hn_receiveMsg_overlong (demo_os 1 [replicate 600 "x"%char]) (demo_os_laws _ _)
    (demo_quiet _ _) 1%positive s [replicate 600 "x"%char]); try reflexivity; try discriminate.
  - by repeat constructor.
  - intros u v E. apply (f_equal (fun x => bool_decide (CR ∈ x))) in E.
    rewrite (bool_decide_true (CR ∈ u ++ _)) in E; [discriminate E|].
    apply elem_of_app. right. apply list_elem_of_here.
  - split_and!; [discriminate|reflexivity|exact I].
Defined.
