(* ===== verification/Frame.v ===== *)
(** * What input and output leave alone

    Sending, receiving and authenticating change the log, the buffers and
    flags of sockets, and whether an hn_Socket has been upgraded. They change
    neither which objects exist nor how they are linked, nor the configuration,
    the watched list or the relays. [Keeps] states it of a computation; the
    tactic [keeps] proves it along the structure of the code. *)
From S2P Require Import Prelude CString Str Containers Buffer IpAddr Auth ConfigFile.
From S2P Require Import Config Os Socket Store Protocol.

(** The part of an object that only the relay and store code changes. *)
Definition sock_core (s : Socket) := (fd s, type s, isServer s, ptr s).
Definition hn_core (h : hn_Socket) := (sock h, hn_mode h, host h, relay h, listen_ h).

Record frame (w w' : world) : Prop := {
  fr_next : w_next w' = w_next w;
  fr_conf : w_conf w' = w_conf w;
  fr_list : w_sockList w' = w_sockList w;
  fr_wait : w_wait w' = w_wait w;
  fr_recall : w_isRecall w' = w_isRecall w;
  fr_socks : forall a, sock_core <$> w_socks w' !! a = sock_core <$> w_socks w !! a;
  fr_hsocks : forall a, hn_core <$> w_hsocks w' !! a = hn_core <$> w_hsocks w !! a }.

#[global] Instance frame_preorder : PreOrder frame.
Proof.
  split.
  - intros w. by split.
  - intros w1 w2 w3 [] []. split; try congruence; intros a; etrans; eauto.
Qed.

(** ** Relations between the states before and after a computation *)

Class Preserves (R : relation world) {A} (m : M A) : Prop :=
  preserves w a w' : m w = Ok (a, w') -> R w w'.

Section Rules.
Context (R : relation world) `{!PreOrder R} {A B : Type}.

Lemma preserves_ret (a : A) : Preserves R (ret a).
Proof. by intros w b w' [= <- <-]. Qed.

Lemma preserves_fail f : Preserves R (fail (A := A) f).
Proof. by intros w b w'. Qed.

Lemma preserves_lift (o : outcome A) : Preserves R (lift o).
Proof. intros w b w'. unfold lift. destruct o; by intros [= <- <-]. Qed.

Lemma preserves_get (f : world -> A) : Preserves R (get f).
Proof. by intros w b w' [= <- <-]. Qed.

Lemma preserves_bind (m : M A) (f : A -> M B) :
  Preserves R m -> (forall a, Preserves R (f a)) -> Preserves R (m ≫= f).
Proof.
  intros Hm Hf w b w' E. apply M_bind_inv in E as (a & w1 & E1 & E2).
  etrans; [by eapply Hm|by eapply Hf].
Qed.

Lemma preserves_modify (f : world -> world) : (forall w, R w (f w)) -> Preserves R (modify f).
Proof. intros Hf w b w' [= <- <-]. apply Hf. Qed.

Lemma preserves_get_sock a : Preserves R (get_sock a).
Proof. intros w s w'. unfold get_sock. destruct (_ !! a); by intros [= <- <-]. Qed.

Lemma preserves_get_hn a : Preserves R (get_hn a).
Proof. intros w s w'. unfold get_hn. destruct (_ !! a); by intros [= <- <-]. Qed.

Lemma preserves_upd_sock a f :
  (forall w s, w_socks w !! a = Some s -> R w (set_socks (<[a := f s]> (w_socks w)) w)) ->
  Preserves R (upd_sock a f).
Proof. intros Hf w u w'. unfold upd_sock. destruct (_ !! a) eqn:E; [|done]. intros [= <- <-]. by apply Hf. Qed.

Lemma preserves_upd_hn a f :
  (forall w h, w_hsocks w !! a = Some h -> R w (set_hsocks (<[a := f h]> (w_hsocks w)) w)) ->
  Preserves R (upd_hn a f).
Proof. intros Hf w u w'. unfold upd_hn. destruct (_ !! a) eqn:E; [|done]. intros [= <- <-]. by apply Hf. Qed.

Lemma preserves_free_sock a :
  (forall w, R w (set_socks (delete a (w_socks w)) w)) -> Preserves R (free_sock a).
Proof. intros Hf w u w'. unfold free_sock. destruct (_ !! a); [|done]. intros [= <- <-]. by apply Hf. Qed.

Lemma preserves_free_hn a :
  (forall w, R w (set_hsocks (delete a (w_hsocks w)) w)) -> Preserves R (free_hn a).
Proof. intros Hf w u w'. unfold free_hn. destruct (_ !! a); [|done]. intros [= <- <-]. by apply Hf. Qed.
End Rules.

Create HintDb preserves.
#[export] Hint Resolve preserves_ret preserves_fail preserves_lift preserves_get preserves_get_sock
  preserves_get_hn : preserves.

(** Follow the structure of the code; [leaf] proves the relation for a change
    of the state. *)
Ltac preserve_step leaf :=
  match goal with
  | |- Preserves _ (_ ≫= _) => apply preserves_bind; [apply _| |intros ?]
  | |- Preserves _ (match ?x with _ => _ end) => destruct x
  | |- Preserves _ (if ?b then _ else _) => destruct b
  | |- Preserves _ (logged _) => apply preserves_modify; intros ?; leaf
  | |- Preserves _ (modify _) => apply preserves_modify; intros ?; leaf
  | |- Preserves _ (upd_sock _ _) => apply preserves_upd_sock; intros; leaf
  | |- Preserves _ (upd_hn _ _) => apply preserves_upd_hn; intros; leaf
  | |- Preserves _ (when true _) => cbn [when]
  | |- Preserves _ (when false _) => cbn [when]
  | |- Preserves _ (when ?b _) => destruct b; cbn [when]
  | |- Preserves _ (deref_M _) => unfold deref_M
  | |- Preserves _ (let _ := _ in _) => cbv zeta
  | |- Preserves _ _ => solve [auto with preserves typeclass_instances]
  end.

(** ** The frame *)

Abbreviation Keeps := (Preserves frame).

Lemma frame_upd_sock a w s s' :
  w_socks w !! a = Some s -> sock_core s' = sock_core s ->
  frame w (set_socks (<[a := s']> (w_socks w)) w).
Proof.
  intros E Hf. split; try done. intros x. cbn. destruct (decide (x = a)) as [->|Hx].
  - rewrite lookup_insert_eq, E. cbn. by rewrite Hf.
  - by rewrite lookup_insert_ne.
Qed.

Lemma frame_upd_hn a w h h' :
  w_hsocks w !! a = Some h -> hn_core h' = hn_core h ->
  frame w (set_hsocks (<[a := h']> (w_hsocks w)) w).
Proof.
  intros E Hf. split; try done. intros x. cbn. destruct (decide (x = a)) as [->|Hx].
  - rewrite lookup_insert_eq, E. cbn. by rewrite Hf.
  - by rewrite lookup_insert_ne.
Qed.

Ltac frame_leaf := first
  [ by split | eapply frame_upd_sock; [eassumption|reflexivity]
  | eapply frame_upd_hn; [eassumption|reflexivity] ].
Ltac keeps := repeat preserve_step frame_leaf.

Lemma keeps_sys_close f : Keeps (sys_close f).
Proof. unfold sys_close. keeps. Qed.
#[export] Hint Resolve keeps_sys_close : preserves.

Lemma keeps_sock_close a : Keeps (sock_close a).
Proof. unfold sock_close. keeps. Qed.
#[export] Hint Resolve keeps_sock_close : preserves.

Lemma keeps_sock_done a : Keeps (sock_done a).
Proof. unfold sock_done. keeps. Qed.
#[export] Hint Resolve keeps_sock_done : preserves.

Section IO.
Context `{Os} `{Fuel}.

Lemma keeps_sys_write f d : Keeps (sys_write f d).
Proof. unfold sys_write. keeps. Qed.
Lemma keeps_sys_recv f n : Keeps (sys_recv f n).
Proof. unfold sys_recv. keeps. Qed.
Lemma keeps_sys_time : Keeps sys_time.
Proof. unfold sys_time. keeps. Qed.
Hint Resolve keeps_sys_write keeps_sys_recv keeps_sys_time : preserves.

Lemma keeps_write_loop k f d n : Keeps (write_loop k f d n).
Proof. revert n. induction k as [|k IH]; intros n; cbn [write_loop]; keeps. Qed.
Hint Resolve keeps_write_loop : preserves.

Lemma keeps_flush_loop k b f c x y : Keeps (flush_loop k b f c x y).
Proof. revert c x y. induction k as [|k IH]; intros c x y; cbn [flush_loop]; keeps. Qed.
Hint Resolve keeps_flush_loop : preserves.

Lemma keeps_store_loop k a f d n : Keeps (store_loop k a f d n).
Proof. revert n. induction k as [|k IH]; intros n; cbn [store_loop]; keeps.
Qed.
Hint Resolve keeps_store_loop : preserves.

Lemma keeps_sock_flush a : Keeps (sock_flush a).
Proof. unfold sock_flush. keeps. Qed.
Hint Resolve keeps_sock_flush : preserves.

Lemma keeps_sock_write a d : Keeps (sock_write a d).
Proof. unfold sock_write. keeps. Qed.
Hint Resolve keeps_sock_write : preserves.

Lemma keeps_read_loop k a f max acc : Keeps (read_loop k a f max acc).
Proof. revert acc. induction k as [|k IH]; intros acc; cbn [read_loop]; keeps. Qed.
Hint Resolve keeps_read_loop : preserves.

Lemma keeps_sock_read a max : Keeps (sock_read a max).
Proof. unfold sock_read. keeps. Qed.
Hint Resolve keeps_sock_read : preserves.

Lemma keeps_upgradeHttpClient a host : Keeps (upgradeHttpClient a host).
Proof. unfold upgradeHttpClient. keeps. Qed.
Hint Resolve keeps_upgradeHttpClient : preserves.

Lemma keeps_hn_sendMsg a buff : Keeps (hn_sendMsg a buff).
Proof. unfold hn_sendMsg. keeps. Qed.

Lemma keeps_receive_loop k a max acc : Keeps (receive_loop k a max acc).
Proof. revert acc. induction k as [|k IH]; intros acc; cbn [receive_loop]; keeps. Qed.
Hint Resolve keeps_receive_loop : preserves.

Lemma keeps_hn_receiveMsg a max : Keeps (hn_receiveMsg a max).
Proof. unfold hn_receiveMsg. keeps. Qed.
Hint Resolve keeps_hn_sendMsg keeps_hn_receiveMsg : preserves.

Lemma keeps_gen_code `{Rand} cap n : Keeps (gen_code cap n).
Proof. unfold gen_code. keeps. Qed.

Lemma keeps_authThrowChallenge `{Rand} a store : Keeps (authThrowChallenge a store).
Proof. unfold authThrowChallenge. keeps. Qed.

Lemma keeps_authSolve buff a key salt password : Keeps (authSolve buff a key salt password).
Proof. unfold authSolve. keeps. Qed.
End IO.

#[export] Hint Resolve keeps_sys_write keeps_sys_recv keeps_sys_time keeps_sock_write keeps_sock_read
  keeps_hn_sendMsg keeps_hn_receiveMsg keeps_gen_code keeps_authThrowChallenge
  keeps_authSolve : preserves.
