(* ===== verification/WaitFacts.v ===== *)
(** * What the event loop reports

    The scan of the watched sockets before select(), the order in which events
    are handed out, and the removal of closed sockets. *)
From S2P Require Import Prelude CString Str Containers Buffer IpAddr Auth ConfigFile.
From S2P Require Import Config Os Socket WaitLoop Store Protocol Frame.

(** ** Lemmas *)

(** A socket that is open and not about to be closed. *)
Definition open_sock (w : world) (a : addr) : Prop :=
  exists s, w_socks w !! a = Some s /\ isAlive s = SOCKET_ALIVE.

Definition sock_of (w : world) (a : addr) : Socket := default (sock_init TCPSOCKET (-1)) (w_socks w !! a).
Definition wants_read (w : world) (a : addr) : bool := listenForReadable (sock_of w a).
Definition wants_write (w : world) (a : addr) : bool :=
  bool_decide (type (sock_of w a) = TCPSOCKET) && listenForWritable (sock_of w a).
Definition fds (w : world) (p : addr -> bool) (l : list addr) : list Z :=
  (fun a => fd (sock_of w a)) <$> List.filter p l.

Lemma list_socks_ok w l :
  lstart (w_sockList w) = l -> l <> [] -> list_socks w = Ok (l, w).
Proof.
  intros E Hl. unfold list_socks. run. unfold list_forEach. rewrite E. by destruct l.
Qed.

Section Wait.
Context `{Os} `{Fuel}.

(** The walk over open sockets collects what they wait for. *)
Lemma collect_fds_open l rest r wr w :
  Forall (open_sock w) l ->
  collect_fds (l ++ rest) r wr w
  = collect_fds rest (rev (fds w (wants_read w) l) ++ r) (rev (fds w (wants_write w) l) ++ wr) w.
Proof.
  revert r wr. induction l as [|a l IH]; intros r wr Hl; [done|].
  inversion_clear Hl as [|? ? (s & Ha & Hal) Hl']. cbn [app collect_fds].
  unfold get_sock. run. rewrite Ha, Hal. rewrite !bool_decide_false by done.
  cbv zeta. rewrite Ha, IH by done. unfold fds. cbn [List.filter].
  assert (E : sock_of w a = s) by (unfold sock_of; by rewrite Ha).
  unfold wants_read at 2, wants_write at 2. rewrite E.
  destruct (listenForReadable s), (bool_decide (type s = TCPSOCKET) && listenForWritable s);
    rewrite ?fmap_cons; cbn [rev]; rewrite ?E, <- ?app_assoc; done.
Qed.

(** What the walk does on the way to the first readable socket: the sockets that
    select() found writable send what they have buffered. *)
Fixpoint flush_writable (l : list addr) : M unit :=
  match l with
  | [] => ret tt
  | b :: rest =>
      s ← get_sock b;
      st ← get w_wait;
      (if fd_isset (fd s) (writeSet st) then done_write (fd s);; _ ← sock_write b []; ret tt else ret tt);;
      flush_writable rest
  end.

(** Writing to a socket leaves the other ones alone. *)
Definition only_sock (a : addr) (w w' : world) : Prop := forall b, b <> a -> w_socks w' !! b = w_socks w !! b.
#[local] Instance only_sock_preorder a : PreOrder (only_sock a).
Proof. split; [by intros w b|]. intros w1 w2 w3 H1 H2 b Hb. by rewrite H2, H1. Qed.
Ltac only_leaf := intros ? ?; cbn; by rewrite ?lookup_insert_ne by done.
Ltac alone := repeat preserve_step only_leaf.
Lemma only_sys_write a f d : Preserves (only_sock a) (sys_write f d).
Proof. unfold sys_write. alone. Qed.
#[local] Hint Resolve only_sys_write : preserves.
Lemma only_write_loop a k f d n : Preserves (only_sock a) (write_loop k f d n).
Proof. revert n. induction k as [|k IH]; intros n; cbn [write_loop]; alone. Qed.
Lemma only_flush_loop a k b f c x y : Preserves (only_sock a) (flush_loop k b f c x y).
Proof. revert c x y. induction k as [|k IH]; intros c x y; cbn [flush_loop]; alone. Qed.
#[local] Hint Resolve only_write_loop only_flush_loop : preserves.
Lemma only_store_loop a k f d n : Preserves (only_sock a) (store_loop k a f d n).
Proof. revert n. induction k as [|k IH]; intros n; cbn [store_loop]; alone. Qed.
Lemma only_sock_close a : Preserves (only_sock a) (sock_close a).
Proof. unfold sock_close, sys_close. alone. Qed.
Lemma only_sock_flush a : Preserves (only_sock a) (sock_flush a).
Proof. unfold sock_flush. alone. Qed.
#[local] Hint Resolve only_store_loop only_sock_close only_sock_flush : preserves.
Lemma only_sock_write a d : Preserves (only_sock a) (sock_write a d).
Proof. unfold sock_write. alone. Qed.

(** The number of sockets select() found writable. *)
Definition writable (w : world) (b : addr) : bool := fd_isset (fd (sock_of w b)) (writeSet (w_wait w)).
Definition writables (w : world) (l : list addr) : Z := zlen (List.filter (writable w) l).

Record flushed (l : list addr) (w w' : world) : Prop := {
  fl_read : readSet (w_wait w') = readSet (w_wait w);
  fl_remove : sockToRemove (w_wait w') = sockToRemove (w_wait w);
  fl_list : w_sockList w' = w_sockList w;
  fl_socks : forall a, a ∉ l -> w_socks w' !! a = w_socks w !! a;
  fl_fd : forall a, fd (sock_of w' a) = fd (sock_of w a);
  fl_write : forall f, f ∈ writeSet (w_wait w') -> f ∈ writeSet (w_wait w);
  fl_left : fdsToProcess (w_wait w) - writables w l <= fdsToProcess (w_wait w') }.

Lemma filter_le {A} (p q : A -> bool) l : (forall x, p x = true -> q x = true) ->
  zlen (List.filter p l) <= zlen (List.filter q l).
Proof.
  intros Hpq. unfold zlen. induction l as [|x l IH]; [done|]. cbn. specialize (Hpq x).
  destruct (p x), (q x); cbn; lia.
Qed.

Lemma writables_le w w' l : (forall a, fd (sock_of w' a) = fd (sock_of w a)) ->
  (forall f, f ∈ writeSet (w_wait w') -> f ∈ writeSet (w_wait w)) -> writables w' l <= writables w l.
Proof.
  intros Hf Hw. apply filter_le. intros x. unfold writable, fd_isset. rewrite !bool_decide_eq_true, Hf. apply Hw.
Qed.

Lemma flush_one b s w u w' : w_socks w !! b = Some s ->
  (if fd_isset (fd s) (writeSet (w_wait w)) then done_write (fd s);; _ ← sock_write b []; ret tt else ret tt) w
    = Ok (u, w') -> flushed [b] w w'.
Proof.
  intros Hs. assert (Hsb : sock_of w b = s) by (unfold sock_of; by rewrite Hs).
  unfold writables. destruct (fd_isset _ _) eqn:Hw.
  - intros E. apply M_bind_inv in E as (? & w2 & [= <- <-] & E).
    apply M_bind_inv in E as (? & w3 & E3 & [= <- <-]).
    pose proof (keeps_sock_write b [] _ _ _ E3) as [_ _ Fl Fw _ Fs _]. cbn in Fl, Fw, Fs.
    pose proof (only_sock_write b [] _ _ _ E3) as Fo. split; rewrite ?Fw; cbn; try done.
    + intros a Ha. apply Fo. intros ->. apply Ha, list_elem_of_here.
    + intros a. specialize (Fs a). unfold sock_of. destruct (w_socks w3 !! a), (w_socks w !! a); cbn in Fs |- *; try done.
      injection Fs as Fs. unfold sock_core in Fs. congruence.
    + intros f. unfold fd_clr. rewrite !list_elem_of_In, List.filter_In. tauto.
    + unfold writables, writable. cbn [List.filter]. rewrite Hsb, Hw. change (zlen [b]) with 1. lia.
  - intros [= _ <-]. split; try done. unfold writables, writable. cbn [List.filter]. rewrite Hsb, Hw. change (zlen []) with 0. lia.
Qed.

Lemma flushed_cons b l w w1 w2 : flushed [b] w w1 -> flushed l w1 w2 -> flushed (b :: l) w w2.
Proof.
  intros [R1 M1 L1 S1 F1 W1 N1] [R2 M2 L2 S2 F2 W2 N2]. split; [congruence..| | | |].
  - intros a Ha. rewrite not_elem_of_cons in Ha. destruct Ha as [Hb Hl]. rewrite S2 by done. apply S1.
    intros Hin. by apply list_elem_of_singleton in Hin.
  - intros a. by rewrite F2.
  - auto.
  - pose proof (writables_le w w1 l F1 W1). unfold writables in *. cbn in *.
    destruct (writable w b); rewrite ?zlen_cons in *; cbn in *; unfold zlen in *; cbn in *; lia.
Qed.

(** The walk over sockets that are not readable. *)
Lemma process_fds_flush l rest w w' :
  Forall (fun b => fd (sock_of w b) ∉ readSet (w_wait w)) l ->
  writables w l < fdsToProcess (w_wait w) -> flush_writable l w = Ok (tt, w') ->
  process_fds (l ++ rest) w = process_fds rest w' /\ flushed l w w'.
Proof.
  revert w. induction l as [|b l IH]; intros w Hl Hn E; cbn [flush_writable app process_fds] in *.
  { injection E as <-. split; [done|]. split; try done. unfold writables. cbn [List.filter]. change (zlen (@nil addr)) with 0. lia. }
  inversion_clear Hl as [|? ? Hb Hl'].
  apply M_bind_inv in E as (s & w0 & Es & E). unfold get_sock in Es.
  destruct (w_socks w !! b) as [s'|] eqn:Hs; [|done]. injection Es as -> <-.
  assert (Hsb : sock_of w b = s) by (unfold sock_of; by rewrite Hs). rewrite Hsb in Hb.
  apply M_bind_inv in E as (st & w0 & Est & E). injection Est as <- <-.
  apply M_bind_inv in E as ([] & w1 & E1 & E).
  pose proof (flush_one b s w tt w1 Hs E1) as Hf.
  assert (Hw1 : writables w (b :: l) = writables w [b] + writables w l).
  { unfold writables. cbn. destruct (writable w b); cbn; unfold zlen; cbn; lia. }
  pose proof (writables_le w w1 l (fl_fd _ _ _ Hf) (fl_write _ _ _ Hf)).
  pose proof (fl_left _ _ _ Hf). pose proof (zlen_nonneg (List.filter (writable w) [b])).
  pose proof (zlen_nonneg (List.filter (writable w) l)). unfold writables in *.
  destruct (IH w1) as [E2 Hf2]; [| |done|split; [|by eapply flushed_cons]].
  - eapply Forall_impl; [exact Hl'|]. intros x. by rewrite (fl_fd _ _ _ Hf), (fl_read _ _ _ Hf).
  - unfold writables. lia.
  - rewrite <- E2. rewrite (M_bind_ok _ _ w (w_wait w) w) by done. rewrite bool_decide_true by lia.
    rewrite (M_bind_ok _ _ w s w) by (unfold get_sock; by rewrite Hs). cbv zeta.
    rewrite (M_bind_ok _ _ w None w) by (unfold fd_isset; by rewrite bool_decide_false by done).
    rewrite (M_bind_ok _ _ w (w_wait w) w) by done. by rewrite (M_bind_ok _ _ w tt w1).
Qed.

(** The first readable socket: a listening one is asked for a connection. *)
Lemma sock_setNonBlocking_ok a s w : w_socks w !! a = Some s -> exists ok b l,
  sock_setNonBlocking a w = Ok (ok, set_log l (set_socks (<[a := set_isBlocking b s]> (w_socks w)) w)) /\
  ((forall l f, os_fcntl l f = true) -> b = false).
Proof.
  intros Ha. unfold sock_setNonBlocking, set_flags, get_sock. run. rewrite Ha. unfold sys_fcntl. run.
  assert (Hs : set_isBlocking (isBlocking s) s = s) by by destruct s.
  assert (Hi : forall l, set_log l w = set_log l (set_socks (<[a := s]> (w_socks w)) w)).
  { intros l. rewrite insert_id by done. by destruct w. }
  destruct (os_fcntl _ _) eqn:E1; cbn [negb].
  2:{ exists false, (isBlocking s). eexists. rewrite Hs, <- Hi. split; [done|]. intros H1. congruence. }
  match goal with |- context [os_fcntl ?l ?f] => destruct (os_fcntl l f) eqn:E2 end; cbn [negb].
  2:{ exists false, (isBlocking s). eexists. rewrite Hs, <- Hi. split; [done|]. intros H1. congruence. }
  unfold upd_sock. cbn [w_socks set_log]. rewrite Ha. by exists true, false; eexists.
Qed.

Lemma process_fds_here a rest w s : w_socks w !! a = Some s -> 0 < fdsToProcess (w_wait w) ->
  fd s ∈ readSet (w_wait w) ->
  if isServer s && bool_decide (type s = TCPSOCKET) then
    forall f ip, isAlive s = SOCKET_ALIVE -> os_accept (w_log w) (fd s) = Some (f, ip) ->
      exists b l, process_fds (a :: rest) w = Ok (Some (SOCK_EVENT_NEW, w_next w),
        set_log l (set_nextaddr (Pos.succ (w_next w)) (set_socks (<[w_next w :=
          set_isBlocking b (set_ipAddr ip (sock_init TCPSOCKET f))]> (w_socks w)) w))) /\
        ((forall l f, os_fcntl l f = true) -> b = false)
  else process_fds (a :: rest) w = Ok (Some (SOCK_EVENT_READ, a),
    set_wait (mkWait (fd_clr (fd s) (readSet (w_wait w))) (writeSet (w_wait w))
                (fdsToProcess (w_wait w) - 1) (sockToRemove (w_wait w))) w).
Proof.
  intros Ha Hn Hr. cbn [process_fds]. rewrite (M_bind_ok _ _ w (w_wait w) w) by done.
  rewrite (bool_decide_true (_ > 0)) by lia. rewrite (M_bind_ok _ _ w s w) by (unfold get_sock; by rewrite Ha).
  assert (Hset : fd_isset (fd s) (readSet (w_wait w)) = true) by by apply bool_decide_eq_true_2.
  cbv beta zeta. rewrite Hset. destruct (isServer s && _) eqn:Hsrv; [|done]. apply andb_true_iff in Hsrv as [Hsrv _].
  intros f ip Hal Hacc. set (ns := set_ipAddr ip (sock_init TCPSOCKET f)).
  set (w1 := set_log (EvAccept (fd s) (Some f) :: w_log w) w).
  assert (E1 : sock_acceptNew a w = Ok (Some ns, w1)).
  { unfold sock_acceptNew, get_sock. run. rewrite Ha, Hsrv, Hal. cbn [negb orb]. rewrite bool_decide_false by done.
    by rewrite Hacc. }
  destruct (sock_setNonBlocking_ok (w_next w) ns
    (set_nextaddr (Pos.succ (w_next w)) (set_socks (<[w_next w := ns]> (w_socks w)) w1))) as (ok & b & l & E2 & Hb).
  { apply lookup_insert_eq. }
  exists b, l. cbn [w_socks set_nextaddr set_socks w_next] in E2. rewrite insert_insert_eq in E2. split; [|done].
  rewrite (M_bind_ok _ _ w (Some (SOCK_EVENT_NEW, w_next w)) (set_log l (set_nextaddr (Pos.succ (w_next w))
    (set_socks (<[w_next w := set_isBlocking b ns]> (w_socks w)) w)))).
  { done. }
  rewrite (M_bind_ok _ _ _ _ _ E1). erewrite M_bind_ok by (unfold new_sock; reflexivity).
  by rewrite (M_bind_ok _ _ _ _ _ E2).
Qed.

Lemma remove_closed_none w :
  sockToRemove (w_wait w) = None -> remove_closed w = Ok (tt, w).
Proof. intros E. unfold remove_closed. run. by rewrite E. Qed.

(** Freeing the socket reported as closed. *)
Lemma remove_closed_ok w a s l b :
  sockToRemove (w_wait w) = Some a -> w_socks w !! a = Some s -> list_remove (w_sockList w) a = Ok (b, l) ->
  remove_closed w = Ok (tt,
    set_wait (mkWait (readSet (w_wait w)) (writeSet (w_wait w)) (fdsToProcess (w_wait w)) None)
      (set_sockList l (set_socks (delete a (w_socks w)) w))).
Proof.
  intros Er Ha El. unfold remove_closed. run. rewrite Er. unfold sock_cleanup, upd_sock. rewrite Ha.
  cbn [w_sockList set_socks]. rewrite El. unfold free_sock. cbn [w_socks set_sockList set_socks].
  rewrite lookup_insert_eq. by rewrite delete_insert_eq.
Qed.

Lemma remove_closed_inv w a u w' :
  sockToRemove (w_wait w) = Some a -> remove_closed w = Ok (u, w') ->
  w_socks w' = delete a (w_socks w) /\ w_hsocks w' = w_hsocks w /\ w_conf w' = w_conf w.
Proof.
  intros Er E. destruct (w_socks w !! a) as [s|] eqn:Ha.
  2: { revert E. unfold remove_closed. run. rewrite Er. unfold sock_cleanup, upd_sock. by rewrite Ha. }
  destruct (list_remove (w_sockList w) a) as [[b l]|] eqn:El.
  - rewrite (remove_closed_ok w a s l b) in E by done. injection E as <- <-. done.
  - revert E. unfold remove_closed. run. rewrite Er. unfold sock_cleanup, upd_sock. rewrite Ha.
    cbn [w_sockList set_socks]. by rewrite El.
Qed.

Lemma dead_not_open w l a s :
  Forall (open_sock w) l -> w_socks w !! a = Some s -> isAlive s = SOCKET_DEAD -> a ∉ l.
Proof.
  intros Hl Ha Hd Hin. rewrite Forall_forall in Hl. destruct (Hl a Hin) as (s' & E & Hal).
  rewrite Ha in E. injection E as <-. rewrite Hd in Hal. discriminate Hal.
Qed.

(** The scan stops at the first closed socket. *)
Lemma waitForEvent_dead k w l1 l2 a s :
  lstart (w_sockList w) = l1 ++ a :: l2 -> Forall (open_sock w) l1 ->
  sockToRemove (w_wait w) = None -> fdsToProcess (w_wait w) = 0 ->
  w_socks w !! a = Some s -> isAlive s = SOCKET_DEAD ->
  waitForEvent (S k) false w
  = Ok ((SOCK_EVENT_CLOSE, Some a), set_wait (mkWait [] [] 0 (Some a)) w).
Proof.
  intros Hlist Hopen Hrem Hzero Ha Hdead.
  assert (Hne : l1 ++ a :: l2 <> []) by by destruct l1.
  cbn [waitForEvent when]. unfold mbind at 1, M_bind at 1. cbn [ret].
  unfold mbind at 1, M_bind at 1. rewrite remove_closed_none by done.
  run. rewrite Hzero. rewrite (bool_decide_false (0 <> 0)) by (intros []; done).
  rewrite (list_socks_ok w (l1 ++ a :: l2)) by done.
  rewrite collect_fds_open by done. cbn [collect_fds]. unfold get_sock. run. rewrite Ha.
  rewrite bool_decide_true by done. by rewrite Hzero.
Qed.
(** One call of select(), and the walk over what it gives. *)
Lemma waitForEvent_select k w l n r wr e b w' :
  lstart (w_sockList w) = l -> l <> [] -> Forall (open_sock w) l ->
  sockToRemove (w_wait w) = None -> fdsToProcess (w_wait w) = 0 ->
  os_select (w_log w) (rev (fds w (wants_read w) l)) (rev (fds w (wants_write w) l)) = (n, r, wr) -> 0 < n ->
  process_fds l (set_wait (mkWait r wr n None) (set_log (EvSelect n :: w_log w) w)) = Ok (Some (e, b), w') ->
  waitForEvent (S (S k)) false w = Ok ((e, Some b), w').
Proof.
  intros Hlist Hne Hopen Hrem Hzero Hselect Hn Hp.
  cbn [waitForEvent when]. unfold mbind at 1, M_bind at 1. cbn [ret].
  unfold mbind at 1, M_bind at 1. rewrite remove_closed_none by done.
  run. rewrite Hzero. rewrite (bool_decide_false (0 <> 0)) by (intros []; done).
  rewrite (list_socks_ok w l) by done.
  pose proof (collect_fds_open l [] [] [] w Hopen) as E.
  rewrite app_nil_r in E. rewrite E. cbn [collect_fds]. rewrite !app_nil_r. run.
  rewrite Hselect. unfold set_wait_sets. run. cbn [w_wait set_wait set_log].
  rewrite (bool_decide_false (n = 0)), (bool_decide_false (n < 0)) by lia. rewrite Hrem.
  set (w1 := set_wait _ _) in *. rewrite (remove_closed_none w1) by done.
  change (fdsToProcess (w_wait w1)) with n.
  rewrite (bool_decide_true (n <> 0)) by lia.
  rewrite (list_socks_ok w1 l) by done. by rewrite Hp.
Qed.
End Wait.

(** Removing a datum that is not the oldest. *)
Lemma list_remove_inner {A} `{EqDecision A} (s : List_ A) (l1 l2 : list A) (x : A) :
  lstart s = l1 ++ x :: l2 -> l2 <> [] -> x ∉ l1 ->
  exists c, list_remove s x = Ok (true, mkList (l1 ++ l2) c).
Proof.
  intros E Hl Hx. destruct (exists_last Hl) as (l2' & z & ->). exists (lcount s).
  unfold list_remove. rewrite E. change (l1 ++ x :: l2' ++ [z]) with (l1 ++ (x :: l2') ++ [z]).
  rewrite app_assoc, remove_loop_spec. rewrite bool_decide_true.
  2: { apply elem_of_app. right. apply list_elem_of_here. }
  cbn [mbind outcome_bind rev app].
  assert (Hp : Forall (fun y => negb (bool_decide (y = x)) = true) l1).
  { rewrite Forall_forall. intros y Hy. rewrite bool_decide_false; [done|]. by intros ->. }
  rewrite (take_while_app_stop _ l1 x l2') by (done || by rewrite bool_decide_true).
  rewrite (drop_while_app_stop _ l1 x l2') by (done || by rewrite bool_decide_true).
  cbn [List.tl]. done.
Qed.

(** Removing the oldest changes nothing. *)
Lemma list_remove_oldest {A} `{EqDecision A} (s : List_ A) (l : list A) (x : A) :
  lstart s = l ++ [x] -> x ∉ l -> list_remove s x = Ok (false, s).
Proof.
  intros E Hx. unfold list_remove. rewrite E, remove_loop_spec, bool_decide_false by done. done.
Qed.

(** ** Properties *)

Definition demo_watch (alive : Z) (l : list addr) : world :=
  demo_world (<[1%positive := demo_sock 7 false (buffer_init [] 0)]>
             (<[2%positive := set_isAlive alive (demo_sock 8 false (buffer_init [] 0))]>
              {[ 3%positive := demo_sock 9 false (buffer_init [] 0) ]})) ∅ demo_conf l.

(** A system whose select() answers as told. *)
Definition demo_select (n : Z) (r w : list Z) : Os := {|
  os_write := @os_write (demo_os 1 []); os_recv := @os_recv (demo_os 1 []);
  os_accept := @os_accept (demo_os 1 []); os_accept_wouldblock := @os_accept_wouldblock (demo_os 1 []);
  os_socket := @os_socket (demo_os 1 []); os_connect := @os_connect (demo_os 1 []);
  os_fcntl := @os_fcntl (demo_os 1 []); os_getsockname := @os_getsockname (demo_os 1 []);
  os_setsockopt := @os_setsockopt (demo_os 1 []); os_bind := @os_bind (demo_os 1 []);
  os_select := fun _ _ _ => (n, r, w);
  os_gethostbyname := @os_gethostbyname (demo_os 1 []); os_sendto := @os_sendto (demo_os 1 []);
  os_recvfrom := @os_recvfrom (demo_os 1 []); os_time := @os_time (demo_os 1 []);
  os_below := @os_below (demo_os 1 []) |}.

(** C29: with nothing left from the call before and every watched socket open,
    [waitForEvent] gives select() exactly the descriptors of the sockets that
    wait for reading and for writing. Of the sockets in the list before the
    first one, [a], that select() found readable, those it found writable send
    what they have buffered ([w2] is the state after that, if it ends). Then, if
    [a] is a listening TCP socket and accept() gives it a connection, the event
    is SOCK_EVENT_NEW, with a new socket for that connection and its peer's
    address, non-blocking if fcntl() allows, and not added to the list; [a]
    stays in the set. Any other [a] is reported itself, with SOCK_EVENT_READ,
    and taken out of the set. *)
Theorem waitForEvent_read `{Os} `{Fuel} (k : nat) (w w2 : world) (l1 l2 : list addr) (a : addr) (s : Socket)
    (n : Z) (r wr : list Z) (w1 := set_wait (mkWait r wr n None) (set_log (EvSelect n :: w_log w) w))
    (Hlist : lstart (w_sockList w) = l1 ++ a :: l2) (Hopen : Forall (open_sock w) (l1 ++ a :: l2))
    (Hrem : sockToRemove (w_wait w) = None) (Hzero : fdsToProcess (w_wait w) = 0)
    (Ha : w_socks w !! a = Some s) (Hnew : a ∉ l1)
    (Hselect : os_select (w_log w) (rev (fds w (wants_read w) (l1 ++ a :: l2)))
                 (rev (fds w (wants_write w) (l1 ++ a :: l2))) = (n, r, wr))
    (Hready : fd s ∈ r) (Hfirst : Forall (fun b => fd (sock_of w b) ∉ r) l1)
    (Hn : writables w1 l1 < n) (Hflush : flush_writable l1 w1 = Ok (tt, w2)) :
  if isServer s && bool_decide (type s = TCPSOCKET) then
    forall f ip, os_accept (w_log w2) (fd s) = Some (f, ip) ->
      exists b l, waitForEvent (S (S k)) false w = Ok ((SOCK_EVENT_NEW, Some (w_next w2)),
        set_log l (set_nextaddr (Pos.succ (w_next w2)) (set_socks (<[w_next w2 :=
          set_isBlocking b (set_ipAddr ip (sock_init TCPSOCKET f))]> (w_socks w2)) w2))) /\
        ((forall l f, os_fcntl l f = true) -> b = false)
  else waitForEvent (S (S k)) false w = Ok ((SOCK_EVENT_READ, Some a),
    set_wait (mkWait (fd_clr (fd s) r) (writeSet (w_wait w2)) (fdsToProcess (w_wait w2) - 1) None) w2).
Proof.
  destruct (process_fds_flush l1 (a :: l2) w1 w2) as [Ew [Rw Mw Lw Sw Fw Ww Nw]]; [done|done|done|].
  change (fdsToProcess (w_wait w1)) with n in Nw. change (readSet (w_wait w1)) with r in Rw.
  change (sockToRemove (w_wait w1)) with (@None addr) in Mw.
  assert (Hal : isAlive s = SOCKET_ALIVE).
  { rewrite Forall_app, Forall_cons in Hopen. destruct Hopen as (_ & (s' & Es' & Hal) & _). congruence. }
  pose proof (process_fds_here a l2 w2 s) as Hhere. rewrite Sw, Rw, Mw in Hhere by done.
  specialize (Hhere Ha ltac:(lia) Hready). rewrite <- Ew in Hhere.
  assert (Hrun : forall e b w', process_fds (l1 ++ a :: l2) w1 = Ok (Some (e, b), w') ->
    waitForEvent (S (S k)) false w = Ok ((e, Some b), w')).
  { intros e b w' E. eapply (waitForEvent_select k w (l1 ++ a :: l2)); try done. by destruct l1.
    pose proof (zlen_nonneg (List.filter (writable w1) l1)). unfold writables in Hn. lia. }
  destruct (isServer s && _).
  - intros f ip Hacc. destruct (Hhere f ip Hal Hacc) as (b & l & E & Hb). exists b, l. split; [by apply Hrun|done].
  - by apply Hrun.
Qed.

(** The first socket waits for writing, with nothing to send; the second one is
    readable: it is a listening socket, or a connection. *)
Definition demo_ready (server : bool) : world :=
  demo_world (<[1%positive := set_isAlive SOCKET_ALIVE (set_listenForWritable true
                                (demo_sock 7 false (buffer_init [] 0)))]>
             (<[2%positive := set_isAlive SOCKET_ALIVE (set_isServer server (demo_sock 8 false (buffer_init [] 0)))]>
              {[ 3%positive := set_isAlive SOCKET_ALIVE (demo_sock 9 false (buffer_init [] 0)) ]}))
    ∅ demo_conf [1%positive; 2%positive; 3%positive].
Definition demo_selected (w : world) : world :=
  set_wait (mkWait [9; 8] [7] 3 None) (set_log (EvSelect 3 :: w_log w) w).
Definition demo_flushed (server : bool) : world :=
  match @flush_writable (demo_select 3 [9; 8] [7]) 9%nat [1%positive] (demo_selected (demo_ready server)) with
  | Ok (_, w) => w
  | Fail _ => demo_ready server
  end.

Lemma waitForEvent_read_witness :
  let wait server := @waitForEvent (demo_select 3 [9; 8] [7]) 9%nat 2 false (demo_ready server) in
  let new := demo_flushed true in let conn := demo_flushed false in
  (exists b l, wait true = Ok ((SOCK_EVENT_NEW, Some (w_next new)),
     set_log l (set_nextaddr (Pos.succ (w_next new)) (set_socks (<[w_next new :=
       set_isBlocking b (set_ipAddr sockaddr_zero (sock_init TCPSOCKET (100 + Z.of_nat (length (w_log new)))))]>
       (w_socks new)) new))) /\ b = false) /\
  wait false = Ok ((SOCK_EVENT_READ, Some 2%positive),
    set_wait (mkWait (fd_clr 8 [9; 8]) (writeSet (w_wait conn)) (fdsToProcess (w_wait conn) - 1) None) conn) /\
  w_socks conn <> w_socks (demo_ready false) /\ fdsToProcess (w_wait conn) = 2.
Proof.
  intros wait new conn.
  assert (Hs : forall server, Forall (open_sock (demo_ready server)) [1%positive; 2%positive; 3%positive]).
  { intros server. repeat constructor; eexists; split; reflexivity. }
  assert (Hr : 8 ∈ [9; 8]) by (apply list_elem_of_further, list_elem_of_here).
  assert (Hf : forall server, Forall (fun b => fd (sock_of (demo_ready server) b) ∉ [9; 8]) [1%positive]).
  { intros server. repeat constructor. by apply (bool_decide_unpack _). }
  assert (Ha : 2%positive ∉ [1%positive]) by by apply (bool_decide_unpack _).
  split; [|split; [|split]].
  - pose proof (@waitForEvent_read (demo_select 3 [9; 8] [7]) 9%nat 0 (demo_ready true) new [1%positive] [3%positive] 2%positive
      _ 3 [9; 8] [7] eq_refl (Hs true) eq_refl eq_refl eq_refl Ha eq_refl Hr (Hf true) ltac:(by vm_compute) ltac:(by vm_compute)) as E.
    cbn [isServer type andb] in E.
    destruct (E (100 + Z.of_nat (length (w_log new))) sockaddr_zero eq_refl) as (b & l & E' & Hb).
    exists b, l. split; [exact E'|by apply Hb].
  - exact (@waitForEvent_read (demo_select 3 [9; 8] [7]) 9%nat 0 (demo_ready false) conn [1%positive] [3%positive] 2%positive
      _ 3 [9; 8] [7] eq_refl (Hs false) eq_refl eq_refl eq_refl Ha eq_refl Hr (Hf false) ltac:(by vm_compute) ltac:(by vm_compute)).
  - by vm_compute.
  - by vm_compute.
Defined.

(** C30: the first closed socket of the list is reported as closed, before
    select() is called; the next call takes it off the list and frees it, when
    it is not the oldest one. *)
Theorem waitForEvent_close `{Os} `{Fuel} (k : nat) (w : world) (l1 l2 : list addr) (a : addr) (s : Socket)
    (Hlist : lstart (w_sockList w) = l1 ++ a :: l2) (Hopen : Forall (open_sock w) l1)
    (Hrem : sockToRemove (w_wait w) = None) (Hzero : fdsToProcess (w_wait w) = 0)
    (Ha : w_socks w !! a = Some s) (Hdead : isAlive s = SOCKET_DEAD) (Hl2 : l2 <> []) :
  exists w1, waitForEvent (S k) false w = Ok ((SOCK_EVENT_CLOSE, Some a), w1) /\
    w_log w1 = w_log w /\ w_socks w1 = w_socks w /\
    exists w2, remove_closed w1 = Ok (tt, w2) /\ w_socks w2 = delete a (w_socks w) /\
      lstart (w_sockList w2) = l1 ++ l2 /\ sockToRemove (w_wait w2) = None.
Proof.
  set (w1 := set_wait (mkWait [] [] 0 (Some a)) w).
  exists w1. pose proof (dead_not_open w l1 a s Hopen Ha Hdead) as Hin.
  split_and!; [|done|done|].
  - by apply (waitForEvent_dead k w l1 l2 a s).
  - destruct (list_remove_inner (w_sockList w) l1 l2 a Hlist Hl2 Hin) as [c Er].
    rewrite (remove_closed_ok w1 a s (mkList (l1 ++ l2) c) true) by done.
    eexists. by split_and!.
Qed.

Lemma waitForEvent_close_witness :
  let w := demo_watch SOCKET_DEAD [1%positive; 2%positive; 3%positive] in
  exists w1, @waitForEvent (demo_os 1 []) 1%nat 1 false w = Ok ((SOCK_EVENT_CLOSE, Some 2%positive), w1) /\
    w_log w1 = w_log w /\ w_socks w1 = w_socks w /\
    exists w2, remove_closed w1 = Ok (tt, w2) /\ w_socks w2 = delete 2%positive (w_socks w) /\
      lstart (w_sockList w2) = [1%positive; 3%positive] /\ sockToRemove (w_wait w2) = None.
Proof.
  intros w. apply (@waitForEvent_close (demo_os 1 []) 1%nat 0 w [1%positive] [3%positive] 2%positive
    (set_isAlive SOCKET_DEAD (demo_sock 8 false (buffer_init [] 0)))); try reflexivity; [|discriminate].
  repeat constructor; eexists; split; reflexivity.
Defined.

(** when the oldest socket of the list closes, it is freed but stays on the
    list: the call after the one that reported it uses it after free. *)
Theorem waitForEvent_oldest_faults `{Os} `{Fuel} (k : nat) (w : world) (l : list addr) (a : addr) (s : Socket)
    (Hlist : lstart (w_sockList w) = l ++ [a]) (Hopen : Forall (open_sock w) l)
    (Hrem : sockToRemove (w_wait w) = None) (Hzero : fdsToProcess (w_wait w) = 0)
    (Ha : w_socks w !! a = Some s) (Hdead : isAlive s = SOCKET_DEAD) :
  exists w1, waitForEvent (S k) false w = Ok ((SOCK_EVENT_CLOSE, Some a), w1) /\
    waitForEvent (S k) false w1 = Fail UseAfterFree.
Proof.
  set (w1 := set_wait (mkWait [] [] 0 (Some a)) w).
  exists w1. assert (Hne : l ++ [a] <> []) by by destruct l.
  pose proof (dead_not_open w l a s Hopen Ha Hdead) as Hin.
  split.
  - by apply (waitForEvent_dead k w l [] a s).
  - pose proof (list_remove_oldest (w_sockList w) l a Hlist Hin) as Er.
    cbn [waitForEvent when]. unfold mbind at 1, M_bind at 1. cbn [ret].
    unfold mbind at 1, M_bind at 1. rewrite (remove_closed_ok w1 a s (w_sockList w) false) by done.
    set (w2 := set_wait _ _). run. rewrite (bool_decide_false (fdsToProcess (w_wait w2) <> 0)) by (intros []; done).
    rewrite (list_socks_ok w2 (l ++ [a])) by done.
    rewrite collect_fds_open; [|].
    + cbn [collect_fds]. unfold get_sock. run. unfold w2. cbn [w_socks set_wait set_sockList set_socks].
      by rewrite lookup_delete_eq.
    + rewrite Forall_forall in *. intros b Hb. destruct (Hopen b Hb) as (sb & Eb & Halb).
      exists sb. split; [|done]. cbn. rewrite lookup_delete_ne; [done|]. by intros ->.
Qed.

Lemma waitForEvent_oldest_faults_witness :
  let w := demo_watch SOCKET_DEAD [1%positive; 2%positive] in
  exists w1, @waitForEvent (demo_os 1 []) 1%nat 1 false w = Ok ((SOCK_EVENT_CLOSE, Some 2%positive), w1) /\
    @waitForEvent (demo_os 1 []) 1%nat 1 false w1 = Fail UseAfterFree.
Proof.
  intros w. apply (@waitForEvent_oldest_faults (demo_os 1 []) 1%nat 0 w [1%positive] 2%positive
    (set_isAlive SOCKET_DEAD (demo_sock 8 false (buffer_init [] 0)))); try reflexivity.
  repeat constructor; eexists; split; reflexivity.
Defined.
