(* ===== verification/Handshake.v ===== *)
(** * Handshakes of a client with a bridge (src/homeNet.c, lines 416-712,
    735-770)

    Connecting through the parts of a HomeNet URL, announcing a listener,
    answering a one-time code and querying for services. *)
From S2P Require Import Prelude CString Str Containers Buffer IpAddr Auth ConfigFile.
From S2P Require Import Config Os Socket Store Protocol.

(** A part of a URL: "connId#password". [connId[50]], [password[10]]. *)
Definition split_part (first : cstr) : outcome (cstr * cstr) :=
  pStartInd ← charIndex (cmem first) 0 (-1) "#";
  if bool_decide (pStartInd > 0) then
    passwordNext ← str_substring 10 first (pStartInd + 1) (-1);
    connId ← str_substring 50 first 0 (pStartInd - 1);
    Ok (connId, passwordNext)
  else
    connId ← str_set 50 first;
    Ok (connId, []).

Section Handshake.
Context `{Os} `{Fuel} `{Inet6} `{Rand}.

(** The address a connId stands for: an IP address, a domain name, or an id of
    the mDNS store. *)
Definition resolve (connId : cstr) (ctx : bool) : M (option sockaddr) :=
  '(isIp, ip) ← lift (str_toIpAddr connId);
  if isIp : bool then ret (Some ip)
  else
    domain ← lift (isDomainName connId);
    r ← (if domain : bool then dns_getIpAddr connId else ret None);
    match r with
    | Some ip => ret (Some ip)
    | None => if ctx then getIpAddrForId connId else ret None
    end.

(** A listener is told the one-time code it has to come back with. *)
Definition wait_for_listener (connId : cstr) (hs : addr) : M bool :=
  otp ← gen_code 10 8;
  listener ← getListeningSock connId;
  match listener with
  | None => ret false
  | Some la =>
      l ← get_hn la;
      buff ← lift (str_concat BUFF_SIZE $"LISTEN_OTP " otp);
      _ ← hn_sendMsg (sock l) buff;
      id ← lift (str_set 20 connId);
      otp ← lift (str_set 20 otp);
      upd_hn hs (fun h => set_relay (mkRelay (next (relay h)) true otp id) h);;
      _ ← addWaitingSock connId otp hs;
      ret true
  end.

(** The loop over the remaining parts of the URL. *)
Fixpoint connect_parts (k : nat) (a : addr) (saveptr passwordNext : cstr) : M Z :=
  match k with
  | O => fail NoFuel
  | S k' =>
      let password := passwordNext in
      match strtok_r $"/" saveptr with
      | None => ret 1
      | Some (first, saveptr) =>
          '(connId, passwordNext) ← lift (split_part first);
          buff ← lift (str_concat BUFF_SIZE $"HN1.0/CONNECT " connId);
          _ ← hn_sendMsg a buff;
          '(r, buff) ← authSolve [] a None None (Some password);
          if negb r then ret 0
          else
            connected ← lift (str_startswith buff $"CONNECTED");
            if connected : bool then connect_parts k' a saveptr passwordNext
            else ret 0
      end
  end.

(** 0: no connection; 1: connected; 2: waiting for a reverse connection. *)
Definition initializeConnect (constUrl : cstr) (a : addr) (waitingHnSock : option addr)
    (ctx : bool) : M Z :=
  s ← get_sock a;
  url ← lift (via str_removeSpaces constUrl);
  let urlPtr := if prefixb $"hn://" url then drop 5 url else url in
  match strtok_r $"/" urlPtr with
  | None => ret 0
  | Some (first, saveptr) =>
      '(connId, passwordNext) ← lift (split_part first);
      ip ← resolve connId ctx;
      waiting ← match ip, waitingHnSock with
                | None, Some hs => if ctx then wait_for_listener connId hs else ret false
                | _, _ => ret false
                end;
      if waiting : bool then ret 2
      else
        match ip with
        | None => ret 0
        | Some ip =>
            ok ← createTcpConnection a ip;
            if negb ok then ret 0
            else
              match ptr s with
              | Some h => host ← lift (str_set 200 connId); upd_hn h (set_host host)
              | None => ret tt
              end;;
              _ ← sock_setTimeout a;
              connect_parts (S (length saveptr)) a saveptr passwordNext
        end
  end.

Definition initializeListenNotify (id salt url : cstr) (a : addr) : M bool :=
  if bool_decide (str_len id <= 0) then ret false
  else
    r ← initializeConnect url a None false;
    if bool_decide (r <> 1) then ret false
    else
      buff ← lift (str_concat BUFF_SIZE $"HN1.0/LISTEN_NOTIFY" $" ");
      buff ← lift (str_concat BUFF_SIZE buff id);
      _ ← hn_sendMsg a buff;
      '(read, buff) ← authSolve [] a (Some id) (Some salt) None;
      if negb read then ret false
      else
        listening ← lift (str_startswith buff $"LISTENING");
        if negb listening then ret false
        else
          let id' := tok1 $" " (tok_rest $" " buff) in
          if match id' with Some i => negb (str_isEqual i id) | None => false end
          then ret false
          else
            s ← get_sock a;
            match ptr s with
            | None => ret tt
            | Some h =>
                i ← deref_M id';
                i ← lift (str_set 20 i);
                st ← lift (str_set 20 salt);
                upd_hn h (fun hs => set_hn_mode SOCK_MODE_LISTEN_OUT
                  (set_listen (mkListenNotif st i (waitingSocks (listen_ hs))) hs))
            end;;
            ret true.

Definition initializeListenConn (id otp url : cstr) (a : addr) : M bool :=
  r ← initializeConnect url a None false;
  if bool_decide (r <> 1) then ret false
  else
    buff ← lift (str_concat BUFF_SIZE $"HN1.0/LISTEN_CONNECT " id);
    buff ← lift (str_concat BUFF_SIZE buff $" ");
    buff ← lift (str_concat BUFF_SIZE buff otp);
    _ ← hn_sendMsg a buff;
    '(read, buff) ← hn_receiveMsg a BUFF_SIZE;
    if bool_decide (read <= 0) then ret false
    else lift (str_startswith buff $"CONNECTED").

(** A record of an answer: "QUERY_RESPONSE key name\ndata". *)
Definition query_record (buff : cstr) : outcome (option (Map cstr)) :=
  let rest := tok_rest $" " buff in
  match strtok_r $" " rest with
  | None => Ok None
  | Some (key, rest) =>
      match tok1 [LF] rest with
      | None => Ok None
      | Some name =>
          '(rec, _) ← map_set map_init $"name" name true;
          '(rec, _) ← map_set rec $"key" key true;
          match tok1 [LF] (tok_rest [LF] buff) with
          | Some data => '(rec, _) ← map_set rec $"data" data true; Ok (Some rec)
          | None => Ok (Some rec)
          end
      end
  end.

(** The count returned, and the records stored. *)
Fixpoint query_loop (k : nat) (a : addr) (read : Z) (buff : cstr) (recs : list (Map cstr))
  : M (Z * list (Map cstr)) :=
  match k with
  | O => ret (zlen recs, recs)
  | S k' =>
      if bool_decide (read <= 0) then ret (zlen recs, recs)
      else
        response ← lift (str_startswith buff $"QUERY_RESPONSE ");
        if negb response then ret (0, recs)
        else
          rec ← lift (query_record buff);
          match rec with
          | None => ret (0, recs)   (* the cut buffer is no response any more *)
          | Some rec =>
              '(read, buff) ← hn_receiveMsg a BUFF_SIZE;
              query_loop k' a read buff (recs ++ [rec])
          end
  end.

Definition initializeQuery (max : nat) (name url pass : cstr) (a : addr)
  : M (Z * list (Map cstr)) :=
  r ← initializeConnect url a None false;
  if bool_decide (r <> 1) then ret (0, [])
  else
    buff ← lift (str_concat BUFF_SIZE $"HN1.0/QUERY " name);
    _ ← hn_sendMsg a buff;
    '(read, buff) ← authSolve [] a None None (Some pass);
    if negb read then ret (0, [])
    else query_loop max a 1 buff [].

(** The listener of a bridge at another bridge; the socket when it is up. *)
Definition tryRLStart : M (option addr) :=
  c ← get w_conf;
  bm ← deref_M (bridge c);
  cx ← get_context;
  match rlSock cx with
  | Some s => ret (Some s)
  | None =>
      if bool_decide (str_len (bm_rlUrl bm) <> 0) then
        now ← sys_time;
        if bool_decide (now < getNextRetry (rlRetries cx) (rlLastRetry cx)) then
          _ ← sys_time; ret None
        else
          t ← sys_time;
          upd_context (fun cx => set_rl (rlSock cx) (rlRetries cx) t cx);;
          a ← createTcpSocket;
          _ ← hn_sockInit a SOCK_MODE_LISTEN_OUT false;
          ok ← initializeListenNotify (bm_rlId bm) (bm_rlPass bm) (bm_rlUrl bm) a;
          if negb ok then
            upd_context (fun cx => set_rl (rlSock cx) (wrap32 (rlRetries cx + 1)) (rlLastRetry cx) cx);;
            ret None
          else
            upd_context (fun cx => set_rl (Some a) 0 (rlLastRetry cx) cx);;
            ret (Some a)
      else ret None
  end.
End Handshake.
