(* ===== verification/Evolve.v ===== *)
(** * How a connection attempt changes the state

    Everything a handshake does, down to new connections and relays, appends to
    the log of system calls, leaves the list of watched sockets and the event
    loop alone, and allocates fresh addresses only: [evolves]. *)
From S2P Require Import Prelude CString Str Containers Buffer IpAddr Auth ConfigFile.
From S2P Require Import Config Os Socket Store Protocol Frame Handshake.

Record evolves (w w' : world) : Prop := {
  ev_log : exists l, w_log w' = l ++ w_log w;
  ev_list : w_sockList w' = w_sockList w;
  ev_wait : w_wait w' = w_wait w;
  ev_next : (w_next w <= w_next w')%positive }.

#[global] Instance evolves_preorder : PreOrder evolves.
Proof.
  split.
  - intros w. split; try done. by exists [].
  - intros w1 w2 w3 [[l1 E1] ? ? ?] [[l2 E2] ? ? ?]. split; try (congruence || lia).
    exists (l2 ++ l1). by rewrite E2, E1, app_assoc.
Qed.

(** What is sent and received is appended to. *)
Lemma sent_app f l l' : sent f (l ++ l') = sent f l' ++ sent f l.
Proof.
  induction l as [|e l IH]; [by rewrite app_nil_r|].
  destruct e; cbn [app sent]; rewrite ?IH, <- ?app_assoc; done.
Qed.

Lemma received_app f l l' : received f (l ++ l') = received f l' ++ received f l.
Proof.
  induction l as [|e l IH]; [by rewrite app_nil_r|].
  destruct e; cbn [app received]; try done.
  destruct r; [|done]. by rewrite IH, <- app_assoc.
Qed.

Lemma evolves_log e w : evolves w (set_log (e :: w_log w) w).
Proof. split; try done. by exists [e]. Qed.

Ltac evolves_leaf := first
  [ apply evolves_log
  | split; [by exists [] | done | done | cbn; lia] ].
Ltac evolve := repeat preserve_step evolves_leaf.

Abbreviation Evolves := (Preserves evolves).

Lemma evolves_free_sock a : Evolves (free_sock a).
Proof. apply preserves_free_sock. intros w. evolves_leaf. Qed.
Lemma evolves_free_hn a : Evolves (free_hn a).
Proof. apply preserves_free_hn. intros w. evolves_leaf. Qed.
Lemma evolves_new_sock s : Evolves (new_sock s).
Proof. intros w a w' [= <- <-]. evolves_leaf. Qed.
Lemma evolves_new_hn h : Evolves (new_hn h).
Proof. intros w a w' [= <- <-]. evolves_leaf. Qed.
#[export] Hint Resolve evolves_free_sock evolves_free_hn evolves_new_sock evolves_new_hn : preserves.

Lemma evolves_sock_close a : Evolves (sock_close a).
Proof. unfold sock_close, sys_close. evolve. Qed.
#[export] Hint Resolve evolves_sock_close : preserves.

Lemma evolves_sock_done a : Evolves (sock_done a).
Proof. unfold sock_done. evolve. Qed.
Lemma evolves_sock_cleanup a : Evolves (sock_cleanup a).
Proof. unfold sock_cleanup. evolve. Qed.
Lemma evolves_upd_context f : Evolves (upd_context f).
Proof. unfold upd_context. evolve. Qed.
Lemma evolves_get_context : Evolves get_context.
Proof. unfold get_context. evolve. Qed.
#[export] Hint Resolve evolves_sock_done evolves_sock_cleanup evolves_upd_context
  evolves_get_context : preserves.

Lemma evolves_getListeningSock id : Evolves (getListeningSock id).
Proof. unfold getListeningSock. evolve. Qed.
Lemma evolves_getIpAddrForId id : Evolves (getIpAddrForId id).
Proof. unfold getIpAddrForId. evolve. Qed.
#[export] Hint Resolve evolves_getListeningSock evolves_getIpAddrForId : preserves.

Lemma evolves_addWaitingSock id otp h : Evolves (addWaitingSock id otp h).
Proof. unfold addWaitingSock. evolve. Qed.
Lemma evolves_getWaitingSocket id otp : Evolves (getWaitingSocket id otp).
Proof. unfold getWaitingSocket. evolve. Qed.
Lemma evolves_removeWaitingSocket id otp : Evolves (removeWaitingSocket id otp).
Proof. unfold removeWaitingSocket. evolve. Qed.
#[export] Hint Resolve evolves_addWaitingSock evolves_getWaitingSocket
  evolves_removeWaitingSocket : preserves.

Lemma evolves_done_waiting l : Evolves (done_waiting l).
Proof. induction l as [|i l IH]; cbn [done_waiting]; evolve. Qed.
#[export] Hint Resolve evolves_done_waiting : preserves.

Lemma evolves_hn_sockInit s m u : Evolves (hn_sockInit s m u).
Proof. unfold hn_sockInit. evolve. Qed.
Lemma evolves_hn_sockCleanup h ctx : Evolves (hn_sockCleanup h ctx).
Proof. unfold hn_sockCleanup. evolve. Qed.
#[export] Hint Resolve evolves_hn_sockInit evolves_hn_sockCleanup : preserves.

Lemma evolves_sock_destroy a ctx : Evolves (sock_destroy a ctx).
Proof. unfold sock_destroy. evolve. Qed.
Lemma evolves_createTcpSocket : Evolves createTcpSocket.
Proof. unfold createTcpSocket. evolve. Qed.
#[export] Hint Resolve evolves_sock_destroy evolves_createTcpSocket : preserves.

Section IO.
Context `{Os} `{Fuel}.

Lemma evolves_sys_write f d : Evolves (sys_write f d).
Proof. unfold sys_write. evolve. Qed.
Lemma evolves_sys_recv f n : Evolves (sys_recv f n).
Proof. unfold sys_recv. evolve. Qed.
Lemma evolves_sys_time : Evolves sys_time.
Proof. unfold sys_time. evolve. Qed.
Lemma evolves_sys_socket : Evolves sys_socket.
Proof. unfold sys_socket. evolve. Qed.
Lemma evolves_sys_connect f ip : Evolves (sys_connect f ip).
Proof. unfold sys_connect. evolve. Qed.
Lemma evolves_sys_setsockopt f : Evolves (sys_setsockopt f).
Proof. unfold sys_setsockopt. evolve. Qed.
Lemma evolves_sys_fcntl f b : Evolves (sys_fcntl f b).
Proof. unfold sys_fcntl. evolve. Qed.
Hint Resolve evolves_sys_write evolves_sys_recv evolves_sys_time evolves_sys_socket
  evolves_sys_connect evolves_sys_setsockopt evolves_sys_fcntl : preserves.

Lemma evolves_write_loop k f d n : Evolves (write_loop k f d n).
Proof. revert n. induction k as [|k IH]; intros n; cbn [write_loop]; evolve. Qed.
Lemma evolves_flush_loop k b f c x y : Evolves (flush_loop k b f c x y).
Proof. revert c x y. induction k as [|k IH]; intros c x y; cbn [flush_loop]; evolve. Qed.
Lemma evolves_store_loop k a f d n : Evolves (store_loop k a f d n).
Proof. revert n. induction k as [|k IH]; intros n; cbn [store_loop]; evolve. Qed.
Hint Resolve evolves_write_loop evolves_flush_loop evolves_store_loop : preserves.

Lemma evolves_sock_flush a : Evolves (sock_flush a).
Proof. unfold sock_flush. evolve. Qed.
Hint Resolve evolves_sock_flush : preserves.
Lemma evolves_sock_write a d : Evolves (sock_write a d).
Proof. unfold sock_write. evolve. Qed.
Lemma evolves_read_loop k a f max acc : Evolves (read_loop k a f max acc).
Proof. revert acc. induction k as [|k IH]; intros acc; cbn [read_loop]; evolve. Qed.
Hint Resolve evolves_sock_write evolves_read_loop : preserves.
Lemma evolves_sock_read a max : Evolves (sock_read a max).
Proof. unfold sock_read. evolve. Qed.
Hint Resolve evolves_sock_read : preserves.

Lemma evolves_set_flags a b : Evolves (set_flags a b).
Proof. unfold set_flags. evolve. Qed.
Lemma evolves_sock_setNonBlocking a : Evolves (sock_setNonBlocking a).
Proof. apply evolves_set_flags. Qed.
Lemma evolves_sock_setBlocking a : Evolves (sock_setBlocking a).
Proof. apply evolves_set_flags. Qed.
Lemma evolves_sock_setTimeout a : Evolves (sock_setTimeout a).
Proof. unfold sock_setTimeout. evolve. Qed.
Lemma evolves_createTcpConnection a ip : Evolves (createTcpConnection a ip).
Proof. unfold createTcpConnection. evolve. Qed.
Lemma evolves_dns_getIpAddr `{Inet6} s : Evolves (dns_getIpAddr s).
Proof. unfold dns_getIpAddr. evolve. Qed.
Hint Resolve evolves_set_flags evolves_sock_setTimeout evolves_createTcpConnection
  evolves_dns_getIpAddr : preserves.

Lemma evolves_upgradeHttpClient a host : Evolves (upgradeHttpClient a host).
Proof. unfold upgradeHttpClient. evolve. Qed.
Hint Resolve evolves_upgradeHttpClient : preserves.
Lemma evolves_hn_sendMsg a buff : Evolves (hn_sendMsg a buff).
Proof. unfold hn_sendMsg. evolve. Qed.
Lemma evolves_receive_loop k a max acc : Evolves (receive_loop k a max acc).
Proof. revert acc. induction k as [|k IH]; intros acc; cbn [receive_loop]; evolve. Qed.
Hint Resolve evolves_hn_sendMsg evolves_receive_loop : preserves.
Lemma evolves_hn_receiveMsg a max : Evolves (hn_receiveMsg a max).
Proof. unfold hn_receiveMsg. evolve. Qed.
Hint Resolve evolves_hn_receiveMsg : preserves.

Lemma evolves_authSolve buff a key salt password : Evolves (authSolve buff a key salt password).
Proof. unfold authSolve. evolve. Qed.
Hint Resolve evolves_authSolve : preserves.

Section Codes.
Context `{Rand} `{Inet6}.

Lemma evolves_gen_code cap n : Evolves (gen_code cap n).
Proof. unfold gen_code. evolve. Qed.
Hint Resolve evolves_gen_code : preserves.
Lemma evolves_authThrowChallenge a store : Evolves (authThrowChallenge a store).
Proof. unfold authThrowChallenge. evolve. Qed.
Hint Resolve evolves_authThrowChallenge : preserves.

Lemma evolves_resolve id ctx : Evolves (resolve id ctx).
Proof. unfold resolve. evolve. Qed.
Lemma evolves_wait_for_listener id h : Evolves (wait_for_listener id h).
Proof. unfold wait_for_listener. evolve. Qed.
Lemma evolves_connect_parts k a rest pass : Evolves (connect_parts k a rest pass).
Proof. revert rest pass. induction k as [|k IH]; intros rest pass; cbn [connect_parts]; evolve. Qed.
Hint Resolve evolves_resolve evolves_wait_for_listener evolves_connect_parts : preserves.

Lemma evolves_initializeConnect url a h ctx : Evolves (initializeConnect url a h ctx).
Proof. unfold initializeConnect. evolve. Qed.
Hint Resolve evolves_initializeConnect : preserves.

Lemma evolves_initializeListenNotify id salt url a : Evolves (initializeListenNotify id salt url a).
Proof. unfold initializeListenNotify. evolve. Qed.
Lemma evolves_initializeListenConn id otp url a : Evolves (initializeListenConn id otp url a).
Proof. unfold initializeListenConn. evolve. Qed.
Hint Resolve evolves_initializeListenNotify evolves_initializeListenConn : preserves.
Lemma evolves_tryRLStart : Evolves tryRLStart.
Proof. unfold tryRLStart. evolve. Qed.
End Codes.
End IO.

#[export] Hint Resolve evolves_sys_time evolves_sock_write evolves_sock_read
  evolves_set_flags evolves_sock_setNonBlocking evolves_sock_setBlocking
  evolves_sock_setTimeout evolves_hn_sendMsg evolves_hn_receiveMsg evolves_gen_code
  evolves_authThrowChallenge evolves_initializeConnect evolves_initializeListenConn
  evolves_tryRLStart : preserves.

(** The relation of a run of the code. *)
Ltac evolved E H :=
  match type of E with ?m ?w = Ok (_, ?w') =>
    assert (H : evolves w w') by
      (revert E; let P := fresh in assert (P : Evolves m) by evolve; apply P)
  end.
