(* ===== verification/AuthSocket.v ===== *)
(** * Authentication over a socket

    What a successful [authThrowChallenge] and [authSolve] mean for the bytes
    that crossed the socket. *)
From S2P Require Import Prelude CString Str Containers Buffer IpAddr Auth ConfigFile.
From S2P Require Import Config Os Socket Store Protocol Messages Frame Evolve.

(** ** Lemmas: what was received *)

Lemma take_while_replicate_nul n : take_while (fun c => negb (is_nul c)) (replicate n nul) = [].
Proof. by destruct n. Qed.

(** The string in a buffer is a prefix of the bytes stored. *)
Lemma take_while_app_prefix (d : mem) n :
  exists r, d = take_while (fun c => negb (is_nul c)) (d ++ replicate n nul) ++ r.
Proof.
  induction d as [|c d IH].
  - exists []. cbn [app]. by rewrite take_while_replicate_nul.
  - cbn [app take_while]. destruct (negb (is_nul c)).
    + destruct IH as [r Hr]. exists r. cbn. by rewrite <- Hr.
    + by exists (c :: d).
Qed.

Lemma buf_view_prefix cap d s : buf_view cap d = Ok s -> exists r, d = s ++ r.
Proof.
  unfold buf_view, cview. do 2 (case_bool_decide; [|done]). intros [= <-]. apply take_while_app_prefix.
Qed.

Section Receive.
Context `{Os} `{!OsLaws} `{!QuietStack} `{Fuel}.

Lemma receive_loop_inv k a s max acc w acc' w' :
  w_socks w !! a = Some s -> isAlive s <> SOCKET_DEAD -> isBlocking s = true ->
  receive_loop k a max acc w = Ok (acc', w') ->
  exists l d, w' = set_log l w /\ acc' = acc ++ d /\
    received (fd s) l = received (fd s) (w_log w) ++ d /\
    (forall g, sent g l = sent g (w_log w)).
Proof.
  intros Ha Hal Hb. revert acc w Ha. induction k as [|k IH]; intros acc w Ha; [done|].
  cbn [receive_loop]. intros E. apply M_bind_inv in E as (buff & w1 & E1 & E).
  unfold lift in E1. destruct (buf_view BUFF_SIZE acc); [|done]. injection E1 as -> <-.
  revert E. run. rewrite ends_ok.
  assert (Hdone : exists l d, w = set_log l w /\ acc = acc ++ d /\
    received (fd s) l = received (fd s) (w_log w) ++ d /\ (forall g, sent g l = sent g (w_log w))).
  { exists (w_log w), []. rewrite !app_nil_r. by destruct w. }
  destruct (_ && _); [|by intros [= <- <-]].
  unfold sock_read, get_sock. run. rewrite Ha, bool_decide_false, Hb by done.
  unfold sys_recv. run. destruct (os_recv (w_log w) (fd s) (max - zlen acc)) as [d|wb] eqn:Er.
  - case_bool_decide as Hz.
    + intros [= <- <-]. apply zlen_nil_inv in Hz as ->.
      exists (EvRecv (fd s) (RecvData []) :: w_log w), []. rewrite !app_nil_r. split_and!; try done.
      cbn. by rewrite bool_decide_true, app_nil_r.
    + intros E. apply IH in E as (l & d' & -> & -> & Hr & Hs); [|done].
      exists l, (d ++ d'). rewrite app_assoc. split_and!; try done.
      rewrite Hr. cbn [w_log set_log received]. by rewrite bool_decide_true, app_assoc.
  - rewrite bool_decide_true by lia. intros [= <- <-].
    exists (EvRecv (fd s) (RecvErr wb) :: w_log w), []. by rewrite !app_nil_r.
Qed.

(** A message received is what stands before the first terminator found. *)
Lemma hn_receiveMsg_inv a s max w r buff w' :
  w_socks w !! a = Some s -> isAlive s <> SOCKET_DEAD -> isBlocking s = true ->
  hn_receiveMsg a max w = Ok ((r, buff), w') ->
  exists l d, w' = set_log l w /\
    received (fd s) l = received (fd s) (w_log w) ++ d /\
    (forall g, sent g l = sent g (w_log w)) /\
    (0 < r -> exists rest, d = buff ++ HN_MSG_END ++ rest).
Proof.
  intros Ha Hal Hb. unfold hn_receiveMsg. intros E.
  apply M_bind_inv in E as (acc & w1 & E1 & E).
  apply (receive_loop_inv _ _ s) in E1 as (l & d & -> & -> & Hr & Hs); [|done..].
  cbn [app] in E. exists l, d.
  revert E. run. destruct (buf_view BUFF_SIZE d) as [b|] eqn:Eb; [|done]. rewrite ends_ok.
  destruct (suffixb HN_MSG_END b) eqn:Es; cbn [negb]; [|by intros [= <- <- <-]].
  case_bool_decide; [done|]. intros [= <- <- <-]. split_and!; try done. intros _.
  apply suffixb_spec in Es as [u ->]. apply buf_view_prefix in Eb as [rest ->].
  exists rest. unfold str_len. rewrite zlen_app, zlen_HN_MSG_END.
  replace (zlen u + 2 - 2) with (zlen u) by lia. unfold zlen. rewrite Nat2Z.id, take_app_length.
  by rewrite app_assoc.
Qed.

(** *** The calls a computation makes *)

(** A call that reads the clock, or that writes to or reads from [f]. *)
Definition talk (f : Z) (e : event) : Prop :=
  match e with
  | EvTime _ => True
  | EvWrite g _ _ | EvRecv g _ => g = f
  | _ => False
  end.
(** A write() that took nothing. *)
Definition write_failed (f : Z) (l : log_t) : Prop := exists d r, EvWrite f d r ∈ l /\ r <= 0.

Lemma write_loop_talks k f d n0 w n w' : write_loop k f d n0 w = Ok (n, w') ->
  exists l, w' = set_log (l ++ w_log w) w /\ Forall (talk f) l /\ (n < zlen d -> write_failed f l).
Proof.
  revert n0 w. induction k as [|k IH]; intros n0 w; [done|]. cbn [write_loop].
  case_bool_decide.
  2: { intros [= <- <-]. exists []. split_and!; [by destruct w|constructor|lia]. }
  unfold sys_write. run. case_bool_decide as Hz.
  - intros [= <- <-]. eexists (cons _ nil). split_and!; [done|by constructor|].
    intros _. eexists _, _. split; [apply list_elem_of_here|done].
  - intros (l & -> & Hl & Hf)%IH. eexists (l ++ [_]). rewrite <- app_assoc.
    split_and!; [done|apply Forall_app_2; [done|by constructor]|].
    intros (d' & r & Hin & Hr)%Hf. exists d', r. split; [|done]. apply elem_of_app. by left.
Qed.

Lemma hn_sendMsg_talks a s msg w r w' :
  w_socks w !! a = Some s -> isAlive s <> SOCKET_DEAD -> isBlocking s = true -> upgraded w s ->
  hn_sendMsg a msg w = Ok (r, w') ->
  exists l, w' = set_log (l ++ w_log w) w /\ Forall (talk (fd s)) l /\
    (r.1 < zlen (msg ++ HN_MSG_END) -> write_failed (fd s) l).
Proof.
  intros Ha Hal Hb Hu. unfold hn_sendMsg, get_sock, get_hn. run. rewrite Ha.
  assert (Hw : match sock_write a (msg ++ HN_MSG_END) w with
    | Ok (n, w') => exists l, w' = set_log (l ++ w_log w) w /\ Forall (talk (fd s)) l /\
        (n < zlen (msg ++ HN_MSG_END) -> write_failed (fd s) l)
    | Fail _ => True end).
  { unfold sock_write, get_sock. run. rewrite Ha, bool_decide_false, Hb by done.
    destruct (write_loop _ _ _ _ _) as [[n w1]|] eqn:E; [|done]. by apply write_loop_talks in E. }
  assert (Hc : forall buff, str_concat BUFF_SIZE msg HN_MSG_END = Ok buff -> buff = msg ++ HN_MSG_END).
  { intros buff E. by apply strcpy_ok in E as [-> _]. }
  destruct (ptr s) as [h|] eqn:Ep; [destruct (Hu h Ep) as (hs & -> & ->)|]; cbn [negb];
    (destruct (str_concat _ _ _) as [buff|] eqn:E; [|done]);
    rewrite (Hc buff eq_refl); (destruct (sock_write _ _ _) as [[n w1]|]; [|done]); by intros [= <- <-].
Qed.

Lemma receive_loop_talks k a s max acc w acc' w' :
  w_socks w !! a = Some s -> isAlive s <> SOCKET_DEAD -> isBlocking s = true ->
  receive_loop k a max acc w = Ok (acc', w') ->
  exists l, w' = set_log (l ++ w_log w) w /\ Forall (talk (fd s)) l.
Proof.
  intros Ha Hal Hb. revert acc w Ha. induction k as [|k IH]; intros acc w Ha; [done|].
  cbn [receive_loop]. run. destruct (buf_view BUFF_SIZE acc); [|done].
  rewrite ends_ok.
  assert (Hnil : exists l, w = set_log (l ++ w_log w) w /\ Forall (talk (fd s)) l).
  { exists []. split; [by destruct w|constructor]. }
  destruct (_ && _); [|by intros [= _ <-]].
  unfold sock_read, get_sock. run. rewrite Ha, bool_decide_false, Hb by done.
  unfold sys_recv. run. destruct (os_recv (w_log w) (fd s) (max - zlen acc)) as [d|wb];
    case_bool_decide.
  1, 3: intros [= _ <-]; eexists (cons _ nil); split; [done|by constructor].
  - intros (l & -> & Hl)%IH; [|done]. eexists (l ++ [_]). rewrite <- app_assoc.
    split; [done|]. apply Forall_app_2; [done|by constructor].
  - intros (l & -> & Hl)%IH; [|done]. eexists (l ++ [_]). rewrite <- app_assoc.
    split; [done|]. apply Forall_app_2; [done|by constructor].
Qed.

Lemma hn_receiveMsg_talks a s max w r w' :
  w_socks w !! a = Some s -> isAlive s <> SOCKET_DEAD -> isBlocking s = true ->
  hn_receiveMsg a max w = Ok (r, w') ->
  exists l, w' = set_log (l ++ w_log w) w /\ Forall (talk (fd s)) l.
Proof.
  intros Ha Hal Hb. unfold hn_receiveMsg. intros (acc & w1 & E1 & E)%M_bind_inv.
  apply (receive_loop_talks _ _ s) in E1 as (l & -> & Hl); [|done..]. exists l.
  revert E. run. destruct (buf_view BUFF_SIZE acc); [|done]. rewrite ends_ok.
  destruct (suffixb _ _); cbn [negb]; [case_bool_decide; [done|]|]; by intros [= _ <-].
Qed.

(** What the log gained is what was sent and received since. *)
Lemma sent_gained f l1 l2 d : sent f (l1 ++ l2) = sent f l2 ++ d -> sent f l1 = d.
Proof. rewrite sent_app. apply app_inv_head. Qed.
Lemma received_gained f l1 l2 d : received f (l1 ++ l2) = received f l2 ++ d -> received f l1 = d.
Proof. rewrite received_app. apply app_inv_head. Qed.

(** A challenge on [f]: the calls [l1] send it, the calls [l2] read the answer.
    The nonce is the one generated from the clock and the seed at this moment,
    and all of the challenge is written unless a write() failed. *)
Record challenge `{Rand} (f now seed : Z) (nonce : cstr) (n : nat) (l1 l2 : log_t) : Prop := {
  ch_nonce : generateAuthChallenge now seed = Ok ($"AUTH " ++ nonce, nonce, wrap32 (seed + 1));
  ch_talk1 : Forall (talk f) l1;
  ch_talk2 : Forall (talk f) l2;
  ch_sent1 : sent f l1 = take n ($"AUTH " ++ nonce ++ HN_MSG_END);
  ch_cut : Z.of_nat n < zlen ($"AUTH " ++ nonce ++ HN_MSG_END) -> write_failed f l1;
  ch_received1 : received f l1 = [];
  ch_sent2 : sent f l2 = [] }.

(** The outcome of a challenge. *)
Lemma authThrowChallenge_run `{Rand} a s store w b buff w' :
  w_socks w !! a = Some s -> isAlive s <> SOCKET_DEAD -> isBlocking s = true -> upgraded w s ->
  (forall nonce, zlen nonce = 15 -> store_fits nonce store) ->
  authThrowChallenge a store w = Ok ((b, buff), w') ->
  exists nonce n l1 l2, challenge (fd s) (os_time (w_log w)) (w_mySeed w) nonce n l1 l2 /\
    zlen nonce = 15 /\ w' = set_mySeed (wrap32 (w_mySeed w + 1)) (set_log (l2 ++ l1 ++ w_log w) w) /\
    (b = true -> (0 < n)%nat /\ exists key salt rest, key <> [] /\ map_get store key = Some salt /\
       received (fd s) l2 = auth_resp nonce key salt ++ HN_MSG_END ++ rest).
Proof.
  intros Ha Hal Hb Hu Hf. unfold authThrowChallenge. run. unfold sys_time. run.
  set (t := os_time (w_log w)).
  destruct (generateAuthChallenge_ok t (w_mySeed w)) as (nonce & En & Ln & _).
  cbn [w_mySeed set_log]. rewrite En. set (seed := wrap32 _) in *.
  set (w1 := set_mySeed seed _).
  assert (Ha1 : w_socks w1 !! a = Some s) by done.
  assert (Hz : zlen ($"AUTH " ++ nonce) + 2 < BUFF_SIZE) by (rewrite zlen_app, Ln; reflexivity).
  destruct (hn_sendMsg_blocking a s ($"AUTH " ++ nonce) w1 Ha1 Hal Hb Hu Hz)
    as (n & l1 & Es & Hn0 & Hs & _ & Hr1).
  destruct (hn_sendMsg_talks a s _ w1 _ _ Ha1 Hal Hb Hu Es) as (l & El & Ht & Hcut).
  apply (f_equal w_log) in El. cbn [w_log set_log] in El. subst l1. rewrite Es. clear Es.
  cbn [fst] in Hcut. rewrite <- app_assoc in Hs, Hcut. apply sent_gained in Hs.
  specialize (Hr1 (fd s)). rewrite <- (app_nil_r (received _ (w_log w1))) in Hr1. apply received_gained in Hr1.
  change (w_log w1) with ([EvTime t] ++ w_log w). set (l1 := l ++ [EvTime t]).
  assert (Hch : forall l2, Forall (talk (fd s)) l2 -> sent (fd s) l2 = [] ->
    challenge (fd s) t (w_mySeed w) nonce (Z.to_nat n) l1 l2).
  { intros l2 Ht2 Hs2. split; try done.
    - apply Forall_app_2; [done|by repeat constructor].
    - unfold l1. rewrite sent_app. cbn. by rewrite Hs.
    - intros Hlt. destruct Hcut as (d & r & Hin & Hr); [lia|]. exists d, r. split; [|done].
      apply elem_of_app. by left.
    - unfold l1. rewrite received_app. cbn. by rewrite Hr1. }
  case_bool_decide as Hn.
  { intros [= <- <- <-]. exists nonce, (Z.to_nat n), l1, []. split_and!; [by apply Hch|done| |done].
    unfold l1. by rewrite <- app_assoc. }
  intros E.
  match type of E with context [hn_receiveMsg a BUFF_SIZE ?x] => set (w2 := x) in * end.
  destruct (hn_receiveMsg a BUFF_SIZE w2) as [[[r b2] w3]|] eqn:Er; [|done].
  assert (Ha2 : w_socks w2 !! a = Some s) by done.
  destruct (hn_receiveMsg_talks a s _ w2 _ _ Ha2 Hal Hb Er) as (l2 & -> & Ht2).
  destruct (hn_receiveMsg_inv a s _ w2 _ _ _ Ha2 Hal Hb Er) as (l' & d & El & Hr2 & Hs2 & Hm).
  apply (f_equal w_log) in El. cbn [w_log set_log] in El. subst l'. specialize (Hs2 (fd s)).
  rewrite <- (app_nil_r (sent _ (w_log w2))) in Hs2. apply sent_gained in Hs2. apply received_gained in Hr2.
  assert (Hw' : set_log (l2 ++ w_log w2) w2 = set_mySeed seed (set_log (l2 ++ l1 ++ w_log w) w)).
  { unfold l1. by rewrite <- (app_assoc l). }
  rewrite Hw' in E. case_bool_decide as Hr.
  { injection E as <- <- <-. exists nonce, (Z.to_nat n), l1, l2. split_and!; [by apply Hch|done..]. }
  destruct (verify_total b2 nonce store (Hf nonce Ln)) as (v & Ev & Hv). rewrite Ev in E.
  injection E as <- <- <-. exists nonce, (Z.to_nat n), l1, l2. split_and!; [by apply Hch|done|done|].
  intros Hb'. split; [lia|]. destruct (Hv Hb') as (key & salt & Hne & _ & Hk & ->).
  destruct (Hm ltac:(lia)) as [rest ->]. by exists key, salt, rest.
Qed.

(** What authSolve answers to a challenge. *)
Lemma authSolve_inv a s nonce key salt w b buff w' :
  w_socks w !! a = Some s -> isAlive s <> SOCKET_DEAD -> isBlocking s = true -> upgraded w s ->
  no_nul nonce -> zlen nonce < 200 -> resp_fits nonce key salt -> zlen key + 131 < BUFF_SIZE ->
  key <> [] -> Forall (fun c => c ∉ $":") key -> salt <> [] -> Forall (fun c => c ∉ $":") salt ->
  authSolve ($"AUTH " ++ nonce) a None None (Some (key ++ $":" ++ salt)) w = Ok ((b, buff), w') ->
  exists n, sent (fd s) (w_log w')
      = sent (fd s) (w_log w) ++ take n (auth_resp nonce key salt ++ HN_MSG_END) /\
    (b = true -> (0 < n)%nat).
Proof.
  intros Ha Hal Hb Hu Hn Hln Hf Hkf Hk Hk' Hs Hs'. unfold authSolve.
  rewrite str_startswith_spec by (by repeat constructor).
  assert (prefixb $"AUTH " ($"AUTH " ++ nonce) = true) as -> by (apply prefixb_spec; by exists nonce).
  run. change 5 with (zlen $"AUTH ") at 1. rewrite str_substring_tail by done.
  unfold generateAuthRespFromPassword. destruct (password_split key salt) as [-> ->]; [done..|].
  rewrite generateAuthResp_spec by done.
  assert (Hz : zlen (auth_resp nonce key salt) + 2 < BUFF_SIZE).
  { unfold auth_resp. rewrite bool_decide_false, !zlen_app, auth_hash_length by done.
    change (zlen $" ") with 1. lia. }
  destruct (hn_sendMsg_blocking a s (auth_resp nonce key salt) w Ha Hal Hb Hu Hz)
    as (n & l1 & Es & Hn1 & Hs1 & _). rewrite Es. case_bool_decide as Hz0.
  { intros [= <- <- <-]. exists (Z.to_nat n). cbn [w_log set_log]. by rewrite Hs1. }
  intros E. destruct (hn_receiveMsg a BUFF_SIZE (set_log l1 w)) as [[[r b2] w2]|] eqn:Er; [|done].
  apply (hn_receiveMsg_inv a s) in Er as (l2 & d & -> & _ & Hs2 & _); [|done..].
  injection E as <- <- <-. exists (Z.to_nat n). cbn [w_log set_log]. rewrite Hs2. cbn [w_log set_log].
  rewrite Hs1. split; [done|lia].
Qed.
End Receive.

(** ** Properties *)


(** A run for the witnesses: the peer answers the challenge with its key. *)
Definition demo_rand : Rand := fun _ _ => 0.
Definition demo_nonce : cstr := replicate 15 "a"%char.
Definition demo_answer : Os :=
  demo_os 1000 [auth_resp demo_nonce $"k1" $"s1" ++ HN_MSG_END].
Definition demo_blocking : Socket := demo_sock 7 true (buffer_init [] 0).
Definition run_world {A} (r : outcome (A * world)) : world :=
  match r with Ok (_, w) => w | Fail _ => demo_heap demo_blocking end.
Definition demo_challenge : outcome (bool * cstr * world) :=
  @authThrowChallenge demo_answer 1%nat demo_rand 1%positive (store1 $"k1" $"s1")
    (demo_heap demo_blocking).

Lemma store1_fits_all nonce : zlen nonce = 15 -> store_fits nonce (store1 $"k1" $"s1").
Proof.
  intros Hn k s. unfold map_get, map_getItem, store1. cbn.
  unfold str_isEqual, strcmp_eq. case_bool_decide as E; [|done]. cbn. intros [= <-]. subst k.
  unfold resp_fits. rewrite Hn. done.
Qed.


(** a client with the password "key:salt" that meets a challenge sends the
    response a bridge with that key and salt accepts, and nothing else; it
    reports success only when some of it went out. *)
Theorem authSolve_answers `{Os} `{!OsLaws} `{!QuietStack} `{Fuel}
    (a : addr) (s : Socket) (nonce key salt : cstr) (w w' : world) (b : bool) (buff : cstr)
    (Ha : w_socks w !! a = Some s) (Hal : isAlive s <> SOCKET_DEAD) (Hb : isBlocking s = true)
    (Hup : upgraded w s) (Hn : no_nul nonce) (Hln : zlen nonce < 200)
    (Hfits : resp_fits nonce key salt) (Hkf : zlen key + 131 < BUFF_SIZE)
    (Hk : key <> []) (Hk' : Forall (fun c => c ∉ $" :") key)
    (Hs : salt <> []) (Hs' : Forall (fun c => c ∉ $":") salt)
    (Hrun : authSolve ($"AUTH " ++ nonce) a None None (Some (key ++ $":" ++ salt)) w
            = Ok ((b, buff), w')) :
  exists n resp, sent (fd s) (w_log w') = sent (fd s) (w_log w) ++ take n (resp ++ HN_MSG_END) /\
    (b = true -> (0 < n)%nat) /\
    (forall keyStore, map_get keyStore key = Some salt ->
       verifyAuthRespFromMap resp nonce keyStore = Ok true).
Proof.
  assert (Hkc : Forall (fun c => c ∉ $":") key) by by apply (free_sub $" :").
  assert (Hks : Forall (fun c => c ∉ $" ") key) by by apply (free_sub $" :").
  destruct (authSolve_inv a s nonce key salt w b buff w') as (n & E & Hb'); try done.
  exists n, (auth_resp nonce key salt). split_and!; [done|done|].
  intros keyStore Hm. by apply verify_accepts with (salt := salt).
Qed.

Definition demo_solve : outcome (bool * cstr * world) :=
  @authSolve (demo_os 1000 [$"CONNECTED" ++ HN_MSG_END]) 1%nat ($"AUTH " ++ $"nonce") 1%positive
    None None (Some ($"k1" ++ $":" ++ $"s1")) (demo_heap demo_blocking).

Lemma authSolve_answers_witness :
  let w := demo_heap demo_blocking in
  exists n resp, sent 7 (w_log (run_world demo_solve)) = sent 7 (w_log w) ++ take n (resp ++ HN_MSG_END) /\
    (true = true -> (0 < n)%nat) /\
    (forall keyStore, map_get keyStore $"k1" = Some $"s1" ->
       verifyAuthRespFromMap resp $"nonce" keyStore = Ok true).
Proof.
  apply (@authSolve_answers (demo_os 1000 [$"CONNECTED" ++ HN_MSG_END]) (demo_os_laws _ _)
    (demo_quiet _ _) 1%nat 1%positive demo_blocking $"nonce" $"k1" $"s1" (demo_heap demo_blocking)
    (run_world demo_solve) true $"CONNECTED");
    [reflexivity|discriminate|reflexivity|discriminate|by repeat constructor|by vm_compute
    |by vm_compute|by vm_compute|discriminate|by apply free_dec|discriminate|by apply free_dec
    |by vm_compute].
Defined.
