(* ===== verification/AuthExchange.v ===== *)
(** * A client authenticates at a bridge

    The two ends of the challenge put together: [authThrowChallenge] runs at
    the bridge and [authSolve] at the client, each in its own world over its
    own system. Both runs are cut where they wait for the peer, so that the
    theorem can say that the bytes one of them has sent up to there are what is
    delivered to the other, in pieces of any size. *)
From S2P Require Import Prelude CString Str Containers Buffer IpAddr Auth ConfigFile.
From S2P Require Import Sha512Correct Config Os Socket Store Protocol Messages Frame Evolve AuthSocket.

(** ** Texts that fit on a line *)

Definition clean (s : cstr) : Prop := Forall (fun c => c ∉ [CR; nul]) s.

Lemma clean_app s t : clean s -> clean t -> clean (s ++ t).
Proof. apply Forall_app_2. Qed.
Lemma clean_no_nul s : clean s -> no_nul s.
Proof. intros Hs. eapply Forall_impl; [exact Hs|]. intros c Hc ->. apply Hc. set_solver. Qed.
Lemma clean_one_line s : clean s -> one_line s.
Proof.
  intros Hs u v ->. apply Forall_app in Hs as [_ Hs].
  change HN_MSG_END with (CR :: [LF]) in Hs. apply Forall_cons in Hs as [Hc _]. apply Hc. set_solver.
Qed.
Lemma clean_resp nonce key salt : clean key -> clean (auth_resp nonce key salt).
Proof.
  intros Hk. unfold auth_resp. apply clean_app.
  - case_bool_decide; [constructor|]. apply clean_app; [done|by apply free_dec].
  - apply sha512_hex_free. by repeat constructor.
Qed.
Lemma clean_code s : Forall (fun c => c ∈ code_alphabet) s -> clean s.
Proof.
  intros Hs. eapply Forall_impl; [exact Hs|]. intros c Hc.
  assert (Ha : clean code_alphabet) by by apply free_dec.
  unfold clean in Ha. rewrite Forall_forall in Ha. by apply Ha.
Qed.

Lemma sent_log_recv g f chunks l : sent g (log_recv f chunks l) = sent g l.
Proof. revert l. induction chunks as [|c chunks IH]; intros l; [done|]. unfold log_recv in *. cbn. by rewrite IH. Qed.

(** A blocking socket that is alive, for which messages need no upgrade. *)
Record line_socket (w : world) (a : addr) (s : Socket) : Prop := {
  ls_sock : w_socks w !! a = Some s;
  ls_alive : isAlive s <> SOCKET_DEAD;
  ls_blocking : isBlocking s = true;
  ls_upgraded : upgraded w s }.

Lemma line_log w a s l : line_socket w a s -> line_socket (set_log l w) a s.
Proof. by intros []. Qed.

(** A system whose write() takes some of what it is given. *)
Class Writes `{Os} := writes_some : forall l f d, d <> [] -> 0 < os_write l f d.

(** ** The two halves of each run *)

Section Halves.
Context `{Os} `{Fuel}.

(** The bridge up to the challenge, and from the answer on. *)
Definition throw_start `{Rand} (a : addr) : M (Z * cstr * cstr) :=
  now ← sys_time;
  seed ← get w_mySeed;
  '(buff, nonce, seed) ← lift (generateAuthChallenge now seed);
  modify (set_mySeed seed);;
  '(r, buff) ← hn_sendMsg a buff;
  ret (r, buff, nonce).
Definition throw_finish (a : addr) (keyStore : Map cstr) (x : Z * cstr * cstr) : M (bool * cstr) :=
  let '(r, buff, nonce) := x in
  if bool_decide (r <= 0) then ret (false, buff)
  else
    '(r, buff) ← hn_receiveMsg a BUFF_SIZE;
    if bool_decide (r <= 0) then ret (false, buff)
    else ok ← lift (verifyAuthRespFromMap buff nonce keyStore); ret (ok, buff).

Lemma authThrowChallenge_halves `{Rand} a keyStore w :
  authThrowChallenge a keyStore w = (throw_start a ≫= throw_finish a keyStore) w.
Proof.
  unfold authThrowChallenge, throw_start. run.
  repeat first [done | match goal with |- context [match ?x with _ => _ end] =>
    lazymatch x with context [match _ with _ => _ end] => fail | _ => destruct x end end].
Qed.

(** The client up to its answer, and from the reply on. *)
Definition solve_start (buff : cstr) (a : addr) (key salt password : option cstr)
  : M (option (bool * cstr)) :=
  auth ← lift (str_startswith buff $"AUTH ");
  '(go, buff) ←
    (if auth : bool then ret (None, buff)
     else
       '(read, buff) ← hn_receiveMsg a BUFF_SIZE;
       if bool_decide (read <= 0) then ret (Some false, buff)
       else
         auth ← lift (str_startswith buff $"AUTH ");
         ret (if auth : bool then None else Some true, buff));
  match go with
  | Some r => ret (Some (r, buff))
  | None =>
      nonce ← lift (str_substring 200 buff 5 (-1));
      resp ← lift match password with
                  | Some p => generateAuthRespFromPassword nonce p
                  | None => generateAuthResp nonce key salt
                  end;
      '(write, buff) ← hn_sendMsg a resp;
      ret (if bool_decide (write <= 0) then Some (false, buff) else None)
  end.
Definition solve_finish (a : addr) (x : option (bool * cstr)) : M (bool * cstr) :=
  match x with
  | Some r => ret r
  | None => '(read, buff) ← hn_receiveMsg a BUFF_SIZE; ret (negb (bool_decide (read <= 0)), buff)
  end.

Lemma authSolve_halves buff a key salt password w :
  authSolve buff a key salt password w = (solve_start buff a key salt password ≫= solve_finish a) w.
Proof.
  unfold authSolve, solve_start. run.
  repeat first [done | match goal with |- context [match ?x with _ => _ end] =>
    lazymatch x with context [match _ with _ => _ end] => fail | _ => destruct x end end].
Qed.
End Halves.

Section Ends.
Context `{Os} `{!OsLaws} `{!QuietStack} `{Fuel}.

(** A line is on its way: what is delivered next is the text and CR LF. *)
Definition incoming (l : log_t) (f : Z) (chunks : list mem) (msg : cstr) : Prop :=
  concat chunks = msg ++ HN_MSG_END /\ delivers l f BUFF_SIZE chunks.

Lemma receive_clean w a s msg chunks : line_socket w a s -> clean msg -> zlen msg + 2 < BUFF_SIZE ->
  incoming (w_log w) (fd s) chunks msg ->
  hn_receiveMsg a BUFF_SIZE w = Ok ((zlen msg, msg), set_log (log_recv (fd s) chunks (w_log w)) w).
Proof.
  intros [] Hm Hz [Hc Hd]. by apply hn_receiveMsg_line; [..|apply clean_no_nul|apply clean_one_line| | |].
Qed.

(** A message is written whole. *)
Lemma write_loop_all `{!Writes} k f d n0 w n w' :
  write_loop k f d n0 w = Ok (n, w') -> 0 <= n0 <= zlen d -> n = zlen d.
Proof.
  revert n0 w. induction k as [|k IH]; intros n0 w; [done|]. cbn [write_loop].
  case_bool_decide; [|intros [= <- _]; lia].
  unfold sys_write. run. intros E Hn. revert E.
  set (m := os_write (w_log w) f (drop (Z.to_nat n0) d)).
  pose proof (write_bound (w_log w) f (drop (Z.to_nat n0) d)) as Hm. fold m in Hm.
  rewrite zlen_drop in Hm by lia.
  assert (0 < m).
  { apply writes_some. intros Ed. pose proof (zlen_drop d n0 Hn) as Hz. rewrite Ed in Hz. change (zlen (@nil char)) with 0 in Hz. lia. }
  rewrite bool_decide_false by lia. intros E. apply IH in E; lia.
Qed.
Lemma sendMsg_all `{!Writes} w a s msg : line_socket w a s -> zlen msg + 2 < BUFF_SIZE ->
  exists l, hn_sendMsg a msg w = Ok ((zlen msg + 2, msg ++ HN_MSG_END), set_log l w) /\
    sent (fd s) l = sent (fd s) (w_log w) ++ msg ++ HN_MSG_END.
Proof.
  intros [Ha Hal Hb Hu] Hz.
  destruct (hn_sendMsg_blocking a s msg w Ha Hal Hb Hu Hz) as (n & l & E & Hn & Hs & _).
  assert (n = zlen msg + 2) as ->.
  { assert (Hw : sock_write a (msg ++ HN_MSG_END) w = Ok (n, set_log l w)).
    { revert E. unfold hn_sendMsg, get_sock, get_hn. run. rewrite Ha.
      assert (str_concat BUFF_SIZE msg HN_MSG_END = Ok (msg ++ HN_MSG_END)) as ->.
      { apply strcpy_ok. split; [done|]. rewrite zlen_app, zlen_HN_MSG_END. lia. }
      destruct (ptr s) as [h|] eqn:Ep; [destruct (Hu h Ep) as (hs & -> & ->)|]; cbn [negb];
        (destruct (sock_write _ _ _) as [[n' w1]|]; [|done]); by intros [= -> ->]. }
    unfold sock_write, get_sock in Hw. revert Hw. run.
    rewrite Ha, bool_decide_false, Hb by done. intros Hw. apply write_loop_all in Hw.
    - by rewrite Hw, zlen_app.
    - pose proof (zlen_nonneg (msg ++ HN_MSG_END)). lia. }
  exists l. split; [done|]. rewrite Hs. f_equal. apply take_ge. rewrite length_app.
  change (length HN_MSG_END) with 2%nat. unfold zlen. lia.
Qed.

(** The bridge: what it sends, and that it accepts the right answer. *)
Lemma challenge_accepts `{Rand} `{!Writes} a s store w : line_socket w a s ->
  exists nonce l1 x w1, clean nonce /\ zlen nonce = 15 /\ throw_start a w = Ok (x, w1) /\ w_log w1 = l1 /\
    sent (fd s) l1 = sent (fd s) (w_log w) ++ ($"AUTH " ++ nonce) ++ HN_MSG_END /\
    (forall key salt chunks, key <> [] -> Forall (fun c => c ∉ $" ") key -> clean key ->
       zlen key + 131 < BUFF_SIZE -> map_get store key = Some salt -> resp_fits nonce key salt ->
       incoming l1 (fd s) chunks (auth_resp nonce key salt) ->
       authThrowChallenge a store w
       = Ok ((true, auth_resp nonce key salt), set_log (log_recv (fd s) chunks l1) w1)).
Proof.
  intros Hl. set (t := os_time (w_log w)).
  destruct (generateAuthChallenge_ok t (w_mySeed w)) as (nonce & En & Ln & Hnc). apply clean_code in Hnc.
  set (w0 := set_mySeed (wrap32 (w_mySeed w + 1)) (set_log (EvTime t :: w_log w) w)).
  assert (Hl0 : line_socket w0 a s) by by destruct Hl.
  assert (Hz : zlen ($"AUTH " ++ nonce) + 2 < BUFF_SIZE) by (rewrite zlen_app, Ln; reflexivity).
  destruct (sendMsg_all w0 a s ($"AUTH " ++ nonce) Hl0 Hz) as (l1 & Es & Hs).
  set (x := (zlen ($"AUTH " ++ nonce) + 2, ($"AUTH " ++ nonce) ++ HN_MSG_END, nonce)).
  assert (Et : throw_start a w = Ok (x, set_log l1 w0)).
  { unfold throw_start. run. unfold sys_time. run. fold t. cbn [w_mySeed set_log]. rewrite En. fold w0.
    by rewrite Es. }
  exists nonce, l1, x, (set_log l1 w0). split_and!; try done. intros key salt chunks Hk Hk' Hc Hkz Hm Hf Hi.
  assert (Hrz : zlen (auth_resp nonce key salt) = zlen key + 129).
  { unfold auth_resp. rewrite bool_decide_false, !zlen_app, auth_hash_length by done. change (zlen $" ") with 1. lia. }
  pose proof (zlen_nonneg key). pose proof (zlen_nonneg ($"AUTH " ++ nonce)).
  assert (Hr := receive_clean (set_log l1 w0) a s (auth_resp nonce key salt) chunks
    ltac:(by apply line_log) (clean_resp _ _ _ Hc) ltac:(lia) Hi).
  rewrite authThrowChallenge_halves, (M_bind_ok _ _ _ _ _ Et). unfold throw_finish, x.
  rewrite bool_decide_false by lia. run. rewrite Hr, bool_decide_false by lia.
  by rewrite (verify_accepts nonce key salt).
Qed.

(** The client: what it answers, and what it makes of the reply. *)
Lemma solve_answers `{!Writes} a s nonce key salt w chunks : line_socket w a s ->
  clean nonce -> zlen nonce < 200 -> resp_fits nonce key salt -> zlen key + 131 < BUFF_SIZE ->
  key <> [] -> Forall (fun c => c ∉ $":") key -> salt <> [] -> Forall (fun c => c ∉ $":") salt ->
  incoming (w_log w) (fd s) chunks ($"AUTH " ++ nonce) ->
  exists l2 w2, solve_start [] a None None (Some (key ++ $":" ++ salt)) w = Ok (None, w2) /\ w_log w2 = l2 /\
    sent (fd s) l2 = sent (fd s) (w_log w) ++ auth_resp nonce key salt ++ HN_MSG_END /\
    (forall reply chunks', clean reply -> reply <> [] -> zlen reply + 2 < BUFF_SIZE ->
       incoming l2 (fd s) chunks' reply ->
       authSolve [] a None None (Some (key ++ $":" ++ salt)) w
       = Ok ((true, reply), set_log (log_recv (fd s) chunks' l2) w2)).
Proof.
  intros Hl Hn Hln Hf Hkz Hk Hk' Hs Hs' Hi.
  assert (Hch : clean ($"AUTH " ++ nonce)) by (apply clean_app; [by apply free_dec|done]).
  assert (Hcz : zlen ($"AUTH " ++ nonce) = zlen nonce + 5) by (rewrite zlen_app; change (zlen $"AUTH ") with 5; lia).
  pose proof (zlen_nonneg nonce). pose proof (zlen_nonneg key).
  assert (Hr := receive_clean w a s _ chunks Hl Hch ltac:(unfold BUFF_SIZE; lia) Hi).
  set (w1 := set_log (log_recv (fd s) chunks (w_log w)) w) in *.
  assert (Hl1 : line_socket w1 a s) by by apply line_log.
  assert (Hrz : zlen (auth_resp nonce key salt) = zlen key + 129).
  { unfold auth_resp. rewrite bool_decide_false, !zlen_app, auth_hash_length by done. change (zlen $" ") with 1. lia. }
  destruct (sendMsg_all w1 a s (auth_resp nonce key salt) Hl1 ltac:(lia)) as (l2 & Es & Hsn).
  assert (Et : solve_start [] a None None (Some (key ++ $":" ++ salt)) w = Ok (None, set_log l2 w1)).
  { unfold solve_start. rewrite str_startswith_spec by (by repeat constructor).
    change (prefixb $"AUTH " []) with false. run. rewrite Hr, bool_decide_false by lia.
    rewrite str_startswith_spec by (by repeat constructor).
    assert (prefixb $"AUTH " ($"AUTH " ++ nonce) = true) as -> by (apply prefixb_spec; by exists nonce).
    change 5 with (zlen $"AUTH ") at 1. rewrite str_substring_tail by (first [done|by apply clean_no_nul]).
    unfold generateAuthRespFromPassword. destruct (password_split key salt) as [-> ->]; [done..|].
    by rewrite generateAuthResp_spec, Es, bool_decide_false by (done || lia). }
  exists l2, (set_log l2 w1). split_and!; [done|done| |].
  { rewrite Hsn. cbn [w1 w_log set_log]. by rewrite sent_log_recv. }
  intros reply chunks' Hrc Hre Hrl Hi'.
  assert (Hrz' : 0 < zlen reply) by (destruct reply; [done|rewrite zlen_cons; pose proof (zlen_nonneg reply); lia]).
  assert (Hr' := receive_clean (set_log l2 w1) a s reply chunks' ltac:(by apply line_log) Hrc Hrl Hi').
  rewrite authSolve_halves, (M_bind_ok _ _ _ _ _ Et). unfold solve_finish. run. rewrite Hr'.
  by rewrite bool_decide_false by lia.
Qed.
End Ends.

(** C9: The challenge and its solution fit together, over systems whose write()
    always takes something. The bridge's run sends its challenge and waits; when
    the bytes it has sent, and no others, are what is delivered to the client,
    in whatever pieces, then the run of a client with the password "key:salt"
    sends its answer and waits; when the bytes it has sent are what is delivered
    to the bridge, and the bridge's store maps the key to the salt, then
    [authThrowChallenge] at the bridge accepts, and [authSolve] at the client
    returns success with the next line the bridge sends. *)
Theorem auth_exchange_completes
    (* the bridge, its system and its store *)
    (osB : Os) `{!@OsLaws osB} `{!@QuietStack osB} `{!@Writes osB} `{Fuel} `{Rand}
    (b : addr) (sB : Socket) (keyStore : Map cstr) (wB : world)
    (* the client and its password *)
    (osC : Os) `{!@OsLaws osC} `{!@QuietStack osC} `{!@Writes osC}
    (c : addr) (sC : Socket) (key salt : cstr) (wC : world)
    (HB : line_socket wB b sB) (HC : line_socket wC c sC)
    (Hkey : key <> []) (Hkey' : Forall (fun c => c ∉ $" :") key) (Hclean : clean key)
    (Hsalt : salt <> []) (Hsalt' : Forall (fun c => c ∉ $":") salt)
    (Hlen : zlen key + zlen salt < 400) (Hstore : map_get keyStore key = Some salt) :
  let password := Some (key ++ $":" ++ salt) in
  exists x wB1, @throw_start osB _ _ b wB = Ok (x, wB1) /\
  forall chunks1,
    sent (fd sB) (w_log wB1) = sent (fd sB) (w_log wB) ++ concat chunks1 ->
    @delivers osC (w_log wC) (fd sC) BUFF_SIZE chunks1 ->
  exists y wC1, @solve_start osC _ [] c None None password wC = Ok (y, wC1) /\
  forall chunks2,
    sent (fd sC) (w_log wC1) = sent (fd sC) (w_log wC) ++ concat chunks2 ->
    @delivers osB (w_log wB1) (fd sB) BUFF_SIZE chunks2 ->
  (exists resp, @authThrowChallenge osB _ _ b keyStore wB
     = Ok ((true, resp), set_log (log_recv (fd sB) chunks2 (w_log wB1)) wB1)) /\
  (forall chunks3 reply, clean reply -> reply <> [] -> zlen reply + 2 < BUFF_SIZE ->
     concat chunks3 = reply ++ HN_MSG_END -> @delivers osC (w_log wC1) (fd sC) BUFF_SIZE chunks3 ->
     @authSolve osC _ [] c None None password wC
     = Ok ((true, reply), set_log (log_recv (fd sC) chunks3 (w_log wC1)) wC1)).
Proof.
  intros password.
  assert (Hk1 : Forall (fun c => c ∉ $":") key) by by apply (free_sub $" :").
  assert (Hk2 : Forall (fun c => c ∉ $" ") key) by by apply (free_sub $" :").
  pose proof (zlen_nonneg key). pose proof (zlen_nonneg salt).
  destruct (@challenge_accepts osB _ _ _ _ _ b sB keyStore wB HB)
    as (nonce & l1 & x & wB1 & Hnc & Ln & Et & <- & Hs1 & Hacc).
  assert (Hf : resp_fits nonce key salt) by (unfold resp_fits, BUFF_SIZE; lia).
  assert (Hkz : zlen key + 131 < BUFF_SIZE) by (unfold BUFF_SIZE; lia).
  exists x, wB1. split; [done|]. intros chunks1 Hc1 Hd1. rewrite Hs1 in Hc1. apply app_inv_head in Hc1.
  destruct (@solve_answers osC _ _ _ _ c sC nonce key salt wC chunks1 HC Hnc ltac:(lia) Hf Hkz Hkey Hk1 Hsalt Hsalt')
    as (l2 & wC1 & Es & <- & Hs2 & Hsol); [by split|].
  exists None, wC1. split; [done|]. intros chunks2 Hc2 Hd2. rewrite Hs2 in Hc2. apply app_inv_head in Hc2.
  split.
  - exists (auth_resp nonce key salt). apply (Hacc key salt chunks2); try done.
  - intros chunks3 reply Hrc Hre Hrz Hc3 Hd3. by apply Hsol.
Qed.

(** The bridge of the earlier runs and a client with its password: each is
    delivered what the other sends, and both succeed. *)
Definition demo_bridge_os : Os := demo_os 1000 [auth_resp demo_nonce $"k1" $"s1" ++ HN_MSG_END].
Definition demo_client_os : Os :=
  demo_os 1000 [$"AUTH " ++ demo_nonce ++ HN_MSG_END; $"CONNECTED" ++ HN_MSG_END].
Lemma demo_line : line_socket (demo_heap demo_blocking) 1%positive demo_blocking.
Proof. by split. Qed.
Lemma demo_writes pieces : @Writes (demo_os 1000 pieces).
Proof. intros l f d Hd. cbn. destruct d; [done|]. rewrite zlen_cons. pose proof (zlen_nonneg d). lia. Qed.

Lemma auth_exchange_completes_witness :
  (exists resp w', @authThrowChallenge demo_bridge_os 1%nat demo_rand 1%positive (store1 $"k1" $"s1")
     (demo_heap demo_blocking) = Ok ((true, resp), w')) /\
  (exists w', @authSolve demo_client_os 1%nat [] 1%positive None None (Some ($"k1" ++ $":" ++ $"s1"))
     (demo_heap demo_blocking) = Ok ((true, $"CONNECTED"), w')).
Proof.
  destruct (@auth_exchange_completes demo_bridge_os (demo_os_laws _ _) (demo_quiet _ _) (demo_writes _)
    1%nat demo_rand 1%positive demo_blocking (store1 $"k1" $"s1") (demo_heap demo_blocking)
    demo_client_os (demo_os_laws _ _) (demo_quiet _ _) (demo_writes _)
    1%positive demo_blocking $"k1" $"s1" (demo_heap demo_blocking)) as (x & wB1 & EB & H1);
    [exact demo_line|exact demo_line|discriminate|by apply free_dec|by apply free_dec|discriminate
    |by apply free_dec|reflexivity|reflexivity|].
  vm_compute in EB. injection EB as <- <-.
  destruct (H1 [ $"AUTH " ++ demo_nonce ++ HN_MSG_END]) as (y & wC1 & EC & H2);
    [by vm_compute|by split_and!; [|vm_compute|]|].
  vm_compute in EC. injection EC as <- <-.
  destruct (H2 [auth_resp demo_nonce $"k1" $"s1" ++ HN_MSG_END]) as [H3 H4];
    [by vm_compute|by split_and!; [intros E; by vm_compute in E|vm_compute|]|].
  split.
  - destruct H3 as [resp H3]. exists resp. eexists. exact H3.
  - eexists. apply (H4 [ $"CONNECTED" ++ HN_MSG_END] $"CONNECTED");
      [by apply free_dec|discriminate|reflexivity|reflexivity|by split_and!; [|vm_compute|]].
Defined.
