(* ===== verification/Mdns.v ===== *)
(** * The mDNS store (src/store.c, lines 463-715)

    Advertising the bridge and recording the services that answer, over the
    DNS codec of lib/dns. A record belongs to the store, under its listen
    key. *)
From S2P Require Import Prelude CString Dns DnsEncode DnsDecode Mappings DnsPrint.
From S2P Require Import Str Containers Buffer IpAddr Auth ConfigFile.
From S2P Require Import Config Os Socket Store Protocol.

Definition DNS_BUFF : Z := 1024.
Definition DNS_BUFFER_UDP : Z := 512.      (* bytes of a dns_packet_t array *)
Definition DNS_DECODEBUF_4K : Z := 4096.   (* bytes of a dns_decoded_t array *)
Definition BROADCAST_MIN_INTERVAL_SECS : Z := 3.

Definition set_mdnsStore (m : Map MdnsRecord) (cx : BridgeContext) : BridgeContext :=
  mkBridgeContext (masterKey cx) (cx_name cx) (queryKeys cx) (listenKeys cx) (listeningSocks cx)
    m (mdnsLastRefresh cx) (lastMdnsBroadcast cx) (rlSock cx) (rlRetries cx) (rlLastRetry cx)
    (rlLastPing cx).
Definition set_lastBroadcast (t : Z) (cx : BridgeContext) : BridgeContext :=
  mkBridgeContext (masterKey cx) (cx_name cx) (queryKeys cx) (listenKeys cx) (listeningSocks cx)
    (mdnsStore cx) (mdnsLastRefresh cx) t (rlSock cx) (rlRetries cx) (rlLastRetry cx)
    (rlLastPing cx).

Definition set_ip (ip : sockaddr) (r : MdnsRecord) : MdnsRecord :=
  mkMdnsRecord ip (mr_name r) (mr_data r) (mr_timestamp r).
Definition set_timestamp (t : Z) (r : MdnsRecord) : MdnsRecord :=
  mkMdnsRecord (mr_ip r) (mr_name r) (mr_data r) t.
Definition set_data (d : Map cstr) (r : MdnsRecord) : MdnsRecord :=
  mkMdnsRecord (mr_ip r) (mr_name r) d (mr_timestamp r).

Section Mdns.
Context `{Os} `{Fuel} `{Inet6} `{Rand} `{FloatText}.

(** The query for the TXT record of a name; the model keeps the fixed
    identifier of the code. *)
Definition mdns_query (name : cstr) : dns_query_t :=
  mkQuery 1234 true OP_QUERY false false true false false false false RCODE_OKAY
    [mkQuestion (Some (name ++ $".")) (dns_type_value $"TXT") CLASS_IN] [] [] [].

(** Encode into a buffer and send what [size] says; the return code of
    [dns_encode] is not looked at. *)
Definition send_packet (buffer : Z) (query : dns_query_t) : M Z :=
  '(_, packet, size) ← lift (dns_encode buffer query);
  mdns_send (take (Z.to_nat size) packet).

Definition sendMdnsQuery (name : cstr) : M bool :=
  r ← send_packet DNS_BUFFER_UDP (mdns_query name);
  ret (bool_decide (r > 0)).

(** The items whose name is asked for, or a subdomain of it. *)
Fixpoint records_loop (items : list (Item MdnsRecord)) (max : nat) (name : cstr) (count : nat)
  : M (list (Item MdnsRecord)) :=
  match items with
  | [] => ret []
  | i :: rest =>
      if bool_decide (count < max)%nat then
        l ← get w_log;
        sub ← lift (if str_isEqual name (mr_name (value i)) then Ok true
                    else str_endswith (os_below l) (mr_name (value i)) ($"." ++ name));
        if sub : bool then r ← records_loop rest max name (S count); ret (i :: r)
        else records_loop rest max name count
      else ret []
  end.
Definition getMdnsRecordsForName (max : nat) (name : cstr) (mdnsStore : Map MdnsRecord)
  : M (list (Item MdnsRecord)) :=
  records_loop (start mdnsStore) max name 0.

(** The first record with the address, as text, and its key. *)
Fixpoint record_for_ip (items : list (Item MdnsRecord)) (ip1Str : cstr)
  : outcome (option (cstr * MdnsRecord)) :=
  match items with
  | [] => Ok None
  | i :: rest =>
      ip2Str ← ipAddr_toString IPADDR_SIZE (mr_ip (value i));
      if str_isEqual ip1Str ip2Str then Ok (Some (key i, value i)) else record_for_ip rest ip1Str
  end.
Definition getMdnsRecordForIpAddr (ip : sockaddr) (cx : BridgeContext)
  : outcome (option (cstr * MdnsRecord)) :=
  ip1Str ← ipAddr_toString IPADDR_SIZE ip;
  record_for_ip (start (mdnsStore cx)) ip1Str.

(** ** Questions *)

(** The answer: the port of the bridge, under its name. *)
Definition mdns_answer (name txt : cstr) : dns_answer_t :=
  mkAnswer (Some (name ++ $".")) RR_TXT CLASS_IN 0 (R_TXT (zlen txt) (Some (cmem txt))).

(** The question is answered when it asks for the bridge; at most one is. The
    query is printed first; the answer is the whole query with its answer section replaced. *)
Fixpoint answer_questions (qs : list dns_question_t) (query : dns_query_t) : M unit :=
  match qs with
  | [] => ret tt
  | q :: rest =>
      match q_name q with
      | None => answer_questions rest query
      | Some qn =>
          if bool_decide (q_type q <> RR_TXT) then answer_questions rest query
          else
            l ← get w_log;
            dot ← lift (str_endswith (os_below l) qn $".");
            let qname := if dot : bool then removelast qn else qn in
            cx ← get_context;
            if str_isEqual (cx_name cx) qname || str_isEqual qname $"bridge.hn.local" then
              _ ← lift (dns_print_result query);
              c ← get w_conf;
              bm ← deref_M (bridge c);
              txt ← lift (strcpy 100 ($"PORT=" ++ printf_d (bm_port bm) ++ $";"));
              r ← send_packet DNS_BUFF (set_answers [mdns_answer (cx_name cx) txt] false query);
              if bool_decide (r <= 0) then ret tt
              else t ← sys_time; upd_context (set_lastBroadcast t)
            else answer_questions rest query
      end
  end.

(** ** Answers *)

(** Change the record the store keeps under a key. *)
Definition upd_record (listenKey : cstr) (f : MdnsRecord -> MdnsRecord) : M unit :=
  upd_context (fun cx =>
    match map_get (mdnsStore cx) listenKey with
    | Some r => set_mdnsStore (mkMap (assign_loop (start (mdnsStore cx)) listenKey (f r))
                                     (count (mdnsStore cx))) cx
    | None => cx
    end).

(** The record of a service that announced its port: an old one with the same
    name at this address, or a new one under a fresh key. *)
Definition record_for (name : cstr) (ip : sockaddr) : M cstr :=
  cx ← get_context;
  found ← lift (getMdnsRecordForIpAddr ip cx);
  listenKey ←
    match found with
    | Some (k, r) =>
        k ← lift (str_set 20 k);
        if str_isEqual name (mr_name r) then upd_record k (set_data map_init);; ret (Some k)
        else ret None
    | None => ret None
    end;
  listenKey ←
    match listenKey with
    | Some k => ret k
    | None =>
        n ← lift (str_set MAX_URL_SIZE name);
        k ← gen_code 20 14;
        cx ← get_context;
        '(m, _) ← lift (map_set (mdnsStore cx) k (mkMdnsRecord ip n map_init 0) true);
        upd_context (set_mdnsStore m);;
        ret k
    end;
  t ← sys_time;
  upd_record listenKey (set_timestamp t);;
  ret listenKey.

(** The loop over the "key=value" lines of a TXT record; [rec] is the key of
    the record once there is one. *)
Fixpoint txt_loop (k : nat) (saveptr : cstr) (name : cstr) (ip : sockaddr) (rec : option cstr)
  : M unit :=
  match k with
  | O => fail NoFuel
  | S k' =>
      match strtok_r $";" saveptr with
      | None => ret tt
      | Some (line, saveptr) =>
          key ← deref_M (tok1 $"=" line);
          let value := tok1 $"=" (tok_rest $"=" line) in
          match rec with
          | None =>
              if str_isEqual key $"PORT" then
                v ← deref_M value;
                rec ← record_for name (ipAddr_setPort ip (str_toInt v));
                txt_loop k' saveptr name (ipAddr_setPort ip (str_toInt v)) (Some rec)
              else ret tt
          | Some listenKey =>
              v ← deref_M value;
              cx ← get_context;
              match map_get (mdnsStore cx) listenKey with
              | None => fail UseAfterFree
              | Some r =>
                  '(d, _) ← lift (map_set (mr_data r) key v true);
                  upd_record listenKey (set_data d);;
                  txt_loop k' saveptr name ip rec
              end
          end
      end
  end.

(** The text of an answer, as the string its pointer shows. *)
Definition answer_text (a : dns_answer_t) : M cstr :=
  match a_data a with
  | R_TXT _ text =>
      m ← deref_M text;
      match cview m with Some s => ret s | None => fail OutOfBounds end
  | _ => fail WrongMember
  end.

Fixpoint record_answers (ans : list dns_answer_t) (ip : sockaddr) : M unit :=
  match ans with
  | [] => ret tt
  | a :: rest =>
      match a_name a with
      | None => record_answers rest ip
      | Some n =>
          if bool_decide (a_type a <> RR_TXT) then record_answers rest ip
          else
            n ← lift (str_set 300 n);
            name ← lift (via (fun m => len ← strlen m; wr m (len - 1) nul) n);
            l ← get w_log;
            hn ← lift (str_endswith (os_below l) name $".hn.local");
            cx ← get_context;
            if negb hn || str_isEqual name (cx_name cx) then record_answers rest ip
            else
              text ← answer_text a;
              txt ← lift (str_set 500 text);
              txt_loop (S (length txt)) txt name ip None;;
              record_answers rest ip
      end
  end.

(** The packet lies at the start of a zeroed buffer. *)
Definition handleMdnsRead (a : addr) : M unit :=
  cx ← get_context;
  '(d, ip) ← udp_read a DNS_BUFF;
  if bool_decide (zlen d <= 0) then ret tt
  else
    let buff := d ++ replicate (Z.to_nat (DNS_BUFF - zlen d)) nul in
    r ← lift (dns_decode DNS_DECODEBUF_4K buff (zlen d));
    match r with
    | inl _ => ret tt
    | inr query =>
        if bool_decide (answers query = [] /\ questions query <> []) then
          now ← sys_time;
          if bool_decide (lastMdnsBroadcast cx + BROADCAST_MIN_INTERVAL_SECS > now) then ret tt
          else answer_questions (questions query) query
        else if bool_decide (answers query <> []) then record_answers (answers query) ip
        else ret tt
    end.
End Mdns.
