(* ===== verification/MdnsFacts.v ===== *)
(** * Answering and recording over mDNS

    The bridge answers a query for its name with its port, and a bridge that
    hears such an answer records the service. The packets in between are those
    of the codec: [carries p q] says that a receiver who has [p] decodes [q]. *)
From S2P Require Import Prelude CString Dns Mappings DnsEncode DnsDecode.
From S2P Require Import DnsNames DnsRoundTrip DnsFacts DnsFits DnsPrint.
From S2P Require Import Str Containers Buffer IpAddr Auth ConfigFile.
From S2P Require Import Config Os Socket Store Protocol Mdns.

(** A name as the configuration has it: labels, without the dot at the end. *)
Record host_ok (name : cstr) : Prop := {
  host_domain : domain_ok (name ++ [dot]);
  host_size : zlen name < 100 }.

Lemma zlen_nil_Z {A} : zlen (@nil A) = 0.
Proof. done. Qed.
Lemma labels_twice ls : Forall label_ok ls -> 2 * Z.of_nat (length ls) <= zlen (dotted ls).
Proof.
  induction 1 as [|l ls Hl _ IH]; [done|]. rewrite dotted_cons, zlen_app, zlen_cons.
  cbn [length]. destruct l as [|c l]; [by destruct Hl|]. rewrite zlen_cons.
  pose proof (zlen_nonneg l). lia.
Qed.
Lemma host_labels name : host_ok name ->
  exists ls, Forall label_ok ls /\ name ++ [dot] = name_text ls /\ (length ls <= 50)%nat.
Proof.
  intros [(ls & Hls & E) Hs]. exists ls. split_and!; [done..|].
  destruct ls as [|l ls]; [cbn; lia|]. pose proof (labels_twice _ Hls) as H. cbn [name_text] in E.
  rewrite <- E, zlen_app in H. change (zlen [dot]) with 1 in H. lia.
Qed.
Lemma host_no_nul name : host_ok name -> no_nul name.
Proof.
  intros [(ls & Hls & E) _]. pose proof (name_text_no_nul ls Hls) as H. rewrite <- E in H.
  by apply no_nul_app in H as [? _].
Qed.

(** [q] is a question for the TXT record of [name], and nothing else. *)
Record asks (q : dns_query_t) (name : cstr) (class : Z) : Prop := {
  asks_id : 0 <= dq_id q <= UINT16_MAX;
  asks_opcode : 0 <= dq_opcode q <= 5;
  asks_rcode : 0 <= dq_rcode q <= 15;
  asks_question : questions q = [mkQuestion (Some (name ++ [dot])) RR_TXT class];
  asks_answers : answers q = [];
  asks_nameservers : nameservers q = [];
  asks_additional : additional q = [] }.

Lemma mdns_query_asks name : asks (mdns_query name) name CLASS_IN.
Proof. by split. Qed.

(** The text a bridge announces itself with. *)
Definition port_text (port : Z) : cstr := $"PORT=" ++ dec_nat port ++ $";".
(** The answer of the bridge [name] to the query. *)
Definition answered (name : cstr) (port : Z) (q : dns_query_t) : dns_query_t :=
  set_answers [mdns_answer name (port_text port)] false q.

Lemma port_text_size port : 0 <= port < 65536 -> 6 <= zlen (port_text port) <= 11.
Proof.
  intros Hp. unfold port_text. rewrite !zlen_app.
  change (zlen $"PORT=") with 5. change (zlen $";") with 1.
  pose proof (dec_nat_port port Hp). pose proof (zlen_nonneg (dec_nat port)). lia.
Qed.

Section Packets.
Context `{FloatText}.

(** A packet a receiver with the buffers of the program decodes as [q]. *)
Definition carries (p : mem) (q : dns_query_t) : Prop :=
  0 < zlen p <= DNS_BUFF /\
  forall rest, dns_decode DNS_DECODEBUF_4K (p ++ rest) (zlen p) = Ok (inr q).

(** The packet as it lies in the zeroed buffer of the receiver. *)
Definition buffered (p : mem) : mem := p ++ replicate (Z.to_nat (DNS_BUFF - zlen p)) nul.
Lemma carries_buffered p q : carries p q ->
  0 < zlen p /\ dns_decode DNS_DECODEBUF_4K (buffered p) (zlen p) = Ok (inr q).
Proof. intros [[? _] Hd]. split; [done|apply Hd]. Qed.

Lemma encode_carries plen q n k : query_ok q ->
  0 <= dq_id q <= UINT16_MAX -> dq_opcode q <= 5 -> dq_rcode q <= 15 ->
  qdcount q <= UINT16_MAX -> ancount q <= UINT16_MAX -> nscount q <= UINT16_MAX ->
  arcount q <= UINT16_MAX -> query_pool q < DNS_DECODEBUF_4K ->
  fits n k (encode_sections q) -> 0 <= n -> (k <= 100)%nat ->
  HEADER + n <= plen -> plen <= DNS_BUFF ->
  exists m len, dns_encode plen q = Ok (RCODE_OKAY, m, len) /\ 0 < zlen (take (Z.to_nat len) m) /\
    carries (take (Z.to_nat len) m) q.
Proof.
  intros Hq Hid Hop Hrc Hqd Han Hns Har Hpool Hf Hn Hk Hroom Hbuf. unfold DNS_BUFF, HEADER in *.
  destruct (dns_encode_fits plen q n k) as (m & len & E & Hlen & Hm); try done; [lia|].
  exists m, len. unfold HEADER in Hlen.
  assert (Hz : zlen (take (Z.to_nat len) m) = len)
    by (unfold zlen in *; rewrite length_take; lia).
  unfold carries, DNS_BUFF. rewrite Hz. split; [done|]. split; [lia|]. split; [lia|].
  intros rest. apply (dns_decode_encode plen); try done. lia.
Qed.

Lemma host_question name class : host_ok name -> u16_ok RR_TXT ->
  question_ok (mkQuestion (Some (name ++ [dot])) RR_TXT class).
Proof. intros Hh Ht. split; [|done]. exists (name ++ [dot]). split; [done|apply Hh]. Qed.

Lemma answer_answer_ok name txt : host_ok name -> answer_ok (mdns_answer name txt).
Proof.
  intros Hh. split; [|done..|by apply ok_txt]. exists (name ++ [dot]). split; [done|apply Hh].
Qed.

Lemma query_carried q name class : asks q name class -> host_ok name -> 1 <= class <= 4 ->
  exists m len, dns_encode DNS_BUFFER_UDP q = Ok (RCODE_OKAY, m, len) /\
    carries (take (Z.to_nat len) m) q.
Proof.
  intros [Hid Hop Hrc Hqs Han Hns Har] Hh Hc.
  destruct (host_labels name Hh) as (ls & Hls & E & Hk). pose proof (host_size _ Hh).
  pose proof (zlen_nonneg name).
  assert (Hz : zlen (name ++ [dot]) = zlen name + 1) by by rewrite zlen_app.
  destruct (encode_carries DNS_BUFFER_UDP q (zlen (name ++ [dot]) + 5) (length ls)) as (m & len & Henc & _ & Hcar);
    [..|by exists m, len]; unfold qdcount, ancount, nscount, arcount;
    rewrite ?Hqs, ?Han, ?Hns, ?Har; try done; try lia.
  - split; [lia|lia|..]; rewrite ?Hqs, ?Han, ?Hns, ?Har; try apply Forall_nil_2.
    apply Forall_cons_2; [by apply host_question|apply Forall_nil_2].
  - unfold query_pool, qdcount, ancount, nscount, arcount. rewrite Hqs, Han, Hns, Har.
    unfold sizeof_query, sizeof_question, sizeof_answer, DNS_DECODEBUF_4K.
    cbn [zsum foldr question_pool str_pool q_name]. rewrite Hz.
    rewrite !zlen_cons, zlen_nil_Z. change (@zlen dns_answer_t []) with 0. lia.
  - by apply (fits_one_question q (name ++ [dot]) ls RR_TXT class).
  - rewrite Hz. unfold HEADER, DNS_BUFFER_UDP. lia.
Qed.

Lemma mdns_answer_pool name txt :
  answer_pool (mdns_answer name txt) = (zlen name + 1 + 1) + (zlen txt + 1).
Proof. unfold answer_pool, mdns_answer. cbn [a_name a_data str_pool rdata_pool]. by rewrite zlen_app. Qed.

Lemma answer_carried q name class host port : asks q name class -> host_ok name -> host_ok host ->
  1 <= class <= 4 -> 0 <= port < 65536 ->
  exists m len, dns_encode DNS_BUFF (answered host port q) = Ok (RCODE_OKAY, m, len) /\
    carries (take (Z.to_nat len) m) (answered host port q).
Proof.
  intros [Hid Hop Hrc Hqs Han Hns Har] Hh Hh' Hc Hp.
  destruct (host_labels name Hh) as (ls & Hls & E & Hk). pose proof (host_size _ Hh).
  destruct (host_labels host Hh') as (als & Hals & Ea & Hk'). pose proof (host_size _ Hh').
  pose proof (zlen_nonneg name). pose proof (zlen_nonneg host).
  pose proof (port_text_size port Hp) as Hl. unfold answered.
  set (txt := port_text port) in *. clearbody txt.
  assert (Hz : zlen (name ++ [dot]) = zlen name + 1) by by rewrite zlen_app.
  assert (Hz' : zlen (host ++ [dot]) = zlen host + 1) by by rewrite zlen_app.
  set (q' := set_answers _ _ _).
  assert (Hqs' : questions q' = [mkQuestion (Some (name ++ [dot])) RR_TXT class]) by done.
  assert (Han' : answers q' = [mdns_answer host txt]) by done.
  assert (Hns' : nameservers q' = []) by done. assert (Har' : additional q' = []) by done.
  assert (Hid' : dq_id q' = dq_id q /\ dq_opcode q' = dq_opcode q /\ dq_rcode q' = dq_rcode q) by done.
  destruct Hid' as (Hid' & Hop' & Hrc'). clearbody q'.
  destruct (encode_carries DNS_BUFF q' (zlen (name ++ [dot]) + zlen (host ++ [dot]) + zlen txt + 17)
    (length ls + length als)) as (m & len & Henc & _ & Hcar);
    [..|by exists m, len]; unfold qdcount, ancount, nscount, arcount;
    rewrite ?Hqs', ?Han', ?Hns', ?Har'; try done; try lia.
  - split; [lia|lia|..]; rewrite ?Hqs', ?Han', ?Hns', ?Har'; try apply Forall_nil_2;
      (apply Forall_cons_2; [|apply Forall_nil_2]); [by apply host_question|by apply answer_answer_ok].
  - unfold query_pool, qdcount, ancount, nscount, arcount. rewrite Hqs', Han', Hns', Har'.
    unfold sizeof_query, sizeof_question, sizeof_answer, DNS_DECODEBUF_4K.
    cbn [zsum foldr question_pool str_pool q_name]. rewrite mdns_answer_pool, Hz.
    rewrite !zlen_cons, zlen_nil_Z. change (@zlen dns_answer_t []) with 0. lia.
  - apply (fits_one_answer _ (name ++ [dot]) ls RR_TXT class (host ++ [dot]) als 0 CLASS_IN txt);
      try done. lia.
  - rewrite Hz, Hz'. unfold HEADER, DNS_BUFF. lia.
Qed.
End Packets.

(** ** Sending and receiving a packet *)

Section Handling.
Context `{Os} `{Fuel} `{Inet6} `{Rand} `{FloatText}.

(** The program can multicast: the descriptor is open and its address is set,
    or the next call will open it and join the group. *)
Definition can_multicast (w : world) : Prop :=
  if bool_decide (w_mdnsFd w < 0) then
    let f := os_socket (w_log w) in 0 <= f /\ os_setsockopt (EvSocket f :: w_log w) f = true
  else w_mdnsAddr w = mdns_group.
Definition opened (w : world) : world :=
  if bool_decide (w_mdnsFd w < 0) then
    let f := os_socket (w_log w) in
    set_mdnsAddr mdns_group (set_mdnsFd f (set_log (EvSetOpt f :: EvSocket f :: w_log w) w))
  else w.
(** One packet goes to the group; [taken] is what sendto() returns. *)
Definition taken (p : mem) (w : world) : Z :=
  os_sendto (w_log (opened w)) (w_mdnsFd (opened w)) mdns_group p.
Definition multicast (p : mem) (w : world) : world :=
  set_log (EvSendTo (w_mdnsFd (opened w)) mdns_group p (taken p w) :: w_log (opened w)) (opened w).

Lemma send_packet_run buffer q m len w :
  dns_encode buffer q = Ok (RCODE_OKAY, m, len) -> can_multicast w ->
  let p := take (Z.to_nat len) m in
  exists r, send_packet buffer q w = Ok (r, multicast p w) /\ (r <= 0 <-> taken p w <= 0).
Proof.
  intros E Hfd p. unfold send_packet. rewrite E. unfold mbind at 1, M_bind, lift. cbn beta iota. fold p.
  unfold mdns_send, multicast, taken. unfold can_multicast, opened in *. run.
  case_bool_decide.
  - destruct Hfd as [Hf Hm]. unfold sys_socket, sys_setsockopt. run. cbn [w_log set_log set_mdnsFd].
    rewrite Hm, mdns_group_parsed. cbn [negb w_mdnsFd w_mdnsAddr w_log set_mdnsAddr set_mdnsFd set_log].
    rewrite (bool_decide_true (0 <= _)) by done. cbn [negb w_mdnsFd w_mdnsAddr w_log set_mdnsAddr set_mdnsFd set_log]. rewrite mdns_group_text. eexists. split; [done|].
    case_bool_decide; lia.
  - cbn [negb]. rewrite Hfd. rewrite mdns_group_text. eexists. split; [done|].
    case_bool_decide; lia.
Qed.

(** The descriptor of a group that could not be joined is kept, and its address
    stays unset: the next packet goes to that address, and printing it reads
    behind the object. *)
Lemma mdns_send_unjoined p w : 0 <= w_mdnsFd w -> w_mdnsAddr w = sockaddr_zero ->
  mdns_send p w = Fail OutOfBounds.
Proof. intros Hf Ha. unfold mdns_send. run. rewrite bool_decide_false by lia. cbn [negb]. by rewrite Ha. Qed.
Lemma mdns_send_join_fails p w : w_mdnsFd w < 0 ->
  let f := os_socket (w_log w) in
  os_setsockopt (EvSocket f :: w_log w) f = false ->
  exists w', mdns_send p w = Ok (-1, w') /\ w_mdnsFd w' = f /\ w_mdnsAddr w' = w_mdnsAddr w.
Proof.
  intros Hf f Hm. unfold mdns_send, sys_socket, sys_setsockopt. run. rewrite bool_decide_true by lia.
  cbn [w_log set_log set_mdnsFd]. fold f. rewrite Hm. cbn [negb]. by eexists.
Qed.

(** The packet in the buffer: a datagram with zeros behind it. *)
Lemma handleMdnsRead_run a s w p from q : w_socks w !! a = Some s ->
  os_recvfrom (w_log w) (fd s) DNS_BUFF = Some (p, from) ->
  0 < zlen p -> dns_decode DNS_DECODEBUF_4K (buffered p) (zlen p) = Ok (inr q) ->
  bridge (w_conf w) <> None ->
  let w1 := set_log (EvRecvFrom (fd s) p :: w_log w) w in
  handleMdnsRead a w =
  (cx ← get_context;
   if bool_decide (answers q = [] /\ questions q <> []) then
     now ← sys_time;
     if bool_decide (lastMdnsBroadcast cx + BROADCAST_MIN_INTERVAL_SECS > now) then ret tt
     else answer_questions (questions q) q
   else if bool_decide (answers q <> []) then record_answers (answers q) from
   else ret tt) w1.
Proof.
  intros Hs Hr Hp0 Hd Hbm. destruct (bridge (w_conf w)) as [bm|] eqn:E; [|done].
  unfold handleMdnsRead, udp_read, get_context, get_sock. run. rewrite E, Hs, Hr. cbn.
  rewrite E, bool_decide_false by lia. fold (buffered p). by rewrite Hd.
Qed.

Lemma removelast_dot name : removelast (name ++ [dot]) = name.
Proof. by rewrite removelast_last. Qed.
Lemma ends_in_dot below name : str_endswith below (name ++ [dot]) $"." = Ok true.
Proof.
  rewrite str_endswith_spec; [|no_nul|].
  - f_equal. apply suffixb_spec. by exists name.
  - rewrite zlen_app. change (zlen [dot]) with 1. change (zlen $".") with 1.
    pose proof (zlen_nonneg name). lia.
Qed.

(** The clock when a packet has been received. *)
Definition clock (w : world) : Z := os_time (w_log w).
Definition timed (w : world) : world := set_log (EvTime (clock w) :: w_log w) w.

Lemma port_text_fits port : 0 <= port < 65536 ->
  strcpy 100 ($"PORT=" ++ printf_d port ++ $";") = Ok (port_text port).
Proof.
  intros Hp. unfold printf_d. rewrite bool_decide_false by lia.
  apply strcpy_ok. split; [done|]. pose proof (port_text_size port Hp). unfold port_text in *. lia.
Qed.

(** The query can be printed. *)
Lemma asks_printed q name class : asks q name class -> 0 <= class -> exists s, dns_print_result q = Ok s.
Proof.
  intros [_ _ Hrc Hqs Han Hns Har] Hc. unfold dns_print_result. rewrite Hqs, Han, Hns, Har.
  unfold dns_print_question, dns_print_answer. cbn [print_all].
  repeat first [apply prints_ok | apply prints_itos; [by vm_compute|cbn [q_class q_type]; by (done || lia)]
               | apply prints_bind; [|intros ?]].
Qed.
Lemma answer_questions_run q name class bm w :
  asks q name class -> 0 <= class -> bridge (w_conf w) = Some bm -> 0 <= bm_port bm < 65536 ->
  name = cx_name (context bm) \/ name = $"bridge.hn.local" ->
  answer_questions (questions q) q w =
  (r ← send_packet DNS_BUFF (answered (cx_name (context bm)) (bm_port bm) q);
   if bool_decide (r <= 0) then ret tt
   else t ← sys_time; upd_context (set_lastBroadcast t)) w.
Proof.
  intros Ha Hc Hbm Hp Hname. destruct (asks_printed _ _ _ Ha Hc) as (shown & Hs).
  destruct Ha as [_ _ _ -> _ _ _]. cbn [answer_questions q_name q_type].
  rewrite bool_decide_false by (intros []; done).
  run. rewrite ends_in_dot. cbn beta iota. unfold get_context. run. rewrite Hbm.
  cbn beta iota. rewrite removelast_dot.
  assert (Hm : str_isEqual (cx_name (context bm)) name || str_isEqual name $"bridge.hn.local" = true).
  { apply orb_true_iff. rewrite !str_isEqual_true. by destruct Hname; [left|right]. }
  rewrite Hm, Hs. cbn beta iota. rewrite Hbm. cbn beta iota. by rewrite port_text_fits.
Qed.

Definition received_from (a_fd : Z) (p : mem) (w : world) : world :=
  set_log (EvRecvFrom a_fd p :: w_log w) w.

Lemma encode_class_aborts plen q name class : asks q name class -> ~ (1 <= class <= 4) -> HEADER < plen ->
  forall ans b, dns_encode plen (set_answers [ans] b q) = Fail AssertFailed.
Proof.
  intros [Hid Hop Hrc Hqs _ Hns Har] Hc Hp ans b. unfold dns_encode, HEADER in *.
  rewrite cond_true by lia. cbn [negb]. set (s := mkE _ _ _ _ _ _).
  assert (Hq : query_okay (set_answers [ans] b q) s = Ok (s, inr tt)).
  { unfold query_okay, qdcount, ancount, nscount, arcount. cbn [set_answers questions answers nameservers
      additional dq_id dq_opcode dq_rcode]. rewrite Hqs, Hns, Har.
    rewrite !zlen_cons, !zlen_nil_Z. change (@zlen dns_answer_t []) with 0. unfold UINT16_MAX in *.
    rewrite !(codec_bind_ok _ _ s s tt) by (apply cassert_ok, bool_decide_eq_true_2; lia).
    apply cassert_ok, bool_decide_eq_true_2. lia. }
  rewrite Hq. cbn [mbind outcome_bind]. unfold encode_sections, encode_questions.
  cbn [set_answers questions]. rewrite Hqs. cbn [encode_all].
  assert (He : encode_question (mkQuestion (Some (name ++ [dot])) RR_TXT class) s = Fail AssertFailed).
  { unfold encode_question. cbn [q_name q_type q_class].
    rewrite (codec_bind_ok _ _ s s tt).
    2:{ unfold econtext_okay. erewrite codec_bind_ok by done.
        apply cassert_ok, bool_decide_eq_true_2. cbn. lia. }
    rewrite (codec_bind_ok _ _ s s (name ++ [dot])) by done.
    rewrite (codec_bind_ok _ _ s s tt) by done.
    unfold zleb. destruct (decide (1 <= class)).
    - rewrite (codec_bind_ok _ _ s s tt) by (apply cassert_ok, bool_decide_eq_true_2; lia).
      unfold cassert at 1. by rewrite bool_decide_false by lia.
    - unfold mbind, codec_bind, cassert. by rewrite (bool_decide_false (1 <= class)) by lia. }
  unfold mbind, codec_bind. by rewrite He.
Qed.

(** A question of a class that is not 1 to 4 ends the program when the bridge
    answers it. Such questions are usual: in mDNS the top bit of the class asks
    for a unicast answer, so that class IN reads 0x8001. The answer repeats the
    question, and the encoder asserts the class. *)
Theorem mdns_unicast_question_aborts a s w p from q name class bm :
  w_socks w !! a = Some s -> os_recvfrom (w_log w) (fd s) DNS_BUFF = Some (p, from) ->
  0 < zlen p -> dns_decode DNS_DECODEBUF_4K (buffered p) (zlen p) = Ok (inr q) ->
  asks q name class -> 0 <= class -> ~ (1 <= class <= 4) ->
  bridge (w_conf w) = Some bm -> 0 <= bm_port bm < 65536 ->
  name = cx_name (context bm) \/ name = $"bridge.hn.local" ->
  let w1 := received_from (fd s) p w in
  lastMdnsBroadcast (context bm) + BROADCAST_MIN_INTERVAL_SECS <= clock w1 ->
  handleMdnsRead a w = Fail AssertFailed.
Proof.
  intros Hs Hr Hp0 Hd Ha Hc0 Hcl Hbm Hp Hname w1 Ht.
  rewrite (handleMdnsRead_run a s w p from q) by (try done; by rewrite Hbm).
  change (set_log _ w) with w1.
  rewrite (M_bind_ok _ _ w1 (context bm) w1) by (unfold get_context; run; cbn; by rewrite Hbm).
  rewrite bool_decide_true by by rewrite (asks_answers _ _ _ Ha), (asks_question _ _ _ Ha).
  rewrite (M_bind_ok _ _ w1 (clock w1) (timed w1)), bool_decide_false by (done || lia).
  rewrite (answer_questions_run q name class bm) by (done || lia).
  unfold answered, send_packet. run.
  by rewrite (encode_class_aborts _ _ _ _ Ha) by done.
Qed.

(** C14: The bridge answers. Let a datagram decode to a query of exactly one
    question and no record, for the TXT record of the bridge's name or of
    "bridge.hn.local", let the last broadcast be at least three seconds ago, and
    let the multicast descriptor be ready (open with its address set, or about
    to be opened and joined). When the class of the question is 1 to 4,
    handleMdnsRead sends exactly one packet to 224.0.0.251:5353; that packet
    decodes to the question with one TXT record, under the name of the bridge,
    holding "PORT=<port>;"; the time of the broadcast is taken down when the
    packet could be sent, and nothing else changes but the descriptor, if it was
    opened now. With any other class, as in a question that asks for a unicast
    answer (0x8001), an assertion of the encoder ends the program. *)
Theorem mdns_query_answered a s w p from q name class bm :
  w_socks w !! a = Some s -> os_recvfrom (w_log w) (fd s) DNS_BUFF = Some (p, from) ->
  0 < zlen p -> dns_decode DNS_DECODEBUF_4K (buffered p) (zlen p) = Ok (inr q) ->
  asks q name class -> 0 <= class ->
  bridge (w_conf w) = Some bm -> 0 <= bm_port bm < 65536 ->
  host_ok name -> host_ok (cx_name (context bm)) ->
  name = cx_name (context bm) \/ name = $"bridge.hn.local" ->
  let w1 := received_from (fd s) p w in
  can_multicast (timed w1) ->
  lastMdnsBroadcast (context bm) + BROADCAST_MIN_INTERVAL_SECS <= clock w1 ->
  if bool_decide (1 <= class <= 4) then
    exists p', carries p' (answered (cx_name (context bm)) (bm_port bm) q) /\
      let w2 := multicast p' (timed w1) in
      handleMdnsRead a w =
      if bool_decide (taken p' (timed w1) <= 0) then Ok (tt, w2)
      else upd_context (set_lastBroadcast (clock w2)) (timed w2)
  else handleMdnsRead a w = Fail AssertFailed.
Proof.
  intros Hs Hr Hp0 Hd Ha Hc0 Hbm Hp Hn Hh Hname w1 Hfd Ht. case_bool_decide as Hcl.
  2: { by apply (mdns_unicast_question_aborts a s w p from q name class bm). }
  destruct (answer_carried q name class (cx_name (context bm)) (bm_port bm)) as (m & len & E & Hc');
    [done..|].
  exists (take (Z.to_nat len) m). split; [done|]. intros w2.
  rewrite (handleMdnsRead_run a s w p from q) by (try done; by rewrite Hbm).
  assert (Hcx : get_context w1 = Ok (context bm, w1)) by (unfold get_context; run; cbn; by rewrite Hbm).
  change (set_log _ w) with w1.
  rewrite (M_bind_ok _ _ _ _ _ Hcx), bool_decide_true
    by by rewrite (asks_answers _ _ _ Ha), (asks_question _ _ _ Ha).
  rewrite (M_bind_ok _ _ w1 (clock w1) (timed w1)), bool_decide_false by (done || lia).
  rewrite (answer_questions_run q name class bm) by (done || lia).
  destruct (send_packet_run DNS_BUFF _ m len (timed w1) E) as (r & Er & Hr'); [done|].
  rewrite (M_bind_ok _ _ _ _ _ Er). fold w2.
  destruct (decide (r <= 0)) as [Hr0|Hr0].
  - rewrite !bool_decide_true by tauto. done.
  - rewrite !bool_decide_false by tauto. done.
Qed.

(** ** The store of records *)

(** Every key is a generated code, and no key occurs twice. *)
Record store_ok (m : Map MdnsRecord) : Prop := {
  store_wf : map_wf m;
  store_codes : Forall (fun it => zlen (key it) = 14) (start m) }.

(** The bridge of [w] is called [name] and keeps the records [g]. *)
Definition stores (w : world) (name : cstr) (g : gmap cstr MdnsRecord) : Prop :=
  exists bm, bridge (w_conf w) = Some bm /\ cx_name (context bm) = name /\
    store_ok (mdnsStore (context bm)) /\ to_gmap (mdnsStore (context bm)) = g.

Lemma upd_store_stores w name g m : stores w name g -> store_ok m ->
  exists w', upd_context (set_mdnsStore m) w = Ok (tt, w') /\ stores w' name (to_gmap m).
Proof.
  intros (bm & Hbm & Hn & _) Hm. unfold upd_context. run. rewrite Hbm. eexists. split; [done|].
  by eexists.
Qed.

Lemma upd_record_stores w name g k r f : stores w name g -> g !! k = Some r ->
  exists w', upd_record k f w = Ok (tt, w') /\ stores w' name (<[k := f r]> g).
Proof.
  intros (bm & Hbm & Hn & [[Hnd Hlen] Hcodes] & Hg) Hk. unfold upd_record, upd_context. run.
  rewrite Hbm. eexists. split; [done|]. eexists. split; [done|]. cbn [context].
  rewrite <- Hg, <- map_get_lookup in Hk. rewrite Hk. split; [done|].
  unfold map_get, map_getItem in Hk.
  destruct (getItem_loop _ k) as [it|] eqn:E; [|done]. split.
  - split; [split|]; cbn; rewrite ?assign_loop_keys; [done|..].
    + apply (Forall_keys _ (fun k => zlen k < ITEM_KEY_SIZE)). rewrite assign_loop_keys.
      by apply Forall_keys.
    + apply (Forall_keys _ (fun k => zlen k = 14)). rewrite assign_loop_keys. by apply Forall_keys.
  - unfold to_gmap in *. cbn. rewrite <- Hg. by eapply assign_loop_gmap.
Qed.

Lemma stores_log w name g l : stores w name g -> stores (set_log l w) name g.
Proof. done. Qed.

(** A generated key for a new record. *)
Lemma new_record_stores w name g r : stores w name g ->
  exists k w', zlen k = 14 /\ (k ← gen_code 20 14;
    cx ← get_context;
    '(m, _) ← lift (map_set (mdnsStore cx) k r true);
    upd_context (set_mdnsStore m);;
    ret k) w = Ok (k, w') /\ stores w' name (<[k := r]> g).
Proof.
  intros Hst. pose proof Hst as (bm & Hbm & Hn & [Hwf Hcodes] & Hg).
  destruct (generateCode_ok 20 (clock w) (w_mySeed w) 14) as (k & E & Hk & _); [lia|].
  exists k. set (w1 := set_mySeed (wrap32 (w_mySeed w + 1)) (timed w)).
  assert (Eg : gen_code 20 14 w = Ok (k, w1)).
  { unfold gen_code, sys_time. run. cbn. change (os_time (w_log w)) with (clock w). by rewrite E. }
  destruct (map_set_ok (mdnsStore (context bm)) k r true) as (m & fr & Em & Hm & Hmwf);
    [right; rewrite Hk; done|].
  assert (Hok : store_ok m).
  { split; [by apply Hmwf|]. unfold map_set, map_getItem in Em.
    destruct (getItem_loop _ k).
    - injection Em as <- _. apply (Forall_keys _ (fun k => zlen k = 14)). cbn.
      rewrite assign_loop_keys. by apply Forall_keys.
    - unfold str_set in Em. rewrite strcpy_fits in Em by by rewrite Hk. injection Em as <- _.
      by constructor. }
  destruct (upd_store_stores w1 name g m) as (w' & Eu & Hst'); [done..|].
  exists w'. rewrite Hm, Hg in Hst'. split; [done|]. split; [|done].
  rewrite (M_bind_ok _ _ _ _ _ Eg).
  rewrite (M_bind_ok _ _ w1 (context bm) w1) by (unfold get_context; run; cbn; by rewrite Hbm).
  rewrite Em. rewrite (M_bind_ok _ _ w1 (m, fr) w1) by done.
  by rewrite (M_bind_ok _ _ _ _ _ Eu).
Qed.

(** A record found by its address is the one under its key. *)
Lemma record_for_ip_found items text k r : NoDup (key <$> items) ->
  record_for_ip items text = Ok (Some (k, r)) ->
  value <$> getItem_loop items k = Some r /\ k ∈ key <$> items.
Proof.
  induction items as [|i items IH]; [done|]. rewrite fmap_cons, NoDup_cons. intros [Hi Hnd] H4.
  cbn [record_for_ip] in H4. apply bind_ok in H4 as (t & _ & H4). cbn [getItem_loop].
  destruct (str_isEqual text t) eqn:E.
  - injection H4 as <- <-. rewrite (proj2 (str_isEqual_true _ _)) by done.
    split; [done|]. apply list_elem_of_here.
  - destruct (IH Hnd H4) as [Hv Hk]. split; [|by apply list_elem_of_further].
    destruct (str_isEqual (key i) k) eqn:E'; [|done]. apply str_isEqual_true in E' as <-. done.
Qed.

(** What the store has of a service after its announcement: the record with
    its name at its address, or a new one, with no data and the time. *)
Definition known (name : cstr) (found : option (cstr * MdnsRecord)) : option (cstr * MdnsRecord) :=
  match found with
  | Some (k, r) => if str_isEqual name (mr_name r) then Some (k, r) else None
  | None => None
  end.
Definition announced (ip : sockaddr) (name : cstr) (found : option (cstr * MdnsRecord)) (t : Z)
  : MdnsRecord :=
  mkMdnsRecord (match known name found with Some (_, r) => mr_ip r | None => ip end) name map_init t.

(** Noting the time in a record that is kept. *)
Lemma stamp_stores w me g k r : stores w me (<[k := r]> g) ->
  exists w', (t ← sys_time; upd_record k (set_timestamp t);; ret k) w = Ok (k, w') /\
    stores w' me (<[k := set_timestamp (clock w) r]> g).
Proof.
  intros Hst. destruct (upd_record_stores (timed w) me (<[k := r]> g) k r
    (set_timestamp (clock w))) as (w' & E & Hst'); [done|by rewrite lookup_insert_eq|].
  exists w'. rewrite (M_bind_ok _ _ w (clock w) (timed w)) by done.
  rewrite (M_bind_ok _ _ _ _ _ E). split; [done|]. by rewrite insert_insert_eq in Hst'.
Qed.
Lemma stamp_new_stores w me g ip name : stores w me g -> zlen name < MAX_URL_SIZE ->
  exists k t w', zlen k = 14 /\
    (listenKey ← (n ← lift (str_set MAX_URL_SIZE name); k ← gen_code 20 14; cx ← get_context;
                   '(m, _) ← lift (map_set (mdnsStore cx) k (mkMdnsRecord ip n map_init 0) true);
                   upd_context (set_mdnsStore m);; ret k);
     t ← sys_time; upd_record listenKey (set_timestamp t);; ret listenKey) w = Ok (k, w') /\
    stores w' me (<[k := mkMdnsRecord ip name map_init t]> g).
Proof.
  intros Hst Hname.
  destruct (new_record_stores w me g (mkMdnsRecord ip name map_init 0)) as (k & w1 & Hk & E & Hst1);
    [done|].
  destruct (stamp_stores _ _ _ _ _ Hst1) as (w' & E' & Hst').
  exists k, (clock w1), w'. split; [done|]. split; [|done].
  rewrite (M_bind_ok _ _ w k w1); [done|]. unfold str_set. rewrite (strcpy_fits MAX_URL_SIZE) by done.
  by rewrite (M_bind_ok _ _ w name w).
Qed.

Lemma record_for_stores name ip bm w me g found :
  bridge (w_conf w) = Some bm -> stores w me g ->
  getMdnsRecordForIpAddr ip (context bm) = Ok found -> zlen name < MAX_URL_SIZE ->
  exists k t w', record_for name ip w = Ok (k, w') /\ zlen k = 14 /\
    (forall k' r, known name found = Some (k', r) -> k = k') /\
    stores w' me (<[k := announced ip name found t]> g).
Proof.
  intros Hbm Hst Hf Hname. pose proof Hst as (bm' & Hbm' & Hn & [[Hnd Hl] Hcodes] & Hg).
  assert (bm' = bm) as -> by congruence. unfold record_for.
  rewrite (M_bind_ok _ _ w (context bm) w) by (unfold get_context; run; by rewrite Hbm).
  rewrite Hf, (M_bind_ok _ _ w found w) by done.
  destruct (stamp_new_stores w me g ip name Hst Hname) as (kn & tn & wn & Hkn & En & Hstn).
  destruct found as [[k r]|].
  2:{ exists kn, tn, wn. split_and!; [|done|done|done]. by rewrite (M_bind_ok _ _ w None w). }
  unfold getMdnsRecordForIpAddr in Hf. apply bind_ok in Hf as (t & _ & Hf).
  apply record_for_ip_found in Hf as [Hv Hk]; [|done].
  assert (Hk14 : zlen k = 14).
  { apply (Forall_keys _ (fun k => zlen k = 14)) in Hcodes. by eapply Forall_forall in Hcodes. }
  change (str_set 20 k) with (strcpy 20 k). rewrite (strcpy_fits 20 k) by by rewrite Hk14.
  unfold announced, known. destruct (str_isEqual name (mr_name r)) eqn:Enm.
  - apply str_isEqual_true in Enm.
    destruct (upd_record_stores w me g k r (set_data map_init)) as (w1 & E1 & Hst1); [done| |].
    { rewrite <- Hg, <- map_get_lookup. exact Hv. }
    destruct (stamp_stores _ _ _ _ _ Hst1) as (w' & E' & Hst').
    exists k, (clock w1), w'. split_and!; [|done|by intros ? ? [= <- _]|].
    + rewrite (M_bind_ok _ _ w (Some k) w1); [|by rewrite (M_bind_ok _ _ w k w), (M_bind_ok _ _ _ _ _ E1)].
      by rewrite (M_bind_ok _ _ w1 k w1).
    + destruct r; cbn in *. by subst.
  - exists kn, tn, wn. split_and!; [|done|done|done].
    rewrite (M_bind_ok _ _ w None w); [done|]. by rewrite (M_bind_ok _ _ w k w).
Qed.

(** ** An announcement *)

Lemma drop_last_dot name : no_nul name ->
  via (fun m => len ← strlen m; wr m (len - 1) nul) (name ++ [dot]) = Ok name.
Proof.
  intros Hn. unfold via, cmem. rewrite strlen_app.
  2:{ apply no_nul_app. split; [done|no_nul]. }
  cbn [mbind outcome_bind]. rewrite zlen_app. change (zlen [dot]) with 1.
  replace (zlen name + 1 - 1) with (zlen name) by lia. rewrite <- app_assoc. cbn [app].
  rewrite wr_app_mid. cbn [mbind outcome_bind]. by rewrite cview_app.
Qed.

Lemma port_text_no_nul port : 0 <= port -> no_nul (port_text port).
Proof.
  intros Hp. unfold port_text. apply no_nul_app. split; [no_nul|].
  apply no_nul_app. split; [|no_nul]. eapply Forall_impl; [by apply dec_nat_digits|].
  intros c Hc ->. by vm_compute in Hc.
Qed.

Lemma port_avoids port c : 0 <= port -> isdigit c = false -> c ∉ $"PORT=" ->
  Forall (fun x => x ∉ [c]) ($"PORT=" ++ dec_nat port).
Proof.
  intros Hp Hd Hc. apply Forall_forall. intros x Hx Hxc. apply list_elem_of_singleton in Hxc as ->.
  apply elem_of_app in Hx as [?|Hx]; [done|].
  pose proof (dec_nat_avoids port c Hp Hd) as Ha. by apply (proj1 (Forall_forall _ _) Ha) in Hx.
Qed.

Lemma txt_loop_port k name ip bm w me g found port :
  bridge (w_conf w) = Some bm -> stores w me g -> 0 <= port < 65536 ->
  getMdnsRecordForIpAddr (ipAddr_setPort ip port) (context bm) = Ok found ->
  zlen name < MAX_URL_SIZE ->
  exists key t w', txt_loop (S (S k)) (port_text port) name ip None w = Ok (tt, w') /\
    zlen key = 14 /\ (forall k' r, known name found = Some (k', r) -> key = k') /\
    stores w' me (<[key := announced (ipAddr_setPort ip port) name found t]> g).
Proof.
  intros Hbm Hst Hp Hf Hname.
  destruct (record_for_stores _ _ _ _ _ _ _ Hbm Hst Hf Hname) as (key & t & w' & E & Hk & Hkn & Hst').
  exists key, t, w'. split_and!; try done.
  assert (Htok : strtok_r $";" (port_text port) = Some ($"PORT=" ++ dec_nat port, [])).
  { unfold port_text. rewrite app_assoc. apply (strtok_r_app $";"); [done| |by apply list_elem_of_here].
    apply (port_avoids port ";"); [lia|done|]. apply (bool_decide_unpack _). by vm_compute. }
  cbn [txt_loop]. rewrite Htok.
  assert (Hkey : strtok_r $"=" ($"PORT=" ++ dec_nat port) = Some ($"PORT", dec_nat port)).
  { change ($"PORT=" ++ dec_nat port) with ($"PORT" ++ "="%char :: dec_nat port).
    apply strtok_r_app; [done| |by apply list_elem_of_here]. apply (bool_decide_unpack _). by vm_compute. }
  assert (Hval : tok1 $"=" (dec_nat port) = Some (dec_nat port)).
  { unfold tok1. rewrite strtok_r_whole; [done|apply dec_nat_nonempty|].
    eapply Forall_impl; [apply (dec_nat_avoids port "="); [lia|done]|]. intros x Hx.
    change (x ∉ ["="%char]). by rewrite list_elem_of_singleton. }
  assert (Ht1 : tok1 $"=" ($"PORT=" ++ dec_nat port) = Some $"PORT") by (unfold tok1; by rewrite Hkey).
  assert (Ht2 : tok_rest $"=" ($"PORT=" ++ dec_nat port) = dec_nat port)
    by (unfold tok_rest; by rewrite Hkey).
  rewrite Ht1, Ht2, Hval. run. rewrite (proj2 (str_isEqual_true _ _)) by done. cbn beta iota.
  replace (str_toInt (dec_nat port)) with port.
  2:{ unfold str_toInt. rewrite <- (app_nil_r (dec_nat port)), atoi_dec_nat by (done || lia). done. }
  rewrite E. done.
Qed.

(** C15: A bridge records the services it hears of. When a datagram carries the
    announcement of a service under .hn.local that is not the bridge itself,
    handleMdnsRead succeeds and the store has the service afterwards: the
    record of that name at that address if there is one, with its data emptied,
    and a new record under a generated key of 14 characters otherwise. Its
    address is that of the sender with the announced port; no other record
    changes, and keys stay unique. *)
Theorem mdns_answer_recorded a s w p from q name port bm found :
  w_socks w !! a = Some s -> os_recvfrom (w_log w) (fd s) DNS_BUFF = Some (p, from) ->
  carries p (answered name port q) -> bridge (w_conf w) = Some bm ->
  host_ok name -> (exists r, name = r ++ $".hn.local") -> name <> cx_name (context bm) ->
  0 <= port < 65536 -> store_ok (mdnsStore (context bm)) ->
  getMdnsRecordForIpAddr (ipAddr_setPort from port) (context bm) = Ok found ->
  exists k t w', handleMdnsRead a w = Ok (tt, w') /\ zlen k = 14 /\
    (forall k' r, known name found = Some (k', r) -> k = k') /\
    stores w' (cx_name (context bm))
      (<[k := announced (ipAddr_setPort from port) name found t]> (to_gmap (mdnsStore (context bm)))).
Proof.
  intros Hs Hr Hc Hbm Hh Hsuf Hown Hp Hok Hf.
  set (w1 := received_from (fd s) p w). pose proof (host_no_nul _ Hh) as Hnn.
  pose proof (host_size _ Hh) as Hsz. pose proof (port_text_size port Hp) as Hpt.
  assert (Hst : stores w1 (cx_name (context bm)) (to_gmap (mdnsStore (context bm)))) by by exists bm.
  assert (Hlen : exists n, length (port_text port) = S n).
  { destruct (length (port_text port)) eqn:E'; [unfold zlen in Hpt; lia|by eexists]. }
  destruct Hlen as [n Hlen].
  destruct (txt_loop_port n name from bm w1 (cx_name (context bm))
    (to_gmap (mdnsStore (context bm))) found port) as (k & t & w' & E & Hk & Hkn & Hst');
    [done..|unfold MAX_URL_SIZE; lia|].
  exists k, t, w'. split_and!; try done.
  apply carries_buffered in Hc as [Hp0 Hd].
  rewrite (handleMdnsRead_run a s w p from (answered name port q)) by (try done; by rewrite Hbm).
  change (set_log _ w) with w1.
  rewrite (M_bind_ok _ _ w1 (context bm) w1) by (unfold get_context; run; cbn; by rewrite Hbm).
  cbn [answered set_answers answers]. rewrite bool_decide_false, bool_decide_true by (done || by intros []).
  cbn [record_answers mdns_answer a_name a_type a_data]. rewrite bool_decide_false by (intros H9; apply H9; done).
  change ($".") with [dot]. run. unfold str_set.
  rewrite !(strcpy_fits 300) by (rewrite zlen_app; change (zlen [dot]) with 1; lia).
  rewrite drop_last_dot by done. destruct Hsuf as [r Hsuf].
  rewrite str_endswith_spec; [|no_nul|].
  2:{ rewrite Hsuf, zlen_app. pose proof (zlen_nonneg r). lia. }
  rewrite (proj2 (suffixb_spec _ _)) by by exists r.
  cbn beta iota. unfold get_context. run.
  assert (Hbm1 : bridge (w_conf w1) = Some bm) by done. rewrite Hbm1. cbn beta iota.
  assert (Hne : str_isEqual name (cx_name (context bm)) = false) by by apply bool_decide_eq_false_2.
  rewrite Hne. cbn [negb orb]. unfold answer_text. run. cbn [a_data mdns_answer].
  rewrite cview_cmem by (apply port_text_no_nul; lia). cbn beta iota.
  rewrite (strcpy_fits 500) by lia. by rewrite Hlen, E.
Qed.

(** ** Packets the bridge does not survive *)

Lemma decode_header_only m : 12 <= zlen m ->
  let field i := of_be (take 2 (drop i m)) in
  1 <= field 4%nat ->
  sizeof_question * field 4%nat + sizeof_answer * (field 6%nat + field 8%nat + field 10%nat) < 4008 ->
  dns_decode DNS_DECODEBUF_4K m HEADER = Fail AssertFailed.
Proof.
  intros Hm field Hq1 Hsz. unfold dns_decode, decode_sections, DNS_DECODEBUF_4K, HEADER in *.
  change (negb (zleb sizeof_query 4096)) with false. change (zltb 12 12) with false. cbn beta iota.
  change (mkD m 12 12 (12 - 12) 0 4096 4096 false 0) with (rdr m 12 4096 false 0 12 4096).
  erewrite codec_bind_ok by (by apply alloc_aligned).
  do 2 erewrite codec_bind_ok by done.
  fold (field 4%nat) (field 6%nat) (field 8%nat) (field 10%nat).
  set (rc := Z.land (of_be (take 1 (drop 3 m))) 15).
  change (set_d_rcode rc (rdr m 12 4096 false 0 12 (4096 - sizeof_query)))
    with (rdr m 12 4096 false rc 12 4008).
  pose proof (fun i => of_be_nonneg (take 2 (drop i m))) as Hf.
  pose proof (alloc_sections_at m 12 4096 false rc 12 4008 _ _ _ _ (Hf 4%nat) (Hf 6%nat) (Hf 8%nat)
    (Hf 10%nat) Hsz ltac:(lia) ltac:(by exists 501)) as Hal.
  erewrite codec_bind_ok by exact Hal.
  destruct (Z.to_nat (field 4%nat)) eqn:E; [lia|]. done.
Qed.

(** A datagram of a bare header that announces questions ends the program:
    whoever can send to the multicast port can stop the bridge with twelve
    bytes. The decoder asserts that there are bytes left to read, where it
    should report a malformed packet. *)
Theorem mdns_truncated_aborts a s w p from :
  w_socks w !! a = Some s -> os_recvfrom (w_log w) (fd s) DNS_BUFF = Some (p, from) ->
  bridge (w_conf w) <> None -> zlen p = HEADER ->
  let count i := of_be (take 2 (drop i p)) in
  1 <= count 4%nat ->
  sizeof_question * count 4%nat + sizeof_answer * (count 6%nat + count 8%nat + count 10%nat) < 4008 ->
  handleMdnsRead a w = Fail AssertFailed.
Proof.
  intros Hs Hr Hbm Hp count Hq Hsz. destruct (bridge (w_conf w)) as [bm|] eqn:E; [|done].
  assert (Hd : dns_decode DNS_DECODEBUF_4K (buffered p) (zlen p) = Fail AssertFailed).
  { rewrite Hp. unfold HEADER in Hp.
    assert (Ht : forall i, (i + 2 <= 12)%nat -> take 2 (drop i (buffered p)) = take 2 (drop i p)).
    { intros i Hi. unfold buffered, zlen in *. rewrite drop_app_le, take_app_le; [done| |lia].
      rewrite length_drop. lia. }
    apply decode_header_only; rewrite ?Ht by lia; [|done..].
    unfold buffered. rewrite zlen_app. pose proof (zlen_nonneg (replicate (Z.to_nat (DNS_BUFF - zlen p)) nul)).
    lia. }
  unfold handleMdnsRead, udp_read, get_context, get_sock, HEADER in *. run. rewrite E, Hs, Hr. cbn.
  rewrite bool_decide_false by lia. fold (buffered p). by rewrite Hd.
Qed.

(** A query is multicast as one packet, and that packet decodes to the
    question for the TXT record of the name. *)
Theorem mdns_query_sent name w : host_ok name -> can_multicast w ->
  exists p, carries p (mdns_query name) /\ asks (mdns_query name) name CLASS_IN /\
    sendMdnsQuery name w =
      Ok (bool_decide (0 < taken p w), multicast p w).
Proof.
  intros Hh Hfd.
  destruct (query_carried _ _ _ (mdns_query_asks name) Hh) as (m & len & E & Hc); [done|].
  exists (take (Z.to_nat len) m). split; [done|]. split; [apply mdns_query_asks|].
  unfold sendMdnsQuery. destruct (send_packet_run _ _ _ _ w E Hfd) as (r & Er & Hr).
  rewrite (M_bind_ok _ _ _ _ _ Er). unfold ret. do 2 f_equal. apply bool_decide_ext. lia.
Qed.
End Handling.

(** ** Witnesses *)

(** A bridge "den.hn.local" on port 2000, and a system that hands it [p]. *)
Definition mdns_rand : Rand := fun _ _ => 0.
Definition mdns_inet6 : Inet6 := fun _ => false.
Definition mdns_os (p : mem) : Os := {|
  os_write := @os_write (demo_os 1 []); os_recv := @os_recv (demo_os 1 []);
  os_accept := @os_accept (demo_os 1 []); os_accept_wouldblock := @os_accept_wouldblock (demo_os 1 []);
  os_socket := @os_socket (demo_os 1 []); os_connect := @os_connect (demo_os 1 []);
  os_fcntl := @os_fcntl (demo_os 1 []); os_getsockname := @os_getsockname (demo_os 1 []);
  os_setsockopt := @os_setsockopt (demo_os 1 []); os_bind := @os_bind (demo_os 1 []);
  os_select := @os_select (demo_os 1 []); os_gethostbyname := @os_gethostbyname (demo_os 1 []);
  os_sendto := @os_sendto (demo_os 1 []);
  os_recvfrom := fun _ _ _ => Some (p, ip4 (10, 0, 0, 7) 5353);
  os_time := fun _ => 1000; os_below := @os_below (demo_os 1 []) |}.
Definition mdns_bm : bridgeMode :=
  mkBridgeMode 2000 [] [] [] 1 0 0 0
    (mkBridgeContext [] $"den.hn.local" map_init map_init map_init map_init 0 0 None 0 0 0).
Definition mdns_sock : Socket := sock_init UDPSOCKET 5.
Definition mdns_world : world :=
  demo_world {[ 1%positive := mdns_sock ]} ∅
    (mkConfig HN_MODE_BRIDGE (Some mdns_bm) None None None None) [].
Definition packet (plen : Z) (q : dns_query_t) : mem :=
  match @dns_encode demo_float plen q with Ok (_, m, len) => take (Z.to_nat len) m | Fail _ => [] end.

Lemma den_ok : host_ok $"den.hn.local".
Proof. split; [by apply (domain_ok_text [ $"den"; $"hn"; $"local"])|by vm_compute]. Qed.
Lemma tv_ok : host_ok $"tv.hn.local".
Proof. split; [by apply (domain_ok_text [ $"tv"; $"hn"; $"local"])|by vm_compute]. Qed.
Lemma den_query_carried :
  @carries demo_float (packet DNS_BUFFER_UDP (mdns_query $"den.hn.local")) (mdns_query $"den.hn.local").
Proof.
  destruct (@query_carried demo_float _ _ _ (mdns_query_asks $"den.hn.local") den_ok)
    as (m & len & E & Hc); [done|]. unfold packet. by rewrite E.
Qed.
Definition tv_query : dns_query_t := answered $"tv.hn.local" 8000 (mdns_query $"tv.hn.local").
Lemma tv_answer_carried : @carries demo_float (packet DNS_BUFF tv_query) tv_query.
Proof.
  destruct (@answer_carried demo_float _ _ _ $"tv.hn.local" 8000 (mdns_query_asks $"tv.hn.local") tv_ok tv_ok)
    as (m & len & E & Hc); [done..|]. unfold packet, tv_query. by rewrite E.
Qed.

Lemma mdns_query_sent_witness : exists p,
  @carries demo_float p (mdns_query $"den.hn.local") /\
  asks (mdns_query $"den.hn.local") $"den.hn.local" CLASS_IN /\
  @sendMdnsQuery (mdns_os []) mdns_inet6 demo_float $"den.hn.local" mdns_world =
    Ok (bool_decide (0 < @taken (mdns_os []) p mdns_world), @multicast (mdns_os []) p mdns_world).
Proof. apply (@mdns_query_sent (mdns_os []) mdns_inet6 demo_float $"den.hn.local" mdns_world); [exact den_ok|done]. Defined.

(** The question for den.hn.local as a multicast client asks it. *)
Definition qu_packet : mem :=
  [nul; nul; nul; nul; nul; u8 1; nul; nul; nul; nul; nul; nul] ++
  u8 3 :: $"den" ++ u8 2 :: $"hn" ++ u8 5 :: $"local" ++ [nul; nul; u8 16; u8 128; u8 1].
Definition qu_query : dns_query_t :=
  mkQuery 0 true OP_QUERY false false false false false false false RCODE_OKAY
    [mkQuestion (Some $"den.hn.local.") RR_TXT 32769] [] [] [].

(** The bridge opens its descriptor to answer the question; the question of a
    multicast client that wants a unicast answer ends the program. *)
Lemma mdns_query_answered_witness :
  let p := packet DNS_BUFFER_UDP (mdns_query $"den.hn.local") in
  (exists p', @carries demo_float p' (answered $"den.hn.local" 2000 (mdns_query $"den.hn.local")) /\
    let w1 := received_from 5 p mdns_world in
    let w2 := @multicast (mdns_os p) p' (@timed (mdns_os p) w1) in
    @handleMdnsRead (mdns_os p) mdns_inet6 mdns_rand demo_float 1%positive mdns_world =
    if bool_decide (@taken (mdns_os p) p' (@timed (mdns_os p) w1) <= 0) then Ok (tt, w2)
    else upd_context (set_lastBroadcast (@clock (mdns_os p) w2)) (@timed (mdns_os p) w2)) /\
  @handleMdnsRead (mdns_os qu_packet) mdns_inet6 mdns_rand demo_float 1%positive mdns_world =
  Fail AssertFailed.
Proof.
  intros p. split.
  - apply (@mdns_query_answered (mdns_os p) mdns_inet6 mdns_rand demo_float 1%positive mdns_sock mdns_world p
      (ip4 (10, 0, 0, 7) 5353) (mdns_query $"den.hn.local") $"den.hn.local" CLASS_IN mdns_bm);
      first [apply (carries_buffered _ _ den_query_carried) | exact den_ok | apply mdns_query_asks | by left
            | by split | done].
  - apply (@mdns_query_answered (mdns_os qu_packet) mdns_inet6 mdns_rand demo_float 1%positive
      mdns_sock mdns_world qu_packet (ip4 (10, 0, 0, 7) 5353) qu_query $"den.hn.local" 32769 mdns_bm);
      first [exact den_ok | by left | by split | by vm_compute | done].
Defined.

Lemma mdns_answer_recorded_witness :
  let p := packet DNS_BUFF tv_query in
  exists k t w', @handleMdnsRead (mdns_os p) mdns_inet6 mdns_rand demo_float 1%positive mdns_world
      = Ok (tt, w') /\ zlen k = 14 /\
    (forall k' r, known $"tv.hn.local" None = Some (k', r) -> k = k') /\
    stores w' $"den.hn.local"
      (<[k := announced (ip4 (10, 0, 0, 7) 8000) $"tv.hn.local" None t]> ∅).
Proof.
  intros p.
  apply (@mdns_answer_recorded (mdns_os p) mdns_inet6 mdns_rand demo_float 1%positive mdns_sock mdns_world p
    (ip4 (10, 0, 0, 7) 5353) (mdns_query $"tv.hn.local") $"tv.hn.local" 8000 mdns_bm None);
    first [exact tv_answer_carried | exact tv_ok | by exists $"tv" | by repeat constructor | done].
Defined.

(** A header with one question and nothing behind it. *)
Lemma mdns_truncated_aborts_witness :
  let p := [nul; nul; nul; nul; nul; u8 1; nul; nul; nul; nul; nul; nul] in
  @handleMdnsRead (mdns_os p) mdns_inet6 mdns_rand demo_float 1%positive mdns_world = Fail AssertFailed.
Proof.
  intros p.
  apply (@mdns_truncated_aborts (mdns_os p) mdns_inet6 mdns_rand demo_float 1%positive mdns_sock mdns_world p
    (ip4 (10, 0, 0, 7) 5353)); done.
Defined.

Lemma mdns_unicast_question_aborts_witness :
  @handleMdnsRead (mdns_os qu_packet) mdns_inet6 mdns_rand demo_float 1%positive mdns_world =
  Fail AssertFailed.
Proof.
  apply (@mdns_unicast_question_aborts (mdns_os qu_packet) mdns_inet6 mdns_rand demo_float 1%positive
    mdns_sock mdns_world qu_packet (ip4 (10, 0, 0, 7) 5353) qu_query $"den.hn.local" 32769 mdns_bm);
    first [by left | lia | by vm_compute | by split | done].
Defined.
