(* ===== verification/Bridge.v ===== *)
(** * Events of the sockets (src/homeNet.c, lines 978-1517)

    What happens on a new connection, on data, on a closed socket and between
    events. Each command of a new connection is a definition; [handleNew]
    dispatches on the prefix of the first message. *)
From S2P Require Import Prelude CString Dns Str Containers Buffer IpAddr Auth ConfigFile.
From S2P Require Import Config Http Os Socket WaitLoop Store Protocol Handshake Mdns.

Definition REFRESH_INTERVAL_SECS : Z := 10.
Definition PING_INTERVAL_SECS : Z := 4.
Definition MDNS_QUERY : cstr := $"hn.local".
Definition HTTP_TEXT : cstr :=
  $"HTTP/1.1 200 OK" ++ [CR; LF] ++ $"Content-Type: text/html" ++ [CR; LF; CR; LF] ++
  $"<html><body><h1>Welcome to HomeNet!</h1>You have reached a HomeNet bridge.</body></html>".

(** [list_add(sockList, sock)] *)
Definition watch (a : addr) : M unit :=
  modify (fun w => set_sockList (list_add (w_sockList w) a) w).

(** The two ends of a relay. *)
Definition link (h : addr) (s : addr) : M unit :=
  upd_hn h (fun hs => set_relay (set_next (Some s) false (relay hs)) hs).

Section Bridge.
Context `{Os} `{Fuel} `{Inet6} `{Rand} `{Environment} `{FloatText}.

(** The returned int and the socket at [*sockNext]. *)
Definition createRelay (a : addr) (connUrl : cstr) (ctx : bool) : M (Z * option addr) :=
  hnSock ← hn_sockInit a SOCK_MODE_RELAY true;
  nextSock ← createTcpSocket;
  hnSockNext ← hn_sockInit nextSock SOCK_MODE_RELAY false;
  r ← initializeConnect connUrl nextSock (Some hnSock) ctx;
  if bool_decide (r = 1) then
    link hnSock nextSock;;
    link hnSockNext a;;
    ret (1, Some nextSock)
  else
    sock_destroy nextSock false;;
    ret (if bool_decide (r = 2) then 2 else 0, None).

(** ** New connections *)

(** Whether the socket is to be watched, and the returned int. *)
Inductive verdict := Keep | Return (r : Z).

Definition refuse (a : addr) : M verdict := sock_destroy a false;; ret (Return 0).

(** Mode LISTEN: relay every connection to the configured URL. *)
Definition new_listen (a : addr) : M verdict :=
  modify (set_isRecall false);;
  c ← get w_conf;
  lm ← deref_M (listen c);
  '(r, next) ← createRelay a (lm_connectUrl lm) false;
  match next with
  | Some n =>
      if bool_decide (r = 1) then _ ← sock_setNonBlocking n; watch n;; ret Keep
      else refuse a
  | None => refuse a
  end.

(** HN1.0/CONNECT {hn url} *)
Definition new_connect (a : addr) (buff : cstr) : M verdict :=
  modify (set_isRecall false);;
  match tok1 $" " (tok_rest $" " buff) with
  | None => refuse a
  | Some connUrl =>
      c ← get w_conf;
      authRequired ← lift (connect_authRequired connUrl (mode c) (connectAuthLevel <$> bridge c));
      allowed ← (if authRequired : bool then
                   cx ← get_context;
                   '(ok, _) ← authThrowChallenge a (queryKeys cx); ret ok
                 else ret true);
      if negb allowed then refuse a
      else
        '(r, next) ← createRelay a connUrl true;
        if bool_decide (r = 0) then refuse a
        else
          (if bool_decide (r = 1) then _ ← hn_sendMsg a $"CONNECTED"; ret tt else ret tt);;
          match next with
          | Some n => _ ← sock_setNonBlocking n; watch n
          | None => ret tt
          end;;
          ret Keep
  end.

(** Whether the socket may listen, and under which id. *)
Definition listen_id (a : addr) (id : cstr) : M (option cstr) :=
  salt ← (if bool_decide (str_len id > 1) then getSaltForListenId id else ret None);
  match salt with
  | Some salt =>
      '(subMap, _) ← lift (map_set map_init id salt false);
      '(ok, _) ← authThrowChallenge a subMap;
      ret (if ok : bool then Some id else None)
  | None =>
      c ← get w_conf;
      bm ← deref_M (bridge c);
      if bool_decide (requireRLAuth bm = 0) then code ← gen_code 20 10; ret (Some code)
      else ret None
  end.

(** HN1.0/LISTEN_NOTIFY {listenId} *)
Definition new_listen_notify (a : addr) (buff : cstr) : M verdict :=
  modify (set_isRecall false);;
  id ← deref_M (tok1 $" " (tok_rest $" " buff));
  id ← lift (str_set 20 id);
  granted ← listen_id a id;
  match granted with
  | None => refuse a
  | Some listenId =>
      h ← hn_sockInit a SOCK_MODE_LISTEN true;
      id ← lift (str_set 20 listenId);
      upd_hn h (fun hs => set_listen
        (mkListenNotif (salt (listen_ hs)) id (waitingSocks (listen_ hs))) hs);;
      cx ← get_context;
      '(m, _) ← lift (map_set (listeningSocks cx) listenId h false);
      upd_context (set_listeningSocks m);;
      buff ← lift (str_concat BUFF_SIZE $"LISTENING " listenId);
      _ ← hn_sendMsg a buff;
      ret Keep
  end.

(** HN1.0/LISTEN_CONNECT {listenId} {otp} *)
Definition new_listen_connect (a : addr) (buff : cstr) : M verdict :=
  modify (set_isRecall false);;
  let rest := tok_rest $" " buff in
  match tok1 $" " rest, tok1 $" " (tok_rest $" " rest) with
  | Some listenId, Some otp =>
      waiting ← getWaitingSocket listenId otp;
      match waiting with
      | None => refuse a
      | Some nextHn =>
          _ ← removeWaitingSocket listenId otp;
          hnSock ← hn_sockInit a SOCK_MODE_RELAY true;
          n ← get_hn nextHn;
          link hnSock (sock n);;
          link nextHn a;;
          '(_, buff) ← hn_sendMsg a $"CONNECTED";
          _ ← hn_sendMsg (sock n) buff;
          ret Keep
      end
  | _, _ => refuse a
  end.

(** The "key=value;" text of a record, appended to the buffer. *)
Fixpoint record_text (items : list (Item cstr)) (buff : cstr) : outcome cstr :=
  match items with
  | [] => Ok buff
  | i :: r => buff ← strcpy BUFF_SIZE (buff ++ key i ++ $"=" ++ value i ++ $";"); record_text r buff
  end.

Fixpoint send_records (a : addr) (items : list (Item MdnsRecord)) : M unit :=
  match items with
  | [] => ret tt
  | i :: r =>
      buff ← lift (strcpy BUFF_SIZE
                ($"QUERY_RESPONSE " ++ key i ++ $" " ++ mr_name (value i) ++ [LF]));
      data ← lift (map_items (mr_data (value i)));
      buff ← lift (record_text data buff);
      _ ← hn_sendMsg a buff;
      send_records a r
  end.

(** HN1.0/QUERY {name} *)
Definition new_query (a : addr) (buff : cstr) : M verdict :=
  modify (set_isRecall false);;
  name ← deref_M (tok1 $" " (tok_rest $" " buff));
  c ← get w_conf;
  bm ← deref_M (bridge c);
  allowed ← (if bool_decide (requireQueryAuth bm <> 0)
             then '(ok, _) ← authThrowChallenge a (queryKeys (context bm)); ret ok
             else ret true);
  if negb allowed then refuse a
  else
    cx ← get_context;
    items ← getMdnsRecordsForName 10 name (mdnsStore cx);
    send_records a items;;
    sock_destroy a false;;
    ret (Return 1).

(** Anything else is taken for HTTP; [true] asks to handle the next message. *)
Definition new_http (a : addr) (buff : cstr) : M (bool * verdict) :=
  req ← lift (parseHttpRequest buff);
  recall ← get w_isRecall;
  let upgrade := match req with Some r => map_get (Http.headers r) $"Upgrade" | None => None end in
  if match upgrade with Some u => str_isEqual u $"websocket" | None => false end && negb recall
  then
    '(buff, _) ← lift (writeUpgradeResponse BUFF_SIZE);
    _ ← sock_write a buff;
    modify (set_isRecall true);;
    ret (true, Keep)
  else
    match req with
    | Some _ => buff ← lift (str_set BUFF_SIZE HTTP_TEXT); _ ← sock_write a buff; ret tt
    | None => _ ← hn_sendMsg a $"BAD_REQUEST"; ret tt
    end;;
    modify (set_isRecall false);;
    v ← refuse a;
    ret (false, v).

(** The commands, by the prefix of the message. *)
Definition dispatch (a : addr) (buff : cstr) : M (bool * verdict) :=
  c ← get w_conf;
  let cmd p := prefixb p buff in
  if cmd $"HN1.0/CONNECT " then v ← new_connect a buff; ret (false, v)
  else if cmd $"HN1.0/LISTEN_NOTIFY" then v ← new_listen_notify a buff; ret (false, v)
  else if cmd $"HN1.0/LISTEN_CONNECT " then v ← new_listen_connect a buff; ret (false, v)
  else if cmd $"HN1.0/QUERY " && bool_decide (mode c = HN_MODE_BRIDGE)
  then v ← new_query a buff; ret (false, v)
  else new_http a buff.

(** The recursion happens once, after a websocket upgrade. *)
Fixpoint handleNew (k : nat) (a : addr) : M Z :=
  match k with
  | O => fail NoFuel
  | S k' =>
      c ← get w_conf;
      '(again, v) ←
        (if bool_decide (mode c = HN_MODE_LISTEN) then v ← new_listen a; ret (false, v)
         else
           _ ← sock_setBlocking a;
           _ ← sock_setTimeout a;
           '(_, buff) ← hn_receiveMsg a BUFF_SIZE;
           dispatch a buff);
      if again : bool then handleNew k' a
      else
        match v with
        | Return r => ret r
        | Keep => _ ← sock_setNonBlocking a; watch a;; ret 1
        end
  end.

(** ** Data *)

(** The loop that moves data from one end of a relay to the other. *)
Fixpoint relay_loop (k : nat) (a next : addr) (bytesRead : Z) (data : mem) : M unit :=
  match k with
  | O => fail NoFuel
  | S k' =>
      s ← get_sock a;
      if bool_decide (bytesRead > 0 /\ isAlive s = SOCKET_ALIVE) then
        n ← get_sock next;
        if bool_decide (isAlive n = SOCKET_ALIVE) then
          _ ← sock_write next data;
          '(bytesRead, data) ← sock_read a BUFF_SIZE;
          relay_loop k' a next bytesRead data
        else ret tt
      else ret tt
  end.

Definition read_relay (a : addr) (hs : hn_Socket) : M Z :=
  match (if isWaiting (relay hs) then None else next (relay hs)) with
  | None => _ ← sock_done a; ret 0
  | Some n =>
      '(bytesRead, data) ← sock_read a BUFF_SIZE;
      relay_loop fuel a n bytesRead data;;
      ret 1
  end.

(** A one-time code of the bridge: come back with it. *)
Definition read_listen_out (a : addr) (hs : hn_Socket) : M Z :=
  c ← get w_conf;
  rlUrl ← (if bool_decide (mode c = HN_MODE_BRIDGE)
           then bm ← deref_M (bridge c); ret (Some (bm_rlUrl bm))
           else if bool_decide (mode c = HN_MODE_REVERSE_LISTEN)
           then rlm ← deref_M (rl c); ret (Some (rlm_rlUrl rlm))
           else ret None);
  '(read, buff) ← hn_receiveMsg a BUFF_SIZE;
  if bool_decide (read <= 0) then ret 0
  else if prefixb $"PONG" buff then ret 1
  else if negb (prefixb $"LISTEN_OTP " buff) then ret 0
  else
    match tok1 $" " (tok_rest $" " buff) with
    | None => ret 0
    | Some otp =>
        connSock ← createTcpSocket;
        tempHn ← hn_sockInit connSock SOCK_MODE_TEMP false;
        rlUrl ← deref_M rlUrl;
        r ← initializeListenConn (listenId (listen_ hs)) otp rlUrl connSock;
        if negb r then sock_destroy connSock false;; ret 0
        else
          hn_sockCleanup tempHn false;;
          if bool_decide (mode c = HN_MODE_BRIDGE) then handleNew 2 connSock
          else
            rlm ← deref_M (rl c);
            '(r, next) ← createRelay connSock (localIp rlm) false;
            match next with
            | Some n =>
                if bool_decide (r = 1) then
                  _ ← sock_setNonBlocking n; watch n;;
                  _ ← sock_setNonBlocking connSock; watch connSock;;
                  ret 1
                else sock_destroy connSock false;; ret 0
            | None => sock_destroy connSock false;; ret 0
            end
    end.

Definition read_listen (a : addr) : M Z :=
  '(read, buff) ← hn_receiveMsg a BUFF_SIZE;
  if bool_decide (read <= 0) then ret 0
  else if prefixb $"PING" buff then _ ← hn_sendMsg a $"PONG"; ret 1
  else ret 0.

Definition handleRead (a : addr) : M Z :=
  s ← get_sock a;
  match ptr s with
  | None => sock_readDump a;; ret 0
  | Some h =>
      hs ← get_hn h;
      if bool_decide (hn_mode hs = SOCK_MODE_RELAY) then read_relay a hs
      else if bool_decide (hn_mode hs = SOCK_MODE_LISTEN_OUT) then read_listen_out a hs
      else if bool_decide (hn_mode hs = SOCK_MODE_LISTEN) then read_listen a
      else if bool_decide (hn_mode hs = SOCK_MODE_MDNS) then
        c ← get w_conf;
        bm ← deref_M (bridge c);
        when (bool_decide (bm_useMdns bm <> 0)) (handleMdnsRead a);;
        ret 0
      else sock_readDump a;; ret 0
  end.

(** ** Closed sockets *)

Definition handleClose (a : addr) : M Z :=
  s ← get_sock a;
  c ← get w_conf;
  let ctx := bool_decide (mode c = HN_MODE_BRIDGE) in
  match ptr s with
  | None => ret 0
  | Some h =>
      hs ← get_hn h;
      (if bool_decide (hn_mode hs = SOCK_MODE_RELAY \/ hn_mode hs = SOCK_MODE_LISTEN)
       then hn_sockCleanup h ctx
       else if bool_decide (hn_mode hs = SOCK_MODE_LISTEN_OUT) then
         if ctx then upd_context (fun cx => set_rl None 0 (rlLastRetry cx) cx)
         else fail ExitCalled
       else if bool_decide (hn_mode hs = SOCK_MODE_MDNS) then fail ExitCalled
       else ret tt);;
      ret 1
  end.

(** ** Between events *)

Definition houseKeeping : M unit :=
  c ← get w_conf;
  if bool_decide (mode c = HN_MODE_BRIDGE) then
    bm ← deref_M (bridge c);
    cx ← get_context;
    now ← (if bool_decide (bm_useMdns bm <> 0) then sys_time else ret 0);
    when (bool_decide (bm_useMdns bm <> 0 /\ now - mdnsLastRefresh cx >= REFRESH_INTERVAL_SECS))
      (t ← sys_time;
       upd_context (set_mdnsLastRefresh t);;
       _ ← sendMdnsQuery MDNS_QUERY; ret tt);;
    when (bool_decide (rlSock cx = None /\ str_len (bm_rlUrl bm) > 1))
      (r ← tryRLStart;
       match r with
       | Some a => _ ← sock_setNonBlocking a; watch a
       | None => ret tt
       end);;
    cx ← get_context;
    match rlSock cx with
    | None => ret tt
    | Some a =>
        now ← sys_time;
        when (bool_decide (now - rlLastPing cx >= PING_INTERVAL_SECS))
          (_ ← hn_sendMsg a $"PING";
           t ← sys_time;
           upd_context (set_rlLastPing t))
    end
  else ret tt.

(** ** The loop *)

Definition processEvent (a : option addr) (event : Z) : M bool :=
  if bool_decide (event = SOCK_EVENT_READ) then a ← deref_M a; _ ← handleRead a; ret true
  else if bool_decide (event = SOCK_EVENT_NEW) then a ← deref_M a; _ ← handleNew 2 a; ret true
  else if bool_decide (event = SOCK_EVENT_CLOSE) then a ← deref_M a; _ ← handleClose a; ret true
  else ret false.

(** One round; [true] goes on. *)
Definition loop_round (isFirst : bool) : M bool :=
  '(event, selSock) ← waitForEvent fuel isFirst;
  if bool_decide (event = SOCK_EVENT_ERROR) then ret false
  else if bool_decide (event = SOCK_EVENT_TIMEOUT) then ret true
  else
    _ ← processEvent selSock event;
    houseKeeping;;
    ret true.

(** [n] rounds at most. *)
Fixpoint hn_loop (n : nat) (isFirst : bool) : M unit :=
  match n with
  | O => ret tt
  | S n' => go ← loop_round isFirst; if go : bool then hn_loop n' false else ret tt
  end.
End Bridge.
