(* ===== verification/TestPrograms.v ===== *)
(** * The interactive test programs (src/test/server.c, src/test/mdns.c)

    A web server on the event loop, and a loop that prints mDNS packets and
    sends a query of its own. What they print is computed where a fault is
    possible and dropped. *)
From S2P Require Import Prelude CString Str Containers Buffer IpAddr Dns DnsEncode DnsDecode DnsRoundTrip Mappings DnsPrint.
From S2P Require Import Auth ConfigFile Config Os Socket WaitLoop Bridge Mdns Printing.

(** ** server.c *)

Definition page : cstr :=
  $"HTTP/1.1 200 OK" ++ [CR; LF] ++ $"Content-Type: text/html" ++ [CR; LF; CR; LF] ++
  $"<html><body><h1>Welcome to HomeNet!</h1>You have reached a HomeNet bridge.</body></html>".

Section Server.
Context `{Os} `{Fuel} `{Inet6}.

Definition show_ip (a : addr) : M unit := s ← get_sock a; _ ← lift (ipAddr_print (ipAddr s)); ret tt.
(** [%s] of an array that holds [d] and, behind it, what was on the stack. *)
Definition show_string (d stack : mem) : M unit :=
  match cview (d ++ drop (length d) stack) with Some _ => ret tt | None => fail OutOfBounds end.

Definition server_processEvent (stack : mem) (a : option addr) (event : Z) : M bool :=
  if bool_decide (event = SOCK_EVENT_READ) then
    a ← deref_M a;
    '(bytesRead, d) ← sock_read a 1024;
    show_ip a;;
    (if bool_decide (bytesRead > 0) then show_string d stack else ret tt);;
    _ ← sock_write a (cmem page);
    _ ← sock_done a;
    ret true
  else if bool_decide (event = SOCK_EVENT_NEW) then
    a ← deref_M a; show_ip a;;
    modify (fun w => set_sockList (list_add (w_sockList w) a) w);;
    ret true
  else if bool_decide (event = SOCK_EVENT_CLOSE) then
    a ← deref_M a; show_ip a;; ret true
  else ret false.

(** [n] rounds at most of the loop in main; the exit status when it ends. *)
Fixpoint server_loop (n : nat) (stack : mem) (servSock : addr) (isFirst : bool) : M (option Z) :=
  match n with
  | O => ret None
  | S n' =>
      '(event, selSock) ← waitForEvent fuel isFirst;
      if bool_decide (event = SOCK_EVENT_ERROR) then ret (Some 1)
      else
        (if bool_decide (event = SOCK_EVENT_TIMEOUT) then ret tt
         else _ ← server_processEvent stack selSock event; ret tt);;
        s ← get_sock servSock;
        if bool_decide (isAlive s = SOCKET_DEAD) then ret (Some 0)
        else server_loop n' stack servSock false
  end.

Definition server_main (n : nat) (stack : mem) : M (option Z) :=
  new ← createTcpServer 2000;
  match new with
  | None => ret (Some 1)
  | Some s =>
      servSock ← new_sock s;
      _ ← sock_setNonBlocking servSock;
      show_ip servSock;;
      myaddr ← sock_getMyIpAddr servSock;
      _ ← lift (ipAddr_print myaddr);
      modify (set_sockList (list_add list_init servSock));;
      server_loop n stack servSock true
  end.
End Server.

(** ** mdns.c *)

Definition mdns_bridge_name : cstr := $"bridge.hn.local.".
(** [ntohl] of an address: the bytes in memory, turned around. *)
Definition ntohl_bytes (a : in_addr) : mem := let '(a0, a1, a2, a3) := a in [chr a3; chr a2; chr a1; chr a0].

Section MdnsTest.
Context `{Os} `{Inet6} `{FloatText}.

(** [count] is static and counts the calls. *)
Definition test_query (count : Z) : outcome dns_query_t :=
  '(_, ip) ← str_toIpAddr $"192.169.29.90";
  txt ← strcpy 100 ($"PORT=2000;meow=count-" ++ printf_d count);
  Ok (mkQuery 1234 true OP_QUERY false false true false false false false RCODE_OKAY
    [mkQuestion (Some mdns_bridge_name) (dns_type_value $"TXT") CLASS_IN]
    [mkAnswer (Some mdns_bridge_name) RR_TXT CLASS_IN 0 (R_TXT (str_len txt) (Some (cmem txt)));
     mkAnswer (Some mdns_bridge_name) RR_A CLASS_IN 0 (R_A (ntohl_bytes (sin_addr ip)))] [] []).
(** The packet and its size; the return code of dns_encode is not looked at. *)
Definition createQuery (count : Z) : outcome (mem * Z) :=
  q ← test_query count;
  '(_, packet, size) ← dns_encode DNS_BUFFER_UDP q;
  Ok (packet, size).
Definition sendQuery (count : Z) : M Z :=
  '(packet, size) ← lift (createQuery count);
  mdns_send (take (Z.to_nat size) packet).

(** One round of the loop in main. The result of dns_decode is not looked at:
    when it fails, a structure that was never written is printed. *)
Definition mdns_round (sock : addr) (stack : mem) (count : Z) : M unit :=
  '(d, ip) ← udp_read sock 256;
  (if bool_decide (zlen d > 0) then
     _ ← lift (ipAddr_toString 100 ip);
     r ← lift (dns_decode 40000 (d ++ drop (length d) stack) (zlen d));
     match r with
     | inr q => _ ← lift (dns_print_result q); ret tt
     | inl _ => fail Indeterminate
     end
   else ret tt);;
  _ ← sendQuery count;
  ret tt.
Fixpoint mdns_rounds (n : nat) (sock : addr) (stack : mem) (count : Z) : M unit :=
  match n with
  | O => ret tt
  | S n' => mdns_round sock stack count;; mdns_rounds n' sock stack (wrap32 (count + 1))
  end.
Definition mdns_test_main (n : nat) (stack : mem) : M (option Z) :=
  new ← mdns_start;
  match new with
  | None => ret (Some 1)
  | Some s =>
      sock ← new_sock s;
      _ ← sock_setNonBlocking sock;
      mdns_rounds n sock stack 0;;
      ret None
  end.
End MdnsTest.

(** ** Runs *)

(** select() reports the socket that is longest in the list of readable ones. *)
Definition test_select (l : log_t) (r w : list Z) : Z * list Z * list Z := (1, take 1 (rev r), []).
(** One client, on descriptor 7. *)
Definition accepted (l : log_t) : bool :=
  existsb (fun e => match e with EvAccept _ (Some _) => true | _ => false end) l.
Definition test_os (pieces : list mem) : Os :=
  let o := demo_os 4096 pieces in {|
  os_write := @os_write o; os_recv := @os_recv o; 
  os_accept := fun l _ => if accepted l then None else Some (7, mkSockaddr AF_INET (htons 40000) (10, 0, 0, 9));
  os_accept_wouldblock := @os_accept_wouldblock o; os_socket := fun _ => 3;
  os_connect := @os_connect o; os_fcntl := @os_fcntl o; os_getsockname := fun _ _ => mkSockaddr AF_INET (htons 2000) (127, 0, 0, 1);
  os_setsockopt := @os_setsockopt o; os_bind := @os_bind o; os_select := test_select;
  os_gethostbyname := @os_gethostbyname o; os_sendto := @os_sendto o;
  os_recvfrom := @os_recvfrom o; os_time := @os_time o; os_below := @os_below o |}.

Definition server_run (n : nat) (request : mem) : outcome (option Z * mem * list event) :=
  match @server_main (test_os [request]) 9%nat (fun _ => true) n (replicate 1024 nul)
    (demo_world ∅ ∅ demo_conf []) with
  | Ok (r, w) => Ok (r, sent 7 (w_log w), take 1 (w_log w))
  | Fail f => Fail f
  end.
(** A client connects, asks for a page and gets it with the NUL behind it; then
    its connection is closed. *)
Example server_serves_page : server_run 3 $"GET / HTTP/1.1" = Ok (None, cmem page, [EvClose 7]).
Proof. by vm_compute. Qed.

(** The query of mdns.c can be decoded again; its A record holds the address
    with the bytes in the wrong order. *)
Example createQuery_decodes :
  match @test_query (fun _ => true) 0, @createQuery (fun _ => true) demo_float 0 with
  | Ok q, Ok (packet, size) =>
      @dns_decode demo_float DNS_DECODEBUF_4K packet size = Ok (inr q) /\
      (a_data <$> answers q) !! 1%nat = Some (R_A (chr <$> [90; 29; 169; 192]))
  | _, _ => False
  end.
Proof. by vm_compute. Qed.

(** A packet that dns_decode refuses: what was never written is printed. *)
Definition refused_os : Os :=
  let o := demo_os 1 [] in {|
  os_write := @os_write o; os_recv := @os_recv o; os_accept := @os_accept o;
  os_accept_wouldblock := @os_accept_wouldblock o; os_socket := @os_socket o;
  os_connect := @os_connect o; os_fcntl := @os_fcntl o; os_getsockname := @os_getsockname o;
  os_setsockopt := @os_setsockopt o; os_bind := @os_bind o; os_select := @os_select o;
  os_gethostbyname := @os_gethostbyname o; os_sendto := @os_sendto o;
  os_recvfrom := fun _ _ _ => Some ([nul], mkSockaddr AF_INET (htons 5353) (10, 0, 0, 9));
  os_time := @os_time o; os_below := @os_below o |}.
Example mdns_prints_garbage :
  @mdns_test_main refused_os (fun _ => true) demo_float 1 (replicate 256 nul) (demo_world ∅ ∅ demo_conf []) =
  Fail Indeterminate.
Proof. by vm_compute. Qed.
