(* ===== verification/BridgeAuth.v ===== *)
(** * Who may use a bridge

    Connections that need authentication, listeners and their ids. *)
From S2P Require Import Prelude CString Str Containers Buffer IpAddr Auth ConfigFile.
From S2P Require Import Config Http Os Socket WaitLoop Store StoreFacts Protocol Messages.
From S2P Require Import Frame Handshake Evolve AuthSocket Mdns Bridge.

Lemma evolves_link h s : Evolves (link h s).
Proof. unfold link. evolve. Qed.
Lemma evolves_refuse a : Evolves (refuse a).
Proof. unfold refuse. evolve. Qed.
#[export] Hint Resolve evolves_link evolves_refuse : preserves.

Lemma evolves_createRelay `{Os} `{Fuel} `{Inet6} `{Rand} a url ctx : Evolves (createRelay a url ctx).
Proof. unfold createRelay. evolve. Qed.
#[export] Hint Resolve evolves_createRelay : preserves.

(** A refused socket is gone. *)
Lemma sock_destroy_gone a ctx w u w' : sock_destroy a ctx w = Ok (u, w') -> w_socks w' !! a = None.
Proof.
  unfold sock_destroy. intros E. inv_run. clear -E. unfold free_sock in E.
  destruct (w_socks _ !! a); [|done]. injection E as <- <-. apply lookup_delete_eq.
Qed.

Lemma refuse_inv a w v w' :
  refuse a w = Ok (v, w') ->
  v = Return 0 /\ w_socks w' !! a = None /\ w_sockList w' = w_sockList w.
Proof.
  intros E. evolved E Hev. destruct Hev as [_ Hl _ _].
  unfold refuse in E. apply M_bind_inv in E as (u & w1 & E & E1). injection E1 as <- <-.
  split_and!; [done|by eapply sock_destroy_gone|done].
Qed.

Lemma evolves_received w w' f : evolves w w' -> exists d, received f (w_log w') = received f (w_log w) ++ d.
Proof. intros [[l E] _ _ _]. exists (received f l). by rewrite E, received_app. Qed.

(** Refusing a connection leaves the configuration alone, and with it the store. *)
Definition same_conf (w w' : world) : Prop := w_conf w' = w_conf w.
#[export] Instance same_conf_preorder : PreOrder same_conf.
Proof. split; [done|]. unfold same_conf. intros w1 w2 w3 ? ?. congruence. Qed.

Ltac same_conf := repeat preserve_step ltac:(reflexivity).

Lemma same_conf_done_waiting l : Preserves same_conf (done_waiting l).
Proof. induction l as [|i l IH]; cbn [done_waiting]; [|unfold sock_done, sock_close, sys_close]; same_conf. Qed.

Lemma refuse_conf a w v w' : refuse a w = Ok (v, w') -> w_conf w' = w_conf w.
Proof.
  assert (H : Preserves same_conf (refuse a)); [|apply H].
  assert (forall h, Preserves same_conf (free_hn h)) by (intros h; by apply preserves_free_hn).
  assert (forall s, Preserves same_conf (free_sock s)) by (intros s; by apply preserves_free_sock).
  pose proof same_conf_done_waiting.
  unfold refuse, sock_destroy, hn_sockCleanup, removeWaitingSocket, getListeningSock, get_context,
     sock_cleanup, sock_done, sock_close, sys_close.
  same_conf.
Qed.

Section Connect.
Context `{Os} `{!OsLaws} `{!QuietStack} `{Fuel} `{Inet6} `{Rand}.

(** Between [w] and [w'] a peer was challenged on [f] and gave the right answer:
    the nonce was generated when the challenge began, in [w]; the calls [l1]
    sent it (all of it, unless a write() failed after some bytes); the calls
    [l2], which came then, read the response to this nonce for one of the keys;
    neither holds any other call than these and reading the clock. What else
    was done, [l3], was done afterwards. *)
Definition answered (f : Z) (keys : Map cstr) (w w' : world) : Prop :=
  exists nonce n l1 l2 l3 key salt rest,
    challenge f (os_time (w_log w)) (w_mySeed w) nonce n l1 l2 /\ zlen nonce = 15 /\ (0 < n)%nat /\
    w_log w' = l3 ++ l2 ++ l1 ++ w_log w /\
    key <> [] /\ map_get keys key = Some salt /\
    received f l2 = auth_resp nonce key salt ++ HN_MSG_END ++ rest.
(** Between [w] and [w'] there was nothing but an exchange with the peer on [f],
    and [f] was closed. *)
Definition turned_away (f : Z) (w w' : world) : Prop :=
  exists l, w_log w' = l ++ w_log w /\ Forall (fun e => talk f e \/ e = EvClose f) l.

Lemma answered_more f keys w w1 w2 :
  answered f keys w w1 -> (exists l, w_log w2 = l ++ w_log w1) -> answered f keys w w2.
Proof.
  intros (nonce & n & l1 & l2 & l3 & key & salt & rest & Hch & Hz & Hn & Hl & Hk & Hm & Hr) [l El].
  exists nonce, n, l1, l2, (l ++ l3), key, salt, rest. split_and!; try done.
  by rewrite El, Hl, <- !app_assoc.
Qed.

Lemma authThrowChallenge_answered a s keys w buff w' :
  w_socks w !! a = Some s -> isAlive s <> SOCKET_DEAD -> isBlocking s = true -> upgraded w s ->
  (forall nonce, zlen nonce = 15 -> store_fits nonce keys) ->
  authThrowChallenge a keys w = Ok ((true, buff), w') -> answered (fd s) keys w w'.
Proof.
  intros Ha Hal Hb Hu Hf E.
  destruct (authThrowChallenge_run a s keys w true buff w' Ha Hal Hb Hu Hf E)
    as (nonce & n & l1 & l2 & Hch & Ln & -> & Hd).
  destruct (Hd eq_refl) as (Hn & key & salt & rest & Hk & Hm & Hr).
  exists nonce, n, l1, l2, [], key, salt, rest. by split_and!.
Qed.

(** A refused socket that is linked to nothing. *)
Lemma refuse_log a s w v w' : w_socks w !! a = Some s -> ptr s = None ->
  refuse a w = Ok (v, w') -> exists l, w_log w' = l ++ w_log w /\ Forall (fun e => e = EvClose (fd s)) l.
Proof.
  intros Ha Hp. unfold refuse, sock_destroy, sock_close, sys_close, sock_cleanup, free_sock, get_sock, upd_sock.
  run. rewrite Ha, Hp, Ha. cbn [w_socks set_socks]. rewrite lookup_insert_eq. cbn [isAlive set_ptr fd].
  case_bool_decide; repeat (cbn [w_socks set_socks set_log]; rewrite ?lookup_insert_eq);
    intros [= _ <-]; cbn [w_log set_socks set_log].
  - exists []. by split; [|constructor].
  - exists [EvClose (fd s)]. by split; [|repeat constructor].
Qed.
Lemma authThrowChallenge_refused a s keys w buff w1 v w' :
  w_socks w !! a = Some s -> isAlive s <> SOCKET_DEAD -> isBlocking s = true -> ptr s = None ->
  (forall nonce, zlen nonce = 15 -> store_fits nonce keys) ->
  authThrowChallenge a keys w = Ok ((false, buff), w1) -> refuse a w1 = Ok (v, w') ->
  turned_away (fd s) w w'.
Proof.
  intros Ha Hal Hb Hp Hf E Er. assert (Hu : upgraded w s) by (intros h Eh; congruence).
  destruct (authThrowChallenge_run a s keys w false buff w1 Ha Hal Hb Hu Hf E)
    as (nonce & n & l1 & l2 & [] & _ & -> & _).
  apply (refuse_log a s) in Er as (l & El & Hl); [|exact Ha|exact Hp]. cbn [w_log set_log set_mySeed] in El.
  exists (l ++ l2 ++ l1). split; [by rewrite El, <- !app_assoc|].
  assert (Htalk : forall l0, Forall (talk (fd s)) l0 -> Forall (fun e => talk (fd s) e \/ e = EvClose (fd s)) l0).
  { intros l0 Hl0. eapply Forall_impl; [exact Hl0|]. by left. }
  repeat apply Forall_app_2; [|by apply Htalk..]. eapply Forall_impl; [exact Hl|]. by right.
Qed.

Lemma new_connect_inv a s bm buff connUrl w v w' :
  w_socks w !! a = Some s -> isAlive s <> SOCKET_DEAD -> isBlocking s = true -> ptr s = None ->
  bridge (w_conf w) = Some bm ->
  (forall nonce, zlen nonce = 15 -> store_fits nonce (queryKeys (context bm))) ->
  tok1 $" " (tok_rest $" " buff) = Some connUrl ->
  connect_authRequired connUrl (mode (w_conf w)) (connectAuthLevel <$> bridge (w_conf w)) = Ok true ->
  new_connect a buff w = Ok (v, w') ->
  match v with
  | Keep => answered (fd s) (queryKeys (context bm)) w w'
  | Return r => r = 0 /\ w_socks w' !! a = None /\ w_sockList w' = w_sockList w /\
      (answered (fd s) (queryKeys (context bm)) w w' \/ turned_away (fd s) w w')
  end.
Proof.
  intros Ha Hal Hb Hp Hbm Hf Ht Hreq E. unfold new_connect in E.
  apply M_bind_inv in E as (u & w1 & E1 & E). injection E1 as <- <-. rewrite Ht in E.
  apply M_bind_inv in E as (c & w1 & E1 & E). injection E1 as <- <-.
  cbn [w_conf set_isRecall] in E. rewrite Hreq in E.
  apply M_bind_inv in E as (r & w1 & E1 & E). injection E1 as <- <-.
  apply M_bind_inv in E as (ok & w1 & E1 & E).
  apply M_bind_inv in E1 as (cx & w2 & Ec & E1).
  rewrite (get_context_ok (set_isRecall false w) bm Hbm) in Ec. injection Ec as <- <-.
  apply M_bind_inv in E1 as ([ok' b] & w2 & Eauth & E1). injection E1 as -> ->.
  evolved Eauth Hev1. destruct ok; cbn [negb] in E.
  2: { assert (turned_away (fd s) w w')
         by exact (authThrowChallenge_refused a s _ (set_isRecall false w) _ _ _ _ Ha Hal Hb Hp Hf Eauth E).
       apply refuse_inv in E as (-> & ? & ?). destruct Hev1 as [_ Hl1 _ _]. cbn in Hl1.
       split_and!; [done|done|congruence|by right]. }
  apply (authThrowChallenge_answered a s) in Eauth; try done; [|intros h Eh; congruence].
  apply M_bind_inv in E as ([rr next] & w2 & Erel & E). evolved Erel Hev2.
  case_bool_decide.
  { evolved E Hev3. pose proof (transitivity Hev2 Hev3) as [Hlog _ _ _]. apply refuse_inv in E as (-> & ? & ?).
    destruct Hev1 as [_ Hl1 _ _], Hev2 as [_ Hl2 _ _]. cbn in Hl1.
    split_and!; [done|done|congruence|left; eapply answered_more; [exact Eauth|exact Hlog]]. }
  apply M_bind_inv in E as (u & w3 & E3 & E). apply M_bind_inv in E as (u' & w4 & E4 & E).
  injection E as <- <-. eapply answered_more; [exact Eauth|].
  evolved E3 Hev3. destruct Hev2 as [[l2 L2] _ _ _], Hev3 as [[l3 L3] _ _ _].
  assert (exists l4, w_log w4 = l4 ++ w_log w3) as [l4 L4].
  { destruct next as [n|]; [|injection E4 as <- <-; by exists []].
    apply M_bind_inv in E4 as (x & w5 & E4 & E5). injection E5 as <- <-.
    evolved E4 Hev4. apply Hev4. }
  exists (l4 ++ l3 ++ l2). by rewrite L4, L3, L2, <- !app_assoc.
Qed.
End Connect.

(** ** Listeners *)

(** The configuration and the listeners' table of a bridge. *)
Definition listeners (w : world) : gmap cstr addr :=
  match bridge (w_conf w) with Some bm => to_gmap (listeningSocks (context bm)) | None => ∅ end.

Lemma upd_context_ok f w bm :
  bridge (w_conf w) = Some bm ->
  exists w', upd_context f w = Ok (tt, w') /\ w_hsocks w' = w_hsocks w /\ w_socks w' = w_socks w /\
    w_log w' = w_log w /\ w_sockList w' = w_sockList w /\
    exists bm', bridge (w_conf w') = Some bm' /\ context bm' = f (context bm).
Proof.
  intros E. unfold upd_context. run. rewrite E. eexists. split_and!; try done. by eexists.
Qed.

(** A map of one key. *)
Lemma map_set_singleton (k v : cstr) m fr :
  map_set map_init k v false = Ok (m, fr) -> m = mkMap [mkItem k v] 1.
Proof.
  unfold map_set, map_getItem, str_set. cbn. unfold strcpy. case_decide; [|done]. cbn.
  by intros [= <- <-].
Qed.

Lemma map_get_singleton (k v k' v' : cstr) : map_get (mkMap [mkItem k v] 1) k' = Some v' -> k' = k /\ v' = v.
Proof.
  unfold map_get, map_getItem. cbn. unfold str_isEqual, strcmp_eq. case_bool_decide; [|done].
  by intros [= <-].
Qed.

Section Listen.
Context `{Os} `{!OsLaws} `{!QuietStack} `{Fuel} `{Rand} `{Environment}.

(** The two ways to an id: the key of the id, or an anonymous id where these
    are allowed. *)
Definition id_granted (f : Z) (bm : bridgeMode) (id id' : cstr) (w w' : world) : Prop :=
  (exists salt, salt_for $"L-" id (listenKeys (context bm)) = Ok (Some salt) /\ id' = id /\
     1 < zlen id /\ answered f (mkMap [mkItem id salt] 1) w w') \/
  (requireRLAuth bm = 0 /\ zlen id' = 10 /\ Forall (fun c => c ∈ code_alphabet) id' /\
     generateCode 20 (os_time (w_log w)) (w_mySeed w) 10 = Ok (id', wrap32 (w_mySeed w + 1)) /\
     (zlen id <= 1 \/ salt_for $"L-" id (listenKeys (context bm)) = Ok None)).

Lemma id_granted_more f bm id id' w w1 w2 :
  id_granted f bm id id' w w1 -> (exists l, w_log w2 = l ++ w_log w1) -> id_granted f bm id id' w w2.
Proof.
  intros [(salt & ? & ? & ? & Hans)|?] Hl; [left|by right].
  exists salt. split_and!; try done. by eapply answered_more.
Qed.

Lemma listen_id_inv a s bm id id' w w' :
  w_socks w !! a = Some s -> isAlive s <> SOCKET_DEAD -> isBlocking s = true -> ptr s = None ->
  bridge (w_conf w) = Some bm ->
  (forall salt nonce, salt_for $"L-" id (listenKeys (context bm)) = Ok (Some salt) ->
     zlen nonce = 15 -> resp_fits nonce id salt) ->
  listen_id a id w = Ok (Some id', w') -> id_granted (fd s) bm id id' w w'.
Proof.
  intros Ha Hal Hb Hp Hbm Hf E. unfold listen_id in E.
  apply M_bind_inv in E as (salt & w1 & E1 & E).
  assert (w1 = w /\ if bool_decide (str_len id > 1)
    then salt_for $"L-" id (listenKeys (context bm)) = Ok salt else salt = None) as [-> Hsalt].
  { revert E1. case_bool_decide; [|by intros [= <- <-]].
    unfold getSaltForListenId, mbind, M_bind. rewrite (get_context_ok w bm Hbm). unfold lift.
    destruct (salt_for _ _ _); [|done]. by intros [= <- <-]. }
  destruct salt as [salt|].
  - left. case_bool_decide; [|done]. exists salt. unfold str_len in *.
    apply M_bind_inv in E as ([m fr] & w1 & E2 & E).
    unfold lift in E2. destruct (map_set _ _ _ _) as [[m' fr']|] eqn:Em; [|done].
    injection E2 as -> -> <-. apply map_set_singleton in Em as ->.
    apply M_bind_inv in E as ([ok buff] & w1 & Eauth & E). destruct ok; [|done]. injection E as <- <-.
    split_and!; [done|done|lia|]. eapply (authThrowChallenge_answered a s); try done.
    + intros h Eh. congruence.
    + intros nonce Hn k v [-> ->]%map_get_singleton. by apply Hf.
  - right. apply M_bind_inv in E as (c & w1 & E2 & E). injection E2 as <- <-.
    rewrite Hbm in E. apply M_bind_inv in E as (bm' & w1 & E2 & E). injection E2 as <- <-.
    destruct (bool_decide_reflect (requireRLAuth bm = 0)) as [Hr|Hr]; [|done].
    apply M_bind_inv in E as (code & w1 & E2 & E). injection E as <- <-.
    revert E2. unfold gen_code. run. unfold sys_time. run.
    destruct (generateCode_ok 20 (os_time (w_log w)) (w_mySeed w) 10 ltac:(lia)) as (c & Ec & Lc & Hc).
    cbn [w_mySeed set_log]. rewrite Ec. intros [= <- <-]. split_and!; try done.
    unfold str_len in Hsalt. case_bool_decide; [by right|left; lia].
Qed.

Lemma keeps_listen_id a id : Keeps (listen_id a id).
Proof. unfold listen_id, getSaltForListenId, get_context. keeps. Qed.

Definition fresh_hn (s : addr) (m : Z) (u : bool) : hn_Socket :=
  mkHnSocket s m u [] (mkRelay None false [] []) (mkListenNotif [] [] map_init).

Lemma hn_sockInit_ok s sk m u w :
  w_socks w !! s = Some sk ->
  hn_sockInit s m u w = Ok (w_next w,
    set_socks (<[s := set_ptr (Some (w_next w)) sk]> (w_socks w))
      (set_nextaddr (Pos.succ (w_next w))
        (set_hsocks (<[w_next w := fresh_hn s m u]> (w_hsocks w)) w))).
Proof. intros E. unfold hn_sockInit, new_hn, upd_sock. run. cbn [w_socks set_nextaddr set_hsocks]. by rewrite E. Qed.

(** What a listener finds registered. *)
Definition registered (a : addr) (id : cstr) (w : world) : Prop :=
  exists h hs, listeners w !! id = Some h /\ w_hsocks w !! h = Some hs /\ sock hs = a /\
    hn_mode hs = SOCK_MODE_LISTEN /\ listenId (listen_ hs) = id /\
    ptr <$> w_socks w !! a = Some (Some h).

Lemma registered_frame a id w w' : registered a id w -> frame w w' -> registered a id w'.
Proof.
  intros (h & hs & Hl & Hh & Hs & Hm & Hi & Hp) [_ Hc _ _ _ Hks Hhs].
  pose proof (Hhs h) as E. rewrite Hh in E. destruct (w_hsocks w' !! h) as [hs'|] eqn:Eh; [|done].
  injection E as E1 E2 _ _ E5. exists h, hs'. unfold listeners in *. rewrite Hc.
  split_and!; [done|done|congruence|congruence|congruence|].
  pose proof (Hks a) as E. destruct (w_socks w !! a) as [sk|]; [|done].
  destruct (w_socks w' !! a) as [sk'|]; [|done]. cbn in *. unfold sock_core in E. congruence.
Qed.

Lemma new_listen_notify_inv a s bm buff id w v w' :
  w_socks w !! a = Some s -> isAlive s <> SOCKET_DEAD -> isBlocking s = true -> ptr s = None ->
  bridge (w_conf w) = Some bm -> tok1 $" " (tok_rest $" " buff) = Some id ->
  (forall salt nonce, salt_for $"L-" id (listenKeys (context bm)) = Ok (Some salt) ->
     zlen nonce = 15 -> resp_fits nonce id salt) ->
  new_listen_notify a buff w = Ok (v, w') ->
  match v with
  | Keep => exists id', registered a id' w' /\ id_granted (fd s) bm id id' w w'
  | Return r => r = 0 /\ w_socks w' !! a = None /\ listeners w' = listeners w
  end.
Proof.
  intros Ha Hal Hb Hp Hbm Ht Hf E. unfold new_listen_notify in E.
  apply M_bind_inv in E as (u & w1 & E1 & E). injection E1 as <- <-. rewrite Ht in E.
  apply M_bind_inv in E as (id0 & w1 & E1 & E). injection E1 as <- <-.
  apply M_bind_inv in E as (id0 & w1 & E1 & E). unfold lift in E1.
  destruct (str_set 20 id) as [x|] eqn:Eid; [|done]. injection E1 as <- <-.
  apply strcpy_ok in Eid as [-> _].
  apply M_bind_inv in E as (granted & w1 & Eg & E).
  assert (Hfr : frame (set_isRecall false w) w1) by by apply (keeps_listen_id a id) in Eg.
  destruct granted as [id'|].
  2: { apply refuse_conf in E as Hc. apply refuse_inv in E as (-> & ? & _). split_and!; [done|done|].
       unfold listeners. destruct Hfr as [_ Hc' _ _ _ _ _]. by rewrite Hc, Hc'. }
  apply (listen_id_inv a s bm) in Eg; try done.
  assert (exists s1, w_socks w1 !! a = Some s1) as [s1 Ha1].
  { destruct Hfr as [_ _ _ _ _ Hk _]. pose proof (Hk a) as E1. cbn in E1. rewrite Ha in E1.
    destruct (w_socks w1 !! a); [by eexists|done]. }
  assert (Hbm1 : bridge (w_conf w1) = Some bm).
  { destruct Hfr as [_ Hc _ _ _ _ _]. by rewrite Hc. }
  apply M_bind_inv in E as (h & w2 & E2 & E). evolved E2 Hev2.
  rewrite (hn_sockInit_ok a s1) in E2 by done. injection E2 as <- <-.
  apply M_bind_inv in E as (id0 & w3 & E3 & E). unfold lift in E3.
  destruct (str_set 20 id') as [x|] eqn:Eid; [|done]. injection E3 as <- <-.
  apply strcpy_ok in Eid as [-> Hid].
  apply M_bind_inv in E as (u & w3 & E3 & E). evolved E3 Hev3.
  unfold upd_hn in E3. cbn [w_hsocks set_socks set_nextaddr set_hsocks] in E3.
  rewrite lookup_insert_eq in E3. injection E3 as <- <-.
  set (w3 := set_hsocks _ _) in *.
  apply M_bind_inv in E as (cx & w4 & E4 & E). rewrite (get_context_ok w3 bm Hbm1) in E4.
  injection E4 as <- <-.
  apply M_bind_inv in E as ([m fr] & w4 & E4 & E). unfold lift in E4.
  destruct (map_set_ok (listeningSocks (context bm)) id' (w_next w1) false) as (m' & fr' & Em & Gm & _).
  { right. unfold ITEM_KEY_SIZE. lia. }
  rewrite Em in E4. injection E4 as <- <- <-.
  apply M_bind_inv in E as (u & w4 & E4 & E). evolved E4 Hev4.
  destruct (upd_context_ok (set_listeningSocks m') w3 bm Hbm1) as (w4' & E4' & Hh4 & Hs4 & _ & _ & bm4 & Hb4 & Hc4).
  rewrite E4' in E4. injection E4 as <- ->.
  apply M_bind_inv in E as (msg & w5 & E5 & E). unfold lift in E5.
  destruct (str_concat _ _ _); [|done]. injection E5 as -> <-.
  apply M_bind_inv in E as ([n b] & w5 & E5 & E). evolved E5 Hev5. injection E as <- <-.
  exists id'. split.
  - eapply registered_frame; [|by apply (keeps_hn_sendMsg a msg) in E5].
    exists (w_next w1), (set_listen (mkListenNotif [] id' map_init) (fresh_hn a SOCK_MODE_LISTEN true)).
    unfold listeners. rewrite Hb4, Hc4, Hh4, Hs4. cbn [listeningSocks set_listeningSocks].
    rewrite Gm. unfold w3. cbn. rewrite !lookup_insert_eq. by cbn.
  - eapply id_granted_more; [exact Eg|].
    assert (He : evolves w1 w5) by (etrans; [exact Hev2|]; etrans; [exact Hev3|]; by etrans).
    apply He.
Qed.
End Listen.

(** ** Properties *)

(** A bridge that requires authentication and knows the key k1, and what it
    does with a peer that answers its challenge. *)
Definition demo_auth_conf : hn_Config :=
  mkConfig HN_MODE_BRIDGE
    (Some (mkBridgeMode 80 [] [] [] 0 AUTH_LEVEL_ALL 1 1
       (mkBridgeContext [] [] (store1 $"k1" $"s1") (store1 $"k1" $"s1") map_init map_init 0 0 None 0 0 0)))
    None None None None.
Definition demo_auth_bridge : bridgeMode :=
  mkBridgeMode 80 [] [] [] 0 AUTH_LEVEL_ALL 1 1
    (mkBridgeContext [] [] (store1 $"k1" $"s1") (store1 $"k1" $"s1") map_init map_init 0 0 None 0 0 0).
Definition demo_auth_world : world :=
  demo_world {[ 1%positive := demo_blocking ]} ∅ demo_auth_conf [].
Definition demo_inet6 : Inet6 := fun _ => false.
Definition demo_env : Environment := fun _ => None.
Definition demo_connect : outcome (verdict * world) :=
  @new_connect demo_answer 1%nat demo_inet6 demo_rand 1%positive $"HN1.0/CONNECT 10.0.0.2" demo_auth_world.

Lemma store1_fits_keys nonce : zlen nonce = 15 -> store_fits nonce (queryKeys (context demo_auth_bridge)).
Proof. apply store1_fits_all. Qed.

(** C3: A bridge that requires authentication for a URL relays a connection
    only after the peer answered its challenge for one of the query keys. When
    [new_connect] keeps the socket, its calls were: it sent the nonce generated
    at the start of this run (all of it, unless a write() failed on the way);
    then it received the right response to that nonce, computed with the salt
    stored for a key of the store; and everything else, connecting to the URL in
    particular, came after that. When it does not keep it, the socket is freed,
    the list of watched sockets is unchanged, and either the peer had answered
    or the bridge did nothing but talk to this peer and close. *)
Theorem new_connect_authenticated `{Os} `{!OsLaws} `{!QuietStack} `{Fuel} `{Inet6} `{Rand}
    (a : addr) (s : Socket) (bm : bridgeMode) (buff connUrl : cstr) (w w' : world) (v : verdict)
    (Ha : w_socks w !! a = Some s) (Hal : isAlive s <> SOCKET_DEAD) (Hb : isBlocking s = true)
    (Hp : ptr s = None) (Hbm : bridge (w_conf w) = Some bm)
    (Hfits : forall nonce, zlen nonce = 15 -> store_fits nonce (queryKeys (context bm)))
    (Htok : tok1 $" " (tok_rest $" " buff) = Some connUrl)
    (Hreq : connect_authRequired connUrl (mode (w_conf w)) (connectAuthLevel <$> bridge (w_conf w)) = Ok true)
    (Hrun : new_connect a buff w = Ok (v, w')) :
  match v with
  | Keep => answered (fd s) (queryKeys (context bm)) w w'
  | Return r => r = 0 /\ w_socks w' !! a = None /\ w_sockList w' = w_sockList w /\
      (answered (fd s) (queryKeys (context bm)) w w' \/ turned_away (fd s) w w')
  end.
Proof. by eapply new_connect_inv. Qed.

Lemma new_connect_authenticated_witness :
  @answered demo_answer demo_rand 7 (queryKeys (context demo_auth_bridge)) demo_auth_world (run_world demo_connect).
Proof.
  apply (@new_connect_authenticated demo_answer (demo_os_laws _ _) (demo_quiet _ _) 1%nat demo_inet6
    demo_rand 1%positive demo_blocking demo_auth_bridge $"HN1.0/CONNECT 10.0.0.2" $"10.0.0.2"
    demo_auth_world (run_world demo_connect) Keep);
    [reflexivity|discriminate|reflexivity|reflexivity|reflexivity|exact store1_fits_keys
    |by vm_compute|by vm_compute|by vm_compute].
Defined.

(** C4: A connection becomes a listener only under an id it proved to own: it
    was sent the nonce generated at the start of this run, and what was received
    then is the response to that nonce for the id, computed with the salt stored
    for the id; or, where anonymous listeners are allowed, under the code of ten
    characters generated in this run, when no salt is known for the id it asked
    for. The bridge then finds it under that id. A refused connection is freed
    and the table of listeners is unchanged. *)
Theorem new_listen_notify_authorised `{Os} `{!OsLaws} `{!QuietStack} `{Fuel} `{Rand} `{Environment}
    (a : addr) (s : Socket) (bm : bridgeMode) (buff id : cstr) (w w' : world) (v : verdict)
    (Ha : w_socks w !! a = Some s) (Hal : isAlive s <> SOCKET_DEAD) (Hb : isBlocking s = true)
    (Hp : ptr s = None) (Hbm : bridge (w_conf w) = Some bm)
    (Htok : tok1 $" " (tok_rest $" " buff) = Some id)
    (Hfits : forall salt nonce, salt_for $"L-" id (listenKeys (context bm)) = Ok (Some salt) ->
       zlen nonce = 15 -> resp_fits nonce id salt)
    (Hrun : new_listen_notify a buff w = Ok (v, w')) :
  match v with
  | Keep => exists id', registered a id' w' /\ id_granted (fd s) bm id id' w w'
  | Return r => r = 0 /\ w_socks w' !! a = None /\ listeners w' = listeners w
  end.
Proof. by eapply new_listen_notify_inv. Qed.

Definition demo_notify : outcome (verdict * world) :=
  @new_listen_notify demo_answer 1%nat demo_rand demo_env 1%positive $"HN1.0/LISTEN_NOTIFY k1" demo_auth_world.

Lemma demo_salt_fits salt nonce :
  @salt_for demo_env $"L-" $"k1" (listenKeys (context demo_auth_bridge)) = Ok (Some salt) ->
  zlen nonce = 15 -> resp_fits nonce $"k1" salt.
Proof. intros E Hn. vm_compute in E. injection E as <-. unfold resp_fits. rewrite Hn. done. Qed.

Lemma new_listen_notify_authorised_witness :
  exists id', registered 1%positive id' (run_world demo_notify) /\
    @id_granted demo_answer demo_rand demo_env 7 demo_auth_bridge $"k1" id' demo_auth_world (run_world demo_notify).
Proof.
  apply (@new_listen_notify_authorised demo_answer (demo_os_laws _ _) (demo_quiet _ _) 1%nat
    demo_rand demo_env 1%positive demo_blocking demo_auth_bridge $"HN1.0/LISTEN_NOTIFY k1" $"k1"
    demo_auth_world (run_world demo_notify) Keep);
    [reflexivity|discriminate|reflexivity|reflexivity|reflexivity|by vm_compute
    |exact demo_salt_fits|by vm_compute].
Defined.
