(* ===== verification/Relay.v ===== *)
(** * Relays

    How two sockets come to be the ends of a relay, what moves between them,
    and what happens when one end closes. *)
From S2P Require Import Prelude CString Str Containers Buffer IpAddr Auth ConfigFile.
From S2P Require Import Config Http Os Socket WaitLoop WaitFacts Store StoreFacts.
From S2P Require Import Protocol Messages Frame Handshake Evolve AuthSocket Mdns Bridge.
From S2P Require Import BridgeAuth.

(** ** Lemmas: the store seen through changes elsewhere *)

Definition hn_store (h : hn_Socket) := (hn_mode h, listen_ h).

Lemma waiting_ext w w' id :
  w_conf w' = w_conf w ->
  (forall id' la, listeners w !! id' = Some la -> hn_store <$> w_hsocks w' !! la = hn_store <$> w_hsocks w !! la) ->
  waiting w' id = waiting w id.
Proof.
  intros Hc Hh. unfold waiting, listener_of, listeners in *. rewrite Hc.
  destruct (bridge (w_conf w)) as [bm|]; [|done]. cbn.
  destruct (map_get _ id) as [la|] eqn:El; [|done]. cbn.
  assert (E : hn_store <$> w_hsocks w' !! la = hn_store <$> w_hsocks w !! la).
  { apply (Hh id). by rewrite <- map_get_lookup. }
  destruct (w_hsocks w' !! la) as [h'|], (w_hsocks w !! la) as [h|]; try done. cbn in *.
  unfold hn_store in E. injection E as E1 E2. rewrite E1. case_bool_decide; [|done]. by rewrite E2.
Qed.

Lemma waiting_frame w w' id : frame w w' -> waiting w' id = waiting w id.
Proof.
  intros [_ Hc _ _ _ _ Hh]. apply waiting_ext; [done|]. intros _ la _.
  pose proof (Hh la) as E. destruct (w_hsocks w' !! la), (w_hsocks w !! la); try done.
  cbn in *. unfold hn_core, hn_store in *. congruence.
Qed.

(** Changing the relay of an hn_Socket. *)
Lemma waiting_relay w id h hs r :
  w_hsocks w !! h = Some hs ->
  waiting (set_hsocks (<[h := set_relay r hs]> (w_hsocks w)) w) id = waiting w id.
Proof.
  intros E. apply waiting_ext; [done|]. intros _ la _. cbn. destruct (decide (la = h)) as [->|].
  - by rewrite lookup_insert_eq, E.
  - by rewrite lookup_insert_ne.
Qed.

(** A new hn_Socket, linked to a socket. *)
Lemma waiting_hn_sockInit w id s sk hs :
  store_ok w -> w_hsocks w !! w_next w = None ->
  waiting (set_socks (<[s := sk]> (w_socks w)) (set_nextaddr (Pos.succ (w_next w))
        (set_hsocks (<[w_next w := hs]> (w_hsocks w)) w))) id = waiting w id.
Proof.
  intros [_ Hl _] Hf. apply waiting_ext; [done|]. intros id' la Hin. cbn.
  rewrite lookup_insert_ne; [done|]. intros <-. unfold listeners in Hin. destruct (bridge (w_conf w)) as [bm|] eqn:Eb; [|done].
  rewrite <- map_get_lookup in Hin. destruct (Hl bm id' _ eq_refl Hin) as [h Eh]. congruence.
Qed.

(** ** Reverse connections *)

Lemma link_ok h s hs w :
  w_hsocks w !! h = Some hs ->
  link h s w = Ok (tt, set_hsocks (<[h := set_relay (set_next (Some s) false (relay hs)) hs]> (w_hsocks w)) w).
Proof. intros E. unfold link, upd_hn. by rewrite E. Qed.

(** [h] relays what comes from [a] to [b]. *)
Definition relays_to (h a b : addr) (w : world) : Prop :=
  exists hs, w_hsocks w !! h = Some hs /\ sock hs = a /\ hn_mode hs = SOCK_MODE_RELAY /\
    next (relay hs) = Some b /\ isWaiting (relay hs) = false.

Lemma relays_to_frame h a b w w' : relays_to h a b w -> frame w w' -> relays_to h a b w'.
Proof.
  intros (hs & Eh & Es & Em & En & Ew) [_ _ _ _ _ _ Hh]. pose proof (Hh h) as E. rewrite Eh in E.
  destruct (w_hsocks w' !! h) as [hs'|] eqn:Eh'; [|done]. injection E as E1 E2 _ E4 _.
  exists hs'. split_and!; congruence.
Qed.


Section Reverse.
Context `{Os} `{!OsLaws} `{Fuel}.

(** With a socket waiting for the code. *)
Lemma new_listen_connect_waiting a s buff id otp nh hn w v w' :
  store_ok w -> w_socks w !! a = Some s -> w_hsocks w !! w_next w = None ->
  tok1 $" " (tok_rest $" " buff) = Some id ->
  tok1 $" " (tok_rest $" " (tok_rest $" " buff)) = Some otp ->
  waiting w id !! otp = Some nh -> w_hsocks w !! nh = Some hn -> hn_mode hn = SOCK_MODE_RELAY ->
  new_listen_connect a buff w = Ok (v, w') ->
  v = Keep /\ relays_to (w_next w) a (sock hn) w' /\ relays_to nh (sock hn) a w' /\
  waiting w' id = delete otp (waiting w id).
Proof.
  intros Hw Ha Hf Ht1 Ht2 Hwt Hnh Hm E. unfold new_listen_connect in E.
  apply M_bind_inv in E as (u & w1 & E1 & E). injection E1 as <- <-.
  set (w1 := set_isRecall false w) in *. assert (Hw1 : store_ok w1) by by destruct Hw.
  cbv zeta in E. rewrite Ht1, Ht2 in E.
  apply M_bind_inv in E as (r & w2 & E1 & E).
  rewrite (getWaitingSocket_ok w1) in E1 by done. change (waiting w1 id) with (waiting w id) in E1.
  rewrite Hwt in E1. injection E1 as <- <-.
  destruct (listener_of w1 id) as [[la lh]|] eqn:El.
  2: { unfold waiting in Hwt. change (listener_of w id) with (listener_of w1 id) in Hwt.
       rewrite El in Hwt. by rewrite lookup_empty in Hwt. }
  apply M_bind_inv in E as (b & w2 & E1 & E).
  destruct (removeWaitingSocket_ok w1 id otp la lh Hw1 El) as (m & E2 & Gm & Wm).
  rewrite E2 in E1. injection E1 as <- <-.
  destruct (waiting_update w1 id la lh m El) as (_ & Ew2 & Hw2 & _).
  specialize (Hw2 Wm Hw1). set (w2 := set_hsocks _ w1) in *.
  destruct (listener_some w1 id la lh El) as (_ & _ & Elh & Elm).
  assert (la <> nh). { intros ->. cbn in Elh. rewrite Hnh in Elh. injection Elh as <-.
    rewrite Hm in Elm. discriminate Elm. }
  assert (Hn2 : w_hsocks w2 !! nh = Some hn) by (cbn; by rewrite lookup_insert_ne).
  assert (Hf2 : w_hsocks w2 !! w_next w2 = None).
  { cbn. rewrite lookup_insert_ne; [done|]. intros ->. cbn in Elh. congruence. }
  apply M_bind_inv in E as (h & w3 & E1 & E). rewrite (hn_sockInit_ok a s) in E1 by done.
  injection E1 as <- <-. set (w3 := set_socks _ _) in *.
  assert (Hne : w_next w2 <> nh) by (intros Eq; congruence).
  assert (Hn3 : w_hsocks w3 !! nh = Some hn) by (cbn; by rewrite lookup_insert_ne).
  apply M_bind_inv in E as (n & w4 & E1 & E). unfold get_hn in E1. rewrite Hn3 in E1.
  injection E1 as <- <-.
  apply M_bind_inv in E as (u & w4 & E1 & E).
  assert (Hh3 : w_hsocks w3 !! w_next w2 = Some (fresh_hn a SOCK_MODE_RELAY true)) by apply lookup_insert_eq.
  rewrite (link_ok _ _ _ _ Hh3) in E1. injection E1 as <- <-. set (w4 := set_hsocks _ w3) in *.
  apply M_bind_inv in E as (u & w5 & E1 & E).
  assert (Hn4 : w_hsocks w4 !! nh = Some hn) by (unfold w4; cbn [w_hsocks set_hsocks]; by rewrite lookup_insert_ne).
  rewrite (link_ok _ _ _ _ Hn4) in E1. injection E1 as <- <-. set (w5 := set_hsocks _ w4) in *.
  apply M_bind_inv in E as ([n1 b1] & w6 & E6 & E). apply M_bind_inv in E as ([n2 b2] & w7 & E7 & E).
  injection E as <- <-.
  assert (Hfr : frame w5 w7).
  { etrans; [by apply (keeps_hn_sendMsg a $"CONNECTED") in E6|by apply (keeps_hn_sendMsg (sock hn) b1) in E7]. }
  split_and!; [done| | |].
  - eapply relays_to_frame; [|exact Hfr]. eexists. split_and!.
    + unfold w5, w4. cbn [w_hsocks set_hsocks]. rewrite lookup_insert_ne by done. apply lookup_insert_eq.
    + done. + done. + done. + done.
  - eapply relays_to_frame; [|exact Hfr]. eexists. split_and!.
    + apply lookup_insert_eq. + done. + exact Hm. + done. + done.
  - rewrite (waiting_frame w5) by done. etrans; [exact (waiting_relay w4 id nh hn _ Hn4)|].
    etrans; [exact (waiting_relay w3 id _ _ _ Hh3)|].
    etrans; [exact (waiting_hn_sockInit w2 id a _ _ Hw2 Hf2)|].
    rewrite Ew2. exact Gm.
Qed.

(** With none. *)
Lemma new_listen_connect_none a buff id otp w v w' :
  store_ok w -> tok1 $" " (tok_rest $" " buff) = Some id ->
  tok1 $" " (tok_rest $" " (tok_rest $" " buff)) = Some otp -> waiting w id !! otp = None ->
  new_listen_connect a buff w = Ok (v, w') ->
  v = Return 0 /\ w_socks w' !! a = None /\ w_sockList w' = w_sockList w.
Proof.
  intros Hw Ht1 Ht2 Hwt E. unfold new_listen_connect in E.
  apply M_bind_inv in E as (u & w1 & E1 & E). injection E1 as <- <-. cbv zeta in E. rewrite Ht1, Ht2 in E.
  apply M_bind_inv in E as (r & w2 & E1 & E).
  rewrite (getWaitingSocket_ok (set_isRecall false w)) in E1 by by destruct Hw.
  change (waiting (set_isRecall false w) id) with (waiting w id) in E1.
  rewrite Hwt in E1. injection E1 as <- <-. by apply refuse_inv in E as (-> & ? & ?).
Qed.
End Reverse.

(** ** What a relay forwards *)

Section Forward.
Context `{Os} `{!OsLaws} `{Fuel}.
Variables (a n : addr) (fa fn : Z).
Hypothesis Han : a <> n.
Hypothesis Hwrite : forall l f x, os_write l f x = zlen x.

(** The ends while data is relayed: the reading one may have been closed. *)
Definition relaying (w : world) : Prop :=
  (exists s, w_socks w !! a = Some s /\ fd s = fa /\ isBlocking s = false) /\
  (exists s, w_socks w !! n = Some s /\ fd s = fn /\ isBlocking s = false /\
     isAlive s = SOCKET_ALIVE /\ size (writeBuffer s) = 0).

Definition end_alive (w : world) : Prop := isAlive <$> w_socks w !! a = Some SOCKET_ALIVE.

Lemma relay_read w max :
  relaying w -> end_alive w -> 0 <= max ->
  exists d w', sock_read a max w = Ok ((zlen d, d), w') /\ relaying w' /\ zlen d <= max /\
    received fa (w_log w') = received fa (w_log w) ++ d /\
    (forall g, sent g (w_log w') = sent g (w_log w)).
Proof.
  intros [(s & Ha & Hf & Hb) Hn] Hal Hm. unfold end_alive in Hal. rewrite Ha in Hal. injection Hal as Hal.
  destruct (sock_read_nb a s max w Ha) as (d & l & cl & E & Hz & Hr & Hs); [by rewrite Hal|done|done|].
  exists d. eexists. split; [exact E|]. rewrite Hf in Hr. split; [|by destruct cl].
  destruct cl; cbn; [|by split; [exists s|]]. destruct Hn as (sn & Hn & Hfn & ? & ? & ?). split.
  - eexists. cbn [w_socks closed_world set_log set_socks]. by rewrite lookup_insert_eq.
  - exists sn. cbn [w_socks closed_world set_log set_socks]. by rewrite lookup_insert_ne.
Qed.

Lemma relay_write w d :
  relaying w ->
  exists w', sock_write n d w = Ok (zlen d, w') /\ relaying w' /\ (end_alive w -> end_alive w') /\
    sent fn (w_log w') = sent fn (w_log w) ++ d /\
    (forall g, received g (w_log w') = received g (w_log w)).
Proof.
  intros [(s & Ha & Hf & Hb) (sn & Hn & Hfn & Hbn & Haln & Hz)].
  destruct (sock_write_all n sn d w Hn Haln Hbn Hz Hwrite) as (l & E & Hs & Hr).
  rewrite Hfn in Hs. eexists. split; [exact E|]. split; [split|].
  - exists s. cbn [w_socks set_log set_socks]. by rewrite lookup_insert_ne.
  - eexists. cbn [w_socks set_log set_socks]. rewrite lookup_insert_eq. by split_and!.
  - unfold end_alive. cbn [w_socks set_log set_socks]. by rewrite lookup_insert_ne.
Qed.

Lemma relay_loop_ok k w data w' :
  relaying w -> relay_loop k a n (zlen data) data w = Ok (tt, w') ->
  exists fwd lost delta, sent fn (w_log w') = sent fn (w_log w) ++ fwd /\
    received fa (w_log w') = received fa (w_log w) ++ delta /\ data ++ delta = fwd ++ lost /\
    (end_alive w' -> lost = []) /\ relaying w'.
Proof.
  revert w data. induction k as [|k IH]; intros w data Hw E; [done|]. cbn [relay_loop] in E.
  pose proof Hw as [(s & Ha & Hf & Hb) (sn & Hn & Hfn & Hbn & Haln & Hz)].
  apply M_bind_inv in E as (s0 & w1 & E1 & E). unfold get_sock in E1. rewrite Ha in E1.
  injection E1 as <- <-. case_bool_decide as Hgo.
  2: { injection E as <-. exists [], data, []. rewrite !app_nil_r. split_and!; try done.
       unfold end_alive. rewrite Ha. intros [= Hal]. apply zlen_nil_inv.
       destruct (decide (zlen data <= 0)); [done|]. destruct Hgo. split; [lia|done]. }
  destruct Hgo as [Hd Hal].
  apply M_bind_inv in E as (s0 & w1 & E1 & E). unfold get_sock in E1. rewrite Hn in E1.
  injection E1 as <- <-. rewrite bool_decide_true in E by done.
  destruct (relay_write w data Hw) as (w1 & E1 & Hw1 & Hal1 & Hs1 & Hr1).
  assert (Hal0 : end_alive w) by (unfold end_alive; by rewrite Ha; cbn; rewrite Hal).
  destruct (relay_read w1 BUFF_SIZE Hw1 (Hal1 Hal0) ltac:(done)) as (d & w2 & E2 & Hw2 & _ & Hr2 & Hs2).
  apply M_bind_inv in E as (x & w3 & E3 & E). rewrite E1 in E3. injection E3 as <- <-.
  apply M_bind_inv in E as ([x2 d2] & w3 & E3 & E). rewrite E2 in E3. injection E3 as <- <- <-.
  destruct (IH w2 d Hw2 E) as (fwd & lost & delta & Hs & Hr & Heq & Hlost & Hw').
  exists (data ++ fwd), lost, (d ++ delta). split_and!; try done.
  - by rewrite Hs, Hs2, Hs1, app_assoc.
  - by rewrite Hr, Hr2, Hr1, app_assoc.
  - by rewrite Heq, app_assoc.
Qed.

Lemma read_relay_ok hs w r w' :
  relaying w -> end_alive w -> next (relay hs) = Some n -> isWaiting (relay hs) = false ->
  read_relay a hs w = Ok (r, w') ->
  exists fwd lost, sent fn (w_log w') = sent fn (w_log w) ++ fwd /\
    received fa (w_log w') = received fa (w_log w) ++ fwd ++ lost /\
    (end_alive w' -> lost = []) /\ relaying w'.
Proof.
  intros Hw Hal Hn Hwt. unfold read_relay. rewrite Hwt, Hn. intros E.
  destruct (relay_read w BUFF_SIZE Hw Hal ltac:(done)) as (d & w2 & E2 & Hw2 & _ & Hr2 & Hs2).
  apply M_bind_inv in E as ([x2 d2] & w3 & E3 & E). rewrite E2 in E3. injection E3 as <- <- <-.
  apply M_bind_inv in E as ([] & w3 & E3 & E). injection E as <- <-.
  destruct (relay_loop_ok _ _ _ _ Hw2 E3) as (fwd & lost & delta & Hs & Hr & Heq & Hlost & Hw').
  exists fwd, lost. split_and!; try done; [by rewrite Hs, Hs2|].
  by rewrite Hr, Hr2, <- app_assoc, Heq.
Qed.
End Forward.

(** ** Closing *)

Lemma handleClose_relay_dangling b sb hb hs a w :
  w_socks w !! b = Some sb -> ptr sb = Some hb -> w_hsocks w !! hb = Some hs ->
  hn_mode hs = SOCK_MODE_RELAY -> next (relay hs) = Some a -> w_socks w !! a = None ->
  handleClose b w = Fail UseAfterFree.
Proof.
  intros Hb Hp Hh Hm Hn Ha. unfold handleClose, get_sock, get_hn. run. rewrite Hb, Hp, Hh.
  rewrite bool_decide_true by by left. unfold hn_sockCleanup, get_hn. run. rewrite Hh.
  rewrite bool_decide_true by done. rewrite Hn. unfold sock_done, get_sock. run. by rewrite Ha.
Qed.

(** The hn_Sockets, as a relation for [Preserves]. *)
Definition same_hsocks (w w' : world) : Prop := w_hsocks w' = w_hsocks w.
#[export] Instance same_hsocks_preorder : PreOrder same_hsocks.
Proof. split; [done|]. unfold same_hsocks. intros w1 w2 w3 ? ?. congruence. Qed.

Lemma same_hsocks_sock_done b : Preserves same_hsocks (sock_done b).
Proof. unfold sock_done, sock_close, sys_close. repeat preserve_step ltac:(reflexivity). Qed.

(** What closing one end leaves of the other. *)
Lemma handleClose_relay_inv a sa ha b w r w' :
  w_socks w !! a = Some sa -> ptr sa = Some ha -> relays_to ha a b w ->
  handleClose a w = Ok (r, w') ->
  (forall x, sock_core <$> w_socks w' !! x = sock_core <$> w_socks w !! x) /\
  w_hsocks w' = delete ha (w_hsocks w) /\ w_wait w' = w_wait w /\ w_sockList w' = w_sockList w.
Proof.
  intros Ha Hp (hs & Eh & _ & Em & En & Ew) E. unfold handleClose in E.
  apply M_bind_inv in E as (s & w1 & E1 & E). unfold get_sock in E1. rewrite Ha in E1. injection E1 as <- <-.
  apply M_bind_inv in E as (c & w1 & E1 & E). injection E1 as <- <-. cbv zeta in E. rewrite Hp in E.
  apply M_bind_inv in E as (h & w1 & E1 & E). unfold get_hn in E1. rewrite Eh in E1. injection E1 as <- <-.
  rewrite bool_decide_true in E by by left.
  apply M_bind_inv in E as (u & w1 & E1 & E). injection E as <- <-.
  unfold hn_sockCleanup in E1. apply M_bind_inv in E1 as (h & w2 & E2 & E). unfold get_hn in E2.
  rewrite Eh in E2. injection E2 as <- <-. rewrite (bool_decide_true (hn_mode hs = SOCK_MODE_RELAY)) in E by done.
  rewrite En, Ew in E. cbn [andb] in E.
  apply M_bind_inv in E as (u' & w2 & E2 & E). apply M_bind_inv in E2 as (u2 & w3 & E3 & E2).
  injection E2 as <- <-. apply M_bind_inv in E3 as (z & w4 & E3 & E4). injection E4 as <- <-.
  assert (Hk : Keeps (sock_done b)) by apply keeps_sock_done.
  assert (Hh : w_hsocks w4 = w_hsocks w).
  { revert E3. apply same_hsocks_sock_done. }
  apply Hk in E3 as [_ _ Hl Hwt _ Hs _]. unfold free_hn in E. rewrite Hh, Eh in E. injection E as <- <-.
  by split_and!.
Qed.

(** ** Properties *)

(** A relay between the sockets 1 and 2, and one waiting for the code. *)
Definition demo_relay_hn (s : addr) (n : option addr) (w : bool) : hn_Socket :=
  mkHnSocket s SOCK_MODE_RELAY true [] (mkRelay n w [] []) (mkListenNotif [] [] map_init).
Definition demo_end (f : Z) (h : addr) : Socket :=
  set_ptr (Some h) (demo_sock f false (mkBuffer (replicate 1024 nul) 0 1024 0)).
Definition demo_relay : world :=
  demo_world (<[1%positive := demo_end 7 3]> {[ 2%positive := demo_end 8 4 ]})
    (<[3%positive := demo_relay_hn 1 (Some 2%positive) false]>
     {[ 4%positive := demo_relay_hn 2 (Some 1%positive) false ]})
    demo_conf [1%positive; 2%positive; 9%positive].

(** A reverse connection with a one-time code somebody waits for makes a
    relay: each end forwards to the other and none of them waits any more, and
    the code is gone, so that it works once. With a code nobody waits for, the
    connection is freed and not watched. *)
Theorem new_listen_connect_correct `{Os} `{!OsLaws} `{Fuel} (a : addr) (s : Socket)
    (buff id otp : cstr) (w w' : world) (v : verdict)
    (Hw : store_ok w) (Ha : w_socks w !! a = Some s) (Hfresh : w_hsocks w !! w_next w = None)
    (Hid : tok1 $" " (tok_rest $" " buff) = Some id)
    (Hotp : tok1 $" " (tok_rest $" " (tok_rest $" " buff)) = Some otp)
    (Hrelay : forall nh, waiting w id !! otp = Some nh ->
       exists hn, w_hsocks w !! nh = Some hn /\ hn_mode hn = SOCK_MODE_RELAY)
    (Hrun : new_listen_connect a buff w = Ok (v, w')) :
  match waiting w id !! otp with
  | Some nh => exists hn, w_hsocks w !! nh = Some hn /\ v = Keep /\
      relays_to (w_next w) a (sock hn) w' /\ relays_to nh (sock hn) a w' /\
      waiting w' id = delete otp (waiting w id)
  | None => v = Return 0 /\ w_socks w' !! a = None /\ w_sockList w' = w_sockList w
  end.
Proof.
  destruct (waiting w id !! otp) as [nh|] eqn:Ew.
  - destruct (Hrelay nh eq_refl) as (hn & Eh & Em). exists hn. split; [done|].
    by eapply (new_listen_connect_waiting a s buff id otp nh hn w).
  - by eapply (new_listen_connect_none a buff id otp w).
Qed.

Definition demo_waiting : world :=
  demo_world (<[1%positive := demo_sock 7 true (buffer_init [] 0)]> {[ 5%positive := demo_end 8 6 ]})
    (<[2%positive := demo_listener (mkMap [mkItem $"code" 6%positive] 1)]>
     {[ 6%positive := demo_relay_hn 5 None true ]})
    (demo_bridge (demo_context (mkMap [mkItem $"id" 2%positive] 1))) [].
Definition demo_reverse : outcome (verdict * world) :=
  @new_listen_connect (demo_os 100 []) 1%nat 1%positive $"HN1.0/LISTEN_CONNECT id code" demo_waiting.

Lemma demo_waiting_ok : store_ok demo_waiting.
Proof.
  split; [done| |].
  - intros bm id la. cbn. intros [= <-]. unfold map_get, map_getItem. cbn.
    destruct (str_isEqual _ _); [|done]. intros [= <-]. eexists. apply lookup_insert_eq.
  - intros la h. cbn. intros [[<- <-]|[_ E]]%lookup_insert_Some.
    + split; [by apply (bool_decide_unpack _)|by repeat constructor].
    + apply lookup_singleton_Some in E as [<- <-]. apply map_init_wf.
Qed.

Lemma new_listen_connect_correct_witness :
  exists hn, w_hsocks demo_waiting !! 6%positive = Some hn /\ Keep = Keep /\
    relays_to 100 1 (sock hn) (run_world demo_reverse) /\ relays_to 6 (sock hn) 1 (run_world demo_reverse) /\
    waiting (run_world demo_reverse) $"id" = delete $"code" (waiting demo_waiting $"id").
Proof.
  apply (@new_listen_connect_correct (demo_os 100 []) (demo_os_laws _ _) 1%nat 1%positive
    (demo_sock 7 true (buffer_init [] 0)) $"HN1.0/LISTEN_CONNECT id code" $"id" $"code"
    demo_waiting (run_world demo_reverse) Keep);
    [exact demo_waiting_ok|reflexivity|reflexivity|by vm_compute|by vm_compute| |by vm_compute].
  intros nh E. vm_compute in E. injection E as <-. eexists. split; reflexivity.
Defined.

(** C17: between two open non-blocking sockets, on a system that takes all
    writes, a relay forwards what it reads, in order and unchanged, and loses
    only what it read last, if the reading end was closed meanwhile: while that
    end is open everything received has been sent on. *)
Theorem read_relay_forwards `{Os} `{!OsLaws} `{Fuel} (a n : addr) (fa fn r : Z) (hs : hn_Socket)
    (w w' : world) (Han : a <> n) (Hwrite : forall l f x, os_write l f x = zlen x)
    (Hw : relaying a n fa fn w) (Hal : end_alive a w) (Hnext : next (relay hs) = Some n)
    (Hwait : isWaiting (relay hs) = false) (Hrun : read_relay a hs w = Ok (r, w')) :
  exists fwd lost, sent fn (w_log w') = sent fn (w_log w) ++ fwd /\
    received fa (w_log w') = received fa (w_log w) ++ fwd ++ lost /\
    (end_alive a w' -> lost = []) /\ relaying a n fa fn w'.
Proof. by eapply (read_relay_ok a n fa fn). Qed.

(** A system that takes all writes and receives the given pieces. *)
Definition demo_full (pieces : list mem) : Os := {|
  os_write := fun _ _ d => zlen d; os_recv := @os_recv (demo_os 1 pieces);
  os_accept := @os_accept (demo_os 1 []); os_accept_wouldblock := @os_accept_wouldblock (demo_os 1 []);
  os_socket := @os_socket (demo_os 1 []); os_connect := @os_connect (demo_os 1 []);
  os_fcntl := @os_fcntl (demo_os 1 []); os_getsockname := @os_getsockname (demo_os 1 []);
  os_setsockopt := @os_setsockopt (demo_os 1 []); os_bind := @os_bind (demo_os 1 []);
  os_select := @os_select (demo_os 1 []);
  os_gethostbyname := @os_gethostbyname (demo_os 1 []); os_sendto := @os_sendto (demo_os 1 []);
  os_recvfrom := @os_recvfrom (demo_os 1 []); os_time := @os_time (demo_os 1 []);
  os_below := @os_below (demo_os 1 []) |}.

Lemma demo_full_laws pieces : @OsLaws (demo_full pieces).
Proof.
  destruct (demo_os_laws 1 pieces) as [_ Hr Hb]. split; [|exact Hr|exact Hb].
  intros l f d. cbn. lia.
Qed.

Lemma demo_relaying : relaying 1 2 7 8 demo_relay.
Proof. split; eexists; split_and!; reflexivity. Qed.

Definition demo_forward : outcome (Z * world) :=
  @read_relay (demo_full [$"hello "; $"world"]) 10%nat 1%positive
    (demo_relay_hn 1 (Some 2%positive) false) demo_relay.

Lemma read_relay_forwards_witness :
  exists fwd lost, sent 8 (w_log (run_world demo_forward)) = sent 8 (w_log demo_relay) ++ fwd /\
    received 7 (w_log (run_world demo_forward)) = received 7 (w_log demo_relay) ++ fwd ++ lost /\
    (end_alive 1 (run_world demo_forward) -> lost = []) /\ relaying 1 2 7 8 (run_world demo_forward).
Proof.
  apply (@read_relay_forwards (demo_full [$"hello "; $"world"]) (demo_full_laws _) 10%nat 1 2 7 8 1
    (demo_relay_hn 1 (Some 2%positive) false) demo_relay (run_world demo_forward));
    [discriminate|reflexivity|exact demo_relaying|reflexivity|reflexivity|reflexivity|by vm_compute].
Defined.

(** when a peer sends data and closes before the relay reads it, the relay
    receives the data and drops it: [sock_read] closes the socket as it returns
    the data, and the loop forwards only from open sockets. *)
Theorem read_relay_drops_last_data `{Os} `{Fuel} (a n : addr) (s sn : Socket) (hs : hn_Socket) (d : mem) (w : world)
    (Ha : w_socks w !! a = Some s) (Hal : isAlive s = SOCKET_ALIVE) (Hb : isBlocking s = false)
    (Hnext : next (relay hs) = Some n) (Hwait : isWaiting (relay hs) = false)
    (Hd : 0 < zlen d < BUFF_SIZE)
    (Hr1 : os_recv (w_log w) (fd s) BUFF_SIZE = RecvData d)
    (Hr2 : os_recv (EvRecv (fd s) (RecvData d) :: w_log w) (fd s) (BUFF_SIZE - zlen d) = RecvData [])
    (Hfuel : fuel <> O) :
  exists w', read_relay a hs w = Ok (1, w') /\
    received (fd s) (w_log w') = received (fd s) (w_log w) ++ d /\
    (forall f, sent f (w_log w') = sent f (w_log w)).
Proof.
  set (l1 := EvRecv (fd s) (RecvData d) :: w_log w).
  set (l2 := EvRecv (fd s) (RecvData []) :: l1).
  exists (closed_world a s (EvClose (fd s) :: l2) w). split_and!.
  - unfold read_relay. rewrite Hwait, Hnext. unfold sock_read, get_sock. run. rewrite Ha, Hal, Hb.
    rewrite bool_decide_false by done. change (Z.to_nat BUFF_SIZE) with (S 599).
    generalize 599%nat as m. intros m. cbn [read_loop]. change (zlen (@nil char)) with 0. rewrite bool_decide_true by done.
    unfold sys_recv. run. rewrite Z.sub_0_r, Hr1. destruct d as [|c d]; [destruct Hd; done|].
    cbn [app]. rewrite bool_decide_true by lia. cbn [w_log set_log]. rewrite Hr2.
    rewrite (sock_close_alive a s) by (done || by rewrite Hal). run.
    destruct fuel as [|k]; [done|]. cbn [relay_loop]. unfold get_sock. run.
    cbn [w_socks closed_world set_log set_socks]. rewrite lookup_insert_eq.
    rewrite bool_decide_false; [reflexivity|]. intros [_ E]. discriminate E.
  - unfold l2, l1. cbn. rewrite !bool_decide_true by done. by rewrite app_nil_r.
  - done.
Qed.

Lemma read_relay_drops_last_data_witness :
  let s := demo_end 7 3 in
  exists w', @read_relay (demo_full [$"bye"; []]) 10%nat 1%positive (demo_relay_hn 1 (Some 2%positive) false)
      demo_relay = Ok (1, w') /\
    received (fd s) (w_log w') = received (fd s) (w_log demo_relay) ++ $"bye" /\
    (forall f, sent f (w_log w') = sent f (w_log demo_relay)).
Proof.
  intros s. apply (@read_relay_drops_last_data (demo_full [$"bye"; []]) 10%nat 1 2 s s
    (demo_relay_hn 1 (Some 2%positive) false) $"bye" demo_relay); try reflexivity; [by vm_compute|discriminate].
Defined.

(** C40: when the two ends of a relay close, one after the other as each closing
    makes the other close, the second end is cleaned up through the link to the
    first, which the event loop has freed by then. *)
Theorem relay_teardown_faults (a b ha hb : addr) (sa sb : Socket) (w w1 w2 : world) (r : Z)
    (Hab : a <> b) (Hh : ha <> hb)
    (Ha : w_socks w !! a = Some sa) (Hpa : ptr sa = Some ha)
    (Hb : w_socks w !! b = Some sb) (Hpb : ptr sb = Some hb)
    (Hra : relays_to ha a b w) (Hrb : relays_to hb b a w)
    (Hreported : sockToRemove (w_wait w) = Some a)
    (Hclose : handleClose a w = Ok (r, w1)) (Hfree : remove_closed w1 = Ok (tt, w2)) :
  handleClose b w2 = Fail UseAfterFree.
Proof.
  destruct (handleClose_relay_inv a sa ha b w r w1 Ha Hpa Hra Hclose) as (Hs1 & Hh1 & Hw1 & _).
  rewrite <- Hw1 in Hreported.
  destruct (remove_closed_inv w1 a tt w2 Hreported Hfree) as (Hs2 & Hh2 & _).
  destruct Hrb as (hs & Eh & _ & Em & En & _).
  pose proof (Hs1 b) as E. rewrite Hb in E. destruct (w_socks w1 !! b) as [sb1|] eqn:Eb; [|done].
  injection E as _ _ _ Ep.
  apply (handleClose_relay_dangling b sb1 hb hs a).
  - rewrite Hs2. by rewrite lookup_delete_ne.
  - by rewrite Ep.
  - rewrite Hh2, Hh1. by rewrite lookup_delete_ne.
  - done.
  - done.
  - rewrite Hs2. apply lookup_delete_eq.
Qed.

Definition demo_teardown : world :=
  set_wait (mkWait [] [] 0 (Some 1%positive)) (demo_relay).
Definition demo_closed : outcome (Z * world) := handleClose 1 demo_teardown.

Lemma relay_teardown_faults_witness :
  handleClose 2 (run_world (remove_closed (run_world demo_closed))) = Fail UseAfterFree.
Proof.
  apply (@relay_teardown_faults 1 2 3 4 (demo_end 7 3) (demo_end 8 4) demo_teardown
    (run_world demo_closed) (run_world (remove_closed (run_world demo_closed))) 1);
    [discriminate|discriminate|reflexivity|reflexivity|reflexivity|reflexivity| | |reflexivity
    |by vm_compute|by vm_compute].
  - eexists; split_and!; reflexivity.
  - eexists; split_and!; reflexivity.
Defined.
