(* ===== verification/Reverse.v ===== *)
(** * Reverse connections from end to end

    A client asks for a listener: [wait_for_listener] sends the listener a
    one-time code and puts the client's socket in the store under it. The
    listener comes back with the code: [new_listen_connect] takes the socket out
    and links the two. *)
From S2P Require Import Prelude CString Str Containers Buffer IpAddr Auth ConfigFile.
From S2P Require Import Config Http Os Socket WaitLoop WaitFacts Store StoreFacts.
From S2P Require Import Protocol Messages Frame Handshake Evolve AuthSocket Mdns Bridge.
From S2P Require Import BridgeAuth Relay.

(** What a listener answers to the code (initializeListenConn). *)
Definition listen_connect (id otp : cstr) : cstr := $"HN1.0/LISTEN_CONNECT " ++ id ++ $" " ++ otp.

Lemma listen_connect_tokens id otp : token $" " id -> token $" " otp ->
  tok1 $" " (tok_rest $" " (listen_connect id otp)) = Some id /\
  tok1 $" " (tok_rest $" " (tok_rest $" " (listen_connect id otp))) = Some otp.
Proof.
  intros Hid [Hne Hotp]. unfold listen_connect.
  assert (Hc : token $" " $"HN1.0/LISTEN_CONNECT") by by (split; [|apply free_dec]).
  destruct (tok_of_token $" " $"HN1.0/LISTEN_CONNECT" " "%char (id ++ " "%char :: otp) Hc) as (_ & E1 & _); [by left|].
  change ($"HN1.0/LISTEN_CONNECT" ++ " "%char :: id ++ " "%char :: otp) with
    ($"HN1.0/LISTEN_CONNECT " ++ id ++ $" " ++ otp) in E1. rewrite E1.
  destruct (tok_of_token $" " id " "%char otp Hid) as (E2 & E3 & _); [by left|].
  rewrite E2, E3. split; [done|]. unfold tok1. by rewrite strtok_r_whole.
Qed.

Lemma code_token s : 0 < zlen s -> Forall (fun c => c ∈ code_alphabet) s -> token $" " s.
Proof.
  intros Hz Hs. split; [by intros ->|]. eapply Forall_impl; [exact Hs|]. intros c Hc ->%list_elem_of_singleton.
  apply mem_of_true in Hc. by vm_compute in Hc.
Qed.

(** ** The store, when a socket begins to wait *)

Section Begins.
Context (w : world) (hs : addr) (h : hn_Socket) (r : relay_t).
Hypothesis Eh : w_hsocks w !! hs = Some h.
Let w' : world := set_hsocks (<[hs := set_relay r h]> (w_hsocks w)) w.

Lemma listener_relay id la lh :
  listener_of w id = Some (la, lh) -> la <> hs -> listener_of w' id = Some (la, lh).
Proof using Eh.
  unfold listener_of, w'. intros El Hne. cbn [w_conf set_hsocks w_hsocks].
  destruct (bridge (w_conf w)); [|done]. cbn [mbind option_bind] in *.
  destruct (map_get _ id) as [la'|]; [|done]. cbn [mbind option_bind] in *.
  destruct (w_hsocks w !! la') as [h'|] eqn:E; [|done]. cbn [mbind option_bind] in El.
  assert (la' = la) as -> by (case_bool_decide; [by injection El|done]).
  by rewrite lookup_insert_ne, E by done.
Qed.
Lemma store_ok_relay : store_ok w -> store_ok w'.
Proof using Eh.
  intros [Hb Hl Hm]. split; [done| |].
  - intros bm id la Eb El. destruct (Hl bm id la Eb El) as [h' Eh']. cbn.
    destruct (decide (la = hs)) as [->|]; [rewrite lookup_insert_eq; by eexists|].
    rewrite lookup_insert_ne by done. by exists h'.
  - intros la h'. cbn. destruct (decide (la = hs)) as [->|].
    + rewrite lookup_insert_eq. intros [= <-]. exact (Hm hs h Eh).
    + rewrite lookup_insert_ne by done. apply Hm.
Qed.
End Begins.

(** A socket a message can be sent on at once. *)
Record open_socket (w : world) (a : addr) (s : Socket) : Prop := {
  os_sock : w_socks w !! a = Some s;
  os_alive : isAlive s = SOCKET_ALIVE;
  os_nonblocking : isBlocking s = false;
  os_empty : size (writeBuffer s) = 0;
  os_upgraded : upgraded w s }.

Section Reverse.
Context `{Os} `{!OsLaws} `{Fuel} `{Rand}.
Hypothesis Hwrite : forall l f x, os_write l f x = zlen x.

Definition sending (a : addr) (s : Socket) (l : log_t) (w : world) : world :=
  set_log l (set_socks (<[a := set_listenForWritable false s]> (w_socks w)) w).

Lemma hn_sendMsg_all a s msg w : open_socket w a s -> zlen msg + 2 < BUFF_SIZE ->
  exists l, hn_sendMsg a msg w = Ok ((zlen msg + 2, msg ++ HN_MSG_END), sending a s l w) /\
    sent (fd s) l = sent (fd s) (w_log w) ++ msg ++ HN_MSG_END.
Proof.
  intros [Ha Hal Hb Hz Hu] Hl.
  destruct (sock_write_all a s (msg ++ HN_MSG_END) w Ha Hal Hb Hz Hwrite) as (l & E & Hs & _).
  rewrite zlen_app, zlen_HN_MSG_END in E. exists l. split; [|exact Hs].
  unfold hn_sendMsg, get_sock. run. rewrite Ha.
  assert (Hc : str_concat BUFF_SIZE msg HN_MSG_END = Ok (msg ++ HN_MSG_END)).
  { apply strcpy_ok. split; [done|]. by rewrite zlen_app, zlen_HN_MSG_END. }
  destruct (ptr s) as [h|] eqn:Ep.
  - destruct (Hu h Ep) as (hs & Eh & Eu). unfold get_hn. rewrite Eh, Eu. cbn [negb]. rewrite Hc. by rewrite E.
  - cbn [negb]. rewrite Hc. by rewrite E.
Qed.

Variables (id : cstr) (hs la : addr) (h lh : hn_Socket) (s : Socket).

Lemma wait_for_listener_run w : store_ok w -> zlen id < 20 ->
  listener_of w id = Some (la, lh) -> open_socket w (sock lh) s ->
  w_hsocks w !! hs = Some h -> hn_mode h = SOCK_MODE_RELAY ->
  exists otp w', wait_for_listener id hs w = Ok (true, w') /\ token $" " otp /\ zlen otp = 8 /\ store_ok w' /\
    sent (fd s) (w_log w') = sent (fd s) (w_log w) ++ ($"LISTEN_OTP " ++ otp) ++ HN_MSG_END /\
    waiting w' id = match waiting w id !! otp with
                    | None => <[otp := hs]> (waiting w id)
                    | Some _ => waiting w id
                    end /\
    exists h', w_hsocks w' !! hs = Some h' /\ hn_mode h' = SOCK_MODE_RELAY /\ sock h' = sock h /\
      isWaiting (relay h') = true.
Proof.
  intros Hw Hid El Hs Eh Em.
  destruct (generateCode_ok 10 (os_time (w_log w)) (w_mySeed w) 8) as (otp & E & Hz & Hc); [lia|].
  set (w1 := set_mySeed (wrap32 (w_mySeed w + 1)) (set_log (EvTime (os_time (w_log w)) :: w_log w) w)).
  assert (Eg : gen_code 10 8 w = Ok (otp, w1)).
  { unfold gen_code, sys_time. run. cbn [w_mySeed set_log]. by rewrite E. }
  assert (Hw1 : store_ok w1) by by destruct Hw.
  destruct (listener_some w1 id la lh El) as (E1 & E2 & Elh & Elm).
  destruct (hn_sendMsg_all (sock lh) s ($"LISTEN_OTP " ++ otp) w1) as (l & E3 & Hsent).
  { by destruct Hs. } { rewrite zlen_app, Hz. done. }
  set (w2 := sending (sock lh) s l w1) in *.
  set (rl := mkRelay (next (relay h)) true otp id).
  set (w3 := set_hsocks (<[hs := set_relay rl h]> (w_hsocks w2)) w2).
  change (w_hsocks w1 !! la = Some lh) with (w_hsocks w !! la = Some lh) in Elh.
  assert (Hne : la <> hs) by (intros ->; rewrite Eh in Elh; injection Elh as <-; rewrite Em in Elm; discriminate).
  assert (El3 : listener_of w3 id = Some (la, lh)) by (apply (listener_relay w2 hs h rl Eh); [exact El|done]).
  assert (Hw3 : store_ok w3) by (apply (store_ok_relay w2 hs h rl Eh); by destruct Hw).
  assert (Ew3 : waiting w3 id = waiting w id) by exact (waiting_relay w2 id hs h rl Eh).
  destruct (addWaitingSock_ok w3 id otp hs la lh Hw3 El3) as (w4 & E4 & Hw4 & Hfree & Hused); [by rewrite Hz|].
  exists otp, w4. split.
  { unfold wait_for_listener. rewrite (M_bind_ok _ _ _ _ _ Eg), (M_bind_ok _ _ _ _ _ E1), (M_bind_ok _ _ _ _ _ E2).
    rewrite (M_bind_ok _ _ w1 ($"LISTEN_OTP " ++ otp) w1).
    2: { unfold lift, str_concat. rewrite strcpy_fits by (rewrite zlen_app, Hz; done). done. }
    rewrite (M_bind_ok _ _ _ _ _ E3). unfold lift, str_set. run.
    rewrite !strcpy_fits by (try rewrite Hz; done). run. unfold upd_hn.
    change (w_hsocks w2 !! hs) with (w_hsocks w !! hs). rewrite Eh. fold rl. fold w3. by rewrite E4. }
  split; [by apply code_token; [lia|]|]. split; [done|]. split; [done|]. rewrite Ew3 in Hfree, Hused.
  destruct (waiting w id !! otp) as [x|] eqn:Ex.
  - rewrite Hused by done. split; [exact Hsent|]. split; [exact Ew3|].
    eexists. split; [apply lookup_insert_eq|]. done.
  - destruct (Hfree eq_refl) as (Ew4 & m & ->). split; [exact Hsent|]. split; [exact Ew4|].
    exists (set_relay rl h). split; [|done]. cbn [w_hsocks set_hsocks]. rewrite lookup_insert_ne by done.
    apply lookup_insert_eq.
Qed.
End Reverse.

(** The client that waits behind [hs], seen later. *)
Definition still_waits (hs : addr) (w1 w2 : world) : Prop :=
  hn_core <$> w_hsocks w2 !! hs = hn_core <$> w_hsocks w1 !! hs.

(** C18: A reverse connection from end to end. When a client asks for an id with
    a listener, and the system takes what is written, the listener is sent
    exactly one line, "LISTEN_OTP" with a fresh code of eight characters, and
    the client is in the store under that code. At whatever later time the
    listener comes back with id and code on a new socket, while the client still
    waits, the two are linked both ways and the store is what it was before the
    client came: the code works once. If the code was in use already, the first
    client keeps it and the new one, although it is told to wait, is in no
    store. *)
Theorem reverse_connection `{Os} `{!OsLaws} `{Fuel} `{Rand} (w : world) (id : cstr) (hs la : addr)
    (h lh : hn_Socket) (s : Socket)
    (Hwrite : forall l f x, os_write l f x = zlen x)
    (Hw : store_ok w) (Hid : token $" " id) (Hlen : zlen id < 20)
    (Hlistener : listener_of w id = Some (la, lh)) (Hopen : open_socket w (sock lh) s)
    (Hclient : w_hsocks w !! hs = Some h) (Hmode : hn_mode h = SOCK_MODE_RELAY) :
  exists otp w1, wait_for_listener id hs w = Ok (true, w1) /\ zlen otp = 8 /\
    sent (fd s) (w_log w1) = sent (fd s) (w_log w) ++ ($"LISTEN_OTP " ++ otp) ++ HN_MSG_END /\
    match waiting w id !! otp with
    | None =>
        waiting w1 id = <[otp := hs]> (waiting w id) /\
        forall a sa w2 v w3,
          store_ok w2 -> waiting w2 id = waiting w1 id -> still_waits hs w1 w2 ->
          w_socks w2 !! a = Some sa -> w_hsocks w2 !! w_next w2 = None ->
          new_listen_connect a (listen_connect id otp) w2 = Ok (v, w3) ->
          v = Keep /\ relays_to (w_next w2) a (sock h) w3 /\ relays_to hs (sock h) a w3 /\
          waiting w3 id = waiting w id
    | Some _ => waiting w1 id = waiting w id
    end.
Proof.
  destruct (wait_for_listener_run Hwrite id hs la h lh s w) as
    (otp & w1 & E & Ht & Hz & _ & Hs & Hwt & h1 & E1 & Em1 & Es1 & _); try done.
  exists otp, w1. split_and!; [done..|].
  destruct (waiting w id !! otp) eqn:Eo; [exact Hwt|]. split; [exact Hwt|].
  intros a sa w2 v w3 Hw2 Hw12 Hst Ha Hfresh Hrun.
  destruct (listen_connect_tokens id otp Hid Ht) as [T1 T2].
  unfold still_waits in Hst. rewrite E1 in Hst. destruct (w_hsocks w2 !! hs) as [h2|] eqn:E2; [|done].
  injection Hst as Es2 Em2 _ _ _.
  destruct (new_listen_connect_waiting a sa (listen_connect id otp) id otp hs h2 w2 v w3) as (? & ? & ? & ?);
    try done; [by rewrite Hw12, Hwt, lookup_insert_eq|congruence|].
  rewrite Es2, Es1 in *. split_and!; try done.
  etrans; [eassumption|]. rewrite Hw12, Hwt. by apply delete_insert_id.
Qed.

(** A listener "id", and a client behind the hn_Socket 6. *)
Definition rev_world : world :=
  demo_world (<[1%positive := demo_end 7 2]> {[ 5%positive := demo_end 8 6 ]})
    (<[2%positive := demo_listener map_init]> {[ 6%positive := demo_relay_hn 5 None false ]})
    (demo_bridge (demo_context (mkMap [mkItem $"id" 2%positive] 1))) [].
Lemma rev_world_ok : store_ok rev_world.
Proof.
  split; [done| |].
  - intros bm id la. cbn. intros [= <-]. unfold map_get, map_getItem. cbn.
    destruct (str_isEqual _ _); [|done]. intros [= <-]. eexists. apply lookup_insert_eq.
  - intros la h. cbn. intros [[<- <-]|[_ E]]%lookup_insert_Some; [apply map_init_wf|].
    apply lookup_singleton_Some in E as [<- <-]. apply map_init_wf.
Qed.
Lemma reverse_connection_witness :
  exists otp w1, @wait_for_listener (demo_full []) 10%nat demo_rand $"id" 6%positive rev_world = Ok (true, w1) /\
    zlen otp = 8 /\ sent 7 (w_log w1) = [] ++ ($"LISTEN_OTP " ++ otp) ++ HN_MSG_END /\
    match waiting rev_world $"id" !! otp with
    | None =>
        waiting w1 $"id" = <[otp := 6%positive]> (waiting rev_world $"id") /\
        forall a sa w2 v w3,
          store_ok w2 -> waiting w2 $"id" = waiting w1 $"id" -> still_waits 6 w1 w2 ->
          w_socks w2 !! a = Some sa -> w_hsocks w2 !! w_next w2 = None ->
          @new_listen_connect (demo_full []) 10%nat a (listen_connect $"id" otp) w2 = Ok (v, w3) ->
          v = Keep /\ relays_to (w_next w2) a 5 w3 /\ relays_to 6 5 a w3 /\
          waiting w3 $"id" = waiting rev_world $"id"
    | Some _ => waiting w1 $"id" = waiting rev_world $"id"
    end.
Proof.
  apply (@reverse_connection (demo_full []) (demo_full_laws _) 10%nat demo_rand rev_world $"id" 6%positive
    2%positive (demo_relay_hn 5 None false) (demo_listener map_init) (demo_end 7 2));
    [reflexivity|exact rev_world_ok|by split; [|apply free_dec]|reflexivity|by vm_compute| |reflexivity..].
  split; try reflexivity. intros h [= <-]. eexists. split; reflexivity.
Defined.
