(* ===== verification/Connect.v ===== *)
(** * Connection attempts and the objects they leave behind

    [initializeConnect] keeps every object, its owner and its mode ([kinds]);
    [createRelay] ends with two linked sockets or with the second one freed. *)
From S2P Require Import Prelude CString Str Containers Buffer IpAddr Auth ConfigFile.
From S2P Require Import Config Http Os Socket WaitLoop WaitFacts Store StoreFacts.
From S2P Require Import Protocol Messages Frame Handshake Evolve AuthSocket Mdns Bridge.
From S2P Require Import BridgeAuth Relay.

Definition hn_kind (h : hn_Socket) := (sock h, hn_mode h).
Definition sock_kind (s : Socket) := (type s, isServer s, ptr s).

Record kinds (w w' : world) : Prop := {
  ki_next : w_next w' = w_next w;
  ki_conf : w_conf w' = w_conf w;
  ki_list : w_sockList w' = w_sockList w;
  ki_socks : forall a, sock_kind <$> w_socks w' !! a = sock_kind <$> w_socks w !! a;
  ki_hsocks : forall a, hn_kind <$> w_hsocks w' !! a = hn_kind <$> w_hsocks w !! a }.

#[global] Instance kinds_preorder : PreOrder kinds.
Proof.
  split.
  - intros w. by split.
  - intros w1 w2 w3 [] []. split; try congruence; intros a; etrans; eauto.
Qed.

Lemma fmap_coarser {A B C} (f : A -> B) (g : B -> C) (o o' : option A) :
  f <$> o' = f <$> o -> (g ∘ f) <$> o' = (g ∘ f) <$> o.
Proof. destruct o, o'; cbn; intros E; by inversion E. Qed.

#[global] Instance frame_kinds : subrelation frame kinds.
Proof.
  intros w w' [Hn Hc Hl _ _ Hs Hh]. split; try done; intros a.
  - apply (fmap_coarser _ (fun x => (x.1.1.2, x.1.2, x.2)) _ _ (Hs a)).
  - apply (fmap_coarser _ (fun x => (x.1.1.1.1, x.1.1.1.2)) _ _ (Hh a)).
Qed.

Lemma preserves_sub (R R' : relation world) `{!subrelation R R'} {A} (m : M A) :
  Preserves R m -> Preserves R' m.
Proof. intros H w a w' E. by apply subrelation0, (H w a w'). Qed.

Lemma kinds_upd_sock a w s s' :
  w_socks w !! a = Some s -> sock_kind s' = sock_kind s ->
  kinds w (set_socks (<[a := s']> (w_socks w)) w).
Proof.
  intros E Hf. split; try done. intros x. cbn. destruct (decide (x = a)) as [->|Hx].
  - rewrite lookup_insert_eq, E. cbn. by rewrite Hf.
  - by rewrite lookup_insert_ne.
Qed.

Lemma kinds_upd_hn a w h h' :
  w_hsocks w !! a = Some h -> hn_kind h' = hn_kind h ->
  kinds w (set_hsocks (<[a := h']> (w_hsocks w)) w).
Proof.
  intros E Hf. split; try done. intros x. cbn. destruct (decide (x = a)) as [->|Hx].
  - rewrite lookup_insert_eq, E. cbn. by rewrite Hf.
  - by rewrite lookup_insert_ne.
Qed.

Ltac kinds_leaf := first
  [ by split | eapply kinds_upd_sock; [eassumption|reflexivity]
  | eapply kinds_upd_hn; [eassumption|reflexivity] ].
Ltac by_kinds := repeat first
  [ preserve_step kinds_leaf
  | apply (preserves_sub frame kinds); solve [auto with preserves typeclass_instances] ].

Section Kinds.
Context `{Os} `{Fuel} `{Inet6} `{Rand}.

Lemma kinds_getListeningSock id : Preserves kinds (getListeningSock id).
Proof. unfold getListeningSock, get_context. by_kinds. Qed.
Lemma kinds_addWaitingSock id otp h : Preserves kinds (addWaitingSock id otp h).
Proof. unfold addWaitingSock, getListeningSock, get_context. by_kinds. Qed.
Hint Resolve kinds_getListeningSock kinds_addWaitingSock : preserves.

Lemma kinds_resolve id ctx : Preserves kinds (resolve id ctx).
Proof. unfold resolve, dns_getIpAddr, getIpAddrForId, get_context. by_kinds. Qed.
Lemma kinds_wait_for_listener id h : Preserves kinds (wait_for_listener id h).
Proof. unfold wait_for_listener. by_kinds. Qed.
Lemma kinds_connect_parts k a rest pass : Preserves kinds (connect_parts k a rest pass).
Proof. revert rest pass. induction k as [|k IH]; intros rest pass; cbn [connect_parts]; by_kinds. Qed.
Lemma kinds_createTcpConnection a ip : Preserves kinds (createTcpConnection a ip).
Proof. unfold createTcpConnection, sys_socket, sys_connect. by_kinds. Qed.
Lemma kinds_sock_setTimeout a : Preserves kinds (sock_setTimeout a).
Proof. unfold sock_setTimeout, sys_setsockopt. by_kinds. Qed.
Hint Resolve kinds_resolve kinds_wait_for_listener kinds_connect_parts kinds_createTcpConnection
  kinds_sock_setTimeout : preserves.

Lemma kinds_initializeConnect url a h ctx : Preserves kinds (initializeConnect url a h ctx).
Proof. unfold initializeConnect. by_kinds. Qed.
End Kinds.

(** ** createRelay *)

(** The addresses to come are free. *)
Definition heap_ok (w : world) : Prop :=
  forall x, (w_next w <= x)%positive -> w_socks w !! x = None /\ w_hsocks w !! x = None.

Lemma kinds_hn w w' h hs :
  kinds w w' -> w_hsocks w !! h = Some hs ->
  exists hs', w_hsocks w' !! h = Some hs' /\ sock hs' = sock hs /\ hn_mode hs' = hn_mode hs.
Proof.
  intros [_ _ _ _ Hh] E. specialize (Hh h). rewrite E in Hh.
  destruct (w_hsocks w' !! h) as [hs'|]; [|done]. injection Hh as E1 E2. by exists hs'.
Qed.

Lemma kinds_sock w w' a s :
  kinds w w' -> w_socks w !! a = Some s -> exists s', w_socks w' !! a = Some s' /\ ptr s' = ptr s.
Proof.
  intros [_ _ _ Hs _] E. specialize (Hs a). rewrite E in Hs.
  destruct (w_socks w' !! a) as [s'|]; [|done]. injection Hs as _ _ E3. by exists s'.
Qed.

Lemma hn_sockCleanup_gone h ctx w u w' : hn_sockCleanup h ctx w = Ok (u, w') -> w_hsocks w' !! h = None.
Proof.
  unfold hn_sockCleanup. intros E. apply M_bind_inv in E as (hs & w1 & _ & E).
  apply M_bind_inv in E as (u' & w2 & _ & E). unfold free_hn in E.
  destruct (w_hsocks w2 !! h); [|done]. injection E as <- <-. apply lookup_delete_eq.
Qed.

(** Destroying a socket frees its hn_Socket with it. *)
Lemma sock_destroy_inv a s h ctx w u w' :
  w_socks w !! a = Some s -> ptr s = Some h -> sock_destroy a ctx w = Ok (u, w') ->
  w_socks w' !! a = None /\ w_hsocks w' !! h = None.
Proof.
  intros Ha Hp E. split; [by eapply sock_destroy_gone|]. unfold sock_destroy in E.
  apply M_bind_inv in E as (s0 & w1 & E1 & E). unfold get_sock in E1. rewrite Ha in E1.
  injection E1 as <- <-. rewrite Hp in E. apply M_bind_inv in E as (u1 & w1 & E1 & E).
  apply hn_sockCleanup_gone in E1.
  assert (H : forall s, Preserves same_hsocks (free_sock s)) by (intros x; by apply preserves_free_sock).
  match type of E with ?m _ = _ => assert (P : Preserves same_hsocks m) end.
  { unfold sock_close, sock_cleanup, sys_close. repeat preserve_step ltac:(reflexivity). }
  apply P in E. by rewrite E.
Qed.

Section CreateRelay.
Context `{Os} `{Fuel} `{Inet6} `{Rand}.

Lemma createRelay_inv a s url ctx w r nx w' :
  w_socks w !! a = Some s -> heap_ok w -> createRelay a url ctx w = Ok ((r, nx), w') ->
  let h := w_next w in let n := Pos.succ h in let hn := Pos.succ n in
  (r = 1 /\ nx = Some n /\ relays_to h a n w' /\ relays_to hn n a w' /\
     ptr <$> w_socks w' !! a = Some (Some h) /\ ptr <$> w_socks w' !! n = Some (Some hn)) \/
  ((r = 0 \/ r = 2) /\ nx = None /\ w_socks w' !! n = None /\ w_hsocks w' !! hn = None).
Proof.
  intros Ha Hheap E h n hn. unfold createRelay in E.
  assert (Hna : n <> a). { intros <-. destruct (Hheap n) as [E0 _]; [lia|]. congruence. }
  apply M_bind_inv in E as (h' & w1 & E1 & E). rewrite (hn_sockInit_ok a s) in E1 by done.
  injection E1 as <- <-. fold h in E. set (w1 := set_socks _ _) in E.
  apply M_bind_inv in E as (n' & w2 & E1 & E). unfold createTcpSocket, new_sock in E1.
  injection E1 as <- <-. change (w_next w1) with n in E. set (w2 := set_nextaddr _ _) in E.
  assert (Hn2 : w_socks w2 !! n = Some (sock_init TCPSOCKET (-1))) by apply lookup_insert_eq.
  apply M_bind_inv in E as (hn' & w3 & E1 & E). rewrite (hn_sockInit_ok n _ _ _ _ Hn2) in E1.
  injection E1 as <- <-. change (w_next w2) with hn in E. set (w3 := set_socks _ _) in E.
  apply M_bind_inv in E as (r' & w4 & E1 & E). apply kinds_initializeConnect in E1 as Hk.
  assert (Hh3 : w_hsocks w3 !! h = Some (fresh_hn a SOCK_MODE_RELAY true)).
  { unfold w3. cbn [w_hsocks set_socks set_nextaddr set_hsocks]. rewrite lookup_insert_ne by lia.
    apply lookup_insert_eq. }
  assert (Hhn3 : w_hsocks w3 !! hn = Some (fresh_hn n SOCK_MODE_RELAY false)) by apply lookup_insert_eq.
  destruct (kinds_hn _ _ _ _ Hk Hh3) as (hs & Eh & Es & Em).
  destruct (kinds_hn _ _ _ _ Hk Hhn3) as (hs' & Eh' & Es' & Em').
  assert (Hn3 : w_socks w3 !! n = Some (set_ptr (Some hn) (sock_init TCPSOCKET (-1)))) by apply lookup_insert_eq.
  assert (Ha3 : w_socks w3 !! a = Some (set_ptr (Some h) s)).
  { unfold w3. cbn [w_socks set_socks]. rewrite lookup_insert_ne by done.
    unfold w2. cbn [w_socks set_nextaddr set_socks]. rewrite lookup_insert_ne by done. apply lookup_insert_eq. }
  destruct (kinds_sock _ _ _ _ Hk Hn3) as (sn & En & Epn).
  destruct (kinds_sock _ _ _ _ Hk Ha3) as (sa & Ea & Epa).
  case_bool_decide as Hr.
  - left. apply M_bind_inv in E as (u & w5 & E2 & E). rewrite (link_ok _ _ _ _ Eh) in E2. injection E2 as <- <-.
    apply M_bind_inv in E as (u' & w6 & E2 & E). set (w5 := set_hsocks _ w4) in *.
    assert (Eh5 : w_hsocks w5 !! hn = Some hs').
    { unfold w5. cbn [w_hsocks set_hsocks]. by rewrite lookup_insert_ne by lia. }
    rewrite (link_ok _ _ _ _ Eh5) in E2. injection E2 as <- <-. injection E as <- <- <-.
    split_and!; [done|done| | | |].
    + eexists. split_and!.
      * cbn [w_hsocks set_hsocks]. rewrite lookup_insert_ne by lia. apply lookup_insert_eq.
      * exact Es. * exact Em. * done. * done.
    + eexists. split_and!; [apply lookup_insert_eq|exact Es'|exact Em'|done|done].
    + cbn. rewrite Ea. cbn. by rewrite Epa.
    + cbn. rewrite En. cbn. by rewrite Epn.
  - right. apply M_bind_inv in E as (u & w5 & E2 & E).
    apply (sock_destroy_inv n sn hn) in E2 as [H1' H2']; [|done|done]. injection E as <- <- <-.
    split_and!; [|done|done|done]. case_bool_decide; [by right|by left].
Qed.
End CreateRelay.

(** ** Properties *)

(** C20: [createRelay] ends in one of two ways: it returns 1 and the two sockets
    are linked to each other, each through its own hn_Socket; or it returns 0
    or 2, and the socket it made for the other end is freed together with its
    hn_Socket. *)
Theorem createRelay_links_or_frees `{Os} `{Fuel} `{Inet6} `{Rand} (a : addr) (s : Socket) (url : cstr)
    (ctx : bool) (w w' : world) (r : Z) (nx : option addr)
    (Ha : w_socks w !! a = Some s) (Hheap : heap_ok w)
    (Hrun : createRelay a url ctx w = Ok ((r, nx), w')) :
  let h := w_next w in let n := Pos.succ h in let hn := Pos.succ n in
  (r = 1 /\ nx = Some n /\ relays_to h a n w' /\ relays_to hn n a w' /\
     ptr <$> w_socks w' !! a = Some (Some h) /\ ptr <$> w_socks w' !! n = Some (Some hn)) \/
  ((r = 0 \/ r = 2) /\ nx = None /\ w_socks w' !! n = None /\ w_hsocks w' !! hn = None).
Proof. by eapply createRelay_inv. Qed.

Definition demo_create (url : cstr) : outcome (Z * option addr * world) :=
  @createRelay (demo_os 100 []) 1%nat demo_inet6 demo_rand 1 url false (demo_heap demo_blocking).

Lemma demo_heap_ok s : heap_ok (demo_heap s).
Proof.
  intros x Hx. cbn in *. split; [|done]. apply lookup_singleton_None. intros <-. by apply Hx.
Qed.

Lemma createRelay_links_or_frees_witness :
  let w' := run_world (demo_create $"10.0.0.2") in
  (1 = 1 /\ Some 101%positive = Some 101%positive /\ relays_to 100 1 101 w' /\ relays_to 102 101 1 w' /\
     ptr <$> w_socks w' !! 1%positive = Some (Some 100%positive) /\
     ptr <$> w_socks w' !! 101%positive = Some (Some 102%positive)) \/
  ((1 = 0 \/ 1 = 2) /\ Some 101%positive = None /\ w_socks w' !! 101%positive = None /\
     w_hsocks w' !! 102%positive = None).
Proof.
  intros w'. apply (@createRelay_links_or_frees (demo_os 100 []) 1%nat demo_inet6 demo_rand 1
    demo_blocking $"10.0.0.2" false (demo_heap demo_blocking) w' 1 (Some 101%positive));
    [reflexivity|apply demo_heap_ok|by vm_compute].
Defined.
