(* ===== verification/Invariant.v ===== *)
(** * What a running program keeps

    [wf] is the invariant of the state: the objects on the heap lie below the
    next fresh address, keys of maps occur once and fit their arrays, and so do
    the strings of the hn_Socket and MdnsRecord structures. [progress] relates
    the states before and after a step: the policy (mode, keys, who has to
    authenticate) is the same, and the log of system calls is longer.

    [Inv m Q]: a run of [m] from a state with the invariant makes progress, ends
    in a state with the invariant, and returns a value with [Q]. The tactic
    [invs] proves it along the code. *)
From S2P Require Import Prelude CString Dns Str Containers Buffer IpAddr Auth ConfigFile.
From S2P Require Import Config Http Os Socket WaitLoop Store Protocol Handshake Mdns Bridge.
From S2P Require Import Frame Evolve Connect.

(** ** The invariant *)

Record hn_wf (h : hn_Socket) : Prop := {
  hw_waiting : map_wf (waitingSocks (listen_ h));
  hw_host : zlen (host h) < 200;
  hw_otp : zlen (otp (relay h)) < 20;
  hw_relay_id : zlen (relay_listenId (relay h)) < 20;
  hw_salt : zlen (salt (listen_ h)) < 20;
  hw_listen_id : zlen (listenId (listen_ h)) < 20 }.

Record record_wf (r : MdnsRecord) : Prop := {
  rw_name : zlen (mr_name r) < MAX_URL_SIZE;
  rw_data : map_wf (mr_data r) }.

Record context_wf (cx : BridgeContext) : Prop := {
  cw_listeners : map_wf (listeningSocks cx);
  cw_store : map_wf (mdnsStore cx);
  cw_records : Forall (fun it => record_wf (value it)) (start (mdnsStore cx)) }.

Definition conf_wf (c : hn_Config) : Prop := forall bm, bridge c = Some bm -> context_wf (context bm).

Record wf (w : world) : Prop := {
  wf_heap : heap_ok w;
  wf_hn : forall a h, w_hsocks w !! a = Some h -> hn_wf h;
  wf_conf : conf_wf (w_conf w) }.

(** The part of the configuration that says who may do what. *)
Definition context_policy (cx : BridgeContext) :=
  (masterKey cx, cx_name cx, queryKeys cx, listenKeys cx).
Definition bridge_policy (bm : bridgeMode) :=
  (bm_port bm, bm_rlId bm, bm_rlUrl bm, bm_rlPass bm, bm_useMdns bm, connectAuthLevel bm,
   requireQueryAuth bm, requireRLAuth bm, context_policy (context bm)).
Definition policy (c : hn_Config) :=
  (mode c, bridge_policy <$> bridge c, rl c, listen c, connect c, query c).

Record progress (w w' : world) : Prop := {
  pr_policy : policy (w_conf w') = policy (w_conf w);
  pr_log : exists l, w_log w' = l ++ w_log w }.

#[global] Instance progress_preorder : PreOrder progress.
Proof.
  split.
  - intros w. split; [done|by exists []].
  - intros w1 w2 w3 [E1 [l1 H1]] [E2 [l2 H2]]. split; [congruence|].
    exists (l2 ++ l1). by rewrite H2, H1, app_assoc.
Qed.

(** ** Rules *)

Class Inv {A} (m : M A) (Q : A -> Prop) : Prop := inv_run w a w' :
  m w = Ok (a, w') -> wf w -> progress w w' /\ wf w' /\ Q a.
Abbreviation any := (fun _ => True).

Section Rules.
Context {A B : Type}.

Lemma inv_bind (m : M A) (f : A -> M B) Q Q' :
  Inv m Q -> (forall a, Q a -> Inv (f a) Q') -> Inv (m ≫= f) Q'.
Proof.
  intros Hm Hf w b w' E Hw. apply M_bind_inv in E as (a & w1 & E1 & E2).
  destruct (Hm _ _ _ E1 Hw) as (P1 & Hw1 & Ha). destruct (Hf a Ha _ _ _ E2 Hw1) as (P2 & Hw2 & Hb).
  split; [by etrans|done].
Qed.
Lemma inv_weaken (m : M A) (Q Q' : A -> Prop) : Inv m Q -> (forall a, Q a -> Q' a) -> Inv m Q'.
Proof. intros Hm HQ w a w' E Hw. destruct (Hm _ _ _ E Hw) as (? & ? & ?). auto. Qed.
Lemma inv_ret (a : A) (Q : A -> Prop) : Q a -> Inv (ret a) Q.
Proof. intros HQ w b w' [= <- <-] Hw. done. Qed.
Lemma inv_fail f (Q : A -> Prop) : Inv (fail f) Q.
Proof. by intros w b w'. Qed.
Lemma inv_lift (o : outcome A) : Inv (lift o) (fun a => o = Ok a).
Proof. intros w b w'. unfold lift. destruct o; [|done]. by intros [= -> ->]. Qed.
Lemma inv_get (f : world -> A) : Inv (get f) any.
Proof. by intros w b w' [= <- <-]. Qed.
End Rules.

Lemma inv_get_conf : Inv (get w_conf) conf_wf.
Proof. intros w b w' [= <- <-] Hw. split; [done|]. split; [done|apply Hw]. Qed.
Lemma inv_deref_bridge c : conf_wf c -> Inv (deref_M (bridge c)) (fun bm => context_wf (context bm)).
Proof. intros Hc w bm w' E Hw. unfold deref_M, lift in E. destruct (bridge c) eqn:Eb; [|done].
  injection E as <- <-. split; [done|]. split; [done|by apply Hc]. Qed.
Lemma inv_deref {A} (p : option A) : Inv (deref_M p) (fun a => p = Some a).
Proof. intros w a w'. unfold deref_M, lift. destruct p; [|done]. by intros [= -> ->]. Qed.
Lemma inv_get_hn a : Inv (get_hn a) hn_wf.
Proof.
  intros w h w'. unfold get_hn. destruct (_ !! a) eqn:E; [|done]. intros [= <- <-] Hw.
  split; [done|]. split; [done|by eapply wf_hn].
Qed.

(** Input and output keep the invariant. *)
Lemma frame_wf w w' : frame w w' -> wf w -> wf w'.
Proof.
  intros [Hn Hc _ _ _ Hs Hh] [H1 H2 H3]. split.
  - intros x Hx. rewrite Hn in Hx. destruct (H1 x Hx) as [Es Eh]. specialize (Hs x). specialize (Hh x).
    rewrite Es in Hs. rewrite Eh in Hh. cbn in *. by destruct (w_socks w' !! x), (w_hsocks w' !! x).
  - intros a h E. specialize (Hh a). rewrite E in Hh. cbn in Hh. symmetry in Hh.
    apply fmap_Some in Hh as (h0 & E0 & Eq). injection Eq as _ _ E1 E2 E3.
    destruct (H2 a h0 E0). split; congruence.
  - by rewrite Hc.
Qed.
Lemma inv_io {A} (m : M A) : Preserves frame m -> Evolves m -> Inv m any.
Proof.
  intros Hf He w a w' E Hw. split; [|split; [by eapply frame_wf; [eapply Hf|]|done]].
  split; [by rewrite (fr_conf _ _ (Hf _ _ _ E))|apply (ev_log _ _ (He _ _ _ E))].
Qed.

(** Changes of the state. *)
Lemma inv_modify f : (forall w, w_socks (f w) = w_socks w /\ w_hsocks (f w) = w_hsocks w /\
    w_next (f w) = w_next w /\ w_conf (f w) = w_conf w /\ w_log (f w) = w_log w) ->
  Inv (modify f) any.
Proof.
  intros Hf w a w' [= <- <-] [H1 H2 H3]. destruct (Hf w) as (E1 & E2 & E3 & E4 & E5).
  split; [split; [by rewrite E4|exists []; done]|]. split; [|done].
  split; [|by rewrite E2|by rewrite E4]. intros x. rewrite E1, E2, E3. apply H1.
Qed.
Lemma inv_logged e : Inv (logged e) any.
Proof.
  intros w a w' [= <- <-] [H1 H2 H3]. split; [split; [done|by exists [e]]|]. by split.
Qed.
Lemma inv_upd_sock a f : Inv (upd_sock a f) any.
Proof.
  intros w u w'. unfold upd_sock. destruct (_ !! a) eqn:E; [|done]. intros [= <- <-] [H1 H2 H3].
  split; [split; [done|by exists []]|]. split; [|done]. split; [|done..]. intros x Hx.
  destruct (H1 x Hx) as [Es Eh]. cbn. split; [|done]. rewrite lookup_insert_ne; [done|]. by intros ->; rewrite E in Es.
Qed.
Lemma inv_upd_hn a f : (forall h, hn_wf h -> hn_wf (f h)) -> Inv (upd_hn a f) any.
Proof.
  intros Hf w u w'. unfold upd_hn. destruct (_ !! a) eqn:E; [|done]. intros [= <- <-] [H1 H2 H3].
  split; [split; [done|by exists []]|]. split; [|done]. split; [| |done].
  - intros x Hx. destruct (H1 x Hx) as [Es Eh]. cbn. split; [done|].
    rewrite lookup_insert_ne; [done|]. by intros ->; rewrite E in Eh.
  - intros b h'. cbn. destruct (decide (b = a)) as [->|Hb].
    + rewrite lookup_insert_eq. intros [= <-]. by apply Hf, (H2 a).
    + rewrite lookup_insert_ne by done. apply H2.
Qed.
Lemma inv_free_sock a : Inv (free_sock a) any.
Proof.
  intros w u w'. unfold free_sock. destruct (_ !! a) eqn:E; [|done]. intros [= <- <-] [H1 H2 H3].
  split; [split; [done|by exists []]|]. split; [|done]. split; [|done..]. intros x Hx.
  destruct (H1 x Hx) as [Es Eh]. cbn. split; [|done]. apply lookup_delete_None. by right.
Qed.
Lemma inv_free_hn a : Inv (free_hn a) any.
Proof.
  intros w u w'. unfold free_hn. destruct (_ !! a) eqn:E; [|done]. intros [= <- <-] [H1 H2 H3].
  split; [split; [done|by exists []]|]. split; [|done]. split; [| |done].
  - intros x Hx. destruct (H1 x Hx) as [Es Eh]. cbn. split; [done|]. apply lookup_delete_None. by right.
  - intros b h'. cbn. intros [_ Hb]%lookup_delete_Some. by apply (H2 b).
Qed.
Lemma inv_new_sock s : Inv (new_sock s) any.
Proof.
  intros w a w' [= <- <-] [H1 H2 H3]. split; [split; [done|by exists []]|]. split; [|done].
  split; [|done..]. intros x Hx. cbn in *. destruct (H1 x) as [Es Eh]; [lia|]. split; [|done].
  rewrite lookup_insert_ne; [done|lia].
Qed.
Lemma inv_new_hn h : hn_wf h -> Inv (new_hn h) any.
Proof.
  intros Hh w a w' [= <- <-] [H1 H2 H3]. split; [split; [done|by exists []]|]. split; [|done].
  split; [| |done].
  - intros x Hx. cbn in *. destruct (H1 x) as [Es Eh]; [lia|]. split; [done|].
    rewrite lookup_insert_ne; [done|lia].
  - intros b h'. cbn. destruct (decide (b = w_next w)) as [->|Hb].
    + rewrite lookup_insert_eq. by intros [= <-].
    + rewrite lookup_insert_ne by done. apply H2.
Qed.
Lemma inv_upd_context f :
  (forall cx, context_wf cx -> context_wf (f cx) /\ context_policy (f cx) = context_policy cx) ->
  Inv (upd_context f) any.
Proof.
  intros Hf w u w'. unfold upd_context. run. destruct (bridge (w_conf w)) as [bm|] eqn:E; [|done].
  intros [= <- <-] [H1 H2 H3]. destruct (Hf (context bm)) as [Hc Hp]; [by apply H3|].
  split; [|split; [|done]]; split; try done.
  - cbn. unfold policy, bridge_policy. cbn. by rewrite E, Hp.
  - by exists [].
  - by intros bm' [= <-].
Qed.

(** ** Automation *)

Create HintDb inv.
#[export] Hint Resolve inv_fail inv_lift inv_get_hn inv_get_conf inv_deref_bridge inv_free_sock
  inv_free_hn inv_new_sock inv_upd_sock inv_logged | 0 : inv.
#[export] Hint Resolve inv_deref | 3 : inv.
#[export] Hint Resolve inv_get | 5 : inv.

(** Sizes of strings that were copied into arrays. *)
Ltac sizes :=
  repeat match goal with
  | H : str_set _ _ = Ok _ |- _ => apply strcpy_ok in H as [-> ?]
  | H : strcpy _ _ = Ok _ |- _ => apply strcpy_ok in H as [-> ?]
  end.
Ltac inv_known := first
  [ solve [auto with inv]
  | solve [apply inv_io; auto with preserves typeclass_instances] ].
Ltac inv_hn :=
  let H := fresh in
  apply inv_upd_hn; intros ? H; sizes; destruct H; split; cbn in *; try assumption; try done; lia.
Ltac inv_step :=
  match goal with
  | |- Inv (_ ≫= _) _ => eapply inv_bind; [solve [inv_known]|intros ? ?; cbn beta in *]
  | |- Inv (_ ≫= _) _ => apply (inv_bind _ _ any); [|intros ? _]
  | |- Inv (ret _) _ => apply inv_ret; try done
  | |- Inv (match ?x with _ => _ end) _ => destruct x eqn:?
  | |- Inv (when true _) _ => cbn [when]
  | |- Inv (when false _) _ => cbn [when]
  | |- Inv (when ?b _) _ => destruct b; cbn [when]
  | |- Inv (let _ := _ in _) _ => cbv zeta
  | |- Inv (modify _) _ => apply inv_modify; by intros ?
  | |- Inv (upd_hn _ _) _ => inv_hn
  | |- Inv _ _ => solve [inv_known]
  | |- Inv _ _ => eapply inv_weaken; [solve [inv_known]|done]
  end.
Ltac invs := repeat inv_step.

(** ** Maps *)

Lemma map_set_inv {V} (m m' : Map V) k v b fr : map_set m k v b = Ok (m', fr) -> map_wf m ->
  map_wf m' /\ forall P : V -> Prop, P v -> Forall (fun it => P (value it)) (start m) ->
    Forall (fun it => P (value it)) (start m').
Proof.
  intros E Hm. assert (Hk : map_get m k <> None \/ zlen k < ITEM_KEY_SIZE).
  { unfold map_set, map_get in *. destruct (map_getItem m k); [left; discriminate|right].
    apply bind_ok in E as (k0 & E & _). by apply strcpy_ok in E as [_ E]. }
  destruct (map_set_ok m k v b Hk) as (m2 & fr2 & E2 & _ & Hwf).
  assert (m2 = m') as -> by congruence. split; [by apply Hwf|]. intros P Hv HP.
  unfold map_set in E. destruct (map_getItem m k).
  - injection E as <- _. cbn. clear -Hv HP. induction HP as [|x l Hx HP IH]; [done|].
    cbn [assign_loop]. destruct (str_isEqual (key x) k); by constructor.
  - apply bind_ok in E as (k' & _ & E). injection E as <- _. by constructor.
Qed.

Lemma map_del_wf {V} (m : Map V) k b : map_wf m -> map_wf (map_del m k b).1.2.
Proof.
  intros [Hn Hl]. unfold map_del. rewrite del_loop_spec by done.
  destruct (getItem_loop (start m) k); [|done]. cbn [fst snd rev app]. split; cbn.
  - clear Hl. induction (start m) as [|x l IH]; [done|]. cbn [List.filter].
    rewrite fmap_cons in Hn. apply NoDup_cons in Hn as [Hx Hn].
    destruct (negb _); [|by apply IH]. rewrite fmap_cons. apply NoDup_cons. split; [|by apply IH].
    intros (y & Ey & Hy)%list_elem_of_fmap. apply Hx. rewrite Ey. apply list_elem_of_fmap.
    exists y. split; [done|]. apply list_elem_of_In in Hy. apply List.filter_In in Hy as [Hy _].
    by apply list_elem_of_In.
  - apply Forall_forall. intros x Hx%list_elem_of_In. apply List.filter_In in Hx as [Hx%list_elem_of_In _].
    by eapply Forall_forall in Hl.
Qed.

(** ** The store *)

Lemma inv_get_context : Inv get_context context_wf.
Proof. unfold get_context. invs. Qed.
#[export] Hint Resolve inv_get_context : inv.

Lemma inv_getListeningSock id : Inv (getListeningSock id) any.
Proof. unfold getListeningSock. invs. Qed.
Lemma inv_getIpAddrForId id : Inv (getIpAddrForId id) any.
Proof. unfold getIpAddrForId. invs. Qed.
Lemma inv_getSalt `{Environment} id : Inv (getSaltForListenId id) any.
Proof. unfold getSaltForListenId. invs. Qed.
#[export] Hint Resolve inv_getListeningSock inv_getIpAddrForId inv_getSalt : inv.
Lemma inv_getWaitingSocket id otp : Inv (getWaitingSocket id otp) any.
Proof. unfold getWaitingSocket. invs. Qed.

Lemma hn_wf_waiting h m : hn_wf h -> map_wf m -> hn_wf (set_waiting m h).
Proof. intros [] Hm. by split. Qed.
Lemma inv_addWaitingSock id otp h : Inv (addWaitingSock id otp h) any.
Proof.
  unfold addWaitingSock. invs. apply inv_upd_hn. intros h' Hh'. apply hn_wf_waiting; [done|].
  match goal with H : map_set _ _ _ _ = Ok _ |- _ => apply map_set_inv in H as [H _] end; [done|by apply hw_waiting].
Qed.
Lemma inv_removeWaitingSocket id otp : Inv (removeWaitingSocket id otp) any.
Proof.
  unfold removeWaitingSocket. invs. apply inv_upd_hn. intros h' Hh'. apply hn_wf_waiting; [done|].
  match goal with H : map_del ?m ?k ?b = _ |- _ => pose proof (map_del_wf m k b) as Hd; rewrite H in Hd end.
  by apply Hd, hw_waiting.
Qed.
#[export] Hint Resolve inv_getWaitingSocket inv_addWaitingSock inv_removeWaitingSocket : inv.

(** ** Sockets and handshakes *)

#[local] Hint Resolve evolves_authSolve evolves_sys_write evolves_sys_recv : preserves.

Lemma inv_sock_cleanup a : Inv (sock_cleanup a) any.
Proof. unfold sock_cleanup. invs. Qed.
#[export] Hint Resolve inv_sock_cleanup : inv.

Lemma inv_done_waiting l : Inv (done_waiting l) any.
Proof. induction l as [|i l IH]; cbn [done_waiting]; invs. Qed.
#[export] Hint Resolve inv_done_waiting : inv.

Lemma inv_hn_sockInit s m u : Inv (hn_sockInit s m u) any.
Proof.
  unfold hn_sockInit. eapply inv_bind; [apply inv_new_hn|intros; invs].
  by split; try apply map_init_wf.
Qed.
#[export] Hint Resolve inv_hn_sockInit : inv.

Lemma inv_hn_sockCleanup h ctx : Inv (hn_sockCleanup h ctx) any.
Proof.
  unfold hn_sockCleanup. invs.
  - apply inv_upd_hn. intros h' Hh'. apply hn_wf_waiting; [done|apply map_init_wf].
  - apply inv_upd_context. intros cx []. split; [split|]; cbn; try done. by apply map_del_wf.
  - apply inv_upd_context. intros cx []. by split; [split|].
Qed.
#[export] Hint Resolve inv_hn_sockCleanup : inv.

Lemma inv_sock_destroy a ctx : Inv (sock_destroy a ctx) any.
Proof. unfold sock_destroy. invs. Qed.
Lemma inv_createTcpSocket : Inv createTcpSocket any.
Proof. unfold createTcpSocket. invs. Qed.
#[export] Hint Resolve inv_sock_destroy inv_createTcpSocket : inv.

Section Handshakes.
Context `{Os} `{Fuel} `{Inet6} `{Rand}.

Lemma inv_set_flags a b : Inv (set_flags a b) any.
Proof. unfold set_flags, sys_fcntl. invs. Qed.
Hint Resolve inv_set_flags : inv.
Lemma inv_sock_setNonBlocking a : Inv (sock_setNonBlocking a) any.
Proof. apply inv_set_flags. Qed.
Lemma inv_sock_setBlocking a : Inv (sock_setBlocking a) any.
Proof. apply inv_set_flags. Qed.
Lemma inv_sock_setTimeout a : Inv (sock_setTimeout a) any.
Proof. unfold sock_setTimeout, sys_setsockopt. invs. Qed.
Lemma inv_createTcpConnection a ip : Inv (createTcpConnection a ip) any.
Proof. unfold createTcpConnection, sys_socket, sys_connect. invs. Qed.
Lemma inv_dns_getIpAddr s : Inv (dns_getIpAddr s) any.
Proof. unfold dns_getIpAddr. invs. Qed.
Lemma inv_sock_acceptNew a : Inv (sock_acceptNew a) any.
Proof. unfold sock_acceptNew. invs. Qed.
Hint Resolve inv_sock_setNonBlocking inv_sock_setBlocking inv_sock_setTimeout
  inv_createTcpConnection inv_dns_getIpAddr inv_sock_acceptNew : inv.

Lemma inv_resolve id ctx : Inv (resolve id ctx) any.
Proof. unfold resolve. invs. Qed.
Hint Resolve inv_resolve : inv.
Lemma inv_wait_for_listener id h : Inv (wait_for_listener id h) any.
Proof. unfold wait_for_listener. invs. Qed.
Hint Resolve inv_wait_for_listener : inv.
Lemma inv_connect_parts k a rest pass : Inv (connect_parts k a rest pass) any.
Proof. revert rest pass. induction k as [|k IH]; intros rest pass; cbn [connect_parts]; invs. Qed.
Hint Resolve inv_connect_parts : inv.
Lemma inv_initializeConnect url a h ctx : Inv (initializeConnect url a h ctx) any.
Proof. unfold initializeConnect. invs. Qed.
Hint Resolve inv_initializeConnect : inv.
Lemma inv_initializeListenNotify id salt url a : Inv (initializeListenNotify id salt url a) any.
Proof. unfold initializeListenNotify. invs. Qed.
Lemma inv_initializeListenConn id otp url a : Inv (initializeListenConn id otp url a) any.
Proof. unfold initializeListenConn. invs. Qed.
Hint Resolve inv_initializeListenNotify inv_initializeListenConn : inv.

Lemma inv_set_rl s r t : Inv (upd_context (fun cx => set_rl (s cx) (r cx) (t cx) cx)) any.
Proof. apply inv_upd_context. intros cx []. by split; [split|]. Qed.
Hint Resolve inv_set_rl : inv.
Lemma inv_tryRLStart : Inv tryRLStart any.
Proof.
  unfold tryRLStart. invs.
  all: apply inv_upd_context; intros cx []; by split; [split|].
Qed.
End Handshakes.

#[export] Hint Resolve inv_set_flags inv_sock_setNonBlocking inv_sock_setBlocking inv_sock_setTimeout
  inv_sock_acceptNew inv_initializeConnect inv_initializeListenConn inv_tryRLStart : inv.

(** ** mDNS *)

Section MdnsStore.
Context `{Os} `{Fuel} `{Inet6} `{Rand} `{FloatText}.

Lemma inv_mdns_send p : Inv (mdns_send p) any.
Proof. unfold mdns_send, sys_socket, sys_setsockopt. invs. Qed.
Hint Resolve inv_mdns_send : inv.
Lemma inv_send_packet n q : Inv (send_packet n q) any.
Proof. unfold send_packet. invs. Qed.
Hint Resolve inv_send_packet : inv.
Lemma inv_sendMdnsQuery name : Inv (sendMdnsQuery name) any.
Proof. unfold sendMdnsQuery. invs. Qed.
Lemma inv_udp_read a max : Inv (udp_read a max) any.
Proof. unfold udp_read. invs. Qed.
Hint Resolve inv_udp_read : inv.

Lemma inv_records_loop items max name n : Inv (records_loop items max name n) any.
Proof. revert n. induction items as [|i items IH]; intros n; cbn [records_loop]; invs. Qed.
Hint Resolve inv_records_loop : inv.
Lemma inv_getMdnsRecordsForName max name m : Inv (getMdnsRecordsForName max name m) any.
Proof. unfold getMdnsRecordsForName. invs. Qed.

Lemma inv_answer_questions qs q : Inv (answer_questions qs q) any.
Proof.
  induction qs as [|x qs IH]; cbn [answer_questions]; invs.
  apply inv_upd_context. intros cx []. by split; [split|].
Qed.

Lemma inv_upd_record k f : (forall r, record_wf r -> record_wf (f r)) -> Inv (upd_record k f) any.
Proof.
  intros Hf. apply inv_upd_context. intros cx Hcx. destruct (map_get (mdnsStore cx) k) as [r|] eqn:E; [|done].
  destruct Hcx as [Hl [Hn Hk] Hr]. split; [|done]. split; cbn; [done| |].
  - split; cbn; [by rewrite assign_loop_keys|].
    apply (Forall_keys _ (fun k => zlen k < ITEM_KEY_SIZE)). rewrite assign_loop_keys. by apply Forall_keys.
  - assert (Hr' : record_wf (f r)).
    { apply Hf. unfold map_get, map_getItem in E. clear -E Hr. induction Hr as [|x l Hx Hr IH]; [done|].
      cbn [getItem_loop] in E. destruct (str_isEqual (key x) k); [by injection E as <-|by apply IH]. }
    clear -Hr Hr'. induction Hr as [|x l Hx Hr IH]; [constructor|]. cbn [assign_loop].
    destruct (str_isEqual (key x) k); by constructor.
Qed.

Lemma inv_upd_store cx k r b m fr : context_wf cx -> record_wf r ->
  map_set (mdnsStore cx) k r b = Ok (m, fr) -> Inv (upd_context (set_mdnsStore m)) any.
Proof.
  intros [Hl Hs Hr] Hrec E. apply map_set_inv in E as [Hm HP]; [|done].
  apply inv_upd_context. intros cx' []. split; [split|]; cbn; try done. by apply HP.
Qed.

Lemma inv_record_for name ip : Inv (record_for name ip) any.
Proof.
  unfold record_for. invs.
  all: try (apply inv_upd_record; intros r []; split; cbn; try done; apply map_init_wf).
  sizes. eapply inv_upd_store; [eassumption| |eassumption]. split; [done|apply map_init_wf].
Qed.
Hint Resolve inv_record_for : inv.

Lemma context_record cx k r : context_wf cx -> map_get (mdnsStore cx) k = Some r -> record_wf r.
Proof.
  intros [_ _ Hr] E. unfold map_get, map_getItem in E. induction Hr as [|x l Hx Hr IH]; [done|].
  cbn [getItem_loop] in E. destruct (str_isEqual (key x) k); [by injection E as <-|by apply IH].
Qed.

Lemma inv_txt_loop k save name ip rec : Inv (txt_loop k save name ip rec) any.
Proof.
  revert save ip rec. induction k as [|k IH]; intros save ip rec; cbn [txt_loop]; invs.
  apply inv_upd_record. intros r' []. split; [done|]. cbn.
  match goal with E : map_set _ _ _ _ = Ok _ |- _ => eapply map_set_inv in E as [E _]; [exact E|] end.
  eapply rw_data, context_record; eassumption.
Qed.
Hint Resolve inv_txt_loop inv_answer_questions : inv.

Lemma inv_answer_text a : Inv (answer_text a) any.
Proof. unfold answer_text. invs. Qed.
Hint Resolve inv_answer_text : inv.
Lemma inv_record_answers ans ip : Inv (record_answers ans ip) any.
Proof. revert ip. induction ans as [|a ans IH]; intros ip; cbn [record_answers]; invs. Qed.
Hint Resolve inv_record_answers : inv.
Lemma inv_handleMdnsRead a : Inv (handleMdnsRead a) any.
Proof. unfold handleMdnsRead. invs. Qed.
End MdnsStore.
#[export] Hint Resolve inv_sendMdnsQuery inv_getMdnsRecordsForName inv_handleMdnsRead : inv.

(** ** Events *)

Section Events.
Context `{Os} `{Fuel} `{Inet6} `{Rand} `{Environment} `{FloatText}.

Lemma inv_watch a : Inv (watch a) any.
Proof. unfold watch. invs. Qed.
Lemma inv_link h a : Inv (link h a) any.
Proof. unfold link. invs. Qed.
Hint Resolve inv_watch inv_link : inv.

Lemma inv_createRelay a url ctx : Inv (createRelay a url ctx) any.
Proof. unfold createRelay. invs. Qed.
Lemma inv_refuse a : Inv (refuse a) any.
Proof. unfold refuse. invs. Qed.
Hint Resolve inv_createRelay inv_refuse : inv.

Lemma inv_new_listen a : Inv (new_listen a) any.
Proof. unfold new_listen. invs. Qed.
Lemma inv_new_connect a buff : Inv (new_connect a buff) any.
Proof. unfold new_connect. invs. Qed.
Lemma inv_listen_id a id : Inv (listen_id a id) any.
Proof. unfold listen_id. invs. Qed.
Hint Resolve inv_listen_id : inv.
Lemma inv_new_listen_notify a buff : Inv (new_listen_notify a buff) any.
Proof.
  unfold new_listen_notify. invs. 
  match goal with Hc : context_wf ?cx, E : map_set _ _ _ _ = Ok _ |- _ =>
    apply map_set_inv in E as [E _]; [|by apply cw_listeners] end.
  apply inv_upd_context. intros cx' []. by split; [split|].
Qed.
Lemma inv_new_listen_connect a buff : Inv (new_listen_connect a buff) any.
Proof. unfold new_listen_connect. invs. Qed.
Lemma inv_send_records a items : Inv (send_records a items) any.
Proof. induction items as [|i items IH]; cbn [send_records]; invs. Qed.
Hint Resolve inv_send_records : inv.
Lemma inv_new_query a buff : Inv (new_query a buff) any.
Proof. unfold new_query. invs. Qed.
Lemma inv_new_http a buff : Inv (new_http a buff) any.
Proof. unfold new_http. invs. Qed.
Hint Resolve inv_new_listen inv_new_connect inv_new_listen_notify inv_new_listen_connect
  inv_new_query inv_new_http : inv.
Lemma inv_dispatch a buff : Inv (dispatch a buff) any.
Proof. unfold dispatch. invs. Qed.
Hint Resolve inv_dispatch : inv.
Lemma inv_handleNew k a : Inv (handleNew k a) any.
Proof. revert a. induction k as [|k IH]; intros a; cbn [handleNew]; invs. Qed.
Hint Resolve inv_handleNew : inv.

Lemma inv_relay_loop k a n r d : Inv (relay_loop k a n r d) any.
Proof. revert r d. induction k as [|k IH]; intros r d; cbn [relay_loop]; invs. Qed.
Hint Resolve inv_relay_loop : inv.
Lemma inv_read_relay a h : Inv (read_relay a h) any.
Proof. unfold read_relay. invs. Qed.
Lemma inv_read_listen_out a h : Inv (read_listen_out a h) any.
Proof. unfold read_listen_out. invs. Qed.
Lemma inv_read_listen a : Inv (read_listen a) any.
Proof. unfold read_listen. invs. Qed.
Lemma inv_sock_readDump a : Inv (sock_readDump a) any.
Proof. unfold sock_readDump. invs. Qed.
Hint Resolve inv_read_relay inv_read_listen_out inv_read_listen inv_sock_readDump : inv.
Lemma inv_handleRead a : Inv (handleRead a) any.
Proof. unfold handleRead. invs. Qed.
Lemma inv_handleClose a : Inv (handleClose a) any.
Proof. unfold handleClose. invs. apply inv_upd_context. intros cx []. by split; [split|]. Qed.
Lemma inv_houseKeeping : Inv houseKeeping any.
Proof. unfold houseKeeping. invs. all: apply inv_upd_context; intros cx []; by split; [split|]. Qed.
Hint Resolve inv_handleRead inv_handleClose inv_houseKeeping : inv.

Lemma inv_remove_closed : Inv remove_closed any.
Proof. unfold remove_closed. invs. Qed.
Lemma inv_process_fds l : Inv (process_fds l) any.
Proof. induction l as [|a l IH]; cbn [process_fds]; unfold done_read, done_write; invs. Qed.
Lemma inv_collect_fds l r w : Inv (collect_fds l r w) any.
Proof. revert r w. induction l as [|a l IH]; intros r w; cbn [collect_fds]; invs. Qed.
Lemma inv_list_socks : Inv list_socks any.
Proof. unfold list_socks. invs. Qed.
Hint Resolve inv_remove_closed inv_process_fds inv_collect_fds inv_list_socks : inv.
Lemma inv_waitForEvent k first : Inv (waitForEvent k first) any.
Proof. revert first. induction k as [|k IH]; intros first; cbn [waitForEvent]; unfold set_wait_sets; invs. Qed.
Hint Resolve inv_waitForEvent : inv.

Lemma inv_processEvent a e : Inv (processEvent a e) any.
Proof. unfold processEvent. invs. Qed.
Hint Resolve inv_processEvent : inv.
Lemma inv_loop_round first : Inv (loop_round first) any.
Proof. unfold loop_round. invs. Qed.
End Events.

(** ** Runs of the loop *)

Section Runs.
Context `{Os} `{Fuel} `{Inet6} `{Rand} `{Environment} `{FloatText}.

(** One round of the loop, as a step of the program. *)
Inductive step : world -> world -> Prop :=
| step_round first go w w' : loop_round first w = Ok (go, w') -> step w w'.
Definition reachable : world -> world -> Prop := rtc step.

Lemma step_inv w w' : step w w' -> wf w -> progress w w' /\ wf w'.
Proof. intros [first go v v' E] Hw. by destruct (inv_loop_round first _ _ _ E Hw) as (? & ? & _). Qed.

Lemma reachable_inv w w' : reachable w w' -> wf w -> progress w w' /\ wf w'.
Proof.
  induction 1 as [w|w1 w2 w3 Hs _ IH]; intros Hw; [done|].
  destruct (step_inv _ _ Hs Hw) as [P1 Hw2]. destruct (IH Hw2) as [P2 Hw3].
  split; [by etrans|done].
Qed.

Lemma hn_loop_steps n first w w' : hn_loop n first w = Ok (tt, w') -> reachable w w'.
Proof.
  revert first w. induction n as [|n IH]; intros first w E; cbn [hn_loop] in E.
  - injection E as <-. apply rtc_refl.
  - apply M_bind_inv in E as (go & w1 & E1 & E).
    apply (rtc_l _ _ w1); [by apply (step_round first go)|]. destruct go; [by apply (IH false)|].
    injection E as <-. apply rtc_refl.
Qed.

(** C6: Whatever the network does, a run of the event loop is a sequence of
    steps that keeps the state well-formed and the policy fixed. In every state
    it reaches: no object lies at an address still to be given out; the keys of
    every map are unique and fit their arrays, and so do the host, the one-time
    code, the ids and the salt of every hn_Socket and the name of every mDNS
    record; the mode, the keys that may connect, listen and query, and the
    authentication that is required are those of the start; and the log of
    system calls has only grown. *)
Theorem hn_loop_invariant n first w w' :
  wf w -> hn_loop n first w = Ok (tt, w') ->
  reachable w w' /\
  forall v, reachable w v -> wf v /\ policy (w_conf v) = policy (w_conf w) /\
    exists l, w_log v = l ++ w_log w.
Proof.
  intros Hw E. split; [by eapply hn_loop_steps|]. intros v Hv.
  destruct (reachable_inv _ _ Hv Hw) as [[Hp Hl] Hwf]. done.
Qed.
End Runs.

(** A bridge with an idle connection, and a peer that sends a line. *)
Definition idle_os : Os := demo_os 100 [$"hello" ++ HN_MSG_END].
Definition idle_env : Environment := fun _ => None.
Definition idle_rand : Rand := fun _ _ => 0.
Definition idle_inet6 : Inet6 := fun _ => false.
Definition idle_float : FloatText := {| printf_f := fun _ => []; strtod := fun _ => None |}.
Definition idle_world : world :=
  demo_world {[ 1%positive := demo_sock 7 false (buffer_init [] 0) ]} ∅
    (mkConfig HN_MODE_BRIDGE (Some (mkBridgeMode 80 [] [] [] 0 2 1 1 bridgeContextInit)) None None None None)
    [1%positive].
Definition idle_run : outcome (unit * world) :=
  @hn_loop idle_os 3%nat idle_inet6 idle_rand idle_env idle_float 2 true idle_world.
Lemma idle_wf : wf idle_world.
Proof.
  split.
  - intros x Hx. cbn in *. split; [|done]. apply lookup_singleton_None. intros <-. by apply Hx.
  - by intros a h.
  - intros bm [= <-]. split; cbn; [apply map_init_wf..|constructor].
Qed.
Lemma hn_loop_invariant_witness : exists w', idle_run = Ok (tt, w') /\
  received 7 (w_log w') = $"hello" ++ HN_MSG_END /\
  @reachable idle_os 3%nat idle_inet6 idle_rand idle_env idle_float idle_world w' /\
  forall v, @reachable idle_os 3%nat idle_inet6 idle_rand idle_env idle_float idle_world v ->
    wf v /\ policy (w_conf v) = policy (w_conf idle_world) /\ exists l, w_log v = l ++ [].
Proof.
  eexists. split; [vm_compute; reflexivity|]. split; [vm_compute; reflexivity|].
  apply (@hn_loop_invariant idle_os 3%nat idle_inet6 idle_rand idle_env idle_float 2 true);
    [exact idle_wf|vm_compute; reflexivity].
Defined.
