(* ===== verification/Listening.v ===== *)
(** * The table of listeners never dangles

    [entry w id h]: in bridge mode, the table holds the hn_Socket [h] under
    [id]. [listed_ok] is the invariant: such an object exists, is a listener,
    and knows its own id. An hn_Socket is freed in few places; what has to be
    known there (that it is not in the table) is carried by tokens: [Quiet T m
    U] is a run of [m] that needs the tokens [T], keeps the invariant and every
    token that holds, and yields the tokens [U] of its result. *)
From S2P Require Import Prelude CString Dns Str Containers Buffer IpAddr Auth ConfigFile.
From S2P Require Import Config Http Os Socket WaitLoop Store StoreFacts Protocol Handshake Mdns Bridge.
From S2P Require Import Frame Evolve Connect Invariant.

(** ** The invariant *)

Definition entry (w : world) (id : cstr) (h : addr) : Prop :=
  mode (w_conf w) = HN_MODE_BRIDGE /\ exists bm, bridge (w_conf w) = Some bm /\
    map_get (listeningSocks (context bm)) id = Some h.
Definition listed (w : world) (h : addr) : Prop := exists id, entry w id h.
Definition listed_ok (w : world) : Prop := forall id h, entry w id h ->
  exists hs, w_hsocks w !! h = Some hs /\ hn_mode hs = SOCK_MODE_LISTEN /\ listenId (listen_ hs) = id.

Record good (w : world) : Prop := { good_wf : wf w; good_listed : listed_ok w }.

(** ** Steps that add nothing to the table *)

Record calm (w w' : world) : Prop := {
  cm_entry : forall id h, entry w' id h -> entry w id h;
  cm_hn : forall h hs, listed w' h -> w_hsocks w !! h = Some hs ->
    exists hs', w_hsocks w' !! h = Some hs' /\ hn_mode hs' = hn_mode hs /\
      listenId (listen_ hs') = listenId (listen_ hs);
  cm_sock : forall a s' h, w_socks w' !! a = Some s' -> ptr s' = Some h ->
    (exists s, w_socks w !! a = Some s /\ ptr s = Some h) \/ ~ listed w' h }.

Lemma calm_listed w w' h : calm w w' -> listed w' h -> listed w h.
Proof. intros C [id E]. exists id. by apply (cm_entry _ _ C). Qed.

#[global] Instance calm_preorder : PreOrder calm.
Proof.
  split.
  - intros w. split; [done|intros h hs _ E; by exists hs|]. intros a s' h E Hp. left. by exists s'.
  - intros w1 w2 w3 C1 C2. split.
    + intros id h E. by apply (cm_entry _ _ C1), (cm_entry _ _ C2).
    + intros h hs Hl E. destruct (cm_hn _ _ C1 h hs) as (h2 & E2 & M2 & L2); [by eapply calm_listed|done|].
      destruct (cm_hn _ _ C2 h h2) as (h3 & E3 & M3 & L3); [done..|]. exists h3. split; [done|split; congruence].
    + intros a s3 h E Hp. destruct (cm_sock _ _ C2 a s3 h E Hp) as [(s2 & E2 & P2)|]; [|by right].
      destruct (cm_sock _ _ C1 a s2 h E2 P2) as [|Hn]; [by left|]. right. intros Hl. by apply Hn, (calm_listed _ _ _ C2).
Qed.

Lemma calm_ok w w' : calm w w' -> listed_ok w -> listed_ok w'.
Proof.
  intros C Hw id h E. destruct (Hw id h) as (hs & Eh & Hm & Hi); [by apply (cm_entry _ _ C)|].
  destruct (cm_hn _ _ C h hs) as (hs' & E' & M' & I'); [by exists id|done|]. exists hs'. split; [done|split; congruence].
Qed.

#[global] Instance frame_calm : subrelation frame calm.
Proof.
  intros w w' F. assert (He : forall id h, entry w' id h -> entry w id h) by (unfold entry; by rewrite (fr_conf _ _ F)).
  split; [done| |].
  - intros h hs _ E. pose proof (fr_hsocks _ _ F h) as Eh. rewrite E in Eh.
    destruct (w_hsocks w' !! h) as [hs'|]; [|done]. injection Eh as _ E1 _ _ E2. exists hs'. by rewrite E1, E2.
  - intros a s' h E Hp. left. pose proof (fr_socks _ _ F a) as Es. rewrite E in Es.
    destruct (w_socks w !! a) as [s|]; [|done]. injection Es as _ _ _ Ep. exists s. split; [done|congruence].
Qed.

Lemma calm_same_conf w w' : w_conf w' = w_conf w ->
  (forall h hs, listed w h -> w_hsocks w !! h = Some hs ->
    exists hs', w_hsocks w' !! h = Some hs' /\ hn_mode hs' = hn_mode hs /\
      listenId (listen_ hs') = listenId (listen_ hs)) ->
  (forall a s' h, w_socks w' !! a = Some s' -> ptr s' = Some h ->
    (exists s, w_socks w !! a = Some s /\ ptr s = Some h) \/ ~ listed w h) ->
  calm w w'.
Proof.
  intros Hc. assert (He : forall id h, entry w' id h <-> entry w id h) by (unfold entry; by rewrite Hc).
  assert (Hl : forall h, listed w' h <-> listed w h) by (intros h; unfold listed; by setoid_rewrite He).
  intros Hh Hs. split; [apply He|intros h hs; rewrite Hl; apply Hh|intros a s' h; rewrite Hl; apply Hs].
Qed.

Lemma calm_objects w w' : w_conf w' = w_conf w -> w_hsocks w' = w_hsocks w -> w_socks w' = w_socks w -> calm w w'.
Proof.
  intros Hc Hh Hs. apply calm_same_conf; [done|rewrite Hh; intros h hs _ E; by exists hs|].
  rewrite Hs. intros a s h E Hp. left. by exists s.
Qed.
Lemma calm_socks w m : (forall a s' h, m !! a = Some s' -> ptr s' = Some h ->
    (exists s, w_socks w !! a = Some s /\ ptr s = Some h) \/ ~ listed w h) -> calm w (set_socks m w).
Proof. intros Hm. apply calm_same_conf; [done|intros h hs _ E; by exists hs|done]. Qed.
Lemma calm_hsocks w m : (forall h hs, listed w h -> w_hsocks w !! h = Some hs ->
    exists hs', m !! h = Some hs' /\ hn_mode hs' = hn_mode hs /\ listenId (listen_ hs') = listenId (listen_ hs)) ->
  calm w (set_hsocks m w).
Proof. intros Hm. apply calm_same_conf; [done|done|]. intros a s h E Hp. left. by exists s. Qed.

(** Leaves of the code. *)
Lemma calm_upd_sock a w s s' : w_socks w !! a = Some s -> ptr s' = ptr s -> calm w (set_socks (<[a := s']> (w_socks w)) w).
Proof.
  intros E Hp. apply calm_socks. intros b t h. destruct (decide (b = a)) as [->|Hb].
  - rewrite lookup_insert_eq. intros [= <-] Ht. left. exists s. split; [done|congruence].
  - rewrite lookup_insert_ne by done. intros Et Ht. left. by exists t.
Qed.
Lemma calm_upd_hn a w h h' : w_hsocks w !! a = Some h ->
  ~ listed w a \/ (hn_mode h' = hn_mode h /\ listenId (listen_ h') = listenId (listen_ h)) ->
  calm w (set_hsocks (<[a := h']> (w_hsocks w)) w).
Proof.
  intros E Hk. apply calm_hsocks. intros b hs Hl Eb. destruct (decide (b = a)) as [->|Hb].
  - destruct Hk as [Hn|[Hm Hi]]; [done|]. rewrite lookup_insert_eq. exists h'. split; [done|]. split; congruence.
  - rewrite lookup_insert_ne by done. by exists hs.
Qed.
Lemma calm_free_sock a w : calm w (set_socks (delete a (w_socks w)) w).
Proof. apply calm_socks. intros b s h [_ E]%lookup_delete_Some Hp. left. by exists s. Qed.
Lemma calm_free_hn a w : ~ listed w a -> calm w (set_hsocks (delete a (w_hsocks w)) w).
Proof.
  intros Hn. apply calm_hsocks. intros b hs Hl E. exists hs. split; [|done].
  rewrite lookup_delete_ne; [done|]. by intros ->.
Qed.
(** A change of the context that only takes entries out of the table. *)
Lemma calm_set_context w bm bm' : bridge (w_conf w) = Some bm ->
  (forall id h, map_get (listeningSocks (context bm')) id = Some h -> map_get (listeningSocks (context bm)) id = Some h) ->
  calm w (set_conf (mkConfig (mode (w_conf w)) (Some bm') (rl (w_conf w)) (listen (w_conf w)) (connect (w_conf w))
    (query (w_conf w))) w).
Proof.
  intros Eb Hm. split.
  - intros id h (Hmo & b & Eb' & Hg). split; [done|]. exists bm. split; [done|]. injection Eb' as <-. by apply Hm.
  - intros h hs _ E. by exists hs.
  - intros a s h E Hp. left. by exists s.
Qed.

(** ** Tokens *)

(** The hn_Socket of a socket, or an hn_Socket, is not in the table. *)
Inductive token := TSock (a : addr) | THn (h : addr).
Definition holds (w : world) (t : token) : Prop :=
  match t with
  | TSock a => forall s h, w_socks w !! a = Some s -> ptr s = Some h -> ~ listed w h
  | THn h => ~ listed w h
  end.
Lemma calm_holds w w' t : calm w w' -> holds w t -> holds w' t.
Proof.
  intros C. destruct t as [a|h]; cbn.
  - intros Ha s h E Hp. destruct (cm_sock _ _ C a s h E Hp) as [(s0 & E0 & P0)|]; [|done].
    intros Hl. by apply (Ha s0 h), (calm_listed _ _ _ C).
  - intros Hn Hl. by apply Hn, (calm_listed _ _ _ C).
Qed.
Lemma calm_all w w' T : calm w w' -> Forall (holds w) T -> Forall (holds w') T.
Proof. intros C HT. eapply Forall_impl; [exact HT|]. intros t. by apply calm_holds. Qed.

Abbreviation none := (fun _ => []).
Class Quiet {A} (T : list token) (m : M A) (U : A -> list token) : Prop := quiet w r w' :
  m w = Ok (r, w') -> good w -> Forall (holds w) T ->
  good w' /\ calm w w' /\ Forall (holds w') (U r).

Section Rules.
Context {A B : Type}.

Lemma quiet_bind T (m : M A) (f : A -> M B) U V :
  Quiet T m U -> (forall a, Quiet (U a ++ T) (f a) V) -> Quiet T (m ≫= f) V.
Proof.
  intros Hm Hf w b w' (a & w1 & E1 & E2)%M_bind_inv Hg HT.
  destruct (Hm _ _ _ E1 Hg HT) as (Hg1 & C1 & HU).
  destruct (Hf a _ _ _ E2 Hg1) as (Hg2 & C2 & HV).
  { apply Forall_app. split; [done|]. by eapply calm_all. }
  split; [done|]. split; [by etrans|done].
Qed.
Lemma quiet_weaken T T' (m : M A) U U' :
  Quiet T m U -> T ⊆ T' -> (forall a, U' a ⊆ U a) -> Quiet T' m U'.
Proof.
  intros Hm HT HU w a w' E Hg Ht. destruct (Hm _ _ _ E Hg) as (? & ? & Hu).
  { rewrite Forall_forall in *. intros t Hin. by apply Ht, HT. }
  split; [done|]. split; [done|]. rewrite Forall_forall in *. intros t Hin. by apply Hu, (HU a).
Qed.
Lemma quiet_bind_post T (m : M A) (f : A -> M B) U V (P : A -> Prop) :
  Quiet T m U -> (forall w a w', m w = Ok (a, w') -> P a) ->
  (forall a, P a -> Quiet (U a ++ T) (f a) V) -> Quiet T (m ≫= f) V.
Proof.
  intros Hm HP Hf w b w' (a & w1 & E1 & E2)%M_bind_inv Hg HT.
  destruct (Hm _ _ _ E1 Hg HT) as (Hg1 & C1 & HU).
  destruct (Hf a (HP _ _ _ E1) _ _ _ E2 Hg1) as (Hg2 & C2 & HV).
  { apply Forall_app. split; [done|]. by eapply calm_all. }
  split; [done|]. split; [by etrans|done].
Qed.
Lemma quiet_bind_lift T (o : outcome A) (f : A -> M B) V :
  (forall a, o = Ok a -> Quiet T (f a) V) -> Quiet T (lift o ≫= f) V.
Proof.
  intros Hf w b w' (a & w1 & E1 & E2)%M_bind_inv Hg HT. unfold lift in E1. destruct o as [x|]; [|done].
  injection E1 as <- <-. by apply (Hf x).
Qed.
Lemma quiet_ret T (a : A) U : U a ⊆ T -> Quiet T (ret a) U.
Proof.
  intros HU w b w' [= <- <-] Hg Ht. split; [done|]. split; [done|].
  rewrite Forall_forall in *. intros t Hin. by apply Ht, HU.
Qed.
Lemma quiet_calm (m : M A) : Preserves calm m -> Inv m any -> Quiet [] m none.
Proof.
  intros Hc Hi w a w' E [Hw Hl] _. assert (C : calm w w') by by apply (Hc _ _ _ E).
  destruct (Hi _ _ _ E Hw) as (_ & Hw' & _). split; [split; [done|by eapply calm_ok]|]. by split.
Qed.
Lemma quiet_fail T f U : Quiet T (fail (A := A) f) U.
Proof. by intros w a w'. Qed.
Lemma quiet_keeps (m : M A) : Preserves frame m -> Inv m any -> Quiet [] m none.
Proof. intros Hf. apply quiet_calm. by apply (preserves_sub frame calm). Qed.
(** A read of the state. *)
Lemma quiet_read (m : M A) : (forall w a w', m w = Ok (a, w') -> w' = w) -> Quiet [] m none.
Proof. intros Hm w a w' E Hg _. by rewrite (Hm _ _ _ E). Qed.
End Rules.

Lemma quiet_lift {A} (o : outcome A) : Quiet [] (lift o) none.
Proof. apply quiet_read. intros w a w'. unfold lift. destruct o; by intros [= _ <-]. Qed.
Lemma quiet_get {A} (f : world -> A) : Quiet [] (get f) none.
Proof. apply quiet_read. by intros w a w' [= _ <-]. Qed.
Lemma quiet_deref {A} (p : option A) : Quiet [] (deref_M p) none.
Proof. apply quiet_lift. Qed.
Lemma quiet_get_hn h : Quiet [] (get_hn h) none.
Proof. apply quiet_read. intros w a w'. unfold get_hn. destruct (_ !! h); by intros [= _ <-]. Qed.
Lemma quiet_get_context : Quiet [] get_context none.
Proof.
  apply quiet_read. intros w a w'. unfold get_context, deref_M. run. destruct (bridge _); by intros [= _ <-].
Qed.
Lemma quiet_modify f : (forall w, w_socks (f w) = w_socks w /\ w_hsocks (f w) = w_hsocks w /\
    w_next (f w) = w_next w /\ w_conf (f w) = w_conf w /\ w_log (f w) = w_log w) ->
  Quiet [] (modify f) none.
Proof.
  intros Hf. apply quiet_calm; [|by apply inv_modify]. apply preserves_modify. intros w.
  destruct (Hf w) as (? & ? & _ & ? & _). by apply calm_objects.
Qed.
Lemma quiet_logged e : Quiet [] (logged e) none.
Proof. apply quiet_calm; [|apply inv_logged]. apply preserves_modify. intros w. by apply calm_objects. Qed.
Lemma quiet_upd_sock a f : (forall s, ptr (f s) = ptr s) -> Quiet [] (upd_sock a f) none.
Proof.
  intros Hf. apply quiet_calm; [|apply inv_upd_sock]. apply preserves_upd_sock. intros w s E.
  by eapply calm_upd_sock.
Qed.
Lemma quiet_free_sock a : Quiet [] (free_sock a) none.
Proof. apply quiet_calm; [|apply inv_free_sock]. apply preserves_free_sock. intros w. apply calm_free_sock. Qed.

(** What a socket points to. *)
Definition ptr_tokens (s : Socket) : list token := match ptr s with Some h => [THn h] | None => [] end.
Lemma quiet_get_sock a : Quiet [TSock a] (get_sock a) ptr_tokens.
Proof.
  intros w s w'. unfold get_sock. destruct (_ !! a) eqn:E; [|done]. intros [= <- <-] Hg [Ha _]%Forall_cons.
  split; [done|]. split; [done|]. unfold ptr_tokens. destruct (ptr s0) eqn:Ep; [|done].
  apply Forall_cons. split; [|done]. by eapply (Ha s0).
Qed.
Lemma quiet_get_sock_any a : Quiet [] (get_sock a) none.
Proof. apply quiet_read. intros w s w'. unfold get_sock. destruct (_ !! a); by intros [= _ <-]. Qed.

Lemma quiet_upd_hn a f : (forall h, hn_wf h -> hn_wf (f h)) ->
  (forall h, hn_mode (f h) = hn_mode h /\ listenId (listen_ (f h)) = listenId (listen_ h)) ->
  Quiet [] (upd_hn a f) none.
Proof.
  intros Hw Hf. apply quiet_calm; [|by apply inv_upd_hn]. apply preserves_upd_hn. intros w h E.
  eapply calm_upd_hn; [done|by right].
Qed.
(** An object that is not in the table may change in every way, and be freed. *)
Lemma quiet_upd_hn_own a f : (forall h, hn_wf h -> hn_wf (f h)) -> Quiet [THn a] (upd_hn a f) none.
Proof.
  intros Hf w u w' E [Hw Hl] [Ha _]%Forall_cons. destruct (inv_upd_hn a f Hf _ _ _ E Hw) as (_ & Hw' & _).
  assert (C : calm w w').
  { unfold upd_hn in E. destruct (_ !! a) eqn:E1; [|done]. injection E as <- <-.
    eapply calm_upd_hn; [done|by left]. }
  split; [split; [done|by eapply calm_ok]|]. by split.
Qed.
Lemma quiet_free_hn a : Quiet [THn a] (free_hn a) none.
Proof.
  intros w u w' E [Hw Hl] [Ha _]%Forall_cons. destruct (inv_free_hn a _ _ _ E Hw) as (_ & Hw' & _).
  assert (C : calm w w').
  { unfold free_hn in E. destruct (_ !! a) eqn:E1; [|done]. injection E as <- <-. by apply calm_free_hn. }
  split; [split; [done|by eapply calm_ok]|]. by split.
Qed.

Lemma quiet_set_ptr a h : Quiet [THn h] (upd_sock a (set_ptr (Some h))) (fun _ => [TSock a]).
Proof.
  intros w u w' E [Hw Hl] [Hh _]%Forall_cons. destruct (inv_upd_sock a _ _ _ _ E Hw) as (_ & Hw' & _).
  unfold upd_sock in E. destruct (w_socks w !! a) eqn:E1; [|done]. injection E as <- <-.
  assert (C : calm w (set_socks (<[a := set_ptr (Some h) s]> (w_socks w)) w)).
  { apply calm_socks. intros b t x. destruct (decide (b = a)) as [->|Hb].
    - rewrite lookup_insert_eq. intros [= <-] [= <-]. by right.
    - rewrite lookup_insert_ne by done. left. by exists t. }
  split; [split; [done|by eapply calm_ok]|]. split; [done|]. apply Forall_cons. split; [|done].
  intros t x. cbn. rewrite lookup_insert_eq. by intros [= <-] [= <-].
Qed.
Lemma quiet_clear_ptr a : Quiet [] (upd_sock a (set_ptr None)) none.
Proof.
  apply quiet_calm; [|apply inv_upd_sock]. apply preserves_upd_sock. intros w s E. apply calm_socks.
  intros b t x. destruct (decide (b = a)) as [->|Hb]; [rewrite lookup_insert_eq; by intros [= <-]|].
  rewrite lookup_insert_ne by done. left. by exists t.
Qed.
Lemma quiet_new_sock s : ptr s = None -> Quiet [] (new_sock s) (fun a => [TSock a]).
Proof.
  intros Hs w a w' E [Hw Hl] _. destruct (inv_new_sock s _ _ _ E Hw) as (_ & Hw' & _). injection E as <- <-.
  assert (C : calm w (set_nextaddr (Pos.succ (w_next w)) (set_socks (<[w_next w := s]> (w_socks w)) w))).
  { apply calm_same_conf; [done|intros h hs _ E; by exists hs|]. cbn. intros b t h.
    destruct (decide (b = w_next w)) as [->|Hb].
    - rewrite lookup_insert_eq. intros [= <-]. by rewrite Hs.
    - rewrite lookup_insert_ne by done. left. by exists t. }
  split; [split; [done|by eapply calm_ok]|]. split; [done|]. apply Forall_cons. split; [|done].
  intros t x. cbn. rewrite lookup_insert_eq. intros [= <-]. by rewrite Hs.
Qed.
Lemma quiet_new_hn h : hn_wf h -> Quiet [] (new_hn h) (fun a => [THn a]).
Proof.
  intros Hh w a w' E [Hw Hl] _. destruct (inv_new_hn h Hh _ _ _ E Hw) as (_ & Hw' & _). injection E as <- <-.
  assert (Hn : ~ listed w (w_next w)).
  { intros [id (hs & E & _)%Hl]. destruct (wf_heap _ Hw (w_next w)) as [_ En]; [lia|]. by rewrite E in En. }
  assert (C : calm w (set_nextaddr (Pos.succ (w_next w)) (set_hsocks (<[w_next w := h]> (w_hsocks w)) w))).
  { apply calm_same_conf; [done| |intros b s x E Hp; left; by exists s]. cbn. intros b hs Hb E. exists hs.
    rewrite lookup_insert_ne; [done|]. by intros <-. }
  split; [split; [done|by eapply calm_ok]|]. split; [done|]. apply Forall_cons. split; [|done].
  by apply (calm_holds w _ (THn (w_next w))).
Qed.
Lemma quiet_upd_context f : Inv (upd_context f) any ->
  (forall cx, context_wf cx -> forall id h, map_get (listeningSocks (f cx)) id = Some h ->
     map_get (listeningSocks cx) id = Some h) ->
  Quiet [] (upd_context f) none.
Proof.
  intros Hi Hf w u w' E [Hw Hl] _. destruct (Hi _ _ _ E Hw) as (_ & Hw' & _).
  unfold upd_context in E. revert E. run. destruct (bridge (w_conf w)) as [bm|] eqn:Eb; [|done].
  intros [= <- <-]. match goal with |- good ?w' /\ _ => assert (C : calm w w') end.
  { eapply calm_set_context; [done|]. cbn. apply Hf. by apply (wf_conf _ Hw). }
  split; [split; [done|by eapply calm_ok]|]. by split.
Qed.
(** A change of the context that leaves the table alone. *)
Lemma quiet_upd_rest f : Inv (upd_context f) any -> (forall cx, listeningSocks (f cx) = listeningSocks cx) ->
  Quiet [] (upd_context f) none.
Proof. intros Hi Hf. apply quiet_upd_context; [done|]. intros cx _ id h. by rewrite Hf. Qed.

(** ** Automation *)

Create HintDb quiet.
#[export] Hint Resolve quiet_lift quiet_get quiet_deref quiet_get_hn quiet_get_context quiet_logged
  quiet_free_sock quiet_clear_ptr quiet_get_sock_any | 1 : quiet.
#[export] Hint Resolve quiet_free_hn quiet_set_ptr | 0 : quiet.

Ltac tokens := first
  [ done | intros ? ?; cbn in *; rewrite ?elem_of_cons, ?elem_of_app, ?elem_of_nil in *; tauto ].
Ltac quiet_fact := first
  [ eassumption
  | solve [auto with quiet]
  | apply quiet_upd_sock; by intros ?
  | apply quiet_modify; by intros ?
  | apply quiet_upd_rest; [apply inv_upd_context; intros ? []; by split; [split|]|by intros ?]
  | apply quiet_upd_hn; [intros ? []; by split|by intros ?]
  | apply quiet_calm; [solve [auto with preserves typeclass_instances
      | apply (preserves_sub frame calm); auto with preserves typeclass_instances]|inv_known] ].
Ltac quiet_known := first
  [ eapply quiet_weaken; [apply quiet_get_sock|tokens|intros ? ? HU; exact HU]
  | eapply quiet_weaken; [solve [quiet_fact]|tokens|intros ? ? HU; exact HU] ].
Ltac quiet_step :=
  match goal with
  | |- Quiet _ (lift _ ≫= _) _ => apply quiet_bind_lift; intros ? ?
  | |- Quiet _ (_ ≫= _) _ => eapply quiet_bind; [quiet_known|intros ?; cbn beta]
  | |- Quiet _ (_ ≫= _) _ => apply (quiet_bind _ _ _ none); [|intros ?; cbn beta]
  | |- Quiet _ (ret _) _ => apply quiet_ret; tokens
  | |- Quiet _ (fail _) _ => apply quiet_fail
  | |- Quiet _ (match ptr ?s with _ => _ end) _ => unfold ptr_tokens; destruct (ptr s)
  | |- Quiet _ (match ?x with _ => _ end) _ => destruct x eqn:?
  | |- Quiet _ (when true _) _ => cbn [when]
  | |- Quiet _ (when false _) _ => cbn [when]
  | |- Quiet _ (when ?b _) _ => destruct b; cbn [when]
  | |- Quiet _ (let _ := _ in _) _ => cbv zeta
  | |- Quiet _ _ _ => eapply quiet_weaken; [solve [quiet_fact]|tokens|tokens]
  end.
Ltac quiets := repeat quiet_step.

(** ** Code that needs no token *)

Lemma calm_upd_rest f : (forall cx, listeningSocks (f cx) = listeningSocks cx) -> Preserves calm (upd_context f).
Proof.
  intros Hf w u w'. unfold upd_context. run. destruct (bridge (w_conf w)) as [bm|] eqn:Eb; [|done].
  intros [= <- <-]. eapply calm_set_context; [done|]. cbn. intros id h. by rewrite Hf.
Qed.
Lemma calm_free a : Preserves calm (free_sock a).
Proof. apply preserves_free_sock. intros w. apply calm_free_sock. Qed.
#[export] Hint Resolve calm_free : preserves.

Ltac calm_leaf := first
  [ by apply calm_objects
  | eapply calm_upd_sock; [eassumption|reflexivity]
  | eapply calm_upd_hn; [eassumption|right; by split] ].
Ltac calms := repeat first
  [ preserve_step calm_leaf
  | apply (preserves_sub frame calm); solve [auto with preserves typeclass_instances]
  | by apply calm_upd_rest ].

Section Calm.
Context `{Os} `{Fuel} `{Inet6} `{Rand}.

Lemma calm_getListeningSock id : Preserves calm (getListeningSock id).
Proof. unfold getListeningSock, get_context. calms. Qed.
Hint Resolve calm_getListeningSock : preserves.
Lemma calm_getWaitingSocket id otp : Preserves calm (getWaitingSocket id otp).
Proof. unfold getWaitingSocket. calms. Qed.
Lemma calm_addWaitingSock id otp h : Preserves calm (addWaitingSock id otp h).
Proof. unfold addWaitingSock. calms. Qed.
Lemma calm_removeWaitingSocket id otp : Preserves calm (removeWaitingSocket id otp).
Proof. unfold removeWaitingSocket. calms. Qed.
Hint Resolve calm_getWaitingSocket calm_addWaitingSock calm_removeWaitingSocket : preserves.

Lemma calm_set_flags a b : Preserves calm (set_flags a b).
Proof. unfold set_flags, sys_fcntl. calms. Qed.
Lemma calm_setNonBlocking a : Preserves calm (sock_setNonBlocking a).
Proof. apply calm_set_flags. Qed.
Lemma calm_setBlocking a : Preserves calm (sock_setBlocking a).
Proof. apply calm_set_flags. Qed.
Lemma calm_setTimeout a : Preserves calm (sock_setTimeout a).
Proof. unfold sock_setTimeout, sys_setsockopt. calms. Qed.
Lemma calm_createTcpConnection a ip : Preserves calm (createTcpConnection a ip).
Proof. unfold createTcpConnection, sys_socket, sys_connect. calms. Qed.
Hint Resolve calm_setTimeout calm_createTcpConnection : preserves.

Lemma calm_resolve id ctx : Preserves calm (resolve id ctx).
Proof. unfold resolve, dns_getIpAddr, getIpAddrForId, get_context. calms. Qed.
Lemma calm_wait_for_listener id h : Preserves calm (wait_for_listener id h).
Proof. unfold wait_for_listener. calms. Qed.
Lemma calm_connect_parts k a rest pass : Preserves calm (connect_parts k a rest pass).
Proof. revert rest pass. induction k as [|k IH]; intros rest pass; cbn [connect_parts]; calms. Qed.
Hint Resolve calm_resolve calm_wait_for_listener calm_connect_parts : preserves.
Lemma calm_initializeConnect url a h ctx : Preserves calm (initializeConnect url a h ctx).
Proof. unfold initializeConnect. calms. Qed.
Hint Resolve calm_initializeConnect : preserves.
Lemma calm_initializeListenConn id otp url a : Preserves calm (initializeListenConn id otp url a).
Proof. unfold initializeListenConn. calms. Qed.
Lemma calm_watch a : Preserves calm (watch a).
Proof. unfold watch. calms. Qed.
Lemma calm_link h a : Preserves calm (link h a).
Proof. unfold link. calms. Qed.
Lemma calm_sock_cleanup a : Preserves calm (sock_cleanup a).
Proof. unfold sock_cleanup. calms. Qed.
Lemma calm_done_waiting l : Preserves calm (done_waiting l).
Proof. induction l as [|i l IH]; cbn [done_waiting]; calms. Qed.
Lemma calm_sock_acceptNew a : Preserves calm (sock_acceptNew a).
Proof. unfold sock_acceptNew. calms. Qed.
End Calm.
#[export] Hint Resolve calm_getListeningSock calm_getWaitingSocket calm_addWaitingSock
  calm_removeWaitingSocket calm_setNonBlocking calm_setBlocking calm_setTimeout calm_createTcpConnection
  calm_initializeConnect calm_initializeListenConn calm_watch calm_link calm_sock_cleanup
  calm_done_waiting calm_sock_acceptNew : preserves.

Section CalmMdns.
Context `{Os} `{Fuel} `{Inet6} `{Rand} `{FloatText}.

Lemma calm_mdns_send p : Preserves calm (mdns_send p).
Proof. unfold mdns_send, sys_socket, sys_setsockopt. calms. Qed.
Hint Resolve calm_mdns_send : preserves.
Lemma calm_send_packet n q : Preserves calm (send_packet n q).
Proof. unfold send_packet. calms. Qed.
Hint Resolve calm_send_packet : preserves.
Lemma calm_sendMdnsQuery name : Preserves calm (sendMdnsQuery name).
Proof. unfold sendMdnsQuery. calms. Qed.
Lemma calm_udp_read a max : Preserves calm (udp_read a max).
Proof. unfold udp_read. calms. Qed.
Hint Resolve calm_udp_read : preserves.
Lemma calm_records_loop items max name n : Preserves calm (records_loop items max name n).
Proof. revert n. induction items as [|i items IH]; intros n; cbn [records_loop]; calms. Qed.
Hint Resolve calm_records_loop : preserves.
Lemma calm_getMdnsRecordsForName max name m : Preserves calm (getMdnsRecordsForName max name m).
Proof. unfold getMdnsRecordsForName. calms. Qed.
Lemma calm_answer_questions qs q : Preserves calm (answer_questions qs q).
Proof. induction qs as [|x qs IH]; cbn [answer_questions]; unfold get_context; calms. Qed.
Lemma calm_upd_record k f : Preserves calm (upd_record k f).
Proof. apply calm_upd_rest. intros cx. by destruct (map_get _ k). Qed.
Hint Resolve calm_upd_record calm_answer_questions : preserves.
Lemma calm_record_for name ip : Preserves calm (record_for name ip).
Proof. unfold record_for, get_context. calms. Qed.
Hint Resolve calm_record_for : preserves.
Lemma calm_txt_loop k save name ip rec : Preserves calm (txt_loop k save name ip rec).
Proof.
  revert save ip rec. induction k as [|k IH]; intros save ip rec; cbn [txt_loop]; unfold get_context; calms.
Qed.
Hint Resolve calm_txt_loop : preserves.
Lemma calm_record_answers ans ip : Preserves calm (record_answers ans ip).
Proof.
  revert ip. induction ans as [|a ans IH]; intros ip; cbn [record_answers]; unfold get_context, answer_text; calms.
Qed.
Hint Resolve calm_record_answers : preserves.
Lemma calm_handleMdnsRead a : Preserves calm (handleMdnsRead a).
Proof. unfold handleMdnsRead, get_context. calms. Qed.
End CalmMdns.
#[export] Hint Resolve calm_sendMdnsQuery calm_getMdnsRecordsForName calm_handleMdnsRead : preserves.

(** ** Sockets *)

#[export] Hint Resolve inv_watch inv_link inv_sock_cleanup inv_createTcpConnection inv_sendMdnsQuery : inv.

Lemma quiet_hn_sockInit s m u : Quiet [] (hn_sockInit s m u) (fun h => [THn h; TSock s]).
Proof.
  unfold hn_sockInit. eapply quiet_bind; [apply quiet_new_hn; split; try done; apply map_init_wf|intros h].
  eapply quiet_bind; [eapply quiet_weaken; [apply quiet_set_ptr|tokens|intros ? ? HU; exact HU]|intros u'].
  apply quiet_ret. tokens.
Qed.
Lemma quiet_createTcpSocket : Quiet [] createTcpSocket (fun a => [TSock a]).
Proof. by apply quiet_new_sock. Qed.
#[export] Hint Resolve quiet_hn_sockInit quiet_createTcpSocket : quiet.

(** An entry of the table, without the entry of an id. *)
Lemma shrink_table cx id b id' h : context_wf cx ->
  map_get (map_del (listeningSocks cx) id b).1.2 id' = Some h ->
  id' <> id /\ map_get (listeningSocks cx) id' = Some h.
Proof.
  intros Hc. destruct (map_del_spec (listeningSocks cx) id b (cw_listeners _ Hc)) as (m & E & G & _).
  rewrite E. cbn. rewrite !map_get_lookup, G. by intros [? ?]%lookup_delete_Some.
Qed.
(** The entries that are left when an id is taken out. *)
Lemma unregistered id w w' id' h : upd_context (fun cx =>
    set_listeningSocks (snd (fst (map_del (listeningSocks cx) id false))) cx) w = Ok (tt, w') -> wf w ->
  entry w' id' h -> id' <> id /\ entry w id' h.
Proof.
  unfold upd_context. run. destruct (bridge (w_conf w)) as [bm|] eqn:Eb; [|done].
  intros [= <-] Hw (Hm & bm' & [= <-] & Hg). cbn in Hm, Hg. apply shrink_table in Hg as [Hne Hg]; [|by apply (wf_conf _ Hw)].
  split; [done|]. split; [done|]. by exists bm.
Qed.
Lemma quiet_unregister id : Quiet [] (upd_context (fun cx =>
  set_listeningSocks (snd (fst (map_del (listeningSocks cx) id false))) cx)) none.
Proof.
  apply quiet_upd_context.
  - apply inv_upd_context. intros cx []. split; [split|]; cbn; try done. by apply map_del_wf.
  - intros cx Hc id' h. cbn. intros E. by apply (shrink_table cx id false id' h) in E as [_ E].
Qed.
#[export] Hint Resolve quiet_unregister : quiet.

Lemma quiet_hn_sockCleanup h ctx : Quiet [THn h] (hn_sockCleanup h ctx) none.
Proof.
  unfold hn_sockCleanup. quiets.
  - eapply quiet_weaken; [apply quiet_upd_hn|tokens|tokens].
    + intros hs Hs. apply hn_wf_waiting; [done|apply map_init_wf].
    + by intros hs.
Qed.

(** The bridge takes the listener out of the table before it frees it. *)
Lemma quiet_hn_sockCleanup_ctx h : Quiet [] (hn_sockCleanup h true) none.
Proof.
  intros w u w' E Hg _. destruct (decide (mode (w_conf w) = HN_MODE_BRIDGE)) as [Hm|Hm].
  2:{ apply (quiet_hn_sockCleanup h true _ _ _ E Hg). apply Forall_cons. split; [|done]. by intros [id [? _]]. }
  destruct (w_hsocks w !! h) as [hs|] eqn:Eh.
  2:{ unfold hn_sockCleanup, get_hn in E. revert E. run. by rewrite Eh. }
  destruct (decide (hn_mode hs = SOCK_MODE_LISTEN)) as [Hl|Hl].
  2:{ apply (quiet_hn_sockCleanup h true _ _ _ E Hg). apply Forall_cons. split; [|done].
      intros [id (hs' & E' & M' & _)%(good_listed _ Hg)]. congruence. }
  unfold hn_sockCleanup in E. apply M_bind_inv in E as (hs' & w0 & E0 & E). unfold get_hn in E0.
  rewrite Eh in E0. injection E0 as <- <-. rewrite Hl, bool_decide_false, bool_decide_true in E by done.
  apply M_bind_inv in E as ([] & w3 & E3 & E). apply M_bind_inv in E3 as ([] & w1 & E1 & E3).
  apply M_bind_inv in E3 as ([] & w2 & E2 & E3). cbn [when] in E3.
  assert (Q1 : Quiet [] (done_waiting (start (waitingSocks (listen_ hs)));; upd_hn h (set_waiting map_init)) none).
  { quiets. eapply quiet_weaken; [apply quiet_upd_hn|tokens|tokens]; [|by intros ?].
    intros h' Hh'. apply hn_wf_waiting; [done|apply map_init_wf]. }
  destruct (Q1 w tt w2) as (G2 & C2 & _); [|done|done|].
  { unfold mbind, M_bind. by rewrite E1. }
  destruct (quiet_unregister (listenId (listen_ hs)) _ _ _ E3 G2 (Forall_nil_2 _)) as (G3 & C3 & _).
  destruct (quiet_free_hn h _ _ _ E G3) as (G & C & _).
  { apply Forall_cons. split; [|done]. intros [id He].
    apply (unregistered _ _ _ _ _ E3 (good_wf _ G2)) in He as [Hne He]. apply Hne.
    apply (cm_entry _ _ C2), (good_listed _ Hg) in He as (hs' & E' & _ & <-). congruence. }
  split; [done|]. split; [by repeat (etrans; [eassumption|])|done].
Qed.
#[export] Hint Resolve quiet_hn_sockCleanup : quiet.

Lemma quiet_sock_destroy a ctx : Quiet [TSock a] (sock_destroy a ctx) none.
Proof. unfold sock_destroy. quiets. Qed.
#[export] Hint Resolve quiet_sock_destroy : quiet.

#[local] Hint Resolve evolves_authSolve evolves_sys_write evolves_sys_recv : preserves.
Section Client.
Context `{Os} `{Fuel} `{Inet6} `{Rand}.

Lemma quiet_initializeListenNotify id salt url a : Quiet [TSock a] (initializeListenNotify id salt url a) none.
Proof.
  unfold initializeListenNotify. quiets.
  eapply quiet_weaken; [apply quiet_upd_hn_own|tokens|tokens]. intros h []. sizes. by split.
Qed.
Hint Resolve quiet_initializeListenNotify : quiet.

Lemma quiet_tryRLStart : Quiet [] tryRLStart none.
Proof. unfold tryRLStart. quiets. Qed.
Lemma quiet_createRelay a url ctx : Quiet [] (createRelay a url ctx) (fun _ => [TSock a]).
Proof. unfold createRelay. quiets. Qed.
Lemma quiet_refuse a : Quiet [TSock a] (refuse a) none.
Proof. unfold refuse. quiets. Qed.
End Client.
#[export] Hint Resolve quiet_tryRLStart quiet_createRelay quiet_refuse : quiet.

(** ** Events

    [Settles]: the invariant holds again, though the table may have grown. *)

Class Settles {A} (T : list token) (m : M A) (U : A -> list token) : Prop := settle w r w' :
  m w = Ok (r, w') -> good w -> Forall (holds w) T -> good w' /\ Forall (holds w') (U r).

Lemma quiet_settles {A} T (m : M A) U : Quiet T m U -> Settles T m (fun r => U r ++ T).
Proof.
  intros Hm w r w' E Hg HT. destruct (Hm _ _ _ E Hg HT) as (Hg' & C & HU). split; [done|].
  apply Forall_app. split; [done|]. by eapply calm_all.
Qed.
Lemma settles_bind {A B} T (m : M A) (f : A -> M B) U V :
  Settles T m U -> (forall a, Settles (U a) (f a) V) -> Settles T (m ≫= f) V.
Proof.
  intros Hm Hf w b w' (a & w1 & E1 & E2)%M_bind_inv Hg HT.
  destruct (Hm _ _ _ E1 Hg HT) as [Hg1 HU]. by eapply Hf.
Qed.
Lemma settles_weaken {A} T T' (m : M A) U U' :
  Settles T m U -> T ⊆ T' -> (forall a, U' a ⊆ U a) -> Settles T' m U'.
Proof.
  intros Hm HT HU w a w' E Hg Ht. destruct (Hm _ _ _ E Hg) as [? Hu].
  { rewrite Forall_forall in *. intros t Hin. by apply Ht, HT. }
  split; [done|]. rewrite Forall_forall in *. intros t Hin. by apply Hu, (HU a).
Qed.
Lemma settles_ret {A} T (a : A) U : U a ⊆ T -> Settles T (ret a) U.
Proof. intros HU w b w' E Hg HT. by destruct (quiet_ret T a U HU _ _ _ E Hg HT) as (? & _ & ?). Qed.
Lemma settles_quiet {A} T T' (m : M A) : Quiet T m none -> T ⊆ T' -> Settles T' m none.
Proof. intros Hm HT. eapply settles_weaken; [by apply quiet_settles|done|]. by intros a t ?%elem_of_nil. Qed.

Ltac settle_quiet := eapply settles_bind; [eapply quiet_settles, quiet_weaken; [solve [quiet_fact]|tokens|intros ? ? HU; exact HU]|intros ?].

Section Events.
Context `{Os} `{Fuel} `{Inet6} `{Rand} `{Environment} `{FloatText}.
#[local] Hint Resolve evolves_authSolve evolves_sys_write evolves_sys_recv : preserves.

Lemma quiet_new_listen a : Quiet [TSock a] (new_listen a) none.
Proof. unfold new_listen. quiets. Qed.
Lemma quiet_new_connect a buff : Quiet [TSock a] (new_connect a buff) none.
Proof. unfold new_connect. quiets. Qed.
Lemma quiet_getSalt id : Quiet [] (getSaltForListenId id) none.
Proof. unfold getSaltForListenId. quiets. Qed.
Hint Resolve quiet_getSalt : quiet.
Lemma quiet_listen_id a id : Quiet [] (listen_id a id) none.
Proof. unfold listen_id. quiets. Qed.
Lemma quiet_new_listen_connect a buff : Quiet [TSock a] (new_listen_connect a buff) none.
Proof. unfold new_listen_connect. quiets. Qed.
Lemma quiet_send_records a items : Quiet [] (send_records a items) none.
Proof. induction items as [|i items IH]; cbn [send_records]; quiets. Qed.
Hint Resolve quiet_send_records : quiet.
Lemma quiet_new_query a buff : Quiet [TSock a] (new_query a buff) none.
Proof. unfold new_query. quiets. Qed.
Lemma quiet_new_http a buff : Quiet [TSock a] (new_http a buff) none.
Proof. unfold new_http. quiets. Qed.
Hint Resolve quiet_new_listen quiet_new_connect quiet_listen_id quiet_new_listen_connect
  quiet_new_query quiet_new_http : quiet.

Lemma map_set_get {V} (m m' : Map V) k v b fr k' : map_set m k v b = Ok (m', fr) ->
  map_get m' k' = if decide (k' = k) then Some v else map_get m k'.
Proof.
  intros E. assert (Hk : map_get m k <> None \/ zlen k < ITEM_KEY_SIZE).
  { unfold map_set, map_get in *. destruct (map_getItem m k); [left; discriminate|right].
    apply bind_ok in E as (k0 & E & _). by apply strcpy_ok in E as [_ E]. }
  destruct (map_set_ok m k v b Hk) as (m2 & fr2 & E2 & G & _). assert (m2 = m') as -> by congruence.
  rewrite !map_get_lookup, G. destruct (decide (k' = k)) as [->|Hne].
  - by rewrite lookup_insert_eq.
  - by rewrite lookup_insert_ne.
Qed.
Lemma inv_add_listener cx k h b m fr : context_wf cx -> map_set (listeningSocks cx) k h b = Ok (m, fr) ->
  Inv (upd_context (set_listeningSocks m)) any.
Proof.
  intros Hc E. apply map_set_inv in E as [E _]; [|by apply cw_listeners].
  apply inv_upd_context. intros cx' []. by split; [split|].
Qed.

(** The registration of a listener under its id. *)
Lemma settles_register {A} a id (k : M A) : Quiet [] k none -> Settles [] (
    h ← hn_sockInit a SOCK_MODE_LISTEN true;
    i ← lift (str_set 20 id);
    upd_hn h (fun hs => set_listen (mkListenNotif (salt (listen_ hs)) i (waitingSocks (listen_ hs))) hs);;
    cx ← get_context;
    '(m, _) ← lift (map_set (listeningSocks cx) id h false);
    upd_context (set_listeningSocks m);;
    k) none.
Proof.
  intros Hk w u w' E Hg _. apply M_bind_inv in E as (h & w1 & E1 & E).
  apply M_bind_inv in E as (i & w1' & E2 & E). unfold lift in E2.
  destruct (str_set 20 id) as [i'|] eqn:Ei; [|done]. injection E2 as -> <-. apply strcpy_ok in Ei as [-> Hi].
  apply M_bind_inv in E as ([] & w2 & E2 & E).
  apply M_bind_inv in E as (cx & w2' & E3 & E). apply M_bind_inv in E as ([m fr] & w2'' & E4 & E).
  apply M_bind_inv in E as ([] & w3 & E & Ek).
  assert (E3' : w2' = w2 /\ exists bm, bridge (w_conf w2) = Some bm /\ cx = context bm).
  { unfold get_context in E3. revert E3. run. destruct (bridge (w_conf w2)) as [bm|] eqn:Eb; [|done].
    intros [= <- <-]. split; [done|by exists bm]. }
  destruct E3' as (-> & bm & Eb & ->). unfold lift in E4.
  destruct (map_set _ _ _ _) as [[m' fr']|] eqn:Em; [|done]. injection E4 as -> -> <-.
  destruct (quiet_hn_sockInit a SOCK_MODE_LISTEN true _ _ _ E1 Hg (Forall_nil_2 _)) as (G1 & _ & [Hh _]%Forall_cons).
  eapply quiet_upd_hn_own in E2 as Q2; [|intros h' []; by split]. destruct (Q2 G1) as (G2 & _ & _); [by repeat constructor|].
  assert (Hl : exists hs, w_hsocks w2 !! h = Some hs /\ hn_mode hs = SOCK_MODE_LISTEN /\ listenId (listen_ hs) = id).
  { unfold upd_hn in E2. destruct (w_hsocks w1 !! h) as [hs|] eqn:Eh; [|done]. injection E2 as <-. cbn.
    rewrite lookup_insert_eq. eexists. split; [done|]. cbn. split; [|done].
    unfold hn_sockInit, new_hn, upd_sock in E1. revert E1. run. cbn. destruct (w_socks w !! a); [|done].
    intros [= <- <-]. cbn in Eh. rewrite lookup_insert_eq in Eh. by injection Eh as <-. }
  assert (Hc : context_wf (context bm)) by by apply (wf_conf _ (good_wf _ G2)).
  destruct (inv_add_listener _ _ _ _ _ _ Hc Em _ _ _ E (good_wf _ G2)) as (_ & Hw & _).
  assert (G3 : good w3); [|by destruct (Hk _ _ _ Ek G3 (Forall_nil_2 _)) as (G & _ & _)].
  split; [done|]. revert E. unfold upd_context. run. rewrite Eb. intros [= <-].
  intros id' x (Hm & bm' & [= <-] & Hx). cbn in Hm, Hx. rewrite (map_set_get _ _ _ _ _ _ id' Em) in Hx.
  destruct (decide (id' = id)) as [->|Hne]; [by injection Hx as <-|].
  apply (good_listed _ G2). split; [done|]. by exists bm.
Qed.

Lemma settles_new_listen_notify a buff : Settles [TSock a] (new_listen_notify a buff) none.
Proof.
  unfold new_listen_notify. settle_quiet. settle_quiet. settle_quiet. settle_quiet.
  match goal with |- Settles _ (match ?g with _ => _ end) _ => destruct g as [listenId|] end.
  - eapply settles_weaken; [apply settles_register; quiets|tokens|tokens].
  - eapply settles_quiet; [apply quiet_refuse|tokens].
Qed.
Hint Resolve settles_new_listen_notify : quiet.

(** The socket is still not in the table when the next message is to be handled. *)
Definition again_tokens (a : addr) (r : bool * verdict) : list token := if r.1 then [TSock a] else [].
Lemma settles_verdict a (m : M verdict) : Quiet [TSock a] m none ->
  Settles [TSock a] (v ← m; ret (false, v)) (again_tokens a).
Proof. intros Hm. eapply settles_weaken; [apply quiet_settles; quiets|done|intros [[] v]; tokens]. Qed.
Lemma settles_dispatch a buff : Settles [TSock a] (dispatch a buff) (again_tokens a).
Proof.
  unfold dispatch. settle_quiet. cbv zeta. change ([] ++ [TSock a]) with [TSock a].
  repeat match goal with |- Settles _ (if ?b then _ else _) _ => destruct b end;
    try (apply settles_verdict; solve [auto with quiet]).
  - eapply settles_bind; [apply settles_new_listen_notify|intros v].
    by apply settles_ret.
  - eapply settles_weaken; [apply quiet_settles, quiet_new_http|done|intros [[] v]; tokens].
Qed.

Lemma settles_handleNew k a : Settles [TSock a] (handleNew k a) none.
Proof.
  induction k as [|k IH]; cbn [handleNew]; [by intros w r w'|].
  settle_quiet. eapply (settles_bind _ _ _ (again_tokens a)).
  - destruct (bool_decide _).
    + eapply settles_weaken; [apply settles_verdict, quiet_new_listen|tokens|done].
    + settle_quiet. settle_quiet. settle_quiet. destruct a3. eapply settles_weaken; [apply settles_dispatch|tokens|done].
  - intros [again v]. destruct again.
    + eapply settles_weaken; [exact IH|tokens|done].
    + destruct v; [|by apply settles_ret]. eapply settles_quiet; [quiets|tokens].
Qed.

Lemma quiet_relay_loop k a n r d : Quiet [] (relay_loop k a n r d) none.
Proof. revert r d. induction k as [|k IH]; intros r d; cbn [relay_loop]; quiets. Qed.
Hint Resolve quiet_relay_loop : quiet.
Lemma quiet_read_relay a h : Quiet [] (read_relay a h) none.
Proof. unfold read_relay. quiets. Qed.
Lemma quiet_read_listen a : Quiet [] (read_listen a) none.
Proof. unfold read_listen. quiets. Qed.
Lemma quiet_sock_readDump a : Quiet [] (sock_readDump a) none.
Proof. unfold sock_readDump. quiets. Qed.
Hint Resolve quiet_read_relay quiet_read_listen quiet_sock_readDump : quiet.

Ltac settle_end := first
  [ by apply settles_ret
  | eapply settles_weaken; [apply settles_handleNew|tokens|done]
  | eapply settles_quiet; [quiets|tokens] ].
Ltac settle_step := match goal with
  | |- Settles _ (match ?x with _ => _ end) _ => destruct x eqn:?
  | |- Settles _ (let _ := _ in _) _ => cbv zeta
  | |- Settles _ (_ ≫= _) _ => settle_quiet
  end.
Lemma settles_read_listen_out a h : Settles [] (read_listen_out a h) none.
Proof.
  unfold read_listen_out. settle_quiet.
  eapply settles_bind; [eapply quiet_settles; instantiate (1 := none); quiets|intros url].
  repeat settle_step; settle_end.
Qed.
Lemma settles_handleRead a : Settles [] (handleRead a) none.
Proof.
  unfold handleRead. settle_quiet. settle_step; [|settle_end]. settle_quiet.
  settle_step; [settle_end|]. settle_step; [|settle_end].
  eapply settles_weaken; [apply settles_read_listen_out|tokens|done].
Qed.

(** Outside bridge mode the table has no entries. *)
Lemma quiet_handleClose a : Quiet [] (handleClose a) none.
Proof.
  intros w r w' E Hg HT. unfold handleClose in E. apply M_bind_inv in E as (s & w1 & E1 & E).
  unfold get_sock in E1. destruct (w_socks w !! a) as [s'|]; [|done]. injection E1 as -> <-.
  apply M_bind_inv in E as (c & w1 & [= <- <-] & E). cbv zeta in E.
  destruct (ptr s) as [h|]; [|apply (quiet_ret [] 0 none ltac:(tokens) _ _ _ E Hg HT)].
  case_bool_decide as Hm.
  - assert (Q := quiet_hn_sockCleanup_ctx h). match type of E with ?m _ = _ => assert (HQ : Quiet [] m none) by quiets end.
    by apply (HQ _ _ _ E).
  - match type of E with ?m _ = _ => assert (HQ : Quiet [THn h] m none) by quiets end.
    apply (HQ _ _ _ E Hg). apply Forall_cons. split; [|done]. by intros [id [? _]].
Qed.

Lemma quiet_houseKeeping : Quiet [] houseKeeping none.
Proof. unfold houseKeeping. quiets. Qed.
Hint Resolve quiet_handleClose quiet_houseKeeping : quiet.

(** The socket of a new connection points to nothing. *)
Definition event_tokens (e : option (Z * addr)) : list token :=
  match e with Some (ev, a) => if bool_decide (ev = SOCK_EVENT_NEW) then [TSock a] else [] | None => [] end.
Lemma quiet_remove_closed : Quiet [] remove_closed none.
Proof. unfold remove_closed. quiets. Qed.
Lemma quiet_collect_fds l r w : Quiet [] (collect_fds l r w) none.
Proof. revert r w. induction l as [|a l IH]; intros r w; cbn [collect_fds]; quiets. Qed.
Lemma quiet_list_socks : Quiet [] list_socks none.
Proof. unfold list_socks. quiets. Qed.
Hint Resolve quiet_remove_closed quiet_collect_fds quiet_list_socks : quiet.
Lemma accepted_ptr a w r w' : sock_acceptNew a w = Ok (r, w') -> forall s, r = Some s -> ptr s = None.
Proof.
  intros E s ->. revert E. unfold sock_acceptNew. intros (s0 & w0 & _ & E)%M_bind_inv. destruct (negb _ || _); [done|].
  apply M_bind_inv in E as (l & w1 & _ & E). cbv zeta in E. apply M_bind_inv in E as ([] & w2 & _ & E).
  destruct (os_accept l (fd s0)) as [[f ip]|]; [by injection E as <-|].
  by apply M_bind_inv in E as ([] & w3 & _ & E).
Qed.
Lemma quiet_process_fds l : Quiet [] (process_fds l) event_tokens.
Proof.
  induction l as [|a l IH]; cbn [process_fds]; [by apply quiet_ret|].
  unfold done_read, done_write. quiet_step. quiet_step; [|by apply quiet_ret]. quiet_step. cbv zeta.
  apply (quiet_bind _ _ _ event_tokens).
  - quiet_step; [|by apply quiet_ret]. quiet_step.
    + eapply (quiet_bind_post _ _ _ _ _ (fun r => forall s, r = Some s -> ptr s = None));
        [quiet_known|apply accepted_ptr|]. intros [ns|] Hp; [|quiets].
      eapply quiet_bind; [eapply quiet_weaken; [by apply quiet_new_sock, Hp|tokens|intros ? ? HU; exact HU]|intros na].
      quiet_step. apply quiet_ret. tokens.
    + quiets.
  - intros [[ev b]|]; [by apply quiet_ret; tokens|]. quiets.
Qed.
Hint Resolve quiet_process_fds : quiet.

Definition wait_tokens (r : Z * option addr) : list token :=
  match r with (ev, Some a) => event_tokens (Some (ev, a)) | (ev, None) => [] end.
Lemma quiet_waitForEvent k first : Quiet [] (waitForEvent k first) wait_tokens.
Proof.
  revert first. induction k as [|k IH]; intros first; cbn [waitForEvent]; unfold set_wait_sets; quiets.
Qed.

Lemma settles_processEvent ev sel : Settles (wait_tokens (ev, sel)) (processEvent sel ev) none.
Proof.
  assert (Hd : forall (m : addr -> M Z) (r : bool) T, (forall a, sel = Some a -> Settles T (m a) none) ->
    Settles T (a ← deref_M sel; _ ← m a; ret r) none).
  { intros m r T Hm. destruct sel as [a|]; [|by intros w x w'].
    change (Settles T (_ ← m a; ret r) none). eapply settles_bind; [by apply Hm|intros ?; by apply settles_ret]. }
  unfold processEvent. case_bool_decide; [|case_bool_decide; [|case_bool_decide; [|apply settles_ret; tokens]]].
  - apply Hd. intros a _. eapply settles_weaken; [apply settles_handleRead|tokens|done].
  - apply Hd. intros a ->. eapply settles_weaken; [apply settles_handleNew| |done].
    unfold wait_tokens, event_tokens. by case_bool_decide.
  - apply Hd. intros a _. eapply settles_quiet; [apply quiet_handleClose|tokens].
Qed.

Lemma settles_loop_round first : Settles [] (loop_round first) none.
Proof.
  unfold loop_round. eapply settles_bind; [apply quiet_settles, quiet_waitForEvent|intros [ev sel]].
  settle_step; [settle_end|]. settle_step; [settle_end|].
  eapply settles_bind; [eapply settles_weaken; [apply settles_processEvent|tokens|done]|intros b].
  eapply settles_quiet; [quiets|done].
Qed.

(** ** Runs *)

Lemma reachable_good w w' : reachable w w' -> good w -> good w'.
Proof.
  induction 1 as [w|w1 w2 w3 [first go v v' E] _ IH]; intros Hg; [done|].
  apply IH. by destruct (settles_loop_round first _ _ _ E Hg (Forall_nil_2 _)).
Qed.

Lemma good_store w : good w -> mode (w_conf w) = HN_MODE_BRIDGE -> bridge (w_conf w) <> None -> store_ok w.
Proof.
  intros [Hw Hl] Hm Hb. split; [done| |].
  - intros bm id la Eb Hg. destruct (Hl id la) as (h & E & _); [|by exists h]. split; [done|]. by exists bm.
  - intros la h E. by apply hw_waiting, (wf_hn _ Hw la).
Qed.

(** C7: In every state the event loop of a bridge reaches, the table of
    listeners holds no dangling pointer: each id of the table leads to an
    hn_Socket that exists, is a listener and carries that very id, whatever
    connections come, listen, wait and close in whatever order. So looking up a
    waiting socket never uses freed memory: it succeeds, changes nothing, and
    finds what the abstract store holds. *)
Theorem listeners_never_dangle w v :
  wf w -> listed_ok w -> mode (w_conf w) = HN_MODE_BRIDGE -> bridge (w_conf w) <> None ->
  reachable w v ->
  (forall bm id h, bridge (w_conf v) = Some bm -> map_get (listeningSocks (context bm)) id = Some h ->
     exists hs, w_hsocks v !! h = Some hs /\ hn_mode hs = SOCK_MODE_LISTEN /\ listenId (listen_ hs) = id) /\
  forall id otp, getWaitingSocket id otp v = Ok (waiting v id !! otp, v).
Proof.
  intros Hw Hl Hm Hb Hr. pose proof (reachable_good _ _ Hr (Build_good _ Hw Hl)) as Hg.
  destruct (reachable_inv _ _ Hr Hw) as [[Hp _] _].
  assert (Hm' : mode (w_conf v) = HN_MODE_BRIDGE) by (injection Hp; congruence).
  assert (Hb' : bridge (w_conf v) <> None).
  { intros Eb. injection Hp. rewrite Eb. destruct (bridge (w_conf w)); done. }
  split; [|intros id otp; by apply getWaitingSocket_ok, good_store].
  intros bm id h Eb Hg'. apply (good_listed _ Hg). split; [done|]. by exists bm.
Qed.
End Events.

(** A bridge without authentication, and a peer that asks to listen. *)
Definition listen_os : Os := demo_os 100 [$"HN1.0/LISTEN_NOTIFY cam" ++ HN_MSG_END].
Definition server_world : world :=
  demo_world {[ 1%positive := set_isServer true (demo_sock 7 false (buffer_init [] 0)) ]} ∅
    (mkConfig HN_MODE_BRIDGE (Some (mkBridgeMode 80 [] [] [] 0 2 1 0 bridgeContextInit)) None None None None)
    [1%positive].
Definition listen_round : outcome (bool * world) :=
  @loop_round listen_os 3%nat idle_inet6 idle_rand idle_env idle_float true server_world.
Definition listen_world : world := match listen_round with Ok (_, v) => v | Fail _ => server_world end.
Lemma server_wf : wf server_world.
Proof.
  split.
  - intros x Hx. cbn in *. split; [|done]. apply lookup_singleton_None. intros <-. by apply Hx.
  - by intros a h.
  - intros bm [= <-]. split; cbn; [apply map_init_wf..|constructor].
Qed.
Lemma listen_reachable :
  @reachable listen_os 3%nat idle_inet6 idle_rand idle_env idle_float server_world listen_world.
Proof.
  eapply rtc_l; [|apply rtc_refl].
  apply (@step_round listen_os 3%nat idle_inet6 idle_rand idle_env idle_float true true).
  by vm_compute.
Qed.
Lemma listeners_never_dangle_witness :
  (exists bm, bridge (w_conf listen_world) = Some bm /\
     map_get (listeningSocks (context bm)) $"aaaaaaaaaa" = Some 101%positive) /\
  (forall bm id h, bridge (w_conf listen_world) = Some bm ->
     map_get (listeningSocks (context bm)) id = Some h ->
     exists hs, w_hsocks listen_world !! h = Some hs /\ hn_mode hs = SOCK_MODE_LISTEN /\
       listenId (listen_ hs) = id) /\
  forall id otp, getWaitingSocket id otp listen_world = Ok (waiting listen_world id !! otp, listen_world).
Proof.
  split; [eexists; split; [vm_compute; reflexivity|by vm_compute]|].
  apply (@listeners_never_dangle listen_os 3%nat idle_inet6 idle_rand idle_env idle_float server_world listen_world);
    [exact server_wf|by intros id h (_ & bm & [= <-] & ?)|done|done|exact listen_reachable].
Defined.
