(* ===== verification/Retry.v ===== *)
(** * The bridge's listener at another bridge

    When the connection to the remote bridge is lost or cannot be made, the
    event loop tries again, later and later, but at least every half hour of the
    rounds in which something happens: a round that times out does nothing. *)
From S2P Require Import Prelude CString Dns Str Containers Buffer IpAddr Auth ConfigFile.
From S2P Require Import Config Http Os Socket WaitLoop WaitFacts Store Protocol Messages.
From S2P Require Import Frame Handshake Evolve AuthSocket Mdns MdnsFacts Bridge Connect.

(** Configuration, watched sockets, and which sockets there are. *)
Record same_socks (w w' : world) : Prop := {
  ss_conf : w_conf w' = w_conf w;
  ss_list : w_sockList w' = w_sockList w;
  ss_socks : forall a, sock_kind <$> w_socks w' !! a = sock_kind <$> w_socks w !! a }.
#[global] Instance same_socks_preorder : PreOrder same_socks.
Proof.
  split; [by split|]. intros w1 w2 w3 [] []. split; congruence.
Qed.
#[global] Instance kinds_same_socks : subrelation kinds same_socks.
Proof. by intros w w' []. Qed.
#[global] Instance frame_same_socks : subrelation frame same_socks.
Proof. intros w w' Hf. apply kinds_same_socks. by apply frame_kinds. Qed.

Section Retry.
Context `{Os} `{Fuel} `{Inet6} `{Rand}.

Lemma same_initializeListenNotify id salt url a :
  Preserves same_socks (initializeListenNotify id salt url a).
Proof.
  assert (Hc : Preserves same_socks (initializeConnect url a None false))
    by (apply (preserves_sub kinds same_socks), kinds_initializeConnect).
  unfold initializeListenNotify. repeat first
    [ preserve_step ltac:(by split)
    | apply (preserves_sub frame same_socks); solve [auto with preserves typeclass_instances] ].
Qed.

(** The configuration with another state of the listener. *)
Definition with_rl (s : option addr) (retries last : Z) (w : world) : world :=
  match bridge (w_conf w) with
  | Some bm =>
      let bm' := mkBridgeMode (bm_port bm) (bm_rlId bm) (bm_rlUrl bm) (bm_rlPass bm) (bm_useMdns bm)
        (connectAuthLevel bm) (requireQueryAuth bm) (requireRLAuth bm) (set_rl s retries last (context bm)) in
      let c := w_conf w in
      set_conf (mkConfig (mode c) (Some bm') (rl c) (listen c) (connect c) (query c)) w
  | None => w
  end.

(** One attempt to connect. *)
Definition rl_attempt (bm : bridgeMode) : M (option addr) :=
  a ← createTcpSocket;
  _ ← hn_sockInit a SOCK_MODE_LISTEN_OUT false;
  ok ← initializeListenNotify (bm_rlId bm) (bm_rlPass bm) (bm_rlUrl bm) a;
  if negb ok then
    upd_context (fun cx => set_rl (rlSock cx) (wrap32 (rlRetries cx + 1)) (rlLastRetry cx) cx);;
    ret None
  else
    upd_context (fun cx => set_rl (Some a) 0 (rlLastRetry cx) cx);;
    ret (Some a).

(** The state of the listener after an attempt that came to an end. *)
Definition rl_outcome (r : option addr) (a : addr) (retries : Z) (cx : BridgeContext) : Prop :=
  (r = Some a /\ rlSock cx = Some a /\ rlRetries cx = 0) \/
  (r = None /\ rlSock cx = None /\ rlRetries cx = wrap32 (retries + 1)).

Lemma rl_attempt_inv bm0 bm w r w' :
  bridge (w_conf w) = Some bm -> rlSock (context bm) = None -> rl_attempt bm0 w = Ok (r, w') ->
  exists bm', bridge (w_conf w') = Some bm' /\ rlLastRetry (context bm') = rlLastRetry (context bm) /\
    rl_outcome r (w_next w) (rlRetries (context bm)) (context bm') /\
    w_sockList w' = w_sockList w /\ is_Some (w_socks w' !! w_next w).
Proof.
  intros Hbm Hrl E. unfold rl_attempt in E.
  apply M_bind_inv in E as (a & w1 & E1 & E). injection E1 as <- <-.
  apply M_bind_inv in E as (h & w2 & E2 & E). unfold hn_sockInit in E2.
  apply M_bind_inv in E2 as (h' & w3 & E3 & E2). injection E3 as <- <-.
  apply M_bind_inv in E2 as (u & w4 & E4 & E2). injection E2 as _ <-.
  unfold upd_sock in E4. cbn in E4. rewrite lookup_insert_eq in E4. injection E4 as _ <-.
  apply M_bind_inv in E as (ok & w5 & E5 & E).
  apply same_initializeListenNotify in E5 as [Hc Hl Hs]. cbn in Hc, Hl.
  specialize (Hs (w_next w)). cbn in Hs. rewrite lookup_insert_eq in Hs. cbn in Hs.
  assert (Hsome : is_Some (w_socks w5 !! w_next w)) by (destruct (w_socks w5 !! w_next w); [by eexists|done]).
  assert (Hb5 : bridge (w_conf w5) = Some bm) by by rewrite Hc.
  destruct ok; cbn [negb] in E; unfold upd_context in E; revert E; run; rewrite Hb5;
    intros [= <- <-]; (eexists; split; [done|]; cbn; split; [done|]).
  - by split; [left|].
  - split; [right|done]. by rewrite Hrl.
Qed.

(** C21: A bridge without its connection to the remote bridge keeps trying. Before
    the time getNextRetry gives, tryRLStart only reads the clock. Once half an
    hour has passed since the last attempt, however many failed before, the
    next call makes an attempt; when the attempt comes to an end, the listener
    is either up and the count of failures reset, or the count has gone up by
    one (as an int) and the time of the attempt is taken down, so that the
    argument repeats. The socket of a failed attempt stays allocated. *)
Theorem tryRLStart_retries w bm :
  bridge (w_conf w) = Some bm -> rlSock (context bm) = None -> bm_rlUrl bm <> [] ->
  let cx := context bm in
  (clock w < getNextRetry (rlRetries cx) (rlLastRetry cx) -> tryRLStart w = Ok (None, timed (timed w))) /\
  (rlLastRetry cx + 1800 <= clock w ->
     let w1 := with_rl None (rlRetries cx) (clock (timed w)) (timed (timed w)) in
     tryRLStart w = rl_attempt bm w1 /\
     forall r w', tryRLStart w = Ok (r, w') ->
       exists bm', bridge (w_conf w') = Some bm' /\ rlLastRetry (context bm') = clock (timed w) /\
         rl_outcome r (w_next w) (rlRetries cx) (context bm') /\
         w_sockList w' = w_sockList w /\ is_Some (w_socks w' !! w_next w)).
Proof.
  intros Hbm Hrl Hurl cx. assert (Hlen : str_len (bm_rlUrl bm) <> 0).
  { unfold str_len. intros E. apply Hurl, zlen_nil_inv. lia. }
  assert (Hctx : forall v, w_conf v = w_conf w -> get_context v = Ok (cx, v)).
  { intros v Ev. unfold get_context. run. by rewrite Ev, Hbm. }
  assert (Estart : tryRLStart w =
    (if bool_decide (clock w < getNextRetry (rlRetries cx) (rlLastRetry cx)) then _ ← sys_time; ret None
     else t ← sys_time; upd_context (fun cx => set_rl (rlSock cx) (rlRetries cx) t cx);; rl_attempt bm)
    (timed w)).
  { unfold tryRLStart. rewrite (M_bind_ok _ _ w (w_conf w) w) by done.
    rewrite (M_bind_ok _ _ w bm w) by (unfold deref_M; rewrite Hbm; done).
    rewrite (M_bind_ok _ _ w cx w) by by apply Hctx.
    assert (Hrl' : rlSock cx = None) by done. rewrite Hrl', bool_decide_true by done.
    by rewrite (M_bind_ok _ _ w (clock w) (timed w)). }
  split.
  - intros Hnow. rewrite Estart, bool_decide_true by done. done.
  - intros Hnow w1. assert (Eatt : tryRLStart w = rl_attempt bm w1).
    { rewrite Estart. pose proof (getNextRetry_cases (rlRetries cx) (rlLastRetry cx)) as Hg.
      rewrite bool_decide_false by (revert Hg; bool_cases; lia).
      rewrite (M_bind_ok _ _ (timed w) (clock (timed w)) (timed (timed w))) by done.
      rewrite (M_bind_ok _ _ (timed (timed w)) tt w1); [done|].
      unfold upd_context, w1, with_rl. run. cbn. by rewrite Hbm, Hrl. }
    split; [done|]. intros r w' E. rewrite Eatt in E.
    assert (Hw1 : w_next w1 = w_next w /\ w_sockList w1 = w_sockList w /\
      exists bm1, bridge (w_conf w1) = Some bm1 /\
      context bm1 = set_rl None (rlRetries cx) (clock (timed w)) cx).
    { unfold w1, with_rl. cbn. rewrite Hbm. split; [done|]. split; [done|]. by eexists. }
    destruct Hw1 as (En & El & bm1 & Eb & Ec).
    destruct (rl_attempt_inv bm bm1 w1 r w' Eb) as (bm' & Hb' & Hl' & Ho & Hs & Hx); [by rewrite Ec|done|].
    rewrite Ec in Hl', Ho. rewrite En in *. rewrite El in Hs.
    exists bm'. done.
Qed.

End Retry.

(** A system without a resolver: the attempt fails. *)
Definition retry_rand : Rand := fun _ _ => 0.
Definition retry_inet6 : Inet6 := fun _ => false.
Definition retry_bm : bridgeMode :=
  mkBridgeMode 80 $"id" $"far.example" [] 0 0 0 0
    (mkBridgeContext [] [] map_init map_init map_init map_init 0 0 None 7 (-2000) 0).
Definition retry_world : world :=
  demo_world ∅ ∅ (mkConfig HN_MODE_BRIDGE (Some retry_bm) None None None None) [].
Lemma tryRLStart_retries_witness :
  let cx := context retry_bm in
  let os := demo_os 100 [] in
  exists w', @tryRLStart os 1%nat retry_inet6 retry_rand retry_world = Ok (None, w') /\
  (@clock os retry_world < getNextRetry 7 (-2000) ->
     @tryRLStart os 1%nat retry_inet6 retry_rand retry_world
     = Ok (None, @timed os (@timed os retry_world))) /\
  (-2000 + 1800 <= @clock os retry_world ->
     let w1 := with_rl None 7 (@clock os (@timed os retry_world)) (@timed os (@timed os retry_world)) in
     @tryRLStart os 1%nat retry_inet6 retry_rand retry_world
       = @rl_attempt os 1%nat retry_inet6 retry_rand retry_bm w1 /\
     forall r w', @tryRLStart os 1%nat retry_inet6 retry_rand retry_world = Ok (r, w') ->
       exists bm', bridge (w_conf w') = Some bm' /\
         rlLastRetry (context bm') = @clock os (@timed os retry_world) /\
         rl_outcome r 100%positive 7 (context bm') /\
         w_sockList w' = mkList [] 0 /\ is_Some (w_socks w' !! 100%positive)).
Proof.
  intros cx os. eexists. split; [vm_compute; reflexivity|].
  apply (@tryRLStart_retries os 1%nat retry_inet6 retry_rand retry_world retry_bm); [done|done|discriminate].
Defined.

(** ** An idle bridge *)

(** Nothing happens: select() times out on every call. *)
Definition silent `{Os} : Prop := forall l r w, (os_select l r w).1.1 = 0.

Section Idle.
Context `{Os} `{Fuel} `{Inet6} `{Rand} `{Environment} `{FloatText}.

(** Between two rounds: every watched socket is open, no event is left. *)
Record resting (l : list addr) (w : world) : Prop := {
  re_list : lstart (w_sockList w) = l;
  re_open : Forall (open_sock w) l;
  re_removed : sockToRemove (w_wait w) = None;
  re_events : fdsToProcess (w_wait w) = 0 }.

Lemma loop_round_silent b w l : silent -> (0 < fuel)%nat -> l <> [] -> resting l w ->
  exists st, let w' := set_wait st (set_log (EvSelect 0 :: w_log w) w) in
    loop_round b w = Ok (true, w') /\ resting l w'.
Proof.
  intros Hq Hf Hl [E Ho Hr Hz]. unfold loop_round. destruct fuel as [|k]; [lia|].
  pose (w0 := if b then set_wait (mkWait (readSet (w_wait w)) (writeSet (w_wait w)) 0 None) w else w).
  assert (E0 : when b (modify (fun w =>
    set_wait (mkWait (readSet (w_wait w)) (writeSet (w_wait w)) 0 None) w)) w = Ok (tt, w0)) by by destruct b.
  assert (P0 : lstart (w_sockList w0) = l /\ Forall (open_sock w0) l /\ sockToRemove (w_wait w0) = None /\
    fdsToProcess (w_wait w0) = 0 /\ w_log w0 = w_log w) by by destruct b.
  destruct P0 as (E1 & Ho1 & Hr1 & Hz1 & El1). cbn [waitForEvent].
  pose proof (collect_fds_open l [] [] [] w0 Ho1) as Ec. rewrite app_nil_r in Ec.
  pose proof (Hq (w_log w0) (rev (fds w0 (wants_read w0) l) ++ []) (rev (fds w0 (wants_write w0) l) ++ [])) as Hs.
  destruct (os_select (w_log w0) _ _) as [[n r] wr] eqn:Es. cbn in Hs. subst n.
  exists (mkWait r wr 0 None). split.
  - unfold mbind at 1, M_bind at 1. rewrite (M_bind_ok _ _ w tt w0 E0).
    rewrite (M_bind_ok _ _ w0 tt w0) by by apply remove_closed_none. run. rewrite Hz1. rewrite (bool_decide_false (0 <> 0)) by (intros []; done).
    rewrite (list_socks_ok w0 l) by done. rewrite Ec. cbn [collect_fds]. run. rewrite Es.
    unfold set_wait_sets. run. cbn [w_wait set_wait set_log]. rewrite bool_decide_true by done. cbn.
    rewrite Hr1. by destruct b.
  - by split.
Qed.

(** C39: However long nothing arrives, and whatever the clock says: the rounds of
    an idle event loop consist of one select() each and change nothing but its
    result. The listener at the remote bridge is not pinged, a lost one is not
    connected again, and the records of multicast DNS are not refreshed, for
    the loop goes on to the next round before houseKeeping. *)
Theorem idle_loop_stalls n b w l : silent -> (0 < fuel)%nat -> l <> [] -> resting l w ->
  exists st, hn_loop n b w
    = Ok (tt, set_wait st (set_log (replicate n (EvSelect 0) ++ w_log w) w)).
Proof.
  intros Hq Hf Hl. revert b w. induction n as [|n IH]; intros b w Hr.
  - exists (w_wait w). cbn. by destruct w.
  - destruct (loop_round_silent b w l Hq Hf Hl Hr) as (st & E & Hr'). cbn [hn_loop].
    unfold mbind, M_bind. rewrite E. destruct (IH false _ Hr') as [st' ->]. exists st'.
    assert (El : forall l', replicate n (EvSelect 0) ++ EvSelect 0 :: l' = EvSelect 0 :: replicate n (EvSelect 0) ++ l').
    { intros l'. clear. induction n as [|n IH]; cbn; [done|]. by rewrite IH. }
    cbn. by rewrite El.
Qed.
End Idle.

(** A bridge that lost its listener an hour ago: no round brings it back. *)
Definition silent_os : Os := demo_select 0 [] [].
Definition lost_world : world :=
  demo_world {[ 1%positive := set_isServer true (demo_sock 7 false (buffer_init [] 0)) ]} ∅
    (mkConfig HN_MODE_BRIDGE (Some retry_bm) None None None None) [1%positive].
Lemma idle_loop_stalls_witness :
  exists st, @hn_loop silent_os 1%nat retry_inet6 retry_rand (fun _ => None) (Build_FloatText (fun _ => []) (fun _ => None))
      10 true lost_world
    = Ok (tt, set_wait st (set_log (replicate 10 (EvSelect 0) ++ []) lost_world)).
Proof.
  apply (@idle_loop_stalls silent_os 1%nat retry_inet6 retry_rand _ _ 10 true lost_world [1%positive]);
    [by intros l r w|exact Nat.lt_0_1|done|]. split; [done| |done|done]. repeat constructor. by eexists.
Defined.
