(* ===== verification/Listeners.v ===== *)
(** * Two listeners under one id

    A LISTEN_NOTIFY for an id that is in use replaces the entry of the earlier
    listener in the table, but leaves that listener, and the sockets that wait
    for it, as they are. *)
From S2P Require Import Prelude CString Dns Str Containers Buffer IpAddr Auth ConfigFile.
From S2P Require Import Config Http Os Socket WaitLoop Store Protocol Handshake Mdns Bridge.

(** [h] is the hn_Socket of the socket [a], in the given mode. *)
Definition owns (w : world) (a h : addr) (hs : hn_Socket) : Prop :=
  ptr <$> w_socks w !! a = Some (Some h) /\ w_hsocks w !! h = Some hs.

Lemma owns_close w a h hs : owns w a h hs ->
  handleClose a w =
  (let ctx := bool_decide (mode (w_conf w) = HN_MODE_BRIDGE) in
   (if bool_decide (hn_mode hs = SOCK_MODE_RELAY \/ hn_mode hs = SOCK_MODE_LISTEN)
    then hn_sockCleanup h ctx
    else if bool_decide (hn_mode hs = SOCK_MODE_LISTEN_OUT) then
      if ctx then upd_context (fun cx => set_rl None 0 (rlLastRetry cx) cx) else fail ExitCalled
    else if bool_decide (hn_mode hs = SOCK_MODE_MDNS) then fail ExitCalled
    else ret tt);;
   ret 1) w.
Proof.
  intros [Ha Hh]. destruct (w_socks w !! a) as [s|] eqn:E; [|done]. injection Ha as Hp.
  unfold handleClose, get_sock, get_hn. run. by rewrite E, Hp, Hh.
Qed.

(** A client that waits closes: it is removed from the listener of the table. *)
Lemma waiting_client_close w bm c hc hsc id otp h2 hs2 :
  mode (w_conf w) = HN_MODE_BRIDGE -> bridge (w_conf w) = Some bm ->
  owns w c hc hsc -> hn_mode hsc = SOCK_MODE_RELAY -> next (relay hsc) = None ->
  isWaiting (relay hsc) = true -> relay_listenId (relay hsc) = id -> Os.otp (relay hsc) = otp ->
  map_get (listeningSocks (context bm)) id = Some h2 -> w_hsocks w !! h2 = Some hs2 ->
  hn_mode hs2 = SOCK_MODE_LISTEN -> h2 <> hc ->
  handleClose c w = Ok (1, set_hsocks (delete hc (<[h2 := set_waiting
    (map_del (waitingSocks (listen_ hs2)) otp false).1.2 hs2]> (w_hsocks w))) w).
Proof.
  intros Hm Hbm Ho Hr Hn Hw Hid Hotp Hl Hh2 Hm2 Hne. rewrite (owns_close _ _ _ _ Ho). cbv zeta.
  rewrite Hm, (bool_decide_true (HN_MODE_BRIDGE = _)), bool_decide_true by (done || by left).
  destruct Ho as [_ Hhc]. unfold hn_sockCleanup, get_hn. run. rewrite Hhc.
  rewrite bool_decide_true by done. rewrite Hn, Hw, Hid, Hotp. cbn [andb].
  unfold removeWaitingSocket, getListeningSock, get_context, get_hn. run. rewrite Hbm, Hl, Hh2.
  rewrite (bool_decide_false (_ <> _)) by (intros []; done).
  destruct (map_del (waitingSocks (listen_ hs2)) otp false) as [[r m] fr]. cbn [fst snd].
  unfold upd_hn. rewrite Hh2. unfold free_hn. cbn [w_hsocks set_hsocks].
  by rewrite lookup_insert_ne, Hhc by done.
Qed.

(** A client waits at a listener whose id another listener has taken over.
    When the client closes it is looked for at the new listener only; the old
    listener still has it on its list when it closes itself, and uses it after
    free. *)
Theorem listener_replaced_faults w bm c l hc hl h2 hsc hsl hs2 :
  mode (w_conf w) = HN_MODE_BRIDGE -> bridge (w_conf w) = Some bm ->
  owns w c hc hsc -> hn_mode hsc = SOCK_MODE_RELAY -> next (relay hsc) = None ->
  isWaiting (relay hsc) = true ->
  owns w l hl hsl -> hn_mode hsl = SOCK_MODE_LISTEN ->
  start (waitingSocks (listen_ hsl)) = [mkItem (Os.otp (relay hsc)) hc] ->
  map_get (listeningSocks (context bm)) (relay_listenId (relay hsc)) = Some h2 ->
  w_hsocks w !! h2 = Some hs2 -> hn_mode hs2 = SOCK_MODE_LISTEN ->
  hl <> h2 -> hc <> h2 -> hc <> hl ->
  exists w1, handleClose c w = Ok (1, w1) /\ handleClose l w1 = Fail UseAfterFree.
Proof.
  intros Hm Hbm Hoc Hr Hn Hw Hol Hml Hst Hl Hh2 Hm2 Hne1 Hne2 Hne3.
  eexists. split; [by apply (waiting_client_close w bm c hc hsc
    (relay_listenId (relay hsc)) (Os.otp (relay hsc)) h2 hs2)|].
  set (w1 := set_hsocks _ _). assert (Hol1 : owns w1 l hl hsl).
  { destruct Hol as [? ?]. split; [done|]. unfold w1. cbn.
    by rewrite lookup_delete_ne, lookup_insert_ne. }
  rewrite (owns_close _ _ _ _ Hol1). cbv zeta. rewrite bool_decide_true by by right.
  destruct Hol1 as [_ Hh]. unfold hn_sockCleanup, get_hn. run. rewrite Hh, Hml.
  rewrite bool_decide_false, bool_decide_true by done. rewrite Hst. cbn [done_waiting value].
  unfold get_hn. run. unfold w1. cbn [w_hsocks set_hsocks]. by rewrite lookup_delete_eq.
Qed.

(** The id "cam" at addresses 4 (old, with the client of 1) and 6 (new). *)
Definition replaced_hn (s : addr) (m : Z) (r : relay_t) (ws : Map addr) : hn_Socket :=
  mkHnSocket s m true [] r (mkListenNotif [] $"cam" ws).
Definition replaced_bm : bridgeMode :=
  mkBridgeMode 80 [] [] [] 0 0 0 0
    (mkBridgeContext [] [] map_init map_init (mkMap [mkItem $"cam" 6%positive] 1) map_init 0 0 None 0 0 0).
Definition replaced_client : hn_Socket :=
  replaced_hn 1 SOCK_MODE_RELAY (mkRelay None true $"code" $"cam") map_init.
Definition replaced_old : hn_Socket :=
  replaced_hn 3 SOCK_MODE_LISTEN (mkRelay None false [] []) (mkMap [mkItem $"code" 2%positive] 1).
Definition replaced_new : hn_Socket :=
  replaced_hn 5 SOCK_MODE_LISTEN (mkRelay None false [] []) map_init.
Definition replaced_world : world :=
  demo_world (<[1%positive := set_ptr (Some 2%positive) (sock_init TCPSOCKET 7)]>
     {[ 3%positive := set_ptr (Some 4%positive) (sock_init TCPSOCKET 8) ]})
    (<[2%positive := replaced_client]> (<[4%positive := replaced_old]> {[ 6%positive := replaced_new ]}))
    (mkConfig HN_MODE_BRIDGE (Some replaced_bm) None None None None) [].
Lemma listener_replaced_faults_witness :
  exists w1, handleClose 1 replaced_world = Ok (1, w1) /\ handleClose 3 w1 = Fail UseAfterFree.
Proof.
  apply (listener_replaced_faults replaced_world replaced_bm 1 3 2 4 6 replaced_client replaced_old replaced_new);
    first [done | by split | discriminate].
Defined.
