(* ===== verification/Start.v ===== *)
(** * Starting in a mode (src/homeNet.c, lines 94-115, 772-972)

    The entry points of the five modes. The event loop is run for a given
    number of rounds; console input is a parameter. *)
From S2P Require Import Prelude CString Dns Str Containers Buffer IpAddr Auth ConfigFile.
From S2P Require Import Config Os Socket WaitLoop Store Protocol Handshake Mdns Bridge.

(** What the console delivers before the end of the input. *)
Class Console := stdin : list char.

Definition EOF_char : char := chr 255.

(** The bytes stored from [buff] on: up to Ctrl-X, escape, the end of the input
    (stored as a byte, too) or [max] characters. *)
Fixpoint textInput_loop (input : list char) (read max : Z) (acc : mem) : mem :=
  match input with
  | [] => acc ++ [EOF_char]
  | c :: r =>
      if bool_decide (c = EOF_char \/ read >= max) then acc ++ [c]
      else if bool_decide (c = chr 24 \/ c = chr 27) then acc ++ [nul]
      else textInput_loop r (read + 1) max (acc ++ [c])
  end.

(** [cap] is the size of the zeroed object [buff]. *)
Definition textInput `{Console} (cap max : Z) : outcome cstr :=
  let d := textInput_loop stdin 0 max [] in
  buf_view cap d.

Definition bridge_suffix : cstr := $".bridge.hn.local".

Section Start.
Context `{Os} `{Fuel} `{Inet6} `{Rand} `{Environment} `{FloatText} `{Console}.
Context (rounds : nat).

Definition set_name_port (name : cstr) (port : Z) : M unit :=
  c ← get w_conf;
  bm ← deref_M (bridge c);
  let cx := context bm in
  let cx := mkBridgeContext (masterKey cx) name (queryKeys cx) (listenKeys cx)
              (listeningSocks cx) (mdnsStore cx) (mdnsLastRefresh cx) (lastMdnsBroadcast cx)
              (rlSock cx) (rlRetries cx) (rlLastRetry cx) (rlLastPing cx) in
  let bm := mkBridgeMode port (bm_rlId bm) (bm_rlUrl bm) (bm_rlPass bm) (bm_useMdns bm)
              (connectAuthLevel bm) (requireQueryAuth bm) (requireRLAuth bm) cx in
  modify (set_conf (mkConfig (mode c) (Some bm) (rl c) (listen c) (connect c) (query c))).

(** The name the bridge runs under; [name[100]]. *)
Definition bridge_name (name : cstr) : M cstr :=
  if bool_decide (str_len name <= 0) then
    randName ← gen_code 11 8;
    lift (strcpy 100 (randName ++ bridge_suffix))
  else
    l ← get w_log;
    ends ← lift (str_endswith (os_below l) name bridge_suffix);
    if ends : bool then ret name else lift (strcpy 100 (name ++ bridge_suffix)).

(** The server socket, watched, and the port it got. *)
Definition start_server (port : Z) : M (option (addr * Z)) :=
  s ← createTcpServer port;
  match s with
  | None => ret None
  | Some s =>
      a ← new_sock s;
      _ ← sock_setNonBlocking a;
      ip ← sock_getMyIpAddr a;
      watch a;;
      ret (Some (a, ipAddr_getPort ip))
  end.

(** The listener at the other bridge: [false] ends the program. *)
Definition start_bridge_rl (rlUrl : cstr) : M bool :=
  rlSock ← tryRLStart;
  match rlSock with
  | Some a => _ ← sock_setNonBlocking a; watch a;; ret true
  | None => ret (bool_decide (str_len rlUrl = 0))
  end.

Definition start_bridge_mdns : M bool :=
  s ← mdns_start;
  match s with
  | None => ret false
  | Some s =>
      a ← new_sock s;
      _ ← sendMdnsQuery $"bridge.hn.local";
      _ ← hn_sockInit a SOCK_MODE_MDNS true;
      _ ← sock_setNonBlocking a;
      watch a;;
      ret true
  end.

Definition start_bridge : M bool :=
  modify (set_sockList list_init);;
  c ← get w_conf;
  bm ← deref_M (bridge c);
  name ← bridge_name (cx_name (context bm));
  set_name_port name (bm_port bm);;
  ok ← (if bool_decide (bm_port bm >= 0) then
          r ← start_server (bm_port bm);
          match r with
          | None => ret false
          | Some (_, port) => set_name_port name port;; ret true
          end
        else ret true);
  if negb ok then ret false
  else
    ok ← start_bridge_rl (bm_rlUrl bm);
    if negb ok then ret false
    else
      ok ← (if bool_decide (bm_useMdns bm <> 0) then start_bridge_mdns else ret true);
      if negb ok then ret false
      else hn_loop rounds true;; ret true.

(** Printing what the peer sends until it stops. *)
Fixpoint print_loop (k : nat) (a : addr) (read : Z) (d : mem) : M unit :=
  match k with
  | O => fail NoFuel
  | S k' =>
      if bool_decide (read > 0) then
        _ ← lift (buf_view BUFF_SIZE d);
        '(read, d) ← sock_read a BUFF_SIZE;
        print_loop k' a read d
      else ret tt
  end.

Definition start_connect : M bool :=
  c ← get w_conf;
  cm ← deref_M (connect c);
  if bool_decide (str_len (cm_connectUrl cm) > 1) then
    a ← createTcpSocket;
    _ ← hn_sockInit a SOCK_MODE_RELAY false;
    r ← initializeConnect (cm_connectUrl cm) a None false;
    if bool_decide (r <> 1) then free_sock a;; ret false
    else
      buff ← lift (if bool_decide (str_len (payload cm) <= 0) then textInput BUFF_SIZE BUFF_SIZE
                   else Ok (payload cm));
      buff ← lift (via str_unEscape buff);
      _ ← sock_write a buff;
      '(read, d) ← sock_read a BUFF_SIZE;
      print_loop fuel a read d;;
      sock_destroy a false;;
      ret true
  else ret false.

Definition start_listen : M bool :=
  c ← get w_conf;
  lm ← deref_M (listen c);
  if bool_decide (str_len (lm_connectUrl lm) < 1) then ret false
  else
    let port := if bool_decide (lm_port lm < 0) then 0 else lm_port lm in
    modify (set_conf (mkConfig (mode c) (bridge c) (rl c)
      (Some (mkListenMode port (lm_connectUrl lm))) (connect c) (query c)));;
    modify (set_sockList list_init);;
    s ← createTcpServer port;
    match s with
    | None => ret false
    | Some s =>
        a ← new_sock s;
        _ ← sock_setNonBlocking a;
        watch a;;
        hn_loop rounds true;;
        ret true
    end.

Definition start_reverseListen : M bool :=
  modify (set_sockList list_init);;
  c ← get w_conf;
  rlm ← deref_M (rl c);
  if bool_decide (str_len (rlm_rlUrl rlm) = 0 /\ str_len (localIp rlm) = 0) then ret false
  else
    a ← createTcpSocket;
    _ ← hn_sockInit a SOCK_MODE_LISTEN_OUT false;
    ok ← initializeListenNotify (rlm_rlId rlm) (rlm_rlPass rlm) (rlm_rlUrl rlm) a;
    if negb ok then ret false
    else
      _ ← sock_setNonBlocking a;
      watch a;;
      hn_loop rounds true;;
      ret true.

(** [Map recs[10]], [char pass[60]]. *)
Definition start_query : M bool :=
  c ← get w_conf;
  qm ← deref_M (query c);
  if bool_decide (str_len (qm_name qm) < 1 \/ str_len (bridgeUrl qm) < 1) then ret false
  else
    a ← createTcpSocket;
    pass ← lift (if bool_decide (str_len (qm_key qm) > 1 /\ str_len (qm_salt qm) > 1)
                 then strcpy 60 (qm_key qm ++ $":" ++ qm_salt qm) else Ok []);
    _ ← initializeQuery 10 (qm_name qm) (bridgeUrl qm) pass a;
    sock_destroy a false;;
    ret true.

Definition hn_start : M bool :=
  c ← get w_conf;
  if bool_decide (mode c = HN_MODE_CONNECT) then start_connect
  else if bool_decide (mode c = HN_MODE_BRIDGE) then start_bridge
  else if bool_decide (mode c = HN_MODE_LISTEN) then start_listen
  else if bool_decide (mode c = HN_MODE_REVERSE_LISTEN) then start_reverseListen
  else if bool_decide (mode c = HN_MODE_QUERY) then start_query
  else ret false.
End Start.
