(* ===== verification/Main.v ===== *)
(** * The program (src/main.c) and the invariant from its start

    [main] reads the configuration and starts the mode it names. The theorem
    takes the invariants of the event loop back to the command line: they hold
    when a run begins, in every mode, so no state of the heap or the
    configuration has to be assumed. *)
From S2P Require Import Prelude CString Dns Str Containers Buffer IpAddr Auth ConfigFile.
From S2P Require Import Config Http Os Socket WaitLoop Store StoreFacts Protocol Handshake Mdns Bridge Start.
From S2P Require Import Frame Evolve Connect Invariant Listening.

Section Program.
Context `{Os} `{Fuel} `{Inet6} `{Rand} `{Environment} `{FileSystem} `{FloatText} `{Console}.

(** [rounds] bounds the event loop. *)
Definition main (rounds : nat) (argv : list cstr) : M Z :=
  '(r, conf) ← lift (confInit argv);
  if bool_decide (r <= 0) then ret 1
  else
    modify (set_conf conf);;
    ok ← hn_start rounds;
    if negb ok then ret 1 else ret 0.
End Program.

(** ** What the start keeps *)

(** Who may do what, as configured; the start sets the name and the port. *)
Definition bridge_secrets (bm : bridgeMode) :=
  (bm_rlId bm, bm_rlUrl bm, bm_rlPass bm, connectAuthLevel bm, requireQueryAuth bm, requireRLAuth bm,
   masterKey (context bm), queryKeys (context bm), listenKeys (context bm)).
Definition secrets (c : hn_Config) := (mode c, bridge_secrets <$> bridge c).

Lemma policy_secrets c c' : policy c' = policy c -> secrets c' = secrets c.
Proof.
  intros Hp. injection Hp as Hm Hb _ _ _ _. unfold secrets. rewrite Hm. f_equal.
  destruct (bridge c') as [b'|], (bridge c) as [b|]; try done. cbn in *. injection Hb. intros.
  f_equal. unfold bridge_secrets, context_policy in *. congruence.
Qed.

(** A run that keeps the invariant and the secrets. *)
Class Boots {A} (m : M A) : Prop := boots w r w' :
  m w = Ok (r, w') -> good w -> good w' /\ secrets (w_conf w') = secrets (w_conf w).

Section Rules.
Context {A B : Type}.
Lemma boots_bind (m : M A) (f : A -> M B) : Boots m -> (forall a, Boots (f a)) -> Boots (m ≫= f).
Proof.
  intros Hm Hf w b w' (a & w1 & E1 & E2)%M_bind_inv Hg.
  destruct (Hm _ _ _ E1 Hg) as [Hg1 S1]. destruct (Hf a _ _ _ E2 Hg1) as [Hg2 S2].
  split; [done|congruence].
Qed.
Lemma boots_ret (a : A) : Boots (ret a).
Proof. by intros w b w' [= <- <-]. Qed.
Lemma boots_settles (m : M A) : Settles [] m none -> Inv m any -> Boots m.
Proof.
  intros Hs Hi w a w' E Hg. destruct (Hs _ _ _ E Hg (Forall_nil_2 _)) as [Hg' _]. split; [done|].
  destruct (Hi _ _ _ E (good_wf _ Hg)) as ([Hp _] & _). by apply policy_secrets.
Qed.
Lemma boots_quiet (m : M A) U : Quiet [] m U -> Inv m any -> Boots m.
Proof.
  intros Hq. apply boots_settles. eapply settles_weaken; [by apply quiet_settles|done|].
  by intros a t ?%elem_of_nil.
Qed.
End Rules.

(** A socket object on its way to the heap points to nothing. *)
Definition unlinked (r : option Socket) : Prop := forall s, r = Some s -> ptr s = None.
Lemma quiet_open {B} (m : M (option Socket)) (f : option Socket -> M B) V :
  Preserves calm m -> Inv m unlinked -> (forall r, unlinked r -> Quiet [] (f r) V) -> Quiet [] (m ≫= f) V.
Proof.
  intros Hc Hi Hf w b w' (r & w1 & E1 & E2)%M_bind_inv Hg HT.
  destruct (Hi _ _ _ E1 (good_wf _ Hg)) as (_ & Hw1 & Hr). assert (C1 : calm w w1) by by apply (Hc _ _ _ E1).
  destruct (Hf r Hr _ _ _ E2) as (Hg2 & C2 & HV); [|done|].
  - split; [done|]. eapply calm_ok; [done|apply Hg].
  - split; [done|]. by split; [etrans|].
Qed.
Lemma quiet_placed {B} (s : Socket) (f : addr -> M B) V :
  ptr s = None -> (forall a, Quiet [TSock a] (f a) V) -> Quiet [] (a ← new_sock s; f a) V.
Proof. intros Hs Hf. eapply quiet_bind; [by apply quiet_new_sock|intros a]. apply Hf. Qed.

Lemma boots_open {B} (m : M (option Socket)) (f : option Socket -> M B) :
  Preserves calm m -> Inv m unlinked -> (forall r, unlinked r -> Boots (f r)) -> Boots (m ≫= f).
Proof.
  intros Hc Hi Hf w b w' (r & w1 & E1 & E2)%M_bind_inv Hg.
  destruct (Hi _ _ _ E1 (good_wf _ Hg)) as ([Hp _] & Hw1 & Hr). assert (C1 : calm w w1) by by apply (Hc _ _ _ E1).
  destruct (Hf r Hr _ _ _ E2) as (Hg2 & S2); [split; [done|]; eapply calm_ok; [done|apply Hg]|].
  split; [done|]. rewrite S2. by apply policy_secrets.
Qed.
Lemma boots_new_sock s : ptr s = None -> Boots (new_sock s).
Proof.
  intros Hs. eapply boots_quiet; [by apply quiet_new_sock|]. apply inv_new_sock.
Qed.

Section Modes.
Context `{Os} `{Fuel} `{Inet6} `{Rand} `{Environment} `{FloatText} `{Console}.
#[local] Hint Resolve evolves_authSolve evolves_sys_write evolves_sys_recv : preserves.
Context (rounds : nat).

Lemma settles_hn_loop n first : Settles [] (hn_loop n first) none.
Proof.
  revert first. induction n as [|n IH]; intros first; cbn [hn_loop]; [by apply settles_ret|].
  eapply settles_bind; [apply settles_loop_round|intros go]. destruct go; [apply IH|by apply settles_ret].
Qed.
Lemma inv_hn_loop n first : Inv (hn_loop n first) any.
Proof.
  revert first. induction n as [|n IH]; intros first; cbn [hn_loop]; [by apply inv_ret|].
  eapply inv_bind; [apply inv_loop_round|intros go _]. destruct go; [apply IH|by apply inv_ret].
Qed.
Hint Resolve inv_hn_loop inv_mdns_send : inv.

Lemma calm_createTcpServer port : Preserves calm (createTcpServer port).
Proof. unfold createTcpServer, sys_socket, sys_bind. calms. Qed.
Lemma inv_createTcpServer port : Inv (createTcpServer port) unlinked.
Proof. unfold createTcpServer, sys_socket, sys_bind. invs; by intros ? [= <-]. Qed.
Lemma calm_getMyIpAddr a : Preserves calm (sock_getMyIpAddr a).
Proof. unfold sock_getMyIpAddr. calms. Qed.
Lemma inv_getMyIpAddr a : Inv (sock_getMyIpAddr a) any.
Proof. unfold sock_getMyIpAddr. invs. Qed.
Lemma calm_mdns_start : Preserves calm mdns_start.
Proof. unfold mdns_start, sys_socket, sys_bind, sys_setsockopt. calms. Qed.
Lemma inv_mdns_start : Inv mdns_start unlinked.
Proof. unfold mdns_start, sys_socket, sys_bind, sys_setsockopt. invs; by intros ? [= <-]. Qed.
Lemma calm_bridge_name name : Preserves calm (bridge_name name).
Proof. unfold bridge_name. calms. Qed.
Lemma inv_bridge_name name : Inv (bridge_name name) any.
Proof. unfold bridge_name. invs. Qed.
Lemma calm_print_loop k a r d : Preserves calm (print_loop k a r d).
Proof. revert r d. induction k as [|k IH]; intros r d; cbn [print_loop]; calms. Qed.
Lemma inv_print_loop k a r d : Inv (print_loop k a r d) any.
Proof. revert r d. induction k as [|k IH]; intros r d; cbn [print_loop]; invs. Qed.
Lemma calm_query_loop k a r b recs : Preserves calm (query_loop k a r b recs).
Proof. revert r b recs. induction k as [|k IH]; intros r b recs; cbn [query_loop]; calms. Qed.
Lemma inv_query_loop k a r b recs : Inv (query_loop k a r b recs) any.
Proof. revert r b recs. induction k as [|k IH]; intros r b recs; cbn [query_loop]; invs. Qed.
Hint Resolve calm_getMyIpAddr calm_createTcpServer calm_mdns_start calm_bridge_name calm_print_loop calm_query_loop : preserves.
Hint Resolve inv_getMyIpAddr inv_createTcpServer inv_mdns_start inv_bridge_name inv_print_loop inv_query_loop : inv.
Lemma calm_initializeQuery n name url pass a : Preserves calm (initializeQuery n name url pass a).
Proof. unfold initializeQuery. calms. Qed.
Lemma inv_initializeQuery n name url pass a : Inv (initializeQuery n name url pass a) any.
Proof. unfold initializeQuery. invs. Qed.
Hint Resolve calm_initializeQuery : preserves.
Hint Resolve inv_initializeQuery : inv.

(** *** The pieces of the modes *)

(** A write of the configuration that keeps the table. *)
Lemma good_set_conf w c : mode c = mode (w_conf w) ->
  (forall bm', bridge c = Some bm' -> exists bm, bridge (w_conf w) = Some bm /\
     listeningSocks (context bm') = listeningSocks (context bm) /\ mdnsStore (context bm') = mdnsStore (context bm)) ->
  good w -> good (set_conf c w).
Proof.
  intros Hm Ht [[Hh Hhn Hc] Hl]. split; [split; try done|]; cbn.
  - intros bm' Eb. destruct (Ht _ Eb) as (bm & Eb0 & E1 & E2). destruct (Hc _ Eb0) as [].
    split; congruence.
  - intros id h (Hb & bm' & Eb & Hg). cbn in Hb, Eb. destruct (Ht _ Eb) as (bm & Eb0 & E1 & _).
    apply Hl. split; [congruence|]. exists bm. by rewrite <- E1.
Qed.
Lemma boots_set_name_port name port : Boots (set_name_port name port).
Proof.
  intros w u w'. unfold set_name_port. run. destruct (bridge (w_conf w)) as [bm|] eqn:Eb; [|done].
  intros [= _ <-] Hg. split; [|by unfold secrets; cbn; rewrite Eb].
  apply good_set_conf; [done| |done]. intros bm' [= <-]. by exists bm.
Qed.

Lemma quiet_start_server port : Quiet [] (start_server port) none.
Proof.
  unfold start_server. apply quiet_open; [apply calm_createTcpServer|apply inv_createTcpServer|intros [s|] Hs]; [|quiets].
  apply quiet_placed; [by apply Hs|intros a]. quiets.
Qed.
Lemma inv_start_server port : Inv (start_server port) any.
Proof. unfold start_server. invs. Qed.
Lemma quiet_start_bridge_rl url : Quiet [] (start_bridge_rl url) none.
Proof. unfold start_bridge_rl. quiets. Qed.
Lemma inv_start_bridge_rl url : Inv (start_bridge_rl url) any.
Proof. unfold start_bridge_rl. invs. Qed.
Lemma quiet_start_bridge_mdns : Quiet [] start_bridge_mdns none.
Proof.
  unfold start_bridge_mdns. apply quiet_open; [apply calm_mdns_start|apply inv_mdns_start|intros [s|] Hs]; [|quiets].
  apply quiet_placed; [by apply Hs|intros a]. quiets.
Qed.
Lemma inv_start_bridge_mdns : Inv start_bridge_mdns any.
Proof. unfold start_bridge_mdns. invs. Qed.
#[local] Hint Resolve quiet_initializeListenNotify quiet_start_server quiet_start_bridge_rl quiet_start_bridge_mdns : quiet.
#[local] Hint Resolve inv_initializeListenNotify inv_start_server inv_start_bridge_rl inv_start_bridge_mdns : inv.

Lemma boots_loop (b : bool) : Boots (hn_loop rounds true;; ret b).
Proof.
  apply boots_settles; [|invs]. eapply settles_bind; [apply settles_hn_loop|intros ?; by apply settles_ret].
Qed.
Lemma boots_read {A} (m : M A) : (forall w a w', m w = Ok (a, w') -> w' = w) -> Boots m.
Proof. intros Hm w a w' E Hg. by rewrite (Hm _ _ _ E). Qed.
Lemma boots_get {A} (f : world -> A) : Boots (get f).
Proof. apply boots_read. by intros w a w' [= _ <-]. Qed.
Lemma boots_lift {A} (o : outcome A) : Boots (lift o).
Proof. apply boots_read. intros w a w'. unfold lift. destruct o; by intros [= _ <-]. Qed.
Lemma boots_modify f : (forall w, w_socks (f w) = w_socks w /\ w_hsocks (f w) = w_hsocks w /\
    w_next (f w) = w_next w /\ w_conf (f w) = w_conf w /\ w_log (f w) = w_log w) -> Boots (modify f).
Proof. intros Hf. by eapply boots_quiet; [apply quiet_modify|apply inv_modify]. Qed.

Ltac boots_step := match goal with
  | |- Boots (get _ ≫= _) => apply boots_bind; [apply boots_get|intros ?; cbn beta]
  | |- Boots (lift _ ≫= _) => apply boots_bind; [apply boots_lift|intros ?; cbn beta]
  | |- Boots (deref_M _ ≫= _) => apply boots_bind; [apply boots_lift|intros ?; cbn beta]
  | |- Boots (modify _ ≫= _) => apply boots_bind; [apply boots_modify; by intros ?|intros ?; cbn beta]
  | |- Boots (set_name_port _ _ ≫= _) => apply boots_bind; [apply boots_set_name_port|intros ?; cbn beta]
  | |- Boots (match ?x with _ => _ end) => destruct x eqn:?
  | |- Boots (ret _) => apply boots_ret
  | |- Boots (hn_loop _ _ ≫= _) => apply boots_loop
  | |- Boots (_ ≫= _) => apply boots_bind; [solve [eapply boots_quiet; [quiets|invs]]|intros ?; cbn beta]
  | |- Boots (_ ≫= _) => apply boots_bind; [|intros ?; cbn beta]
  | |- Boots (let _ := _ in _) => cbv zeta
  end.

(** *** The five modes *)

Lemma boots_start_bridge : Boots (start_bridge rounds).
Proof. unfold start_bridge. repeat boots_step. Qed.

Lemma boots_start_connect : Boots start_connect.
Proof. eapply boots_quiet; unfold start_connect; [quiets|invs]. Qed.
Lemma boots_start_query : Boots start_query.
Proof. eapply boots_quiet; unfold start_query; [quiets|invs]. Qed.

(** The mode stores the port it listens on, in the configuration it has just read. *)
Lemma boots_start_listen : Boots (start_listen rounds).
Proof.
  intros w r w' E Hg. unfold start_listen in E. apply M_bind_inv in E as (c & w1 & [= <- <-] & E).
  apply M_bind_inv in E as (lm & w1 & E1 & E). unfold deref_M, lift in E1.
  destruct (deref (listen (w_conf w))) as [x|]; [|done]. injection E1 as -> <-.
  case_bool_decide; [by injection E as _ <-|]. cbv zeta in E.
  apply M_bind_inv in E as ([] & w1 & [= <-] & E).
  match type of E with ?m (set_conf ?c w) = _ => assert (B : Boots m); [|destruct (B _ _ _ E) as [Hg' S]] end.
  - boots_step. apply boots_open; [apply calm_createTcpServer|apply inv_createTcpServer|intros [s|] Hs]; [|boots_step].
    apply boots_bind; [by apply boots_new_sock, Hs|intros x]. repeat boots_step.
  - apply good_set_conf; [done| |done]. cbn. intros bm Eb. by exists bm.
  - split; [done|]. by rewrite S.
Qed.
Lemma boots_start_reverseListen : Boots (start_reverseListen rounds).
Proof.
  unfold start_reverseListen. boots_step. boots_step. boots_step. boots_step; [boots_step|].
  apply boots_settles; [|invs]. settle_quiet. settle_quiet. settle_quiet.
  destruct (negb _); [apply settles_ret; tokens|]. settle_quiet. settle_quiet.
  eapply settles_bind; [eapply settles_weaken; [apply settles_hn_loop|tokens|done]|intros ?; by apply settles_ret].
Qed.

Lemma boots_hn_start : Boots (hn_start rounds).
Proof.
  unfold hn_start. boots_step. repeat (destruct (bool_decide _)).
  - apply boots_start_connect.
  - apply boots_start_bridge.
  - apply boots_start_listen.
  - apply boots_start_reverseListen.
  - apply boots_start_query.
  - apply boots_ret.
Qed.
End Modes.

(** ** The configuration it starts from *)

(** The context of a configured bridge is empty. *)
Definition blank (bm : bridgeMode) : Prop :=
  listeningSocks (context bm) = map_init /\ mdnsStore (context bm) = map_init.

Ltac outcomes E := repeat first
  [ apply bind_ok in E as ([[? ?] ?] & _ & E)
  | apply bind_ok in E as ([? ?] & _ & E)
  | apply bind_ok in E as (? & _ & E) ]; cbn beta iota zeta in E.

Section Configured.
Context `{Environment} `{FileSystem}.

Lemma conf_bridge_blank st args file bm st' : conf_bridge st args file = Ok (bm, st') -> blank bm.
Proof. unfold conf_bridge. intros E. outcomes E. by injection E as <- _. Qed.

(** The structure confInit starts with. *)
Definition conf_unset : hn_Config := mkConfig (-1) None None None None None.

Lemma confInit_blank argv c : confInit argv = Ok (1, c) ->
  (forall bm, bridge c = Some bm -> blank bm) /\ (mode c = HN_MODE_BRIDGE -> is_Some (bridge c)) /\
  (mode c = -1 -> c = conf_unset).
Proof.
  unfold confInit. intros E. apply bind_ok in E as ([[args file] st] & _ & E).
  apply bind_ok in E as ([ok c'] & E1 & [= ->]). unfold parseArgs in E1.
  apply bind_ok in E1 as (s & _ & E1). apply bind_ok in E1 as (m & _ & E1).
  case_bool_decide as Hu; [by injection E1 as _ <-|].
  case_bool_decide as Hb.
  - apply bind_ok in E1 as ([bm st'] & Eb & E1). injection E1 as _ <-. cbn.
    split_and!; [intros ? [= <-]; by eapply conf_bridge_blank|by eexists|done].
  - repeat (destruct (bool_decide _)); apply bind_ok in E1 as (x & _ & E1); injection E1 as _ <-; by split_and!.
Qed.

Lemma confInit_one argv z o : confInit argv = Ok (z, o) -> z = 1.
Proof. unfold confInit. intros E. outcomes E. congruence. Qed.
Lemma confInit_unknown argv args file st m : confArgs argv = Ok (args, file, st) ->
  map_get args $"mode" = Some m -> no_nul m -> zlen m < 20 -> mode_of (hd nul (strip (map tolower m))) = -1 ->
  confInit argv = Ok (1, conf_unset).
Proof.
  intros E Hm Hn Hl Hu. unfold confInit. rewrite E. cbn [mbind outcome_bind]. unfold parseArgs.
  rewrite Hm. cbn [default]. unfold str_set. rewrite strcpy_fits by done. cbn [mbind outcome_bind]. rewrite mapMode_ok by done. unfold id. by rewrite Hu.
Qed.
End Configured.

(** An unknown mode: confInit reports success all the same, and it is the
    default branch of hn_start that refuses it. *)
Lemma main_unknown_mode `{Os} `{Fuel} `{Inet6} `{Rand} `{Environment} `{FileSystem} `{FloatText} `{Console}
    rounds argv args file st m w :
  confArgs argv = Ok (args, file, st) -> map_get args $"mode" = Some m -> no_nul m -> zlen m < 20 ->
  mode_of (hd nul (strip (map tolower m))) = -1 ->
  confInit argv = Ok (1, conf_unset) /\ main rounds argv w = Ok (1, set_conf conf_unset w).
Proof.
  intros E Hm Hn Hl Hu. pose proof (confInit_unknown _ _ _ _ _ E Hm Hn Hl Hu) as Ec.
  split; [done|]. unfold main. by rewrite Ec.
Qed.

(** ** The invariant, from the command line *)

Lemma good_fresh w c : w_socks w = ∅ -> w_hsocks w = ∅ ->
  (forall bm, bridge c = Some bm -> blank bm) -> good (set_conf c w).
Proof.
  intros Hs Hh Hb. split; [split|].
  - intros a _. cbn. by rewrite Hs, Hh.
  - cbn. rewrite Hh. by intros a h.
  - intros bm Eb. cbn in Eb. destruct (Hb _ Eb) as [El Em].
    split; rewrite ?El, ?Em; [apply map_init_wf..|constructor].
  - intros id h (_ & bm & Eb & Hg). cbn in Eb. destruct (Hb _ Eb) as [El _]. by rewrite El in Hg.
Qed.

(** C8: However the program is started (any command line, environment and
    configuration file, any mode) and for as many rounds of the event loop as
    it runs without a fault: what it reaches satisfies the invariant of the
    state, every entry of the table of listeners is a live listener under its
    own id, who may do what is still what the configuration said, and in bridge
    mode the lookup of a waiting socket answers what the abstract store holds.
    With a mode it does not know the program returns 1 and has done nothing but
    fill in the configuration. *)
Theorem main_invariant `{Os} `{Fuel} `{Inet6} `{Rand} `{Environment} `{FileSystem} `{FloatText} `{Console}
    rounds argv w r w' :
  w_socks w = ∅ -> w_hsocks w = ∅ -> main rounds argv w = Ok (r, w') ->
  exists c, confInit argv = Ok (1, c) /\ secrets (w_conf w') = secrets c /\ wf w' /\
    (forall id h, entry w' id h -> exists hs, w_hsocks w' !! h = Some hs /\
       hn_mode hs = SOCK_MODE_LISTEN /\ listenId (listen_ hs) = id) /\
    (mode c = HN_MODE_BRIDGE ->
       forall id otp, getWaitingSocket id otp w' = Ok (waiting w' id !! otp, w')) /\
    (mode c = -1 -> r = 1 /\ w' = set_conf c w).
Proof.
  intros Hs Hh E. unfold main in E. apply M_bind_inv in E as ([z c] & w0 & E0 & E). unfold lift in E0.
  destruct (confInit argv) as [[z' c']|] eqn:Ec; [|done]. injection E0 as -> -> <-.
  assert (z = 1) as -> by (revert Ec; apply confInit_one). cbn iota zeta beta in E.
  rewrite bool_decide_false in E by lia. exists c. split; [done|].
  destruct (confInit_blank _ _ Ec) as (Hb & Hm & Hu). apply M_bind_inv in E as ([] & w1 & [= <-] & E).
  apply M_bind_inv in E as (ok & w2 & E2 & E).
  assert (w2 = w' /\ r = if ok then 0 else 1) as [-> ->] by (destruct ok; by injection E as <- ->).
  destruct (boots_hn_start _ _ _ _ E2) as [Hg S]; [by apply good_fresh|]. cbn in S.
  split; [done|]. split; [apply Hg|]. split; [apply Hg|]. split.
  - intros Hmode id otp.
    unfold secrets in S. injection S as Sm Sb. apply getWaitingSocket_ok, good_store; [done|congruence|].
    destruct (Hm Hmode) as [bm Eb]. intros En. by rewrite En, Eb in Sb.
  - intros Hmode. rewrite (Hu Hmode) in *. by injection E2 as <- <-.
Qed.

(** A bridge started from the command line, and a peer that asks to listen. *)
Definition boot_argv : list cstr :=
  [$"homenet"; $"bridge"; $"-p"; $"81"; $"-mdns"; $"false"; $"-name"; $"cherry.bridge.hn.local"].
Definition blank_world : world := demo_world ∅ ∅ demo_conf [].
Definition boot_main : M Z := @main listen_os 3%nat idle_inet6 idle_rand idle_env demo_fs idle_float [] 1 boot_argv.
Definition boot_world : world := match boot_main blank_world with Ok (_, w) => w | Fail _ => blank_world end.
Lemma boot_ok :
  @main listen_os 3%nat idle_inet6 idle_rand idle_env demo_fs idle_float [] 1 boot_argv blank_world = Ok (0, boot_world).
Proof. by vm_compute. Qed.
Lemma main_invariant_witness :
  (exists bm, bridge (w_conf boot_world) = Some bm /\
     map_get (listeningSocks (context bm)) $"aaaaaaaaaa" = Some 102%positive) /\
  exists c, @confInit idle_env demo_fs boot_argv = Ok (1, c) /\ secrets (w_conf boot_world) = secrets c /\ wf boot_world /\
    (forall id h, entry boot_world id h -> exists hs, w_hsocks boot_world !! h = Some hs /\
       hn_mode hs = SOCK_MODE_LISTEN /\ listenId (listen_ hs) = id) /\
    (mode c = HN_MODE_BRIDGE ->
       forall id otp, getWaitingSocket id otp boot_world = Ok (waiting boot_world id !! otp, boot_world)) /\
    (mode c = -1 -> 0 = 1 /\ boot_world = set_conf c blank_world).
Proof.
  split; [eexists; split; [vm_compute; reflexivity|by vm_compute]|].
  apply (@main_invariant listen_os 3%nat idle_inet6 idle_rand idle_env demo_fs idle_float [] 1 boot_argv
    blank_world 0 boot_world); [done|done|exact boot_ok].
Defined.
